(** * The session engine of HAProxy 1.4.21 (deps/haproxy-1.4.21)

    A shallow embedding of the buffer primitives (src/buffers.c), the ACL
    evaluator (src/acl.c), the request analyser loop and the connection
    retry step (src/session.c), the TCP content rules and the RDP cookie
    persistence (src/proto_tcp.c) and the PROXY line decoder (src/client.c),
    with the properties of the specification stated over them.

    C integers are [Z] with their wrap-around written out, flag words are
    [Z] bit masks, pointers into a buffer are offsets from [data], byte
    arrays are [list Z]. *)

From Stdlib Require Import ZArith Lia Bool List String Ascii Sorted.
From stdpp Require Import base list.

#[local] Open Scope Z_scope.
#[local] Unset Default Proof Using.

(* ===================================================================== *)
(** ** Machine integers and flag words *)
(* ===================================================================== *)

Definition u16 (x : Z) : Z := x mod 2^16.
Definition u32 (x : Z) : Z := x mod 2^32.
Definition u64 (x : Z) : Z := x mod 2^64.

(** [f & m] is non zero *)
Definition has (f m : Z) : bool := negb (Z.land f m =? 0).
(** [f |= m] *)
Definition setf (f m : Z) : Z := Z.lor f m.
(** [f &= ~m] *)
Definition clrf (f m : Z) : Z := Z.land f (Z.lnot m).

Definition bit (k : nat) : Z := Z.shiftl 1 (Z.of_nat k).

(* ===================================================================== *)
(** ** Buffers (src/buffers.c) *)
(* ===================================================================== *)

(** Modelled from the spec: the buffer flag word of section 3.  The header
    types/buffers.h that numbers the flags is not among the sources; each
    flag named by the specification gets a bit of its own. *)
Definition BF_READ_PARTIAL : Z := 0x000002.
Definition BF_READ_TIMEOUT : Z := 0x000004.
Definition BF_READ_ERROR   : Z := 0x000008.
Definition BF_FULL         : Z := 0x000010.
Definition BF_SHUTR        : Z := 0x000020.
Definition BF_SHUTR_NOW    : Z := 0x000040.
Definition BF_WRITE_ERROR  : Z := 0x000800.
Definition BF_OUT_EMPTY    : Z := 0x001000.
Definition BF_SHUTW        : Z := 0x002000.
Definition BF_SHUTW_NOW    : Z := 0x004000.
Definition BF_AUTO_CONNECT : Z := 0x800000.

(** [struct buffer]: [r], [w], [lr] are offsets from [data]. *)
Record buffer := mkbuf {
  flags : Z;
  l : Z;
  r : Z;
  w : Z;
  lr : Z;
  size : Z;
  send_max : Z;
  to_forward : Z;
  analysers : Z;
  analyse_exp : Z;
  total : Z;
  data : list Z
}.

Definition set_flags (f : Z) (b : buffer) : buffer :=
  mkbuf f (l b) (r b) (w b) (lr b) (size b) (send_max b) (to_forward b)
        (analysers b) (analyse_exp b) (total b) (data b).
Definition set_l (x : Z) (b : buffer) : buffer :=
  mkbuf (flags b) x (r b) (w b) (lr b) (size b) (send_max b) (to_forward b)
        (analysers b) (analyse_exp b) (total b) (data b).
Definition set_r (x : Z) (b : buffer) : buffer :=
  mkbuf (flags b) (l b) x (w b) (lr b) (size b) (send_max b) (to_forward b)
        (analysers b) (analyse_exp b) (total b) (data b).
Definition set_w (x : Z) (b : buffer) : buffer :=
  mkbuf (flags b) (l b) (r b) x (lr b) (size b) (send_max b) (to_forward b)
        (analysers b) (analyse_exp b) (total b) (data b).
Definition set_lr (x : Z) (b : buffer) : buffer :=
  mkbuf (flags b) (l b) (r b) (w b) x (size b) (send_max b) (to_forward b)
        (analysers b) (analyse_exp b) (total b) (data b).
Definition set_send_max (x : Z) (b : buffer) : buffer :=
  mkbuf (flags b) (l b) (r b) (w b) (lr b) (size b) x (to_forward b)
        (analysers b) (analyse_exp b) (total b) (data b).
Definition set_to_forward (x : Z) (b : buffer) : buffer :=
  mkbuf (flags b) (l b) (r b) (w b) (lr b) (size b) (send_max b) x
        (analysers b) (analyse_exp b) (total b) (data b).
Definition set_analysers (x : Z) (b : buffer) : buffer :=
  mkbuf (flags b) (l b) (r b) (w b) (lr b) (size b) (send_max b) (to_forward b)
        x (analyse_exp b) (total b) (data b).
Definition set_analyse_exp (x : Z) (b : buffer) : buffer :=
  mkbuf (flags b) (l b) (r b) (w b) (lr b) (size b) (send_max b) (to_forward b)
        (analysers b) x (total b) (data b).
Definition set_total (x : Z) (b : buffer) : buffer :=
  mkbuf (flags b) (l b) (r b) (w b) (lr b) (size b) (send_max b) (to_forward b)
        (analysers b) (analyse_exp b) x (data b).
Definition set_data (x : list Z) (b : buffer) : buffer :=
  mkbuf (flags b) (l b) (r b) (w b) (lr b) (size b) (send_max b) (to_forward b)
        (analysers b) (analyse_exp b) (total b) x.

Section Forward.

(** The macros of the missing headers are parameters of the model:
    [buffer_max_len] (the dynamic limit below [size]),
    [BUF_INFINITE_FORWARD] (the "infinite" sentinel, a C constant that is
    converted to the type it is compared with) and [MID_RANGE] (the
    value [to_forward] saturates at). *)
Variable buffer_max_len : buffer -> Z.
Variable BUF_INFINITE_FORWARD : Z.
Variable MID_RANGE : Z.

(** [buffer_forward(buf, bytes)], buffers.c:41.  Returns the number of
    bytes taken into account and the buffer. *)
Definition buffer_forward (buf : buffer) (bytes : Z) : Z * buffer :=
  if bytes =? 0 then (0, buf) else
  let data_left := u32 (l buf - send_max buf) in
  if bytes <=? data_left then
    (bytes,
     set_flags (clrf (flags buf) BF_OUT_EMPTY)
               (set_send_max (u32 (send_max buf + bytes)) buf))
  else
    let buf := set_send_max (u32 (send_max buf + data_left)) buf in
    let buf := if send_max buf =? 0 then buf
               else set_flags (clrf (flags buf) BF_OUT_EMPTY) buf in
    let buf := if l buf <? buffer_max_len buf
               then set_flags (clrf (flags buf) BF_FULL) buf
               else set_flags (setf (flags buf) BF_FULL) buf in
    if bytes =? u64 BUF_INFINITE_FORWARD then
      (bytes, set_to_forward (u32 bytes) buf)
    else if to_forward buf =? u32 BUF_INFINITE_FORWARD then
      (bytes, buf)
    else
      let new_forward := u32 (to_forward buf + bytes - data_left) in
      let bytes := data_left in
      let new_forward :=
        if new_forward <=? to_forward buf then MID_RANGE else new_forward in
      if to_forward buf <? new_forward then
        (u64 (bytes + (new_forward - to_forward buf)),
         set_to_forward new_forward buf)
      else (bytes, buf).

(** The two-call and the one-call forwarding evaluate the limit with
    different [to_forward] and flags, once everything the buffer holds is
    scheduled ([send_max == l]).  Their [BF_FULL] agree when, in that
    state, whether [l] reaches the limit depends on neither: a condition
    on the missing [buffer_max_len] at the buffer at hand. *)
Definition max_len_settled (b : buffer) : Prop :=
  forall f tf, 0 <= tf ->
    (l b <? buffer_max_len
              (set_to_forward tf (set_flags f (set_send_max (l b) b))))
    = (l b <? buffer_max_len (set_send_max (l b) b)).

End Forward.

(** Modelled from the spec: "the number of contiguous bytes currently
    free" of section 4.1, read off the ring ([buffer_contig_space] and
    [buffer_realign] are inline functions of the missing
    proto/buffers.h).  An empty buffer is first realigned by
    [buffer_realign]. *)
Definition buffer_contig_space (b : buffer) : Z :=
  if l b =? 0 then size b - r b
  else if w b <? r b then size b - r b
  else w b - r b.

Definition buffer_realign (b : buffer) : Z * buffer :=
  let b := if l b =? 0 then set_lr 0 (set_w 0 (set_r 0 b)) else b in
  (buffer_contig_space b, b).

(** [memcpy(data + pos, src, n)] *)
Definition memcpy_at (d : list Z) (pos : Z) (src : list Z) (n : Z) : list Z :=
  take (Z.to_nat pos) d ++ take (Z.to_nat n) src
       ++ drop (Z.to_nat pos + Z.to_nat n) d.

Section Writers.

Variable buffer_max_len : buffer -> Z.
Variable BUF_INFINITE_FORWARD : Z.

(** [buffer_write(buf, msg, len)], buffers.c:95.  [None] stands for the
    calls C leaves undefined: a negative [len] or a message shorter than
    [len]. *)
Definition buffer_write (buf : buffer) (msg : list Z) (len : Z)
  : option (Z * buffer) :=
  if (len <? 0) || (Z.of_nat (length msg) <? len) then None else
  if len =? 0 then Some (-1, buf) else
  if size buf <? len then Some (-2, buf) else
  let '(max, buf) := buffer_realign buf in
  if max <? len then Some (max, buf) else
  let buf := set_data (memcpy_at (data buf) (r buf) msg len) buf in
  let buf := set_l (u32 (l buf + len)) buf in
  let buf := set_send_max (u32 (send_max buf + len)) buf in
  let buf := set_r (r buf + len) buf in
  let buf := set_total (u64 (total buf + len)) buf in
  let buf := if r buf =? size buf then set_r 0 buf else buf in
  let buf := set_flags (clrf (flags buf) (Z.lor BF_OUT_EMPTY BF_FULL)) buf in
  let buf := if buffer_max_len buf <=? l buf
             then set_flags (setf (flags buf) BF_FULL) buf else buf in
  Some (-1, buf).

(** [buffer_feed2(buf, str, len)], buffers.c:138. *)
Definition buffer_feed2 (buf : buffer) (str : list Z) (len : Z)
  : option (Z * buffer) :=
  if (len <? 0) || (Z.of_nat (length str) <? len) then None else
  if len =? 0 then Some (-1, buf) else
  if buffer_max_len buf <? len then Some (-2, buf) else
  let max := buffer_contig_space buf in
  if max <? len then Some (max, buf) else
  let buf := set_data (memcpy_at (data buf) (r buf) str len) buf in
  let buf := set_l (u32 (l buf + len)) buf in
  let buf := set_r (r buf + len) buf in
  let buf := set_total (u64 (total buf + len)) buf in
  let buf :=
    if to_forward buf =? 0 then buf else
    let fwd := len in
    let '(fwd, buf) :=
      if to_forward buf =? u32 BUF_INFINITE_FORWARD then (fwd, buf) else
      let fwd := if to_forward buf <? fwd then to_forward buf else fwd in
      (fwd, set_to_forward (u32 (to_forward buf - fwd)) buf) in
    let buf := set_send_max (u32 (send_max buf + fwd)) buf in
    set_flags (clrf (flags buf) BF_OUT_EMPTY) buf in
  let buf := if r buf =? size buf then set_r 0 buf else buf in
  let buf := set_flags (clrf (flags buf) BF_FULL) buf in
  let buf := if buffer_max_len buf <=? l buf
             then set_flags (setf (flags buf) BF_FULL) buf else buf in
  let buf := set_flags (setf (flags buf) BF_READ_PARTIAL) buf in
  Some (-1, buf).

(** The buffer invariants of section 8. *)
Definition buffer_invariants (b : buffer) : Prop :=
  0 <= send_max b <= l b /\ l b <= size b
  /\ (has (flags b) BF_FULL = true <-> buffer_max_len b <= l b)
  /\ (has (flags b) BF_OUT_EMPTY = true <-> send_max b = 0).

(** The two invariants [buffer_forward] maintains whatever the limit. *)
Definition buffer_count_invariants (b : buffer) : Prop :=
  0 <= send_max b <= l b /\ l b <= size b
  /\ (has (flags b) BF_OUT_EMPTY = true <-> send_max b = 0).

(** The limit is computed from the counters of the buffer: not from its
    flag word, its pointers nor its contents. *)
Definition max_len_of_counters : Prop :=
  forall b b', size b = size b' -> l b = l b' -> send_max b = send_max b' ->
               to_forward b = to_forward b' ->
               buffer_max_len b = buffer_max_len b'.

(** The ring itself: the input head [r] is [l] bytes past the output
    tail [w], modulo [size], and the counters fit their C types. *)
Definition ring_ok (b : buffer) : Prop :=
  0 < size b < 2^31 /\ 0 <= w b < size b
  /\ r b = (w b + l b) mod size b
  /\ 0 <= to_forward b < 2^32.

End Writers.


(** Modelled from the spec: the limit [max_len] of section 4.1 is "dynamic"
    and "below size"; proto/buffers.h, which computes it, is not among the
    sources.  This instance keeps [maxrewrite] bytes of the buffer free
    unless bytes already promised to the consumer ([to_forward] and
    [send_max]) cover that reserve. *)
Definition reserve_max_len (maxrewrite inf : Z) (b : buffer) : Z :=
  if (to_forward b =? u32 inf) || (maxrewrite <=? to_forward b + send_max b)
  then size b
  else size b - maxrewrite + to_forward b + send_max b.

(** A 100-byte request buffer filled up to its limit (reserve of 20 bytes),
    nothing scheduled yet. *)
Definition full_buffer : buffer :=
  mkbuf (Z.lor BF_FULL BF_OUT_EMPTY) 80 80 0 0 100 0 0 0 0 0 (repeat 0 100).

(** [d[p]], a read in a byte array *)
Definition byte_at (d : list Z) (p : Z) : Z := nth (Z.to_nat p) d 0.

(** The byte [j] positions after the output tail [w], around the ring. *)
Definition ring_byte (b : buffer) (j : Z) : Z :=
  byte_at (data b) ((w b + j) mod size b).

(** The copy loop of [buffer_si_peekline], buffers.c:213; [i] is the
    offset of the moving [str] pointer in the destination. *)
Fixpoint peek_loop (fuel : nat) (buf : buffer) (p : Z) (str : list Z)
         (i ret max : Z) : list Z * Z * Z * Z :=
  match fuel with
  | O => (str, i, ret, max)
  | S fuel =>
    if max =? 0 then (str, i, ret, max) else
    let c := byte_at (data buf) p in
    let str := <[Z.to_nat i := c]> str in
    let i := i + 1 in
    let ret := ret + 1 in
    let max := max - 1 in
    if c =? 10 then (str, i, ret, max) else
    let p := p + 1 in
    let p := if p =? size buf then 0 else p in
    peek_loop fuel buf p str i ret max
  end.

(** [buffer_si_peekline(buf, str, len)], buffers.c:194, for [len >= 0].
    The result is the return value, the destination array and the buffer,
    which the function only reads. *)
Definition buffer_si_peekline (buf : buffer) (str : list Z) (len : Z)
  : Z * list Z * buffer :=
  if send_max buf =? 0 then
    let ret := if has (flags buf) (Z.lor BF_SHUTW BF_SHUTW_NOW)
               then -1 else 0 in
    (ret, if len =? 0 then str else <[0%nat := 0]> str, buf)
  else
    let '(max, str) :=
      if send_max buf <? len
      then (send_max buf, <[Z.to_nat (send_max buf - 1) := 0]> str)
      else (len, str) in
    let '(str, i, ret, max) :=
      peek_loop (Z.to_nat max) buf (w buf) str 0 0 max in
    let ret :=
      if (0 <? ret) && (ret <? len) && (ret <? send_max buf)
         && negb (byte_at str (i - 1) =? 10)
         && negb (has (flags buf) (Z.lor BF_SHUTW BF_SHUTW_NOW))
      then 0 else ret in
    (ret, if max =? 0 then str else <[Z.to_nat i := 0]> str, buf).

(** ['\n'] and ["\r\n"] *)
Definition LF : string := String "010"%char ""%string.
Definition CRLF : string := String "013"%char LF.

(** The bytes of a C string literal. *)
Definition bytes (s : string) : list Z :=
  map (fun c => Z.of_N (N_of_ascii c)) (list_ascii_of_string s).

(** A 16-byte buffer with the given flags whose whole content is
    scheduled for the consumer. *)
Definition out_buffer (fl : Z) (content : string) : buffer :=
  let d := bytes content in
  let n := Z.of_nat (length d) in
  mkbuf fl n n 0 0 16 n 0 0 0 n (d ++ repeat 0 (16 - length d)).

(* ===================================================================== *)
(** ** ACL conditions (src/acl.c) *)
(* ===================================================================== *)

(** Modelled from the spec: the three results of section 4.4 and the
    signals a fetch raises.  types/acl.h and proto/acl.h are not among the
    sources; the results are numbered so that [|] is the OR and [&] the AND
    that acl_exec_cond computes with them, and [acl_neg] swaps PASS and
    FAIL and keeps MISS. *)
Definition ACL_PAT_FAIL : Z := 0.
Definition ACL_PAT_MISS : Z := 1.
Definition ACL_PAT_PASS : Z := 3.
Definition acl_neg (res : Z) : Z := Z.shiftr 3 res.
Definition acl_pass (res : Z) : Z := Z.shiftr res 1.

Definition ACL_DIR_REQ : Z := 0.
Definition ACL_PARTIAL : Z := 2.

Definition ACL_TEST_F_MUST_FREE  : Z := 0x002.
Definition ACL_TEST_F_VOLATILE   : Z := 0x07c.
Definition ACL_TEST_F_FETCH_MORE : Z := 0x080.
Definition ACL_TEST_F_MAY_CHANGE : Z := 0x100.
Definition ACL_TEST_F_RES_SET    : Z := 0x200.
Definition ACL_TEST_F_RES_PASS   : Z := 0x400.
Definition ACL_TEST_F_SET_RES_FAIL : Z := ACL_TEST_F_RES_SET.
Definition ACL_TEST_F_SET_RES_PASS : Z :=
  Z.lor ACL_TEST_F_RES_SET ACL_TEST_F_RES_PASS.
Definition ACL_TEST_F_NULL_MATCH : Z := 0x800.

(** [struct acl_test]: the sample a fetch produces; [t_ptr] is the offset
    of the sample in the memory the fetch looked at. *)
Record acl_test := mktest {
  t_i : Z;
  t_ptr : Z;
  t_len : Z;
  t_flags : Z;
  t_ctx : Z
}.

Definition test_zero : acl_test := mktest 0 0 0 0 0.
Definition set_t_flags (f : Z) (t : acl_test) : acl_test :=
  mktest (t_i t) (t_ptr t) (t_len t) f (t_ctx t).
Definition set_t_len (n : Z) (t : acl_test) : acl_test :=
  mktest (t_i t) (t_ptr t) n (t_flags t) (t_ctx t).

(** [struct acl_pattern], the integer range and the string. *)
Record acl_pattern := mkpat {
  min_set : bool; range_min : Z;
  max_set : bool; range_max : Z;
  pat_str : list Z
}.

(** Which [match] function a keyword points to, as far as acl_exec_cond
    tells them apart. *)
Inductive match_id := Match_str | Match_ip | Match_other.

Section Acl.

(** What a fetch samples from: the proxy, the session and the
    transaction handed to acl_exec_cond. *)
Variable env : Type.

(** [struct acl_keyword]: the function pointers. *)
Record acl_keyword := mkkw {
  kw_fetch : env -> Z -> list Z -> acl_test -> Z * acl_test;
  kw_match : acl_test -> option acl_pattern -> Z * acl_test;
  kw_match_id : match_id
}.

(** [struct acl_expr].  [pattern_tree] is [None] for an empty tree
    ([eb_is_empty]); otherwise it holds the lookup of a sample in the tree
    ([acl_lookup_str], [acl_lookup_ip] over the ebtree library): whether a
    node is found. *)
Record acl_expr := mkexpr {
  kw : acl_keyword;
  arg : list Z;
  patterns : list acl_pattern;
  pattern_tree : option (acl_test -> bool)
}.

Definition eb_is_empty (tree : option (acl_test -> bool)) : bool :=
  match tree with None => true | Some _ => false end.

Record acl_term := mkterm { term_acl : list acl_expr; neg : bool }.

(** A condition: the list of its term suites, each a list of terms. *)
Definition acl_cond := list (list acl_term).

(** [list_for_each_entry(pattern, &expr->patterns, list)], acl.c:1363 *)
Fixpoint match_patterns (k : acl_keyword) (pats : list acl_pattern)
         (acl_res : Z) (test : acl_test) : Z * acl_test :=
  match pats with
  | [] => (acl_res, test)
  | pattern :: pats =>
    if acl_res =? ACL_PAT_PASS then (acl_res, test) else
    let '(m, test) := kw_match k test (Some pattern) in
    match_patterns k pats (Z.lor acl_res m) test
  end.

(** One expression of an ACL, from [fetch_next] on (acl.c:1339).  The
    result is the new [acl_res] and whether the loop over the expressions
    is left by [break]; [None] when the fetch still asks for more after
    [fuel] rounds. *)
Fixpoint eval_expr (fuel : nat) (e : env) (dir : Z) (expr : acl_expr)
         (acl_res : Z) (test : acl_test) : option (Z * bool) :=
  match fuel with
  | O => None
  | S fuel =>
    let '(ret, test) := kw_fetch (kw expr) e dir (arg expr) test in
    if ret =? 0 then
      Some (if has (t_flags test) ACL_TEST_F_MAY_CHANGE && has dir ACL_PARTIAL
            then Z.lor acl_res ACL_PAT_MISS else acl_res, false)
    else
      let '(acl_res, test) :=
        if has (t_flags test) ACL_TEST_F_RES_SET then
          (if has (t_flags test) ACL_TEST_F_RES_PASS
           then Z.lor acl_res ACL_PAT_PASS else Z.lor acl_res ACL_PAT_FAIL,
           test)
        else
          let acl_res :=
            match pattern_tree expr with
            | Some lookup =>
              match kw_match_id (kw expr) with
              | Match_str | Match_ip =>
                Z.lor acl_res (if lookup test
                               then ACL_PAT_PASS else ACL_PAT_FAIL)
              | Match_other => acl_res
              end
            | None => acl_res
            end in
          let '(acl_res, test) :=
            match_patterns (kw expr) (patterns expr) acl_res test in
          if has (t_flags test) ACL_TEST_F_NULL_MATCH
             && match patterns expr with [] => true | _ => false end
             && eb_is_empty (pattern_tree expr)
          then let '(m, test) := kw_match (kw expr) test None in
               (Z.lor acl_res m, test)
          else (acl_res, test) in
      let test := if has (t_flags test) ACL_TEST_F_MUST_FREE
                  then set_t_len 0 test else test in
      if acl_res =? ACL_PAT_PASS then Some (acl_res, true) else
      if has (t_flags test) ACL_TEST_F_FETCH_MORE
      then eval_expr fuel e dir expr acl_res test
      else
        Some (if has (t_flags test) ACL_TEST_F_MAY_CHANGE && has dir ACL_PARTIAL
              then Z.lor acl_res ACL_PAT_MISS else acl_res, false)
  end.

(** [list_for_each_entry(expr, &acl->expr, list)], acl.c:1336 *)
Fixpoint eval_exprs (fuel : nat) (e : env) (dir : Z) (exprs : list acl_expr)
         (acl_res : Z) : option Z :=
  match exprs with
  | [] => Some acl_res
  | expr :: exprs =>
    match eval_expr fuel e dir expr acl_res test_zero with
    | None => None
    | Some (acl_res, true) => Some acl_res
    | Some (acl_res, false) => eval_exprs fuel e dir exprs acl_res
    end
  end.

(** [list_for_each_entry(term, &suite->terms, list)], acl.c:1325 *)
Fixpoint eval_terms (fuel : nat) (e : env) (dir : Z) (terms : list acl_term)
         (suite_res : Z) : option Z :=
  match terms with
  | [] => Some suite_res
  | term :: terms =>
    match eval_exprs fuel e dir (term_acl term) ACL_PAT_FAIL with
    | None => None
    | Some acl_res =>
      let acl_res := if neg term then acl_neg acl_res else acl_res in
      let suite_res := Z.land suite_res acl_res in
      if suite_res =? ACL_PAT_FAIL then Some suite_res
      else eval_terms fuel e dir terms suite_res
    end
  end.

(** [list_for_each_entry(suite, &cond->suites, list)], acl.c:1315 *)
Fixpoint eval_suites (fuel : nat) (e : env) (dir : Z)
         (suites : list (list acl_term)) (cond_res : Z) : option Z :=
  match suites with
  | [] => Some cond_res
  | suite :: suites =>
    match eval_terms fuel e dir suite ACL_PAT_PASS with
    | None => None
    | Some suite_res =>
      let cond_res := Z.lor cond_res suite_res in
      if cond_res =? ACL_PAT_PASS then Some cond_res
      else eval_suites fuel e dir suites cond_res
    end
  end.

(** [acl_exec_cond(cond, px, l4, l7, dir)], acl.c:1300 *)
Definition acl_exec_cond (fuel : nat) (cond : acl_cond) (e : env) (dir : Z)
  : option Z :=
  eval_suites fuel e dir cond ACL_PAT_FAIL.

(** The expressions a condition evaluates. *)
Definition cond_exprs (cond : acl_cond) : list acl_expr :=
  concat (map (fun suite => concat (map term_acl suite)) cond).

(** The [match] functions of acl.c answer PASS or FAIL. *)
Definition match_two_valued (k : acl_keyword) : Prop :=
  forall test pat,
    fst (kw_match k test pat) = ACL_PAT_PASS
    \/ fst (kw_match k test pat) = ACL_PAT_FAIL.

(** A fetch stops asking for more (ACL_TEST_F_FETCH_MORE) within [fuel]
    rounds. *)
Definition fetch_settles (fuel : nat) (e : env) (dir : Z) (expr : acl_expr)
  : Prop :=
  forall acl_res, eval_expr fuel e dir expr acl_res test_zero <> None.

(** What the fetches and matches of a condition must be for a call to
    return within [fuel] rounds. *)
Definition cond_settles (fuel : nat) (e : env) (dir : Z) (cond : acl_cond)
  : Prop :=
  Forall (fun expr => match_two_valued (kw expr)
                      /\ fetch_settles fuel e dir expr) (cond_exprs cond).

End Acl.

(** A result in range for the direction: PASS or FAIL, or MISS under
    ACL_PARTIAL. *)
Definition acl_ok (dir res : Z) : Prop :=
  res = ACL_PAT_PASS \/ res = ACL_PAT_FAIL
  \/ (res = ACL_PAT_MISS /\ has dir ACL_PARTIAL = true).

Arguments mkkw {env}.
Arguments kw_fetch {env}.
Arguments kw_match {env}.
Arguments kw_match_id {env}.
Arguments mkexpr {env}.
Arguments kw {env}.
Arguments arg {env}.
Arguments patterns {env}.
Arguments pattern_tree {env}.
Arguments mkterm {env}.
Arguments term_acl {env}.
Arguments neg {env}.
Arguments match_patterns {env}.
Arguments eval_expr {env}.
Arguments eval_exprs {env}.
Arguments eval_terms {env}.
Arguments eval_suites {env}.
Arguments acl_exec_cond {env}.
Arguments cond_exprs {env}.
Arguments match_two_valued {env}.
Arguments fetch_settles {env}.
Arguments cond_settles {env}.

(** The debugging keywords of acl.c:65-117 and their table, acl.c:1575. *)
Definition acl_fetch_true {env : Type} (e : env) (dir : Z) (arg : list Z)
           (test : acl_test) : Z * acl_test :=
  (1, set_t_flags (setf (t_flags test) ACL_TEST_F_SET_RES_PASS) test).

Definition acl_fetch_wait_end {env : Type} (e : env) (dir : Z) (arg : list Z)
           (test : acl_test) : Z * acl_test :=
  if has dir ACL_PARTIAL
  then (0, set_t_flags (setf (t_flags test) ACL_TEST_F_MAY_CHANGE) test)
  else (1, set_t_flags (setf (t_flags test) ACL_TEST_F_SET_RES_PASS) test).

Definition acl_fetch_false {env : Type} (e : env) (dir : Z) (arg : list Z)
           (test : acl_test) : Z * acl_test :=
  (1, set_t_flags (setf (t_flags test) ACL_TEST_F_SET_RES_FAIL) test).

Definition acl_match_nothing (test : acl_test) (pattern : option acl_pattern)
  : Z * acl_test :=
  (ACL_PAT_FAIL, test).

Definition kw_always_true {env : Type} : acl_keyword env :=
  mkkw acl_fetch_true acl_match_nothing Match_other.
Definition kw_always_false {env : Type} : acl_keyword env :=
  mkkw acl_fetch_false acl_match_nothing Match_other.
Definition kw_wait_end {env : Type} : acl_keyword env :=
  mkkw acl_fetch_wait_end acl_match_nothing Match_other.

(** The condition [!WAIT_END || TRUE] over the default ACLs. *)
Definition cond_not_wait_end_or_true : acl_cond unit :=
  [ [ mkterm [mkexpr kw_wait_end [] [] None] true ];
    [ mkterm [mkexpr kw_always_true [] [] None] false ] ].

(** The condition [!WAIT_END]. *)
Definition cond_not_wait_end : acl_cond unit :=
  [ [ mkterm [mkexpr kw_wait_end [] [] None] true ] ].

(* ===================================================================== *)
(** ** The request analyser loop (src/session.c, process_session) *)
(* ===================================================================== *)

(** The request analysers, in the order of the ladder of
    session.c:1058-1128. *)
Inductive req_analyser :=
| AN_REQ_DECODE_PROXY
| AN_REQ_INSPECT
| AN_REQ_WAIT_HTTP
| AN_REQ_HTTP_PROCESS_FE
| AN_REQ_SWITCHING_RULES
| AN_REQ_HTTP_PROCESS_BE
| AN_REQ_HTTP_TARPIT
| AN_REQ_HTTP_INNER
| AN_REQ_HTTP_BODY
| AN_REQ_PRST_RDP_COOKIE
| AN_REQ_STICKING_RULES
| AN_REQ_HTTP_XFER_BODY.

Definition req_ladder : list req_analyser :=
  [ AN_REQ_DECODE_PROXY; AN_REQ_INSPECT; AN_REQ_WAIT_HTTP;
    AN_REQ_HTTP_PROCESS_FE; AN_REQ_SWITCHING_RULES; AN_REQ_HTTP_PROCESS_BE;
    AN_REQ_HTTP_TARPIT; AN_REQ_HTTP_INNER; AN_REQ_HTTP_BODY;
    AN_REQ_PRST_RDP_COOKIE; AN_REQ_STICKING_RULES; AN_REQ_HTTP_XFER_BODY ].

(** The rung of each analyser on the ladder. *)
Definition ladder_pos (a : req_analyser) : nat :=
  match a with
  | AN_REQ_DECODE_PROXY => 0
  | AN_REQ_INSPECT => 1
  | AN_REQ_WAIT_HTTP => 2
  | AN_REQ_HTTP_PROCESS_FE => 3
  | AN_REQ_SWITCHING_RULES => 4
  | AN_REQ_HTTP_PROCESS_BE => 5
  | AN_REQ_HTTP_TARPIT => 6
  | AN_REQ_HTTP_INNER => 7
  | AN_REQ_HTTP_BODY => 8
  | AN_REQ_PRST_RDP_COOKIE => 9
  | AN_REQ_STICKING_RULES => 10
  | AN_REQ_HTTP_XFER_BODY => 11
  end%nat.

(** [~x] on an [unsigned int] *)
Definition not32 (x : Z) : Z := Z.land (Z.lnot x) 0xFFFFFFFF.

(** The first statement of [UPDATE_ANALYSERS(real, list, back, flag)],
    session.c:824 *)
Definition update_list (real list back flag : Z) : Z :=
  Z.land (Z.lor (Z.land list (not32 flag)) (not32 back)) real.

(** [(list) ^ ((list) & ((list) - 1))], session.c:828, for [list != 0] *)
Definition lowest_bit (list : Z) : Z := Z.lxor list (Z.land list (list - 1)).

(** How one walk down the ladder ends: at a [break], or at the
    [continue] of UPDATE_ANALYSERS. *)
Inductive ladder_exit := Break | Continue.

(** The state of the loop: the session, [ana_list], [ana_back], and the
    analysers called so far, latest first. *)
Record loop_state (S : Type) := mkloop {
  sess : S;
  ana_list : Z;
  ana_back : Z;
  called : list req_analyser
}.
Arguments mkloop {S}.
Arguments sess {S}.
Arguments ana_list {S}.
Arguments ana_back {S}.
Arguments called {S}.

Section AnalyserLoop.

(** The session and its buffers, as far as the analysers touch them. *)
Variable S : Type.
(** [s->req->analysers] *)
Variable req_analysers : S -> Z.
(** The analyser functions: the return value and the session after the
    call. *)
Variable call : req_analyser -> S -> Z * S.
(** The bit of each analyser.  types/buffers.h is not among the sources;
    each AN_REQ_* is the single bit [an_ord]. *)
Variable an_ord : req_analyser -> nat.

Definition AN (a : req_analyser) : Z := bit (an_ord a).

(** The body of the [while], from the analyser [rest] starts with. *)
Fixpoint run_ladder (rest : list req_analyser) (st : loop_state S)
  : ladder_exit * loop_state S :=
  match rest with
  | [] => (Break, st)
  | a :: rest =>
    if has (ana_list st) (AN a) then
      let '(ret, s) := call a (sess st) in
      let trace := a :: called st in
      if ret =? 0 then (Break, mkloop s (ana_list st) (ana_back st) trace)
      else
        let list := update_list (req_analysers s) (ana_list st) (ana_back st)
                                (AN a) in
        let back := req_analysers s in
        let st := mkloop s list back trace in
        if list =? 0 then (Break, st)
        else if lowest_bit list <? AN a then (Continue, st)
        else run_ladder rest st
    else run_ladder rest st
  end.

(** [while (ana_list && max_loops--) { ... }], session.c:1055, for
    [max_loops >= 0]. *)
Fixpoint analyser_loop (max_loops : nat) (st : loop_state S) : loop_state S :=
  match max_loops with
  | O => st
  | Datatypes.S max_loops =>
    if ana_list st =? 0 then st else
    match run_ladder req_ladder st with
    | (Break, st) => st
    | (Continue, st) => analyser_loop max_loops st
    end
  end.

(** [ana_list = ana_back = s->req->analysers], then the loop *)
Definition request_analysers (max_loops : nat) (s : S) : loop_state S :=
  analyser_loop max_loops
                (mkloop s (req_analysers s) (req_analysers s) []).

(** The analyser the next walk down the ladder calls first. *)
Definition first_pending (list : Z) : option req_analyser :=
  find (fun a => has list (AN a)) req_ladder.

(** A bit that the call of the analyser set: present in the mask now,
    absent from the copy taken before the call. *)
Definition newly (real back : Z) (i : nat) : bool :=
  Z.testbit real (Z.of_nat i) && negb (Z.testbit back (Z.of_nat i)).

(** The masks are [unsigned int]. *)
Definition masks_u32 : Prop := forall s, 0 <= req_analysers s < 2^32.

(** "Warning! ensure that analysers are always placed in ascending
    order!" (session.c:1056) *)
Definition ladder_ascending : Prop :=
  StronglySorted lt (map an_ord req_ladder)
  /\ Forall (fun a => (an_ord a < 32)%nat) req_ladder.

End AnalyserLoop.

Arguments AN an_ord a /.
Arguments run_ladder {S}.
Arguments analyser_loop {S}.
Arguments request_analysers {S}.
Arguments masks_u32 {S}.

(** A session reduced to its request analyser mask, with analysers that
    remove themselves; the content inspection moreover asks for the PROXY
    line decoder, one rung up. *)
Definition mask_call (a : req_analyser) (s : Z) : Z * Z :=
  match a with
  | AN_REQ_INSPECT =>
    (1, setf (clrf s (bit (ladder_pos a))) (bit (ladder_pos AN_REQ_DECODE_PROXY)))
  | _ => (1, clrf s (bit (ladder_pos a)))
  end.

(** The loop state when process_session enters the loop with only the
    content inspection pending. *)
Definition inspect_pending : loop_state Z :=
  mkloop (bit (ladder_pos AN_REQ_INSPECT)) (bit (ladder_pos AN_REQ_INSPECT))
         (bit (ladder_pos AN_REQ_INSPECT)) [].

(* ===================================================================== *)
(** ** Sessions (src/session.c, src/client.c, src/proto_tcp.c) *)
(* ===================================================================== *)

(** Modelled from the spec: the session flags of sections 3 and 6
    (assignment status, the termination error class and finish stage, both
    small codes in a field of their own).  types/session.h is not among
    the sources. *)
Definition SN_DIRECT       : Z := 0x00000001.
Definition SN_ASSIGNED     : Z := 0x00000002.
Definition SN_ADDR_SET     : Z := 0x00000004.
Definition SN_FORCE_PRST   : Z := 0x00000010.
Definition SN_CURR_SESS    : Z := 0x00000040.
Definition SN_FRT_ADDR_SET : Z := 0x00000080.
Definition SN_ERR_CLITO    : Z := 0x00001000.
Definition SN_ERR_CLICL    : Z := 0x00002000.
Definition SN_ERR_SRVTO    : Z := 0x00003000.
Definition SN_ERR_SRVCL    : Z := 0x00004000.
Definition SN_ERR_PRXCOND  : Z := 0x00005000.
Definition SN_ERR_RESOURCE : Z := 0x00006000.
Definition SN_ERR_INTERNAL : Z := 0x00007000.
Definition SN_ERR_MASK     : Z := 0x00007000.
Definition SN_FINST_R      : Z := 0x00010000.
Definition SN_FINST_C      : Z := 0x00020000.
Definition SN_FINST_H      : Z := 0x00030000.
Definition SN_FINST_D      : Z := 0x00040000.
Definition SN_FINST_L      : Z := 0x00050000.
Definition SN_FINST_Q      : Z := 0x00060000.
Definition SN_FINST_MASK   : Z := 0x00070000.

(** Modelled from the spec: the states of a stream interface (section
    4.2), its error types and flags; types/stream_interface.h is not among
    the sources. *)
Inductive si_state :=
| SI_ST_INI | SI_ST_REQ | SI_ST_QUE | SI_ST_TAR | SI_ST_ASS | SI_ST_CON
| SI_ST_CER | SI_ST_EST | SI_ST_DIS | SI_ST_CLO.

Definition SI_ET_NONE       : Z := 0x00.
Definition SI_ET_QUEUE_TO   : Z := 0x01.
Definition SI_ET_QUEUE_ERR  : Z := 0x02.
Definition SI_ET_QUEUE_ABRT : Z := 0x04.
Definition SI_ET_CONN_TO    : Z := 0x08.
Definition SI_ET_CONN_ERR   : Z := 0x10.
Definition SI_ET_CONN_ABRT  : Z := 0x20.

Definition SI_FL_EXP : Z := 0x01.
Definition SI_FL_ERR : Z := 0x02.

(** Modelled from the spec: the proxy options and the server state the
    analysers read (types/proxy.h and types/server.h are not among the
    sources). *)
Definition PR_O_REDISP  : Z := 0x00000001.
Definition PR_O_PERSIST : Z := 0x00000002.
Definition SRV_RUNNING  : Z := 0x0001.

Definition AF_INET  : Z := 2.
Definition AF_INET6 : Z := 10.

(** [struct sockaddr_in], fields as stored (network byte order). *)
Record sockaddr_in := mksin {
  sin_family : Z;
  sin_port : Z;
  s_addr : Z;
  sin_zero : list Z
}.

(** [struct sockaddr_storage], as the session holds it. *)
Inductive sockaddr :=
| Sockaddr_raw (family : Z)
| Sockaddr_inet (a : sockaddr_in)
| Sockaddr_inet6 (family port : Z) (addr : list Z).

(** [struct stream_interface] *)
Record stream_interface := mksi {
  si_state_of : si_state;
  si_err_type : Z;
  si_err_loc : option nat;
  si_flags : Z;
  si_exp : Z
}.
Definition set_si_state_of (x : si_state) (s : stream_interface) : stream_interface :=
  mksi x (si_err_type s) (si_err_loc s) (si_flags s) (si_exp s).
Definition set_si_err_type (x : Z) (s : stream_interface) : stream_interface :=
  mksi (si_state_of s) x (si_err_loc s) (si_flags s) (si_exp s).
Definition set_si_err_loc (x : option nat) (s : stream_interface) : stream_interface :=
  mksi (si_state_of s) (si_err_type s) x (si_flags s) (si_exp s).
Definition set_si_flags (x : Z) (s : stream_interface) : stream_interface :=
  mksi (si_state_of s) (si_err_type s) (si_err_loc s) x (si_exp s).
Definition set_si_exp (x : Z) (s : stream_interface) : stream_interface :=
  mksi (si_state_of s) (si_err_type s) (si_err_loc s) (si_flags s) x.

(** [struct server], the fields the session engine touches. *)
Record server := mksrv {
  srv_addr : sockaddr_in;
  srv_state : Z;
  cur_sess : Z;
  served : Z;
  srv_failed_conns : Z;
  srv_retries : Z
}.
Definition set_srv_addr (x : sockaddr_in) (s : server) : server :=
  mksrv x (srv_state s) (cur_sess s) (served s) (srv_failed_conns s) (srv_retries s).
Definition set_srv_state (x : Z) (s : server) : server :=
  mksrv (srv_addr s) x (cur_sess s) (served s) (srv_failed_conns s) (srv_retries s).
Definition set_cur_sess (x : Z) (s : server) : server :=
  mksrv (srv_addr s) (srv_state s) x (served s) (srv_failed_conns s) (srv_retries s).
Definition set_served (x : Z) (s : server) : server :=
  mksrv (srv_addr s) (srv_state s) (cur_sess s) x (srv_failed_conns s) (srv_retries s).
Definition set_srv_failed_conns (x : Z) (s : server) : server :=
  mksrv (srv_addr s) (srv_state s) (cur_sess s) (served s) x (srv_retries s).
Definition set_srv_retries (x : Z) (s : server) : server :=
  mksrv (srv_addr s) (srv_state s) (cur_sess s) (served s) (srv_failed_conns s) x.

(** The counters of a proxy or of a listener. *)
Record counters := mkcounters {
  failed_req : Z;
  denied_req : Z;
  failed_conns : Z;
  retries : Z
}.
Definition set_failed_req (x : Z) (s : counters) : counters :=
  mkcounters x (denied_req s) (failed_conns s) (retries s).
Definition set_denied_req (x : Z) (s : counters) : counters :=
  mkcounters (failed_req s) x (failed_conns s) (retries s).
Definition set_failed_conns (x : Z) (s : counters) : counters :=
  mkcounters (failed_req s) (denied_req s) x (retries s).
Definition set_retries (x : Z) (s : counters) : counters :=
  mkcounters (failed_req s) (denied_req s) (failed_conns s) x.

(** [struct proxy]: the options, the counters, the inspect delay and the
    RDP cookie name.  The rule lists of a frontend and the servers of a
    backend are given on their own. *)
Record proxy := mkproxy {
  options : Z;
  px_counters : counters;
  inspect_delay : Z;
  rdp_cookie_name : list Z;
  rdp_cookie_len : Z
}.
Definition set_px_counters (x : counters) (s : proxy) : proxy :=
  mkproxy (options s) x (inspect_delay s) (rdp_cookie_name s) (rdp_cookie_len s).

Section Sessions.

(** What lives behind the missing modules and is reached from a session
    through pointers: the health checks, the queues and the load
    balancer of the backend. *)
Variable ext : Type.

(** [struct session].  [srv], [prev_srv] and [srv_conn] point into
    [servers], the list [be->srv] of the backend; [listener_counters] is
    [s->listener->counters], which may be null.  [fe] and [be] are held
    by value: none of the functions below writes to both. *)
Record session := mksession {
  s_flags : Z;
  conn_retries : Z;
  srv : option nat;
  prev_srv : option nat;
  srv_conn : option nat;
  cli_addr : sockaddr;
  frt_addr : sockaddr;
  req : buffer;
  rep : buffer;
  si1 : stream_interface;
  fe : proxy;
  be : proxy;
  listener_counters : option counters;
  servers : list server;
  world : ext
}.
Definition set_s_flags (x : Z) (s : session) : session :=
  mksession x (conn_retries s) (srv s) (prev_srv s) (srv_conn s) (cli_addr s) (frt_addr s) (req s) (rep s) (si1 s) (fe s) (be s) (listener_counters s) (servers s) (world s).
Definition set_conn_retries (x : Z) (s : session) : session :=
  mksession (s_flags s) x (srv s) (prev_srv s) (srv_conn s) (cli_addr s) (frt_addr s) (req s) (rep s) (si1 s) (fe s) (be s) (listener_counters s) (servers s) (world s).
Definition set_srv (x : option nat) (s : session) : session :=
  mksession (s_flags s) (conn_retries s) x (prev_srv s) (srv_conn s) (cli_addr s) (frt_addr s) (req s) (rep s) (si1 s) (fe s) (be s) (listener_counters s) (servers s) (world s).
Definition set_prev_srv (x : option nat) (s : session) : session :=
  mksession (s_flags s) (conn_retries s) (srv s) x (srv_conn s) (cli_addr s) (frt_addr s) (req s) (rep s) (si1 s) (fe s) (be s) (listener_counters s) (servers s) (world s).
Definition set_srv_conn (x : option nat) (s : session) : session :=
  mksession (s_flags s) (conn_retries s) (srv s) (prev_srv s) x (cli_addr s) (frt_addr s) (req s) (rep s) (si1 s) (fe s) (be s) (listener_counters s) (servers s) (world s).
Definition set_cli_addr (x : sockaddr) (s : session) : session :=
  mksession (s_flags s) (conn_retries s) (srv s) (prev_srv s) (srv_conn s) x (frt_addr s) (req s) (rep s) (si1 s) (fe s) (be s) (listener_counters s) (servers s) (world s).
Definition set_frt_addr (x : sockaddr) (s : session) : session :=
  mksession (s_flags s) (conn_retries s) (srv s) (prev_srv s) (srv_conn s) (cli_addr s) x (req s) (rep s) (si1 s) (fe s) (be s) (listener_counters s) (servers s) (world s).
Definition set_req (x : buffer) (s : session) : session :=
  mksession (s_flags s) (conn_retries s) (srv s) (prev_srv s) (srv_conn s) (cli_addr s) (frt_addr s) x (rep s) (si1 s) (fe s) (be s) (listener_counters s) (servers s) (world s).
Definition set_rep (x : buffer) (s : session) : session :=
  mksession (s_flags s) (conn_retries s) (srv s) (prev_srv s) (srv_conn s) (cli_addr s) (frt_addr s) (req s) x (si1 s) (fe s) (be s) (listener_counters s) (servers s) (world s).
Definition set_si1 (x : stream_interface) (s : session) : session :=
  mksession (s_flags s) (conn_retries s) (srv s) (prev_srv s) (srv_conn s) (cli_addr s) (frt_addr s) (req s) (rep s) x (fe s) (be s) (listener_counters s) (servers s) (world s).
Definition set_fe (x : proxy) (s : session) : session :=
  mksession (s_flags s) (conn_retries s) (srv s) (prev_srv s) (srv_conn s) (cli_addr s) (frt_addr s) (req s) (rep s) (si1 s) x (be s) (listener_counters s) (servers s) (world s).
Definition set_be (x : proxy) (s : session) : session :=
  mksession (s_flags s) (conn_retries s) (srv s) (prev_srv s) (srv_conn s) (cli_addr s) (frt_addr s) (req s) (rep s) (si1 s) (fe s) x (listener_counters s) (servers s) (world s).
Definition set_listener_counters (x : option counters) (s : session) : session :=
  mksession (s_flags s) (conn_retries s) (srv s) (prev_srv s) (srv_conn s) (cli_addr s) (frt_addr s) (req s) (rep s) (si1 s) (fe s) (be s) x (servers s) (world s).
Definition set_servers (x : list server) (s : session) : session :=
  mksession (s_flags s) (conn_retries s) (srv s) (prev_srv s) (srv_conn s) (cli_addr s) (frt_addr s) (req s) (rep s) (si1 s) (fe s) (be s) (listener_counters s) x (world s).
Definition set_world (x : ext) (s : session) : session :=
  mksession (s_flags s) (conn_retries s) (srv s) (prev_srv s) (srv_conn s) (cli_addr s) (frt_addr s) (req s) (rep s) (si1 s) (fe s) (be s) (listener_counters s) (servers s) x.

End Sessions.

Arguments mksession {ext}.
Arguments s_flags {ext}.
Arguments set_s_flags {ext}.
Arguments conn_retries {ext}.
Arguments set_conn_retries {ext}.
Arguments srv {ext}.
Arguments set_srv {ext}.
Arguments prev_srv {ext}.
Arguments set_prev_srv {ext}.
Arguments srv_conn {ext}.
Arguments set_srv_conn {ext}.
Arguments cli_addr {ext}.
Arguments set_cli_addr {ext}.
Arguments frt_addr {ext}.
Arguments set_frt_addr {ext}.
Arguments req {ext}.
Arguments set_req {ext}.
Arguments rep {ext}.
Arguments set_rep {ext}.
Arguments si1 {ext}.
Arguments set_si1 {ext}.
Arguments fe {ext}.
Arguments set_fe {ext}.
Arguments be {ext}.
Arguments set_be {ext}.
Arguments listener_counters {ext}.
Arguments set_listener_counters {ext}.
Arguments servers {ext}.
Arguments set_servers {ext}.
Arguments world {ext}.
Arguments set_world {ext}.

(** [default_srv_error(s, si)], session.c:1729 *)
Definition default_srv_error {ext : Type} (s : session ext) : session ext :=
  let err_type := si_err_type (si1 s) in
  let '(err, fin) :=
    if has err_type SI_ET_QUEUE_ABRT then (SN_ERR_CLICL, SN_FINST_Q)
    else if has err_type SI_ET_CONN_ABRT then (SN_ERR_CLICL, SN_FINST_C)
    else if has err_type SI_ET_QUEUE_TO then (SN_ERR_SRVTO, SN_FINST_Q)
    else if has err_type SI_ET_QUEUE_ERR then (SN_ERR_SRVCL, SN_FINST_Q)
    else if has err_type SI_ET_CONN_TO then (SN_ERR_SRVTO, SN_FINST_C)
    else if has err_type SI_ET_CONN_ERR then (SN_ERR_SRVCL, SN_FINST_C)
    else (SN_ERR_INTERNAL, SN_FINST_C) in
  let s := if has (s_flags s) SN_ERR_MASK then s
           else set_s_flags (setf (s_flags s) err) s in
  if has (s_flags s) SN_FINST_MASK then s
  else set_s_flags (setf (s_flags s) fin) s.

Section Retry.

Variable ext : Type.

(** The collaborators that are not among the sources act on what they
    reach: [health_adjust], [process_srv_queue] and the load balancer's
    [server_drop_conn] and [server_take_conn] on the state behind the
    missing modules; [si->shutw] on the stream interface, its two buffers
    and the descriptors.  [s->srv_error] is handed the session. *)
Variable health_adjust : nat -> Z -> ext -> ext.
Variable HANA_STATUS_L4_ERR : Z.
Variable may_dequeue_tasks : option nat -> session ext -> bool.
Variable process_srv_queue : nat -> ext -> ext.
Variable server_drop_conn : option (nat -> ext -> ext).
Variable server_take_conn : option (nat -> ext -> ext).
Variable shutw :
  stream_interface -> buffer -> buffer -> ext ->
  stream_interface * buffer * buffer * ext.
Variable srv_error : option (session ext -> session ext).
Variable now_ms : Z.
Variable tick_add : Z -> Z -> Z.
Variable MS_TO_TICKS : Z -> Z.

(** A write through a server pointer. *)
Definition update_server (i : nat) (f : server -> server) (s : session ext)
  : session ext :=
  set_servers (alter f i (servers s)) s.

Definition call_hook {A : Type} (h : option (A -> A)) (x : A) : A :=
  match h with Some f => f x | None => x end.

(** [sess_change_server(sess, newsrv)], session.c:1678 *)
Definition sess_change_server (sess : session ext) (newsrv : option nat)
  : session ext :=
  if decide (srv_conn sess = newsrv) then sess else
  let sess :=
    match srv_conn sess with
    | Some i =>
      let sess := update_server i (fun x => set_served (served x - 1) x) sess in
      let sess := set_world (call_hook (option_map (fun f => f i)
                                                   server_drop_conn)
                                       (world sess)) sess in
      set_srv_conn None sess
    | None => sess
    end in
  match newsrv with
  | Some j =>
    let sess := update_server j (fun x => set_served (served x + 1) x) sess in
    let sess := set_world (call_hook (option_map (fun f => f j)
                                                 server_take_conn)
                                     (world sess)) sess in
    set_srv_conn (Some j) sess
  | None => sess
  end.

(** [if (may_dequeue_tasks(s->srv, s->be)) process_srv_queue(s->srv);] *)
Definition dequeue (s : session ext) : session ext :=
  if may_dequeue_tasks (srv s) s then
    match srv s with
    | Some i => set_world (process_srv_queue i (world s)) s
    | None => s
    end
  else s.

(** [si->shutw(si)] on the server side: [si->ob] is the request buffer
    and [si->ib] the response buffer. *)
Definition si_shutw (s : session ext) : session ext :=
  let '(si, ob, ib, x) := shutw (si1 s) (req s) (rep s) (world s) in
  set_world x (set_rep ib (set_req ob (set_si1 si s))).

(** [sess_update_st_cer(s, si)], session.c:244, for [si == &s->si[1]].
    The counters are taken unbounded. *)
Definition sess_update_st_cer (s : session ext) : Z * session ext :=
  let s :=
    match srv s with
    | Some i =>
      let s := set_world (health_adjust i HANA_STATUS_L4_ERR (world s)) s in
      if has (s_flags s) SN_CURR_SESS then
        let s := set_s_flags (clrf (s_flags s) SN_CURR_SESS) s in
        update_server i (fun x => set_cur_sess (cur_sess x - 1) x) s
      else s
    | None => s
    end in
  let s := set_conn_retries (conn_retries s - 1) s in
  if conn_retries s <? 0 then
    let s :=
      if si_err_type (si1 s) =? 0 then
        set_si1 (set_si_err_loc (srv s)
                   (set_si_err_type SI_ET_CONN_ERR (si1 s))) s
      else s in
    let s :=
      match srv s with
      | Some i =>
        update_server i
          (fun x => set_srv_failed_conns (srv_failed_conns x + 1) x) s
      | None => s
      end in
    let s := set_be (set_px_counters
                       (set_failed_conns
                          (failed_conns (px_counters (be s)) + 1)
                          (px_counters (be s))) (be s)) s in
    let s := sess_change_server s None in
    let s := dequeue s in
    let s := si_shutw s in
    let s := set_req (set_flags (setf (flags (req s)) BF_WRITE_ERROR) (req s)) s in
    let s := set_rep (set_flags (setf (flags (rep s)) BF_READ_ERROR) (rep s)) s in
    let s := set_si1 (set_si_state_of SI_ST_CLO (si1 s)) s in
    let s := call_hook srv_error s in
    (0, s)
  else
    let s :=
      if bool_decide (srv s <> None) && (conn_retries s =? 0)
         && has (options (be s)) PR_O_REDISP
         && negb (has (s_flags s) SN_FORCE_PRST)
      then
        let s := sess_change_server s None in
        let s := dequeue s in
        let s := set_s_flags
                   (clrf (s_flags s)
                         (Z.lor (Z.lor SN_DIRECT SN_ASSIGNED) SN_ADDR_SET)) s in
        let s := set_prev_srv (srv s) s in
        set_si1 (set_si_state_of SI_ST_REQ (si1 s)) s
      else
        let s :=
          match srv s with
          | Some i =>
            update_server i (fun x => set_srv_retries (srv_retries x + 1) x) s
          | None => s
          end in
        let s := set_be (set_px_counters
                           (set_retries (retries (px_counters (be s)) + 1)
                                        (px_counters (be s))) (be s)) s in
        set_si1 (set_si_state_of SI_ST_ASS (si1 s)) s in
    if has (si_flags (si1 s)) SI_FL_ERR then
      let s :=
        if si_err_type (si1 s) =? 0
        then set_si1 (set_si_err_type SI_ET_CONN_ERR (si1 s)) s else s in
      let s := set_si1 (set_si_state_of SI_ST_TAR (si1 s)) s in
      let s := set_si1 (set_si_exp (tick_add now_ms (MS_TO_TICKS 1000))
                                   (si1 s)) s in
      (0, s)
    else (0, s).

(** The two counters of a server that sess_update_st_cer increments. *)
Definition srv_counts (x : server) : Z * Z :=
  (srv_failed_conns x, srv_retries x).

(** The test that sends the last retry to another server. *)
Definition redispatch_wanted (s : session ext) : bool :=
  bool_decide (srv s <> None) && (conn_retries s =? 1)
  && has (options (be s)) PR_O_REDISP
  && negb (has (s_flags s) SN_FORCE_PRST).

End Retry.

Arguments update_server {ext}.
Arguments sess_change_server {ext}.
Arguments dequeue {ext}.
Arguments si_shutw {ext}.
Arguments sess_update_st_cer {ext}.
Arguments redispatch_wanted {ext}.

(** A session on its last retry against server 0 of a redispatching
    backend, in a world without queues; [err] is the flag word of the
    server-side stream interface. *)
Definition plain_shutw (si : stream_interface) (ob ib : buffer) (x : unit)
  : stream_interface * buffer * buffer * unit :=
  (si, set_flags (setf (flags ob) BF_SHUTW) ob, ib, x).

Definition empty_buffer : buffer :=
  mkbuf BF_OUT_EMPTY 0 0 0 0 16 0 0 0 0 0 (repeat 0 16).

Definition no_counters : counters := mkcounters 0 0 0 0.

Definition last_retry_session (err : Z) : session unit :=
  mksession (Z.lor (Z.lor SN_DIRECT SN_ASSIGNED) (Z.lor SN_ADDR_SET SN_CURR_SESS))
            1 (Some 0%nat) None (Some 0%nat)
            (Sockaddr_raw 0) (Sockaddr_raw 0) empty_buffer empty_buffer
            (mksi SI_ST_CER 0 None err 0)
            (mkproxy 0 no_counters 0 [] 0)
            (mkproxy PR_O_REDISP no_counters 0 [] 0)
            None
            [mksrv (mksin AF_INET 0 0 (repeat 0 8)) SRV_RUNNING 1 1 0 0]
            tt.

Definition cer_on (s : session unit) : Z * session unit :=
  sess_update_st_cer (fun _ _ x => x) 0 (fun _ _ => false) (fun _ x => x)
                     None None plain_shutw (Some default_srv_error)
                     0 Z.add (fun ms => ms) s.

(* ===================================================================== *)
(** ** TCP content inspection (src/proto_tcp.c) *)
(* ===================================================================== *)

Inductive acl_pol := ACL_COND_IF | ACL_COND_UNLESS.
Inductive tcp_action := TCP_ACT_ACCEPT | TCP_ACT_REJECT.

(** What the loop over the rules does next: [return] from the function,
    or leave the loop (at its end or by [break]). *)
Inductive rule_exit (A : Type) := Rule_return (r : A) | Rule_done.
Arguments Rule_return {A}.
Arguments Rule_done {A}.

Section Inspect.

Variable ext : Type.

(** [struct tcp_rule]: the condition, if any, with its polarity, and the
    action.  The fetches of a condition sample the session. *)
Record tcp_rule := mkrule {
  rule_cond : option (acl_cond (session ext) * acl_pol);
  rule_action : tcp_action
}.

(** The inline helpers of proto/buffers.h and common/ticks.h, which are
    not among the sources. *)
Variable buffer_abort : buffer -> buffer.
Variable buffer_dont_connect : buffer -> buffer.
Variable tick_is_expired : Z -> Z -> bool.
Variable tick_isset : Z -> bool.
Variable tick_add_ifset : Z -> Z -> Z.
Variable TICK_ETERNITY : Z.
Variable now_ms : Z.

(** [s->fe->counters.X++; if (s->listener->counters)
    s->listener->counters->X++;] *)
Definition count_on_frontend (incr : counters -> counters) (s : session ext)
  : session ext :=
  let s := set_fe (set_px_counters (incr (px_counters (fe s))) (fe s)) s in
  match listener_counters s with
  | Some c => set_listener_counters (Some (incr c)) s
  | None => s
  end.

(** [if (!(s->flags & SN_ERR_MASK)) s->flags |= err;
     if (!(s->flags & SN_FINST_MASK)) s->flags |= fin;] *)
Definition set_term_flags (err fin : Z) (s : session ext) : session ext :=
  let s := if has (s_flags s) SN_ERR_MASK then s
           else set_s_flags (setf (s_flags s) err) s in
  if has (s_flags s) SN_FINST_MASK then s
  else set_s_flags (setf (s_flags s) fin) s.

(** The body of [if (ret)] for a reject rule, proto_tcp.c:692-704 *)
Definition inspect_reject (s : session ext) : Z * session ext :=
  let s := set_req (buffer_abort (req s)) s in
  let s := set_rep (buffer_abort (rep s)) s in
  let s := set_req (set_analysers 0 (req s)) s in
  let s := count_on_frontend
             (fun c => set_denied_req (denied_req c + 1) c) s in
  let s := set_term_flags SN_ERR_PRXCOND SN_FINST_R s in
  (0, s).

(** [list_for_each_entry(rule, &s->fe->tcp_req.inspect_rules, list)],
    proto_tcp.c:671.  [None]: a fetch did not settle within [fuel]. *)
Fixpoint inspect_each_rule (fuel : nat) (partial : Z) (rules : list tcp_rule)
         (s : session ext) : option (rule_exit (Z * session ext)) :=
  match rules with
  | [] => Some Rule_done
  | rule :: rules =>
    let verdict : option (Z + Z * session ext) :=
      match rule_cond rule with
      | Some (cond, pol) =>
        match acl_exec_cond fuel cond s (Z.lor ACL_DIR_REQ partial) with
        | None => None
        | Some ret =>
          if ret =? ACL_PAT_MISS then
            let s := set_req (buffer_dont_connect (req s)) s in
            let s :=
              if negb (tick_isset (analyse_exp (req s)))
                 && negb (inspect_delay (fe s) =? 0)
              then set_req (set_analyse_exp
                              (tick_add_ifset now_ms (inspect_delay (fe s)))
                              (req s)) s
              else s in
            Some (inr (0, s))
          else
            let ret := acl_pass ret in
            let ret := match pol with
                       | ACL_COND_UNLESS => if ret =? 0 then 1 else 0
                       | ACL_COND_IF => ret
                       end in
            Some (inl ret)
        end
      | None => Some (inl ACL_PAT_PASS)
      end in
    match verdict with
    | None => None
    | Some (inr r) => Some (Rule_return r)
    | Some (inl ret) =>
      if ret =? 0 then inspect_each_rule fuel partial rules s
      else
        match rule_action rule with
        | TCP_ACT_REJECT => Some (Rule_return (inspect_reject s))
        | TCP_ACT_ACCEPT => Some Rule_done
        end
    end
  end.

(** [tcp_inspect_request(s, req, an_bit)], proto_tcp.c:642, for
    [req == s->req]; [rules] is [s->fe->tcp_req.inspect_rules]. *)
Definition tcp_inspect_request (fuel : nat) (rules : list tcp_rule)
           (s : session ext) (an_bit : Z) : option (Z * session ext) :=
  let partial :=
    if has (flags (req s)) (Z.lor BF_SHUTR BF_FULL)
       || (inspect_delay (fe s) =? 0)
       || tick_is_expired (analyse_exp (req s)) now_ms
    then 0 else ACL_PARTIAL in
  match inspect_each_rule fuel partial rules s with
  | None => None
  | Some (Rule_return r) => Some r
  | Some Rule_done =>
    let s := set_req (set_analysers (clrf (analysers (req s)) an_bit)
                                    (req s)) s in
    let s := set_req (set_analyse_exp TICK_ETERNITY (req s)) s in
    Some (1, s)
  end.

(** The direction a call evaluates its conditions with. *)
Definition inspect_dir (s : session ext) : Z :=
  Z.lor ACL_DIR_REQ
        (if has (flags (req s)) (Z.lor BF_SHUTR BF_FULL)
            || (inspect_delay (fe s) =? 0)
            || tick_is_expired (analyse_exp (req s)) now_ms
         then 0 else ACL_PARTIAL).

(** A rule whose condition gives a definite answer on the session:
    [Some true] when it matches, [Some false] when it does not. *)
Definition rule_matches (fuel : nat) (s : session ext) (rule : tcp_rule)
  : option bool :=
  match rule_cond rule with
  | None => Some true
  | Some (cond, pol) =>
    match acl_exec_cond fuel cond s (inspect_dir s) with
    | Some ret =>
      if ret =? ACL_PAT_MISS then None
      else Some (match pol with
                 | ACL_COND_IF => negb (acl_pass ret =? 0)
                 | ACL_COND_UNLESS => acl_pass ret =? 0
                 end)
    | None => None
    end
  end.

End Inspect.

Arguments mkrule {ext}.
Arguments rule_cond {ext}.
Arguments rule_action {ext}.
Arguments count_on_frontend {ext}.
Arguments set_term_flags {ext}.
Arguments inspect_reject {ext}.
Arguments inspect_each_rule {ext}.
Arguments tcp_inspect_request {ext}.
Arguments inspect_dir {ext}.
Arguments rule_matches {ext}.

(** Instances of the missing inline helpers, for the examples: an abort
    schedules both shutdowns and forbids connecting; a tick is set when it
    is not 0 (TICK_ETERNITY). *)
Definition plain_abort (b : buffer) : buffer :=
  set_flags (clrf (setf (flags b) (Z.lor BF_SHUTR_NOW BF_SHUTW_NOW))
                  BF_AUTO_CONNECT) b.
Definition plain_dont_connect (b : buffer) : buffer :=
  set_flags (clrf (flags b) BF_AUTO_CONNECT) b.
Definition plain_tick_isset (t : Z) : bool := negb (t =? 0).
Definition plain_tick_is_expired (t now : Z) : bool :=
  plain_tick_isset t && (t - now <=? 0).
Definition plain_tick_add_ifset (now t : Z) : Z :=
  if t =? 0 then 0 else if now + t =? 0 then 1 else now + t.

Definition inspect_on (rules : list (tcp_rule unit)) (s : session unit)
  : option (Z * session unit) :=
  tcp_inspect_request plain_abort plain_dont_connect plain_tick_is_expired
                      plain_tick_isset plain_tick_add_ifset 0 0
                      1 rules s 2.

(** [tcp-request content reject if TRUE] and [tcp-request content accept] *)
Definition rule_reject_if_true : tcp_rule unit :=
  mkrule (Some ([[mkterm [mkexpr kw_always_true [] [] None] false]],
                ACL_COND_IF)) TCP_ACT_REJECT.
Definition rule_accept : tcp_rule unit := mkrule None TCP_ACT_ACCEPT.

(** A fresh client session with one byte to inspect, on a listener with
    counters; [fl] is the session flag word. *)
Definition inspected_session (fl : Z) : session unit :=
  mksession fl 3 None None None
            (Sockaddr_raw 0) (Sockaddr_raw 0)
            (mkbuf BF_AUTO_CONNECT 1 1 0 0 16 0 0 2 0 1 (65 :: repeat 0 15))
            empty_buffer
            (mksi SI_ST_INI 0 None 0 0)
            (mkproxy 0 no_counters 100 [] 0)
            (mkproxy 0 no_counters 0 [] 0)
            (Some no_counters)
            []
            tt.

(* ===================================================================== *)
(** ** RDP cookie persistence (src/proto_tcp.c) *)
(* ===================================================================== *)

(** [tolower(c)] in the C locale, on an [unsigned char] *)
Definition tolower (c : Z) : Z :=
  if (65 <=? c) && (c <=? 90) then c + 32 else c.

(** [strncasecmp(s1 + p1, s2 + p2, n) == 0] *)
Fixpoint strncasecmp_eq (n : nat) (m1 : list Z) (p1 : Z) (m2 : list Z) (p2 : Z)
  : bool :=
  match n with
  | O => true
  | S n =>
    let c1 := byte_at m1 p1 in
    let c2 := byte_at m2 p2 in
    if negb (tolower c1 =? tolower c2) then false
    else if c1 =? 0 then true
    else strncasecmp_eq n m1 (p1 + 1) m2 (p2 + 1)
  end.

(** [while (bleft > 0 && go(data[0])) { data++; bleft--; }] *)
Fixpoint scan_while (fuel : nat) (mem : list Z) (go : Z -> bool)
         (data bleft : Z) : Z * Z :=
  match fuel with
  | O => (data, bleft)
  | S fuel =>
    if (0 <? bleft) && go (byte_at mem data)
    then scan_while fuel mem go (data + 1) (bleft - 1)
    else (data, bleft)
  end.

(** The search for ['='] when no cookie name is configured,
    proto_tcp.c:1072; [None] is [goto not_cookie]. *)
Fixpoint scan_name (fuel : nat) (mem : list Z) (data bleft : Z)
  : option (Z * Z) :=
  match fuel with
  | O => Some (data, bleft)
  | S fuel =>
    if (0 <? bleft) && negb (byte_at mem data =? 61) then
      if (byte_at mem data =? 13) || (byte_at mem data =? 10) then None
      else scan_name fuel mem (data + 1) (bleft - 1)
    else Some (data, bleft)
  end.

Section RdpCookie.

Variable ext : Type.

(** [acl_fetch_rdp_cookie(px, l4, l7, dir, expr, test)],
    proto_tcp.c:1028, for a session with its request buffer; [arg_str]
    and [arg_len] are [expr->arg.str] and [expr->arg_len].  Pointers are
    offsets in the data area of the request buffer, which the function
    reads from [w] on without wrapping. *)
Definition acl_fetch_rdp_cookie (l4 : session ext) (dir : Z)
           (arg_str : list Z) (arg_len : Z) (test : acl_test)
  : Z * acl_test :=
  let mem := data (req l4) in
  let test := set_t_flags 0 test in
  let too_short := (0, set_t_flags ACL_TEST_F_MAY_CHANGE test) in
  let not_cookie := (0, test) in
  let bleft := l (req l4) in
  if bleft <=? 11 then too_short else
  let data := w (req l4) + 11 in
  let bleft := bleft - 11 in
  if bleft <=? 7 then too_short else
  if negb (strncasecmp_eq 7 mem data (bytes "Cookie:") 0) then not_cookie else
  let data := data + 7 in
  let bleft := bleft - 7 in
  let '(data, bleft) :=
    scan_while (Z.to_nat bleft) mem (fun c => c =? 32) data bleft in
  let after_name : option (Z + Z * Z) :=
    (* [inl 0]: too_short, [inl 1]: not_cookie, [inr]: go on *)
    if negb (arg_len =? 0) then
      if bleft <=? arg_len then Some (inl 0)
      else if negb (byte_at mem (data + arg_len) =? 61)
              || negb (strncasecmp_eq (Z.to_nat arg_len) arg_str 0 mem data)
      then Some (inl 1)
      else Some (inr (data + (arg_len + 1), bleft - (arg_len + 1)))
    else
      match scan_name (Z.to_nat bleft) mem data bleft with
      | None => Some (inl 1)
      | Some (data, bleft) =>
        if bleft <? 1 then Some (inl 0)
        else if negb (byte_at mem data =? 61) then Some (inl 1)
        else Some (inr (data + 1, bleft - 1))
      end in
  match after_name with
  | Some (inr (data, bleft)) =>
    let test := mktest (t_i test) data 0 (t_flags test) (t_ctx test) in
    let too_short := (0, set_t_flags ACL_TEST_F_MAY_CHANGE test) in
    let not_cookie := (0, test) in
    let '(data, bleft) :=
      scan_while (Z.to_nat bleft) mem (fun c => negb (c =? 13)) data bleft in
    if bleft <? 2 then too_short
    else if negb (byte_at mem data =? 13) || negb (byte_at mem (data + 1) =? 10)
    then not_cookie
    else (1, set_t_flags ACL_TEST_F_VOLATILE
               (set_t_len (data - t_ptr test) test))
  | Some (inl 0) => too_short
  | _ => not_cookie
  end.

(** The C library's [strtoul(mem + p, &end, 10)]: the value and [end]. *)
Variable strtoul : list Z -> Z -> Z * Z.
Variable TICK_ETERNITY : Z.

(** [memcmp(&addr, &(srv->addr), sizeof(addr)) == 0] *)
Definition sockaddr_in_eqb (a b : sockaddr_in) : bool :=
  (sin_family a =? sin_family b) && (sin_port a =? sin_port b)
  && (s_addr a =? s_addr b)
  && bool_decide (sin_zero a = sin_zero b).

(** [while (srv) { ... srv = srv->next; }], proto_tcp.c:769; [i] is the
    place of [srvs] in [px->srv]. *)
Fixpoint persist_assign (srvs : list server) (i : nat) (addr : sockaddr_in)
         (s : session ext) : session ext :=
  match srvs with
  | [] => s
  | srv0 :: srvs =>
    if sockaddr_in_eqb addr (srv_addr srv0)
       && (has (srv_state srv0) SRV_RUNNING
           || has (options (be s)) PR_O_PERSIST)
    then
      set_srv (Some i)
              (set_s_flags (setf (s_flags s) (Z.lor SN_DIRECT SN_ASSIGNED)) s)
    else persist_assign srvs (S i) addr s
  end.

(** The code between the entry and the label [no_cookie]. *)
Definition persist_lookup (s : session ext) : session ext :=
  if has (s_flags s) SN_ASSIGNED then s else
  let '(ret, test) :=
    acl_fetch_rdp_cookie s ACL_DIR_REQ (rdp_cookie_name (be s))
                         (rdp_cookie_len (be s)) test_zero in
  if (ret =? 0) || has (t_flags test) ACL_TEST_F_MAY_CHANGE
     || (t_len test =? 0)
  then s else
  let mem := data (req s) in
  let '(a, p) := strtoul mem (t_ptr test) in
  if negb (byte_at mem p =? 46) then s else
  let p := p + 1 in
  let '(port, p) := strtoul mem p in
  if negb (byte_at mem p =? 46) then s else
  let addr := mksin AF_INET (u16 port) (u32 a) (repeat 0 8) in
  persist_assign (servers s) 0 addr s.

(** [tcp_persist_rdp_cookie(s, req, an_bit)], proto_tcp.c:725, for
    [req == s->req] *)
Definition tcp_persist_rdp_cookie (s : session ext) (an_bit : Z)
  : Z * session ext :=
  let s := persist_lookup s in
  let s := set_req (set_analysers (clrf (analysers (req s)) an_bit) (req s)) s in
  let s := set_req (set_analyse_exp TICK_ETERNITY (req s)) s in
  (1, s).

(** What the label [no_cookie] does to a session. *)
Definition leave_analyser (an_bit : Z) (s : session ext) : session ext :=
  set_req (set_analyse_exp TICK_ETERNITY
             (set_analysers (clrf (analysers (req s)) an_bit) (req s))) s.

(** The cookie value the fetch extracted. *)
Definition cookie_value (s : session ext) (test : acl_test) : list Z :=
  take (Z.to_nat (t_len test)) (drop (Z.to_nat (t_ptr test)) (data (req s))).

End RdpCookie.

Arguments acl_fetch_rdp_cookie {ext}.
Arguments persist_assign {ext}.
Arguments persist_lookup {ext}.
Arguments tcp_persist_rdp_cookie {ext}.
Arguments leave_analyser {ext}.
Arguments cookie_value {ext}.

(** The C library's [strtoul] in base 10 where [unsigned long] has 64
    bits: white space, an optional sign, then digits; without a digit the
    end pointer is the start and the value 0, and digits beyond 64 bits
    give [ULONG_MAX] whatever the sign. *)
Definition isspace (c : Z) : bool := (c =? 32) || ((9 <=? c) && (c <=? 13)).
Definition isdigit (c : Z) : bool := (48 <=? c) && (c <=? 57).

Fixpoint strtoul_digits (fuel : nat) (mem : list Z) (p acc : Z) : Z * Z :=
  match fuel with
  | O => (acc, p)
  | S fuel =>
    let c := byte_at mem p in
    if isdigit c
    then strtoul_digits fuel mem (p + 1) (acc * 10 + (c - 48))
    else (acc, p)
  end.

Definition libc_strtoul (mem : list Z) (p : Z) : Z * Z :=
  let n := length mem in
  let '(q, _) := scan_while n mem isspace p (Z.of_nat n) in
  let '(negative, q) :=
    if byte_at mem q =? 45 then (true, q + 1)
    else if byte_at mem q =? 43 then (false, q + 1)
    else (false, q) in
  if isdigit (byte_at mem q) then
    let '(v, e) := strtoul_digits n mem q 0 in
    (if 2^64 - 1 <? v then 2^64 - 1 else if negative then u64 (- v) else v,
     e)
  else (0, p).

(** The form section 6 of the specification gives the cookie value:
    decimal-dotted [A.B.C.D.port], five groups of digits separated by
    dots. *)
Fixpoint split_dots (v : list Z) (cur : list Z) : list (list Z) :=
  match v with
  | [] => [rev cur]
  | c :: v => if c =? 46 then rev cur :: split_dots v []
              else split_dots v (c :: cur)
  end.

Definition is_dotted_quad_port (v : list Z) : bool :=
  let groups := split_dots v [] in
  (length groups =? 5)%nat
  && forallb (fun g => negb (length g =? 0)%nat && forallb isdigit g) groups.

(** An RDP connection request: the 11 bytes of the TPKT and X.224
    headers, then the cookie line; the backend persists on the cookie
    [msts] and has three servers: 127.0.0.1:80 and 1.2.3.4:80 with the
    address and port words as a little-endian host stores them, and
    1.2.3.4:80 as a big-endian host stores them. *)
Definition rdp_request (value : string) : list Z :=
  [3; 0; 0; 44; 39; 224; 0; 0; 0; 0; 0]
    ++ bytes ("Cookie: msts=" ++ value ++ CRLF)%string.

Definition rdp_servers : list server :=
  [ mksrv (mksin AF_INET 20480 16777343 (repeat 0 8)) SRV_RUNNING 0 0 0 0;
    mksrv (mksin AF_INET 20480 67305985 (repeat 0 8)) SRV_RUNNING 0 0 0 0;
    mksrv (mksin AF_INET 80 16909060 (repeat 0 8)) SRV_RUNNING 0 0 0 0 ].

Definition rdp_session (value : string) : session unit :=
  let d := rdp_request value in
  let n := Z.of_nat (length d) in
  mksession 0 3 None None None
            (Sockaddr_raw 0) (Sockaddr_raw 0)
            (mkbuf 0 n n 0 0 64 0 0 0x800 0 n (d ++ repeat 0 (64 - length d)))
            empty_buffer
            (mksi SI_ST_INI 0 None 0 0)
            (mkproxy 0 no_counters 0 [] 0)
            (mkproxy 0 no_counters 0 (bytes "msts") 4)
            None
            rdp_servers
            tt.

(* ===================================================================== *)
(** ** The PROXY line (src/client.c, src/buffers.c) *)
(* ===================================================================== *)

(** The [n] bytes at [p] *)
Definition mem_range (mem : list Z) (p n : Z) : list Z :=
  map (byte_at mem) (seqZ p n).

(** [memmove(data + dst, data + src, n)] *)
Definition memmove_at (d : list Z) (dst src n : Z) : list Z :=
  memcpy_at d dst (mem_range d src n) n.

Section Replace.

Variable buffer_max_len : buffer -> Z.

(** buffers.c:282, pointers as offsets from [b->data].  The function
    returns [delta], or 0 when there is no room. *)
Definition buffer_replace2 (b : buffer) (pos end_ : Z) (str : list Z)
           (len : Z) : Z * buffer :=
  let delta := len - (end_ - pos) in
  if size b <=? delta + r b then (0, b)
  else if (w b <? delta + r b) && (r b <=? w b) && negb (l b =? 0) then (0, b)
  else
    let b := set_data (memmove_at (data b) (end_ + delta) end_ (r b - end_)) b in
    let b := if len =? 0 then b
             else set_data (memcpy_at (data b) pos str len) b in
    let b := if pos <? r b then set_r (r b + delta) b else b in
    let b := if pos <? lr b then set_lr (lr b + delta) b else b in
    let b := set_l (l b + delta) b in
    let b := set_flags (clrf (flags b) BF_FULL) b in
    let b := if l b =? 0 then set_lr 0 (set_w 0 (set_r 0 b)) else b in
    let b := if buffer_max_len b <=? l b
             then set_flags (setf (flags b) BF_FULL) b else b in
    (delta, b).

End Replace.

(** The two labels the parser jumps to. *)
Inductive decode_exit := Goto_missing | Goto_fail.

(** The four values of a decoded line and the position after its CRLF. *)
Record proxy_line (A : Type) := mkline {
  pl_src : A;
  pl_dst : A;
  pl_sport : Z;
  pl_dport : Z;
  pl_end : Z
}.
Arguments mkline {A}.
Arguments pl_src {A}.
Arguments pl_dst {A}.
Arguments pl_sport {A}.
Arguments pl_dport {A}.
Arguments pl_end {A}.

(** The storage written as a [struct sockaddr_in]: [sin_family = AF_INET;
    sin_addr.s_addr = addr; sin_port = port].  The padding, which is not
    written, is kept
    when the storage already holds a [sockaddr_in] and is not tracked
    otherwise. *)
Definition store_sin (port addr : Z) (x : sockaddr) : sockaddr :=
  Sockaddr_inet
    (mksin AF_INET port addr
           (match x with Sockaddr_inet a => sin_zero a | _ => repeat 0 8 end)).

(** The same for [struct sockaddr_in6]: family, address and port. *)
Definition store_sin6 (port : Z) (addr : list Z) (x : sockaddr) : sockaddr :=
  Sockaddr_inet6 AF_INET6 port addr.

Section ProxyDecode.

Variable ext : Type.

(** Of common/standard.h only the declarations of these two are among the
    sources: [inetaddr_host_lim_ret(text, stop, &ret)] and
    [read_uint(&s, end)], as value and new position. *)
Variable inetaddr_host_lim_ret : list Z -> Z -> Z -> Z * Z.
Variable read_uint : list Z -> Z -> Z -> Z * Z.
(** The C library: byte order, and [inet_pton(AF_INET6, src, &dst)] with
    [Some dst] when it returns 1. *)
Variable htonl : Z -> Z.
Variable htons : Z -> Z.
Variable inet_pton6 : list Z -> Z -> option (list Z).
(** proto/buffers.h *)
Variable buffer_max_len : buffer -> Z.
Variable buffer_abort : buffer -> buffer.
Variable buffer_dont_connect : buffer -> buffer.

(** [strncmp(line, lit, len) != 0] for a literal without NUL in its
    first [len] bytes *)
Definition strncmp_ne (mem : list Z) (line : Z) (lit : list Z) (len : Z)
  : bool :=
  negb (bool_decide (mem_range mem line len = take (Z.to_nat len) lit)).

(** [!memcmp(line, lit, n) != 0] *)
Definition memcmp_eq (mem : list Z) (line : Z) (lit : list Z) (n : Z)
  : bool :=
  bool_decide (mem_range mem line n = take (Z.to_nat n) lit).

(** The TCP4 branch, client.c:95-118 *)
Definition decode_tcp4 (mem : list Z) (line end_ : Z)
  : decode_exit + proxy_line Z :=
  let '(src3, line) := inetaddr_host_lim_ret mem line end_ in
  if line =? end_ then inl Goto_missing
  else if negb (byte_at mem line =? 32) then inl Goto_fail
  else
    let line := line + 1 in
    let '(dst3, line) := inetaddr_host_lim_ret mem line end_ in
    if line =? end_ then inl Goto_missing
    else if negb (byte_at mem line =? 32) then inl Goto_fail
    else
      let line := line + 1 in
      let '(sport, line) := read_uint mem line end_ in
      if line =? end_ then inl Goto_missing
      else if negb (byte_at mem line =? 32) then inl Goto_fail
      else
        let line := line + 1 in
        let '(dport, line) := read_uint mem line end_ in
        if end_ - 2 <? line then inl Goto_missing
        else if negb (byte_at mem line =? 13) then inl Goto_fail
        else if negb (byte_at mem (line + 1) =? 10) then inl Goto_fail
        else inr (mkline src3 dst3 sport dport (line + 2)).

(** [if (!dst_s) dst_s = line+1; else if (!sport_s) sport_s = line+1;
     else if (!dport_s) dport_s = line+1;] *)
Definition next_field (line : Z) (f : option Z * option Z * option Z)
  : option Z * option Z * option Z :=
  match f with
  | (None, sport_s, dport_s) => (Some (line + 1), sport_s, dport_s)
  | (dst_s, None, dport_s) => (dst_s, Some (line + 1), dport_s)
  | (dst_s, sport_s, None) => (dst_s, sport_s, Some (line + 1))
  | f => f
  end.

(** The [while (1)] of the TCP6 branch, client.c:141-163; it writes a NUL
    over each space and over the CR.  [None]: out of fuel. *)
Fixpoint tcp6_fields (fuel : nat) (mem : list Z) (line end_ : Z)
         (f : option Z * option Z * option Z)
  : option (list Z * (decode_exit + (Z * (option Z * option Z * option Z)))) :=
  match fuel with
  | O => None
  | S fuel =>
    if end_ - 2 <? line then Some (mem, inl Goto_missing)
    else if byte_at mem line =? 13 then
      let mem := <[Z.to_nat line := 0]> mem in
      let line := line + 1 in
      if negb (byte_at mem line =? 10) then Some (mem, inl Goto_fail)
      else Some (mem, inr (line + 1, f))
    else if byte_at mem line =? 32 then
      tcp6_fields fuel (<[Z.to_nat line := 0]> mem) (line + 1) end_
                  (next_field line f)
    else tcp6_fields fuel mem (line + 1) end_ f
  end.

(** The TCP6 branch, client.c:130-180; the request data come back as the
    loop left them. *)
Definition decode_tcp6 (mem : list Z) (line end_ : Z)
  : option (list Z * (decode_exit + proxy_line (list Z))) :=
  let src_s := line in
  match tcp6_fields (S (Z.to_nat (end_ - line))) mem line end_
                    (None, None, None) with
  | None => None
  | Some (mem, inl e) => Some (mem, inl e)
  | Some (mem, inr (line, (Some dst_s, Some sport_s, Some dport_s))) =>
    let '(sport, sport_s') := read_uint mem sport_s (dport_s - 1) in
    if negb (byte_at mem sport_s' =? 0) then Some (mem, inl Goto_fail)
    else
      let '(dport, dport_s') := read_uint mem dport_s (line - 2) in
      if negb (byte_at mem dport_s' =? 0) then Some (mem, inl Goto_fail)
      else
        match inet_pton6 mem src_s with
        | None => Some (mem, inl Goto_fail)
        | Some src3 =>
          match inet_pton6 mem dst_s with
          | None => Some (mem, inl Goto_fail)
          | Some dst3 => Some (mem, inr (mkline src3 dst3 sport dport line))
          end
        end
  | Some (mem, inr _) => Some (mem, inl Goto_fail)
  end.

(** The label [fail], client.c:215-228 *)
Definition decode_fail (s : session ext) : Z * session ext :=
  let s := set_req (buffer_abort (req s)) s in
  let s := set_rep (buffer_abort (rep s)) s in
  let s := set_req (set_analysers 0 (req s)) s in
  let s := count_on_frontend
             (fun c => set_failed_req (failed_req c + 1) c) s in
  let s := set_term_flags SN_ERR_PRXCOND SN_FINST_R s in
  (0, s).

(** The label [missing], client.c:208-213, which falls through to [fail] *)
Definition decode_missing (s : session ext) : Z * session ext :=
  if negb (has (flags (req s)) (Z.lor BF_SHUTR BF_FULL))
  then (0, set_req (buffer_dont_connect (req s)) s)
  else decode_fail s.

Definition decode_exit_to (e : decode_exit) (s : session ext)
  : Z * session ext :=
  match e with Goto_missing => decode_missing s | Goto_fail => decode_fail s end.

(** client.c:200-206: the line is cut out of the request and the analyser
    leaves. *)
Definition decode_strip (line an_bit : Z) (s : session ext)
  : Z * session ext :=
  let len := line in
  let s := set_req (snd (buffer_replace2 buffer_max_len (req s) 0 line [] 0))
                   s in
  let s := set_req (set_total (u64 (total (req s) - len)) (req s)) s in
  let s := set_req (set_analysers (clrf (analysers (req s)) an_bit) (req s))
                   s in
  (1, s).

(** client.c:64; [req] is the request buffer of the session, the line is
    read at [req->data] and ends before [req->data + req->l]. *)
Definition frontend_decode_proxy_request (s : session ext) (an_bit : Z)
  : option (Z * session ext) :=
  let mem := data (req s) in
  let line := 0 in
  let end_ := l (req s) in
  if has (flags (req s)) (Z.lor BF_READ_ERROR BF_READ_TIMEOUT)
  then Some (decode_fail s)
  else
    let len := Z.min (l (req s)) 6 in
    if len =? 0 then Some (decode_missing s)
    else if strncmp_ne mem line (bytes "PROXY ") len then Some (decode_fail s)
    else
      let line := line + 6 in
      if l (req s) <? 18 then Some (decode_missing s)
      else if memcmp_eq mem line (bytes "TCP4 ") 5 then
        match decode_tcp4 mem (line + 5) end_ with
        | inl e => Some (decode_exit_to e s)
        | inr p =>
          let s := set_cli_addr (store_sin (htons (u16 (pl_sport p)))
                                           (htonl (pl_src p)) (cli_addr s))
                                s in
          let s := set_frt_addr (store_sin (htons (u16 (pl_dport p)))
                                           (htonl (pl_dst p)) (frt_addr s))
                                s in
          let s := set_s_flags (setf (s_flags s) SN_FRT_ADDR_SET) s in
          Some (decode_strip (pl_end p) an_bit s)
        end
      else if memcmp_eq mem line (bytes "TCP6 ") 5 then
        match decode_tcp6 mem (line + 5) end_ with
        | None => None
        | Some (mem, out) =>
          let s := set_req (set_data mem (req s)) s in
          match out with
          | inl e => Some (decode_exit_to e s)
          | inr p =>
            let s := set_cli_addr (store_sin6 (htons (u16 (pl_sport p)))
                                              (pl_src p) (cli_addr s)) s in
            let s := set_frt_addr (store_sin6 (htons (u16 (pl_dport p)))
                                              (pl_dst p) (frt_addr s)) s in
            let s := set_s_flags (setf (s_flags s) SN_FRT_ADDR_SET) s in
            Some (decode_strip (pl_end p) an_bit s)
          end
        end
      else Some (decode_fail s).

(** A complete TCP4 line at the start of [mem], as the parsers read it:
    the three spaces at [p1 < p2 < p3], the CRLF at [p4], the addresses
    and the ports, none of them empty, between them. *)
Definition tcp4_line (mem : list Z) (end_ : Z) (p : proxy_line Z) : Prop :=
  mem_range mem 0 11 = bytes "PROXY TCP4 "
  /\ exists p1 p2 p3 p4,
       (11 < p1 /\ p1 + 1 < p2 /\ p2 + 1 < p3 /\ p3 + 1 < p4
        /\ p4 + 2 <= end_)
       /\ inetaddr_host_lim_ret mem 11 end_ = (pl_src p, p1)
       /\ byte_at mem p1 = 32
       /\ inetaddr_host_lim_ret mem (p1 + 1) end_ = (pl_dst p, p2)
       /\ byte_at mem p2 = 32
       /\ read_uint mem (p2 + 1) end_ = (pl_sport p, p3)
       /\ byte_at mem p3 = 32
       /\ read_uint mem (p3 + 1) end_ = (pl_dport p, p4)
       /\ byte_at mem p4 = 13 /\ byte_at mem (p4 + 1) = 10
       /\ pl_end p = p4 + 2.

(** The NULs the TCP6 loop writes. *)
Definition tcp6_cut (mem : list Z) (ps : list Z) : list Z :=
  foldl (fun m p => <[Z.to_nat p := 0]> m) mem ps.

(** A complete TCP6 line at the start of [mem]: exactly three spaces, at
    [p1 < p2 < p3], before the CRLF at [p4]; the fields, none of them
    empty, are read once the NULs are in place. *)
Definition tcp6_line (mem : list Z) (end_ : Z) (p : proxy_line (list Z))
  : Prop :=
  mem_range mem 0 11 = bytes "PROXY TCP6 "
  /\ exists p1 p2 p3 p4,
       (11 < p1 /\ p1 + 1 < p2 /\ p2 + 1 < p3 /\ p3 + 1 < p4
        /\ p4 + 2 <= end_)
       /\ byte_at mem p1 = 32 /\ byte_at mem p2 = 32 /\ byte_at mem p3 = 32
       /\ byte_at mem p4 = 13 /\ byte_at mem (p4 + 1) = 10
       /\ (forall i, 11 <= i < p4 -> i <> p1 -> i <> p2 -> i <> p3 ->
             byte_at mem i <> 32 /\ byte_at mem i <> 13)
       /\ (let mem := tcp6_cut mem [p1; p2; p3; p4] in
           inet_pton6 mem 11 = Some (pl_src p)
           /\ inet_pton6 mem (p1 + 1) = Some (pl_dst p)
           /\ (exists e, read_uint mem (p2 + 1) p3 = (pl_sport p, e)
                         /\ byte_at mem e = 0)
           /\ (exists e, read_uint mem (p3 + 1) p4 = (pl_dport p, e)
                         /\ byte_at mem e = 0))
       /\ pl_end p = p4 + 2.


End ProxyDecode.

Arguments decode_fail {ext}.
Arguments decode_missing {ext}.
Arguments decode_exit_to {ext}.
Arguments decode_strip {ext}.
Arguments frontend_decode_proxy_request {ext}.

(** The request [b'] is [b] without its first [n] bytes, and without the
    analyser [an_bit]. *)
Definition line_removed (n an_bit : Z) (b b' : buffer) : Prop :=
  l b' = l b - n /\ w b' = 0 /\ r b' = l b - n
  /\ mem_range (data b') 0 (l b - n) = mem_range (data b) n (l b - n)
  /\ total b' = u64 (total b - n)
  /\ analysers b' = clrf (analysers b) an_bit
  /\ clrf (flags b') BF_FULL = clrf (flags b) BF_FULL
  /\ size b' = size b /\ send_max b' = send_max b
  /\ to_forward b' = to_forward b /\ analyse_exp b' = analyse_exp b.

(** [__read_uint] of common/standard.h, of which [read_uint] is the
    out-of-line copy: decimal digits up to [end], the sum wrapping at 32
    bits.  The loop runs at most [end - s] times. *)
Fixpoint read_uint_loop (n : nat) (mem : list Z) (ptr end_ i : Z) : Z * Z :=
  match n with
  | O => (i, ptr)
  | S n =>
    if ptr <? end_ then
      let j := u32 (byte_at mem ptr - 48) in
      let k := u32 (i * 10) in
      if 9 <? j then (i, ptr)
      else read_uint_loop n mem (ptr + 1) end_ (u32 (k + j))
    else (i, ptr)
  end.

Definition __read_uint (mem : list Z) (s end_ : Z) : Z * Z :=
  read_uint_loop (Z.to_nat (end_ - s)) mem s end_ 0.

(** Modelled from the spec: the addresses of the PROXY line are "in
    standard text form", [inetaddr_host_lim_ret] (standard.c, not among
    the sources) reads one up to [stop]: decimal groups separated by dots,
    the first group in the high byte of the host-order word; it stops at
    the first byte that is neither a digit nor a dot. *)
Fixpoint inetaddr_loop (n : nat) (mem : list Z) (p stop acc cur : Z) : Z * Z :=
  match n with
  | O => (u32 (acc * 256 + cur), p)
  | S n =>
    if p <? stop then
      let c := byte_at mem p in
      if isdigit c then
        inetaddr_loop n mem (p + 1) stop acc (cur * 10 + (c - 48))
      else if c =? 46 then
        inetaddr_loop n mem (p + 1) stop (acc * 256 + cur) 0
      else (u32 (acc * 256 + cur), p)
    else (u32 (acc * 256 + cur), p)
  end.

Definition dotted_inetaddr (mem : list Z) (text stop : Z) : Z * Z :=
  inetaddr_loop (Z.to_nat (stop - text)) mem text stop 0 0.

(** [htons] and [htonl] of a little-endian host *)
Definition bswap16 (x : Z) : Z := (x mod 256) * 256 + (x / 256) mod 256.
Definition bswap32 (x : Z) : Z :=
  bswap16 (x mod 65536) * 65536 + bswap16 (x / 65536).

(** [inet_pton(AF_INET6, ...)] on the uncompressed text form only: eight
    groups of one to four hexadecimal digits separated by colons and ended
    by a NUL, to sixteen bytes. *)
Definition hexval (c : Z) : option Z :=
  if isdigit c then Some (c - 48)
  else if (97 <=? c) && (c <=? 102) then Some (c - 87)
  else if (65 <=? c) && (c <=? 70) then Some (c - 55)
  else None.

Fixpoint hex_groups (n : nat) (mem : list Z) (p : Z) (cur : Z) (digits : nat)
         (acc : list Z) : option (list Z) :=
  match n with
  | O => None
  | S n =>
    let c := byte_at mem p in
    match hexval c with
    | Some v =>
      if (digits <? 4)%nat
      then hex_groups n mem (p + 1) (cur * 16 + v) (S digits) acc
      else None
    | None =>
      if (0 <? digits)%nat then
        let acc := acc ++ [cur / 256; cur mod 256] in
        if c =? 58 then hex_groups n mem (p + 1) 0 0%nat acc
        else if (c =? 0) && (length acc =? 16)%nat then Some acc
        else None
      else None
    end
  end.

Definition hex_inet_pton6 (mem : list Z) (src : Z) : option (list Z) :=
  hex_groups 40 mem src 0 0%nat [].

(** A request buffer of 128 bytes (limit 112) that has received [content]
    at its start, in a fresh client session on a listener with counters;
    [fl] are the flags of the buffer. *)
Definition proxy_session (fl : Z) (content : string) : session unit :=
  let d := bytes content in
  let n := Z.of_nat (length d) in
  mksession 0 3 None None None
            (Sockaddr_raw 0) (Sockaddr_raw 0)
            (mkbuf (Z.lor fl BF_AUTO_CONNECT) n n 0 0 128 0 0 1 0 n
                   (d ++ repeat 0 (128 - length d)))
            empty_buffer
            (mksi SI_ST_INI 0 None 0 0)
            (mkproxy 0 no_counters 0 [] 0)
            (mkproxy 0 no_counters 0 [] 0)
            (Some no_counters)
            []
            tt.

(** What the label [fail] leaves of the session [s], whose request data
    are [d] by then: both buffers aborted, no request analyser left, one
    more failed request on the frontend and on a listener with counters,
    the error class and the finish stage recorded unless one already is. *)
Definition decode_failed {ext : Type} (buffer_abort : buffer -> buffer)
           (d : list Z) (s s' : session ext) : Prop :=
  req s' = set_analysers 0 (buffer_abort (set_data d (req s)))
  /\ rep s' = buffer_abort (rep s)
  /\ failed_req (px_counters (fe s')) = failed_req (px_counters (fe s)) + 1
  /\ listener_counters s'
     = (fun c => set_failed_req (failed_req c + 1) c) <$> listener_counters s
  /\ Z.land (s_flags s') SN_ERR_MASK
     = (if has (s_flags s) SN_ERR_MASK then Z.land (s_flags s) SN_ERR_MASK
        else SN_ERR_PRXCOND)
  /\ Z.land (s_flags s') SN_FINST_MASK
     = (if has (s_flags s) SN_FINST_MASK
        then Z.land (s_flags s) SN_FINST_MASK else SN_FINST_R)
  /\ cli_addr s' = cli_addr s /\ frt_addr s' = frt_addr s.

(** The line is incomplete before its protocol can be told: nothing has
    arrived, or fewer than 18 bytes that begin as [PROXY ] does. *)
Definition short_read (b : buffer) : Prop :=
  l b = 0
  \/ (l b < 18
      /\ mem_range (data b) 0 (Z.min (l b) 6)
         = take (Z.to_nat (Z.min (l b) 6)) (bytes "PROXY ")).

(** The first bytes cannot begin a PROXY line of either protocol. *)
Definition not_proxy (b : buffer) : Prop :=
  (0 < l b
   /\ mem_range (data b) 0 (Z.min (l b) 6)
      <> take (Z.to_nat (Z.min (l b) 6)) (bytes "PROXY "))
  \/ (18 <= l b
      /\ mem_range (data b) 6 5 <> bytes "TCP4 "
      /\ mem_range (data b) 6 5 <> bytes "TCP6 ").

Definition decode_on (s : session unit) : option (Z * session unit) :=
  frontend_decode_proxy_request dotted_inetaddr __read_uint bswap32 bswap16
                                hex_inet_pton6 (reserve_max_len 16 (-1))
                                plain_abort plain_dont_connect s 1.

(** The remaining content of a buffer that holds its data at the start of
    the storage. *)
Definition content (b : buffer) : list Z := mem_range (data b) 0 (l b).

(** The session once [more] bytes have arrived in its request
    ([buffer_feed2], buffers.c:138). *)
Definition receive (more : string) (s : session unit) : session unit :=
  match buffer_feed2 (reserve_max_len 16 (-1)) (-1) (req s) (bytes more)
                     (Z.of_nat (length (bytes more))) with
  | Some (_, b) => set_req b s
  | None => s
  end.

Definition proxy4_example : string :=
  ("PROXY TCP4 192.0.2.1 198.51.100.2 35000 443" ++ CRLF
   ++ "GET / HTTP/1.0" ++ CRLF ++ CRLF)%string.

Definition proxy6_example : string :=
  ("PROXY TCP6 2001:db8:0:0:0:0:0:1 2001:db8:0:0:0:0:0:2 35000 443" ++ CRLF
   ++ "GET / HTTP/1.0" ++ CRLF ++ CRLF)%string.

(** The TCP6 example cut after the first two digits of the source port. *)
Definition proxy6_first : string :=
  "PROXY TCP6 2001:db8:0:0:0:0:0:1 2001:db8:0:0:0:0:0:2 35"%string.
Definition proxy6_rest : string :=
  ("000 443" ++ CRLF ++ "GET / HTTP/1.0" ++ CRLF ++ CRLF)%string.

(** The addresses of the examples: 192.0.2.1 and 198.51.100.2 as host
    words, 2001:db8::1 and 2001:db8::2 as bytes. *)
Definition example_src4 : Z := 0xC0000201.
Definition example_dst4 : Z := 0xC6336402.
Definition example_src6 : list Z := [32; 1; 13; 184] ++ repeat 0 11 ++ [1].
Definition example_dst6 : list Z := [32; 1; 13; 184] ++ repeat 0 11 ++ [2].

(* ===================================================================== *)
(** ** The PROXY line: incomplete, malformed or accepted *)
(* ===================================================================== *)

Section ProxyLines.

Variable inetaddr_host_lim_ret : list Z -> Z -> Z -> Z * Z.
Variable read_uint : list Z -> Z -> Z -> Z * Z.
Variable inet_pton6 : list Z -> Z -> option (list Z).

(** Where the four readers of a TCP4 line stop: the two addresses and
    the two ports, the first read behind [PROXY TCP4 ] and each of the
    others behind the byte at which the one before stopped. *)
Definition tcp4_stops (mem : list Z) (end_ : Z) : Z * Z * Z * Z :=
  let p1 := snd (inetaddr_host_lim_ret mem 11 end_) in
  let p2 := snd (inetaddr_host_lim_ret mem (p1 + 1) end_) in
  let p3 := snd (read_uint mem (p2 + 1) end_) in
  let p4 := snd (read_uint mem (p3 + 1) end_) in
  (p1, p2, p3, p4).

(** A TCP4 line is incomplete when one of its first three fields, its
    spaces before it in place, runs to the end of the data, or when
    fewer than two bytes are left behind the fourth. *)
Definition tcp4_incomplete (mem : list Z) (end_ : Z) : Prop :=
  let '(p1, p2, p3, p4) := tcp4_stops mem end_ in
  p1 = end_
  \/ (byte_at mem p1 = 32
      /\ (p2 = end_
          \/ (byte_at mem p2 = 32
              /\ (p3 = end_
                  \/ (byte_at mem p3 = 32 /\ end_ - 2 < p4))))).

(** It is malformed when a field that stops before the end of the data
    is not followed by its separator: a space behind each of the first
    three fields, CR LF behind the fourth. *)
Definition tcp4_malformed (mem : list Z) (end_ : Z) : Prop :=
  let '(p1, p2, p3, p4) := tcp4_stops mem end_ in
  p1 <> end_
  /\ (byte_at mem p1 <> 32
      \/ (p2 <> end_
          /\ (byte_at mem p2 <> 32
              \/ (p3 <> end_
                  /\ (byte_at mem p3 <> 32
                      \/ (p4 <= end_ - 2
                          /\ (byte_at mem p4 <> 13
                              \/ byte_at mem (p4 + 1) <> 10))))))).

(** It is accepted, with the values the readers gave, when every
    separator is in place; no field has to hold a digit. *)
Definition tcp4_accepted (mem : list Z) (end_ : Z) (p : proxy_line Z)
  : Prop :=
  let '(p1, p2, p3, p4) := tcp4_stops mem end_ in
  p1 <> end_ /\ byte_at mem p1 = 32
  /\ p2 <> end_ /\ byte_at mem p2 = 32
  /\ p3 <> end_ /\ byte_at mem p3 = 32
  /\ p4 <= end_ - 2 /\ byte_at mem p4 = 13 /\ byte_at mem (p4 + 1) = 10
  /\ p = mkline (fst (inetaddr_host_lim_ret mem 11 end_))
                (fst (inetaddr_host_lim_ret mem (p1 + 1) end_))
                (fst (read_uint mem (p2 + 1) end_))
                (fst (read_uint mem (p3 + 1) end_))
                (p4 + 2).

(** The positions of the spaces among the [n] bytes from [a] on, in
    ascending order. *)
Fixpoint spaces_from (n : nat) (mem : list Z) (a : Z) : list Z :=
  match n with
  | O => []
  | S n =>
    if byte_at mem a =? 32 then a :: spaces_from n mem (a + 1)
    else spaces_from n mem (a + 1)
  end.

Definition spaces_in (mem : list Z) (a b : Z) : list Z :=
  spaces_from (Z.to_nat (b - a)) mem a.

(** A TCP6 line ends at the first CR that has two bytes left from it on;
    it is incomplete while there is none. *)
Definition tcp6_line_end (mem : list Z) (end_ q : Z) : Prop :=
  11 <= q <= end_ - 2 /\ byte_at mem q = 13
  /\ forall i, 11 <= i < q -> byte_at mem i <> 13.

Definition tcp6_incomplete (mem : list Z) (end_ : Z) : Prop :=
  forall i, 11 <= i <= end_ - 2 -> byte_at mem i <> 13.

(** The request data as the TCP6 loop leaves them: a NUL over every
    space it met, up to the last byte it looked at for an incomplete
    line, and over the CR for a line that ends at [q]. *)
Definition tcp6_waiting (mem : list Z) (end_ : Z) : list Z :=
  tcp6_cut mem (spaces_in mem 11 (end_ - 1)).

Definition tcp6_ended (mem : list Z) (q : Z) : list Z :=
  tcp6_cut mem (spaces_in mem 11 q ++ [q]).

(** A TCP6 line that ends at [q] is accepted when LF follows the CR, at
    least three spaces come before it, the digits of each port run up to
    the NUL behind it and [inet_pton] takes both addresses; the first
    three spaces part the fields, and the destination port is read up to
    the fourth when there are more. *)
Definition tcp6_accepted (mem : list Z) (end_ : Z) (p : proxy_line (list Z))
  : Prop :=
  exists q p1 p2 p3 more,
    tcp6_line_end mem end_ q /\ byte_at mem (q + 1) = 10
    /\ spaces_in mem 11 q = p1 :: p2 :: p3 :: more
    /\ (let d := tcp6_ended mem q in
        (exists e, read_uint d (p2 + 1) p3 = (pl_sport p, e)
                   /\ byte_at d e = 0)
        /\ (exists e, read_uint d (p3 + 1) q = (pl_dport p, e)
                      /\ byte_at d e = 0)
        /\ inet_pton6 d 11 = Some (pl_src p)
        /\ inet_pton6 d (p1 + 1) = Some (pl_dst p))
    /\ pl_end p = q + 2.

(** It is malformed when one of these fails. *)
Definition tcp6_malformed (mem : list Z) (end_ q : Z) : Prop :=
  tcp6_line_end mem end_ q
  /\ (byte_at mem (q + 1) <> 10
      \/ (length (spaces_in mem 11 q) < 3)%nat
      \/ exists p1 p2 p3 more,
           spaces_in mem 11 q = p1 :: p2 :: p3 :: more
           /\ let d := tcp6_ended mem q in
              byte_at d (snd (read_uint d (p2 + 1) p3)) <> 0
              \/ byte_at d (snd (read_uint d (p3 + 1) q)) <> 0
              \/ inet_pton6 d 11 = None
              \/ inet_pton6 d (p1 + 1) = None).

End ProxyLines.

(** Further lines: a comma where the first space belongs; a line that
    stops within the second address; a source port beyond 16 bits before
    an empty destination port; a letter behind the destination port of
    the TCP6 example. *)
Definition proxy4_comma : string :=
  ("PROXY TCP4 192.0.2.1,198.51.100.2 35000 443" ++ CRLF)%string.
Definition proxy4_first : string := "PROXY TCP4 192.0.2.1 198.5"%string.
Definition proxy4_lax : string :=
  ("PROXY TCP4 192.0.2.1 198.51.100.2 99999 " ++ CRLF)%string.
Definition proxy6_letter : string :=
  ("PROXY TCP6 2001:db8:0:0:0:0:0:1 2001:db8:0:0:0:0:0:2 35000 443x" ++ CRLF)%string.

(* ===================================================================== *)
(** ** Buffers: inserting a line (src/buffers.c) *)
(* ===================================================================== *)

Section InsertLine.

Variable buffer_max_len : buffer -> Z.

(** [buffer_insert_line2(b, pos, str, len)], buffers.c:325, pointers as
    offsets from [b->data]; [str] is [None] for a null pointer. *)
Definition buffer_insert_line2 (b : buffer) (pos : Z)
           (str : option (list Z)) (len : Z) : Z * buffer :=
  let delta := len + 2 in
  if size b <=? delta + r b then (0, b)
  else
    let b := set_data (memmove_at (data b) (pos + delta) pos (r b - pos)) b in
    let b :=
      match str with
      | Some s =>
        if len =? 0 then b
        else
          let d := memcpy_at (data b) pos s len in
          let d := <[Z.to_nat (pos + len) := 13]> d in
          let d := <[Z.to_nat (pos + len + 1) := 10]> d in
          set_data d b
      | None => b
      end in
    let b := if pos <? r b then set_r (r b + delta) b else b in
    let b := if pos <? lr b then set_lr (lr b + delta) b else b in
    let b := set_l (l b + delta) b in
    let b := set_flags (clrf (flags b) BF_FULL) b in
    let b := if buffer_max_len b <=? l b
             then set_flags (setf (flags b) BF_FULL) b else b in
    (delta, b).

End InsertLine.

(* ===================================================================== *)
(** ** ACL matching: delimiters (src/acl.c) *)
(* ===================================================================== *)

(** [is_delimiter(c, mask)], acl.c:265: [c] is an [unsigned char], the
    word 32 bits wide. *)
Definition is_delimiter (c mask : Z) : Z :=
  let mask := Z.lxor mask (u32 (c * 0x01010101)) in
  Z.land (Z.land (u32 (mask - 0x01010101)) (u32 (Z.lnot mask))) 0x80808080.

(** [make_4delim(d1, d2, d3, d4)], acl.c:271 *)
Definition make_4delim (d1 d2 d3 d4 : Z) : Z :=
  u32 (Z.lor (Z.lor (Z.lor (Z.shiftl d1 24) (Z.shiftl d2 16))
                    (Z.shiftl d3 8)) d4).

(* ===================================================================== *)
(** ** ACL matching: strings (src/acl.c) *)
(* ===================================================================== *)

(** [strncmp(m1 + p1, m2 + p2, n) == 0] *)
Fixpoint strncmp_eq (n : nat) (m1 : list Z) (p1 : Z) (m2 : list Z) (p2 : Z)
  : bool :=
  match n with
  | O => true
  | S n =>
    let c1 := byte_at m1 p1 in
    let c2 := byte_at m2 p2 in
    if negb (c1 =? c2) then false
    else if c1 =? 0 then true
    else strncmp_eq n m1 (p1 + 1) m2 (p2 + 1)
  end.

(** [struct acl_pattern], the fields the string matchers read: the
    string [ptr.str], allocated on its own, its length and the flags. *)
Record str_pattern := mkspat {
  sp_str : list Z;
  sp_len : Z;
  sp_flags : Z
}.

Section StringMatch.

(** The flag of types/acl.h, which is not among the sources. *)
Variable ACL_PAT_F_IGNORE_CASE : Z.

(** The memory the sample points into. *)
Variable mem : list Z.

(** [(icase && strncasecmp(pattern->ptr.str, p, n) == 0) ||
     (!icase && strncmp(pattern->ptr.str, p, n) == 0)] *)
Definition same_n (pattern : str_pattern) (n : Z) (p : Z) : bool :=
  let icase := has (sp_flags pattern) ACL_PAT_F_IGNORE_CASE in
  (icase && strncasecmp_eq (Z.to_nat n) (sp_str pattern) 0 mem p)
  || (negb icase && strncmp_eq (Z.to_nat n) (sp_str pattern) 0 mem p).

(** [(icase && strncasecmp(pattern->ptr.str, p, n) != 0) ||
     (!icase && strncmp(pattern->ptr.str, p, n) != 0)] *)
Definition differ_n (pattern : str_pattern) (n : Z) (p : Z) : bool :=
  let icase := has (sp_flags pattern) ACL_PAT_F_IGNORE_CASE in
  (icase && negb (strncasecmp_eq (Z.to_nat n) (sp_str pattern) 0 mem p))
  || (negb icase
      && negb (strncmp_eq (Z.to_nat n) (sp_str pattern) 0 mem p)).

(** [acl_match_str], acl.c:122 *)
Definition acl_match_str (test : acl_test) (pattern : str_pattern) : Z :=
  if negb (sp_len pattern =? t_len test) then ACL_PAT_FAIL
  else if same_n pattern (t_len test) (t_ptr test) then ACL_PAT_PASS
  else ACL_PAT_FAIL.

(** [acl_match_beg], acl.c:194 *)
Definition acl_match_beg (test : acl_test) (pattern : str_pattern) : Z :=
  if t_len test <? sp_len pattern then ACL_PAT_FAIL
  else if differ_n pattern (sp_len pattern) (t_ptr test) then ACL_PAT_FAIL
  else ACL_PAT_PASS.

(** [acl_match_end], acl.c:209 *)
Definition acl_match_end (test : acl_test) (pattern : str_pattern) : Z :=
  if t_len test <? sp_len pattern then ACL_PAT_FAIL
  else if differ_n pattern (sp_len pattern)
                   (t_ptr test + t_len test - sp_len pattern)
       then ACL_PAT_FAIL
  else ACL_PAT_PASS.

(** The two loops [for (c = test->ptr; c <= end; c++)] of acl_match_sub,
    acl.c:237 and 244; [n] counts the positions left up to [end]. *)
Fixpoint match_sub_loop (n : nat) (icase : bool) (pattern : str_pattern)
         (c : Z) : Z :=
  match n with
  | O => ACL_PAT_FAIL
  | S n =>
    if icase then
      if negb (tolower (byte_at mem c) =? tolower (byte_at (sp_str pattern) 0))
      then match_sub_loop n icase pattern (c + 1)
      else if strncasecmp_eq (Z.to_nat (sp_len pattern)) (sp_str pattern) 0
                             mem c
           then ACL_PAT_PASS
           else match_sub_loop n icase pattern (c + 1)
    else
      if negb (byte_at mem c =? byte_at (sp_str pattern) 0)
      then match_sub_loop n icase pattern (c + 1)
      else if strncmp_eq (Z.to_nat (sp_len pattern)) (sp_str pattern) 0 mem c
           then ACL_PAT_PASS
           else match_sub_loop n icase pattern (c + 1)
  end.

(** [acl_match_sub], acl.c:225 *)
Definition acl_match_sub (test : acl_test) (pattern : str_pattern) : Z :=
  if t_len test <? sp_len pattern then ACL_PAT_FAIL
  else
    let end_ := t_ptr test + t_len test - sp_len pattern in
    let icase := has (sp_flags pattern) ACL_PAT_F_IGNORE_CASE in
    match_sub_loop (Z.to_nat (end_ - t_ptr test + 1)) icase pattern
                   (t_ptr test).

(** [while (pl > 0 && is_delimiter(ps[0], delimiters)) { pl--; ps++; }],
    acl.c:292 *)
Fixpoint strip_front (n : nat) (delimiters : Z) (str : list Z) (ps pl : Z)
  : Z * Z :=
  match n with
  | O => (ps, pl)
  | S n =>
    if (0 <? pl) && negb (is_delimiter (byte_at str ps) delimiters =? 0)
    then strip_front n delimiters str (ps + 1) (pl - 1)
    else (ps, pl)
  end.

(** [while (pl > 0 && is_delimiter(ps[pl - 1], delimiters)) pl--;],
    acl.c:297 *)
Fixpoint strip_back (n : nat) (delimiters : Z) (str : list Z) (ps pl : Z)
  : Z :=
  match n with
  | O => pl
  | S n =>
    if (0 <? pl)
       && negb (is_delimiter (byte_at str (ps + (pl - 1))) delimiters =? 0)
    then strip_back n delimiters str ps (pl - 1)
    else pl
  end.

(** The test on a position where a word may start, acl.c:316 and 321 *)
Definition word_hit (icase : bool) (delimiters : Z) (str : list Z)
           (ps pl : Z) (end_ : Z) (c : Z) : bool :=
  if icase then
    (tolower (byte_at mem c) =? tolower (byte_at str ps))
    && strncasecmp_eq (Z.to_nat pl) str ps mem c
    && ((c =? end_)
        || negb (is_delimiter (byte_at mem (c + pl)) delimiters =? 0))
  else
    (byte_at mem c =? byte_at str ps)
    && strncmp_eq (Z.to_nat pl) str ps mem c
    && ((c =? end_)
        || negb (is_delimiter (byte_at mem (c + pl)) delimiters =? 0)).

(** The loop of match_word, acl.c:306; [n] counts the positions left up
    to [end]. *)
Fixpoint match_word_loop (n : nat) (icase : bool) (delimiters : Z)
         (str : list Z) (ps pl : Z) (end_ : Z) (c : Z) (may_match : bool)
  : Z :=
  match n with
  | O => ACL_PAT_FAIL
  | S n =>
    if negb (is_delimiter (byte_at mem c) delimiters =? 0) then
      match_word_loop n icase delimiters str ps pl end_ (c + 1) true
    else if negb may_match then
      match_word_loop n icase delimiters str ps pl end_ (c + 1) may_match
    else if word_hit icase delimiters str ps pl end_ c then ACL_PAT_PASS
    else match_word_loop n icase delimiters str ps pl end_ (c + 1) false
  end.

(** [match_word(test, pattern, delimiters)], acl.c:282 *)
Definition match_word (test : acl_test) (pattern : str_pattern)
           (delimiters : Z) : Z :=
  let pl := sp_len pattern in
  let '(ps, pl) :=
    strip_front (Z.to_nat pl) delimiters (sp_str pattern) 0 pl in
  let pl := strip_back (Z.to_nat pl) delimiters (sp_str pattern) ps pl in
  if t_len test <? pl then ACL_PAT_FAIL
  else
    let icase := has (sp_flags pattern) ACL_PAT_F_IGNORE_CASE in
    let end_ := t_ptr test + t_len test - pl in
    match_word_loop (Z.to_nat (end_ - t_ptr test + 1)) icase delimiters
                    (sp_str pattern) ps pl end_ (t_ptr test) true.

(** [acl_match_dir] and [acl_match_dom], acl.c:335 and 344 *)
Definition acl_match_dir (test : acl_test) (pattern : str_pattern) : Z :=
  match_word test pattern (make_4delim 47 63 63 63).

Definition acl_match_dom (test : acl_test) (pattern : str_pattern) : Z :=
  match_word test pattern (make_4delim 47 63 46 58).

End StringMatch.

(** Two bytes compared as the matchers compare them. *)
Definition same_char (icase : bool) (a b : Z) : bool :=
  if icase then tolower a =? tolower b else a =? b.

(** The [pl] bytes of [str] from [ps] on stand at [pos] in [mem]. *)
Definition occurs_at (icase : bool) (str : list Z) (ps pl : Z)
           (mem : list Z) (pos : Z) : Prop :=
  forall i, 0 <= i < pl ->
            same_char icase (byte_at str (ps + i)) (byte_at mem (pos + i))
            = true.

(** A string free of NUL in its [pl] bytes from [ps] on. *)
Definition no_nul (str : list Z) (ps pl : Z) : Prop :=
  forall i, 0 <= i < pl -> byte_at str (ps + i) <> 0.

(* ===================================================================== *)
(** ** ACL patterns: integers and versions (src/acl.c) *)
(* ===================================================================== *)

(** [acl_match_int], acl.c:350 *)
Definition acl_match_int (test : acl_test) (pattern : acl_pattern) : Z :=
  if (negb (min_set pattern) || (range_min pattern <=? t_i test))
     && (negb (max_set pattern) || (t_i test <=? range_max pattern))
  then ACL_PAT_PASS else ACL_PAT_FAIL.

(** [acl_match_len], acl.c:359 *)
Definition acl_match_len (test : acl_test) (pattern : acl_pattern) : Z :=
  if (negb (min_set pattern) || (range_min pattern <=? t_len test))
     && (negb (max_set pattern) || (t_len test <=? range_max pattern))
  then ACL_PAT_PASS else ACL_PAT_FAIL.

(** [acl_match_ip], acl.c:367: [s_addr] is the word the sample points
    to, [addr] and [mask] are [pattern->val.ipv4]. *)
Definition acl_match_ip (test : acl_test) (s_addr : Z) (addr mask : Z) : Z :=
  if negb (t_i test =? AF_INET) then ACL_PAT_FAIL
  else if Z.land (Z.lxor s_addr addr) mask =? 0 then ACL_PAT_PASS
  else ACL_PAT_FAIL.

(** [strcmp(str + p, lit) == 0], for a literal without NUL: the bytes of
    the literal and then the terminator. *)
Definition strcmp_eq (str : list Z) (p : Z) (lit : list Z) : bool :=
  bool_decide (mem_range str p (Z.of_nat (length lit) + 1) = lit ++ [0]).

(** The words of a configuration line, [const char **text]: each a
    string of its own that ends with the NUL a read past its bytes gives;
    past the last word every entry is the empty string. *)
Definition word_at (text : list (list Z)) (i : nat) : list Z := nth i text [].

(** [while (!isdigit((unsigned char) ptr[0])) { ... skip++; ptr =
    text[skip]; }], acl.c:494: the operator words.  The result tells
    whether a digit was reached ([false] is [return 0]), and gives [skip]
    and the operator as the words left it. *)
Fixpoint parse_operator (fuel : nat) (text : list (list Z)) (skip : nat)
         (opaque : Z) : bool * nat * Z :=
  match fuel with
  | O => (false, skip, opaque)
  | S fuel =>
    let ptr := word_at text skip in
    if isdigit (byte_at ptr 0) then (true, skip, opaque)
    else
      if strcmp_eq ptr 0 (bytes "eq") then
        parse_operator fuel text (S skip) 0
      else if strcmp_eq ptr 0 (bytes "gt") then
        parse_operator fuel text (S skip) 1
      else if strcmp_eq ptr 0 (bytes "ge") then
        parse_operator fuel text (S skip) 2
      else if strcmp_eq ptr 0 (bytes "lt") then
        parse_operator fuel text (S skip) 3
      else if strcmp_eq ptr 0 (bytes "le") then
        parse_operator fuel text (S skip) 4
      else (false, skip, opaque)
  end.

(** The [while (1)] of acl_parse_int, acl.c:508; the result is [i],
    [last] and [pattern->val.range.min].  The sum is a [signed long long],
    taken here without overflow. *)
Fixpoint parse_int_loop (fuel : nat) (str : list Z) (ptr : Z) (i : Z)
         (last : bool) (min : Z) : Z * bool * Z :=
  match fuel with
  | O => (i, last, min)
  | S fuel =>
    let j := byte_at str ptr in
    if ((j =? 45) || (j =? 58)) && negb last then
      parse_int_loop fuel str (ptr + 1) 0 true i
    else
      let j := j - 48 in
      if (j <? 0) || (9 <? j) then (i, last, min)
      else parse_int_loop fuel str (ptr + 1) (i * 10 + j) last min
  end.

(** The end of both parsers, from the test of a range on, acl.c:527;
    [min] is [pattern->val.range.min] as the loop left it. *)
Definition store_range (opaque : Z) (last : bool) (i min : Z)
           (pattern : acl_pattern) : Z * acl_pattern :=
  let pattern :=
    mkpat (min_set pattern) min (max_set pattern) (range_max pattern)
          (pat_str pattern) in
  if last && (1 <=? opaque) && (opaque <=? 4) then (0, pattern)
  else
    let min := if last then min else i in
    let max := i in
    (1,
     if opaque =? 0 then
       mkpat true min true max (pat_str pattern)
     else if opaque =? 1 then
       mkpat true (min + 1) false max (pat_str pattern)
     else if opaque =? 2 then
       mkpat true min false max (pat_str pattern)
     else if opaque =? 3 then
       mkpat false min true (max - 1) (pat_str pattern)
     else if opaque =? 4 then
       mkpat false min true max (pat_str pattern)
     else
       mkpat (min_set pattern) min (max_set pattern) max (pat_str pattern)).

(** [acl_parse_int(text, pattern, opaque)], acl.c:487: the number of
    words used, 0 on error, the pattern and the operator. *)
Definition acl_parse_int (text : list (list Z)) (pattern : acl_pattern)
           (opaque : Z) : Z * acl_pattern * Z :=
  let '(ok, skip, opaque) :=
    parse_operator (S (length text)) text 0 opaque in
  if negb ok then (0, pattern, opaque)
  else
    let str := word_at text skip in
    let '(i, last, min) :=
      parse_int_loop (S (length str)) str 0 0 false (range_min pattern) in
    let '(ok, pattern) := store_range opaque last i min pattern in
    (if ok =? 0 then 0 else Z.of_nat skip + 1, pattern, opaque).

(** The [while (1)] of acl_parse_dotted_ver, acl.c:594; the first
    component is [false] for the [return 0] on a major version of 65536
    or more. *)
Fixpoint parse_ver_loop (fuel : nat) (str : list Z) (ptr : Z) (i : Z)
         (last : bool) (min : Z) : bool * Z * bool * Z :=
  match fuel with
  | O => (true, i, last, min)
  | S fuel =>
    let j := byte_at str ptr in
    if j =? 46 then
      if 65536 <=? i then (false, i, last, min)
      else parse_ver_loop fuel str (ptr + 1) (Z.shiftl i 16) last min
    else if ((j =? 45) || (j =? 58)) && negb last then
      let i := if i <? 65536 then Z.shiftl i 16 else i in
      parse_ver_loop fuel str (ptr + 1) 0 true i
    else
      let j := j - 48 in
      if (j <? 0) || (9 <? j) then (true, i, last, min)
      else
        parse_ver_loop fuel str (ptr + 1)
                       (Z.land i 0xFFFF0000 + Z.land i 0xFFFF * 10 + j)
                       last min
  end.

(** [acl_parse_dotted_ver(text, pattern, opaque)], acl.c:573 *)
Definition acl_parse_dotted_ver (text : list (list Z))
           (pattern : acl_pattern) (opaque : Z) : Z * acl_pattern * Z :=
  let '(ok, skip, opaque) :=
    parse_operator (S (length text)) text 0 opaque in
  if negb ok then (0, pattern, opaque)
  else
    let str := word_at text skip in
    let '(ok, i, last, min) :=
      parse_ver_loop (S (length str)) str 0 0 false (range_min pattern) in
    if negb ok then
      (0, mkpat (min_set pattern) min (max_set pattern) (range_max pattern)
                (pat_str pattern), opaque)
    else
      let i := if i <? 65536 then Z.shiftl i 16 else i in
      let '(ok, pattern) := store_range opaque last i min pattern in
      (if ok =? 0 then 0 else Z.of_nat skip + 1, pattern, opaque).

(** The value of a string of decimal digits, read from the left onto
    [acc]. *)
Definition decimal_from (acc : Z) (digits : list Z) : Z :=
  fold_left (fun a c => a * 10 + (c - 48)) digits acc.

Definition decimal (digits : list Z) : Z := decimal_from 0 digits.

(** The words of the five operators and the comparison each stands for,
    between the sample and the parsed value. *)
Definition operator_word (op : Z) : list Z :=
  if op =? 0 then bytes "eq" else if op =? 1 then bytes "gt"
  else if op =? 2 then bytes "ge" else if op =? 3 then bytes "lt"
  else bytes "le".

Definition operator_holds (op : Z) (sample value : Z) : Prop :=
  if op =? 0 then sample = value else if op =? 1 then value < sample
  else if op =? 2 then value <= sample else if op =? 3 then sample < value
  else sample <= value.

(* ===================================================================== *)
(** ** Samples of the request buffer (src/proto_tcp.c) *)
(* ===================================================================== *)

Section RequestFetches.

Variable ext : Type.

(** [buffer_max_len(buf)] of proto/buffers.h. *)
Variable buffer_max_len : buffer -> Z.

(** [acl_fetch_req_len(px, l4, l7, dir, expr, test)], proto_tcp.c:906,
    for a session with its request buffer. *)
Definition acl_fetch_req_len (l4 : session ext) (test : acl_test)
  : Z * acl_test :=
  (1, mktest (l (req l4)) (t_ptr test) (t_len test)
             (Z.lor ACL_TEST_F_VOLATILE ACL_TEST_F_MAY_CHANGE) (t_ctx test)).

(** [acl_fetch_req_ssl_ver(px, l4, l7, dir, expr, test)],
    proto_tcp.c:926, for a session with its request buffer.  [d k] is
    [data[k]] for the first value of [data], the read pointer [w]; the
    data area is read from there on without wrapping. *)
Definition acl_fetch_req_ssl_ver (l4 : session ext) (test : acl_test)
  : Z * acl_test :=
  let mem := data (req l4) in
  let too_short := (0, set_t_flags ACL_TEST_F_MAY_CHANGE test) in
  let not_ssl := (0, test) in
  let bleft := l (req l4) in
  if bleft =? 0 then too_short else
  let d k := byte_at mem (w (req l4) + k) in
  let whole_message version msg_len bleft :=
    let room := buffer_max_len (req l4) - w (req l4) in
    let msg_len := if room <? msg_len then room else msg_len in
    if bleft <? msg_len then too_short
    else (1, mktest version (t_ptr test) (t_len test) ACL_TEST_F_VOLATILE
                    (t_ctx test)) in
  if ((0x14 <=? d 0) && (d 0 <=? 0x17)) || (d 0 =? 0xFF) then
    (* SSLv3 header format *)
    if bleft <? 5 then too_short else
    let version := Z.shiftl (d 1) 16 + d 2 in
    let msg_len := Z.shiftl (d 3) 8 + d 4 in
    if version <? 0x00030000 then not_ssl
    else if (msg_len <? 1) || (Z.shiftl 1 14 + 2048 <? msg_len) then not_ssl
    else whole_message version msg_len (bleft - 5)
  else
    (* SSLv2 header format; [data] is moved by 2 in both cases *)
    let header : option (Z * Z * Z) :=
      if negb (Z.land (d 0) 0x80 =? 0) then
        if bleft <? 3 then None
        else Some (Z.lor (Z.shiftl (Z.land (d 0) 0x7F) 8) (d 1), 0, bleft - 2)
      else
        if bleft <? 4 then None
        else Some (Z.lor (Z.shiftl (Z.land (d 0) 0x3F) 8) (d 1), d 2,
                   bleft - 3) in
    match header with
    | None => too_short
    | Some (rlen, plen, bleft) =>
      if negb (d 2 =? 0x01) then not_ssl else
      let bleft := bleft - 1 in
      if bleft <? 8 then too_short else
      let version := Z.shiftl (d 3) 16 + d 4 in
      let cilen := Z.shiftl (d 5) 8 + d 6 in
      let silen := Z.shiftl (d 7) 8 + d 8 in
      let chlen := Z.shiftl (d 9) 8 + d 10 in
      let bleft := bleft - 8 in
      if negb (Z.rem cilen 3 =? 0) then not_ssl
      else if negb (silen =? 0) && negb (silen =? 16) then not_ssl
      else if (chlen <? 16) || (32 <? chlen) then not_ssl
      else if negb (rlen =? 9 + cilen + silen + chlen) then not_ssl
      else whole_message version (cilen + silen + chlen + plen) bleft
    end.

End RequestFetches.

Arguments acl_fetch_req_len {ext} l4 test.
Arguments acl_fetch_req_ssl_ver {ext} buffer_max_len l4 test.

(** The five bytes of an SSLv3 or TLS record header. *)
Definition ssl3_header (type major minor len : Z) : list Z :=
  [type; major; minor; Z.shiftr len 8; Z.land len 0xFF].

(* ===================================================================== *)
(** ** Decimal readers (include/common/standard.h) *)
(* ===================================================================== *)

(** [__strl2ui(s, len)], standard.h:244: no check at all. *)
Fixpoint strl2ui_loop (n : nat) (mem : list Z) (s i : Z) : Z :=
  match n with
  | O => i
  | S n =>
    let i := u32 (u32 (i * 10) - 48) in
    strl2ui_loop n mem (s + 1) (u32 (i + byte_at mem s))
  end.

Definition __strl2ui (mem : list Z) (s len : Z) : Z :=
  strl2ui_loop (Z.to_nat len) mem s 0.

(** [__strl2uic(s, len)], standard.h:257: stops at the first byte that
    is not a digit. *)
Fixpoint strl2uic_loop (n : nat) (mem : list Z) (s i : Z) : Z :=
  match n with
  | O => i
  | S n =>
    let j := u32 (byte_at mem s - 48) in
    let k := u32 (i * 10) in
    if 9 <? j then i
    else strl2uic_loop n mem (s + 1) (u32 (k + j))
  end.

Definition __strl2uic (mem : list Z) (s len : Z) : Z :=
  strl2uic_loop (Z.to_nat len) mem s 0.

(** [__str2uic(s)], standard.h:227, on a string that ends in the data
    area or with it: the loop stops at the terminator at the latest. *)
Fixpoint str2uic_loop (fuel : nat) (mem : list Z) (s i : Z) : Z :=
  match fuel with
  | O => i
  | S fuel =>
    let j := u32 (byte_at mem s - 48) in
    if 9 <? j then i
    else str2uic_loop fuel mem (s + 1) (u32 (u32 (i * 10) + j))
  end.

Definition __str2uic (mem : list Z) (s : Z) : Z :=
  str2uic_loop (S (length mem - Z.to_nat s)) mem s 0.

(* ===================================================================== *)
(** ** Sessions: connection slots (src/session.c) *)
(* ===================================================================== *)

(** The sum of [served] over the servers of a backend, and what a
    session adds to it. *)
Definition total_served (srvs : list server) : Z :=
  foldr (fun x acc => served x + acc) 0 srvs.

Definition slot (conn : option nat) : Z :=
  match conn with Some _ => 1 | None => 0 end.

(* ===================================================================== *)
(** ** Sessions: a connection in progress (src/session.c) *)
(* ===================================================================== *)

Section Connecting.

Variable ext : Type.

(** What is not among the sources: [si->shutw] and [s->srv_error] as for
    sess_update_st_cer; [fd_delete(si->fd)] and the write to
    [s->logs.t_connect], which act on the state behind the missing
    modules; the flags [SI_FL_CAP_SPLICE], [BF_WRITE_ACTIVITY] and
    [PR_O_ABRT_CLOSE] and the tick [TICK_ETERNITY] of the missing
    headers. *)
Variable shutw :
  stream_interface -> buffer -> buffer -> ext ->
  stream_interface * buffer * buffer * ext.
Variable srv_error : option (session ext -> session ext).
Variable fd_delete : ext -> ext.
Variable log_t_connect : ext -> ext.
Variable SI_FL_CAP_SPLICE : Z.
Variable BF_WRITE_ACTIVITY : Z.
Variable PR_O_ABRT_CLOSE : Z.
Variable TICK_ETERNITY : Z.

(** [sess_update_st_con_tcp(s, si)], session.c:179, for
    [si == &s->si[1]]: [si->ob] is the request buffer and [si->ib] the
    response buffer. *)
Definition sess_update_st_con_tcp (s : session ext) : Z * session ext :=
  if has (si_flags (si1 s)) (Z.lor SI_FL_EXP SI_FL_ERR) then
    let s := set_si1 (set_si_exp TICK_ETERNITY (si1 s)) s in
    let s := set_si1 (set_si_state_of SI_ST_CER (si1 s)) s in
    let s := set_si1 (set_si_flags (clrf (si_flags (si1 s)) SI_FL_CAP_SPLICE)
                                   (si1 s)) s in
    let s := set_world (fd_delete (world s)) s in
    if negb (si_err_type (si1 s) =? 0) then (0, s)
    else
      let s := set_si1 (set_si_err_loc (srv s) (si1 s)) s in
      if has (si_flags (si1 s)) SI_FL_ERR
      then (0, set_si1 (set_si_err_type SI_ET_CONN_ERR (si1 s)) s)
      else (0, set_si1 (set_si_err_type SI_ET_CONN_TO (si1 s)) s)
  else if has (flags (rep s)) BF_SHUTW
          || (has (flags (req s)) BF_SHUTW_NOW
              && ((Z.land (flags (req s))
                          (Z.lor BF_OUT_EMPTY BF_WRITE_ACTIVITY)
                   =? BF_OUT_EMPTY)
                  || has (options (be s)) PR_O_ABRT_CLOSE))
  then
    let s := si_shutw shutw s in
    let s := set_si1 (set_si_err_type
                        (Z.lor (si_err_type (si1 s)) SI_ET_CONN_ABRT)
                        (si1 s)) s in
    let s := set_si1 (set_si_err_loc (srv s) (si1 s)) s in
    let s := set_si1 (set_si_flags (clrf (si_flags (si1 s)) SI_FL_CAP_SPLICE)
                                   (si1 s)) s in
    (1, call_hook srv_error s)
  else if negb (has (flags (req s)) BF_WRITE_ACTIVITY) then (1, s)
  else
    let s := set_world (log_t_connect (world s)) s in
    let s := set_si1 (set_si_exp TICK_ETERNITY (si1 s)) s in
    let s := set_si1 (set_si_state_of SI_ST_EST (si1 s)) s in
    let s := set_si1 (set_si_err_type SI_ET_NONE (si1 s)) s in
    (1, set_si1 (set_si_err_loc None (si1 s)) s).

End Connecting.

Arguments sess_update_st_con_tcp {ext}.

(** [si->shutw] leaves the cause of the error alone. *)
Definition shutw_keeps_cause {ext : Type}
           (shutw : stream_interface -> buffer -> buffer -> ext ->
                    stream_interface * buffer * buffer * ext) : Prop :=
  forall si ob ib x,
    si_err_type (fst (fst (fst (shutw si ob ib x)))) = si_err_type si.

(* ===================================================================== *)
(** ** The keyword registry (src/acl.c) *)
(* ===================================================================== *)

(** [strchr(s + p, c)] for a [c] other than NUL, and [strlen(s + p)],
    on a string that ends in its list or with it. *)
Fixpoint strchr_from (fuel : nat) (s : list Z) (p c : Z) : option Z :=
  match fuel with
  | O => None
  | S fuel =>
    if byte_at s p =? c then Some p
    else if byte_at s p =? 0 then None
    else strchr_from fuel s (p + 1) c
  end.

Fixpoint strlen_from (fuel : nat) (s : list Z) (p : Z) : Z :=
  match fuel with
  | O => 0
  | S fuel =>
    if byte_at s p =? 0 then 0 else 1 + strlen_from fuel s (p + 1)
  end.

(** The [for (index = 0; kwl->kw[index].kw != NULL; index++)] of
    find_acl_kw, acl.c:733, over the names of one keyword list; [n] is
    [kwend - kw]. *)
Fixpoint find_in_kwl (names : list (list Z)) (kw : list Z) (n : Z)
         (index : nat) : option nat :=
  match names with
  | [] => None
  | name :: names =>
    if strncmp_eq (Z.to_nat n) name 0 kw 0 && (byte_at name n =? 0)
    then Some index
    else find_in_kwl names kw n (S index)
  end.

(** [list_for_each_entry(kwl, &acl_keywords.list, list)], acl.c:732 *)
Fixpoint find_in_lists (lists : list (list (list Z))) (kw : list Z) (n : Z)
         (i : nat) : option (nat * nat) :=
  match lists with
  | [] => None
  | kwl :: lists =>
    match find_in_kwl kwl kw n 0 with
    | Some index => Some (i, index)
    | None => find_in_lists lists kw n (S i)
    end
  end.

(** [find_acl_kw(kw)], acl.c:723: [acl_keywords] holds the registered
    keyword lists in the order the list is walked, each with the names
    of its keywords; the result is the place of the keyword found. *)
Definition find_acl_kw (acl_keywords : list (list (list Z))) (kw : list Z)
  : option (nat * nat) :=
  let kwend :=
    match strchr_from (S (length kw)) kw 0 40 with
    | Some p => p
    | None => 0 + strlen_from (S (length kw)) kw 0
    end in
  find_in_lists acl_keywords kw (kwend - 0) 0.

(** The name at a place of the registry. *)
Definition keyword_at (acl_keywords : list (list (list Z)))
           (place : nat * nat) : option (list Z) :=
  match acl_keywords !! fst place with
  | Some kwl => kwl !! snd place
  | None => None
  end.

(** A place comes before another in the walk. *)
Definition place_before (a b : nat * nat) : Prop :=
  (fst a < fst b)%nat \/ (fst a = fst b /\ (snd a < snd b)%nat).

(** A string without NUL and without an opening parenthesis. *)
Definition plain_name (name : list Z) : Prop :=
  Forall (fun c => c <> 0 /\ c <> 40) name.

(* ===================================================================== *)
(** ** Realigning in place (src/buffers.c) *)
(* ===================================================================== *)

(** The inner [while (1)] of buffer_bounce_realign, buffers.c:382: the
    data area and [to_move] when it is left.  Every turn takes one from
    [to_move], so [to_move] turns are enough. *)
Fixpoint bounce_inner (fuel : nat) (b : buffer) (mem : list Z)
         (from to advance to_move last : Z) : list Z * Z :=
  match fuel with
  | O => (mem, to_move)
  | S fuel =>
    let save := byte_at mem to in
    let mem := <[Z.to_nat to := last]> mem in
    let last := save in
    let to_move := to_move - 1 in
    if to_move =? 0 then (mem, to_move)
    else if to =? from then (mem, to_move)
    else if (r b <? from) && ((r b <=? to) && (to <? from))
    then (mem, to_move)
    else if (from <? r b) && ((to <? from) || (r b <=? to))
    then (mem, to_move)
    else
      let to := to + advance in
      let to := if size b <=? to then to - size b else to in
      bounce_inner fuel b mem from to advance to_move last
  end.

(** The outer [while (to_move)], buffers.c:374. *)
Fixpoint bounce_outer (fuel : nat) (b : buffer) (mem : list Z)
         (from advance to_move : Z) : list Z :=
  match fuel with
  | O => mem
  | S fuel =>
    if to_move =? 0 then mem else
    let last := byte_at mem from in
    let to := from + advance in
    let to := if size b <=? to then to - size b else to in
    let '(mem, to_move) :=
      bounce_inner (Z.to_nat to_move) b mem from to advance to_move last in
    let from := from + 1 in
    let from := if size b <=? from then from - size b else from in
    bounce_outer fuel b mem from advance to_move
  end.

(** [buffer_bounce_realign(buf)], buffers.c:363: only the data area
    changes. *)
Definition buffer_bounce_realign (b : buffer) : buffer :=
  let advance := 0 + size b - w b in
  if advance =? 0 then b
  else set_data (bounce_outer (Z.to_nat (l b)) b (data b) (w b) advance
                              (l b)) b.

(** The bytes of the ring in their order, from the output tail on. *)
Definition ring_content (b : buffer) : list Z :=
  map (ring_byte b) (seqZ 0 (l b)).

(** A five-byte buffer that holds [abcd] from offset 2 on, around the
    end of its storage. *)
Definition wrapped_buffer : buffer :=
  mkbuf 0 4 1 2 2 5 0 0 0 0 4 (bytes "d-abc").

(* ===================================================================== *)
(** ** Traffic accounting (src/session.c) *)
(* ===================================================================== *)

(** The two byte counts of [struct pxcounters], [struct srvcounters],
    [struct licounters] and of [s->logs]; the counters are taken
    unbounded, as above. *)
Record byte_counts := mkbytes { bytes_in : Z; bytes_out : Z }.

(** What session_process_counters reads and writes: the totals of the
    two buffers, the counts in [s->logs], and the counters of the
    frontend, of the backend when it is another proxy, of the server
    when there is one and of the listener when it has counters. *)
Record accounts := mkaccounts {
  req_total : Z;
  rep_total : Z;
  logs : byte_counts;
  fe_bytes : byte_counts;
  be_bytes : option byte_counts;
  srv_bytes : option byte_counts;
  li_bytes : option byte_counts
}.

Definition add_in (n : Z) (c : byte_counts) : byte_counts :=
  mkbytes (bytes_in c + n) (bytes_out c).
Definition add_out (n : Z) (c : byte_counts) : byte_counts :=
  mkbytes (bytes_in c) (bytes_out c + n).

(** [session_process_counters(s)], session.c:133, for a session with
    both buffers; [bytes] is an [unsigned long long]. *)
Definition session_process_counters (a : accounts) : accounts :=
  let a :=
    let bytes := u64 (req_total a - bytes_in (logs a)) in
    let a := mkaccounts (req_total a) (rep_total a)
                        (mkbytes (req_total a) (bytes_out (logs a)))
                        (fe_bytes a) (be_bytes a) (srv_bytes a)
                        (li_bytes a) in
    if negb (bytes =? 0) then
      mkaccounts (req_total a) (rep_total a) (logs a)
                 (add_in bytes (fe_bytes a))
                 (option_map (add_in bytes) (be_bytes a))
                 (option_map (add_in bytes) (srv_bytes a))
                 (option_map (add_in bytes) (li_bytes a))
    else a in
  let bytes := u64 (rep_total a - bytes_out (logs a)) in
  let a := mkaccounts (req_total a) (rep_total a)
                      (mkbytes (bytes_in (logs a)) (rep_total a))
                      (fe_bytes a) (be_bytes a) (srv_bytes a)
                      (li_bytes a) in
  if negb (bytes =? 0) then
    mkaccounts (req_total a) (rep_total a) (logs a)
               (add_out bytes (fe_bytes a))
               (option_map (add_out bytes) (be_bytes a))
               (option_map (add_out bytes) (srv_bytes a))
               (option_map (add_out bytes) (li_bytes a))
  else a.

(** What is counted and not yet logged does not depend on the calls:
    the counters run ahead of [s->logs] by a fixed amount. *)
Definition ahead (c l : byte_counts) : Z * Z :=
  (bytes_in c - bytes_in l, bytes_out c - bytes_out l).
(* ===================================================================== *)
(** * Properties *)
(* ===================================================================== *)

(** ** Machine integers and flag words *)

Lemma u32_small x : 0 <= x < 2^32 -> u32 x = x.
Proof. intros; unfold u32; apply Z.mod_small; lia. Qed.

Lemma u32_range x : 0 <= u32 x < 2^32.
Proof. unfold u32; apply Z.mod_pos_bound; lia. Qed.

Lemma u64_small x : 0 <= x < 2^64 -> u64 x = x.
Proof. intros; unfold u64; apply Z.mod_small; lia. Qed.

Lemma u32_le_u64 x : u32 x <= u64 x.
Proof.
  unfold u32, u64.
  replace (2^64) with (2^32 * 2^32) by reflexivity.
  rewrite Z.rem_mul_r by lia.
  assert (0 <= x mod 2^32 < 2^32) by (apply Z.mod_pos_bound; lia).
  assert (0 <= (x / 2^32) mod 2^32) by (apply Z.mod_pos_bound; lia).
  nia.
Qed.

Lemma has_bit f k : has f (bit k) = Z.testbit f (Z.of_nat k).
Proof.
  unfold has, bit. rewrite Z.shiftl_1_l.
  destruct (Z.testbit f (Z.of_nat k)) eqn:E.
  - apply negb_true_iff, Z.eqb_neq. intros H.
    assert (Z.testbit (Z.land f (2 ^ Z.of_nat k)) (Z.of_nat k) = true).
    { rewrite Z.land_spec, E, Z.pow2_bits_true by lia. reflexivity. }
    rewrite H, Z.bits_0 in H0. discriminate.
  - apply negb_false_iff, Z.eqb_eq, Z.bits_inj'. intros n Hn.
    rewrite Z.land_spec, Z.bits_0.
    destruct (Z.eq_dec n (Z.of_nat k)) as [->|Hne].
    + rewrite E. reflexivity.
    + rewrite Z.pow2_bits_false by lia. apply andb_false_r.
Qed.

Lemma has_or f a b : has f (Z.lor a b) = has f a || has f b.
Proof.
  unfold has. rewrite Z.land_lor_distr_r.
  destruct (Z.land f a =? 0) eqn:Ea, (Z.land f b =? 0) eqn:Eb; simpl;
    rewrite ?Z.eqb_eq, ?Z.eqb_neq in *.
  - rewrite Ea, Eb. reflexivity.
  - apply negb_true_iff, Z.eqb_neq. intros H. apply Z.lor_eq_0_iff in H. tauto.
  - apply negb_true_iff, Z.eqb_neq. intros H. apply Z.lor_eq_0_iff in H. tauto.
  - apply negb_true_iff, Z.eqb_neq. intros H. apply Z.lor_eq_0_iff in H. tauto.
Qed.

Lemma has_setf f m k :
  has (setf f m) (bit k) = has f (bit k) || Z.testbit m (Z.of_nat k).
Proof. rewrite !has_bit. unfold setf. apply Z.lor_spec. Qed.

Lemma has_clrf f m k :
  has (clrf f m) (bit k) = has f (bit k) && negb (Z.testbit m (Z.of_nat k)).
Proof.
  rewrite !has_bit. unfold clrf.
  rewrite Z.land_spec, Z.lnot_spec by lia. reflexivity.
Qed.

Lemma clrf_idem f m : clrf (clrf f m) m = clrf f m.
Proof.
  unfold clrf. rewrite <- Z.land_assoc, Z.land_diag. reflexivity.
Qed.

Lemma setf_idem f m : setf (setf f m) m = setf f m.
Proof.
  unfold setf. rewrite <- Z.lor_assoc, Z.lor_diag. reflexivity.
Qed.

Lemma clrf_setf f m : clrf (setf f m) m = clrf f m.
Proof.
  unfold clrf, setf. apply Z.bits_inj'. intros n Hn.
  rewrite !Z.land_spec, Z.lor_spec, Z.lnot_spec by lia.
  destruct (Z.testbit f n), (Z.testbit m n); reflexivity.
Qed.

Lemma setf_clrf f m : setf (clrf f m) m = setf f m.
Proof.
  unfold clrf, setf. apply Z.bits_inj'. intros n Hn.
  rewrite !Z.lor_spec, Z.land_spec, Z.lnot_spec by lia.
  destruct (Z.testbit f n), (Z.testbit m n); reflexivity.
Qed.

Lemma setf_nonneg f m : 0 <= f -> 0 <= m -> 0 <= setf f m.
Proof. intros. unfold setf. apply Z.lor_nonneg. lia. Qed.

Lemma clrf_nonneg f m : 0 <= f -> 0 <= clrf f m.
Proof. intros. unfold clrf. apply Z.land_nonneg. lia. Qed.

Lemma testbit_bit j k : Z.testbit (bit j) (Z.of_nat k) = (j =? k)%nat.
Proof.
  unfold bit. rewrite Z.shiftl_1_l.
  destruct (Nat.eqb_spec j k) as [->|Hne].
  - apply Z.pow2_bits_true. lia.
  - apply Z.pow2_bits_false. lia.
Qed.

Ltac bf_bits :=
  change BF_READ_PARTIAL with (bit 1) in *;
  change BF_READ_TIMEOUT with (bit 2) in *;
  change BF_READ_ERROR with (bit 3) in *;
  change BF_FULL with (bit 4) in *;
  change BF_SHUTR with (bit 5) in *;
  change BF_SHUTR_NOW with (bit 6) in *;
  change BF_WRITE_ERROR with (bit 11) in *;
  change BF_OUT_EMPTY with (bit 12) in *;
  change BF_SHUTW with (bit 13) in *;
  change BF_SHUTW_NOW with (bit 14) in *;
  change BF_AUTO_CONNECT with (bit 23) in *.

Ltac flag_norm :=
  rewrite ?has_or, ?has_setf, ?has_clrf, ?Z.lor_spec, ?testbit_bit in *;
  cbn [Nat.eqb negb orb andb] in *;
  rewrite ?andb_true_r, ?andb_false_r, ?orb_false_r, ?orb_true_r in *.


(* ===================================================================== *)
(** ** Buffers: forwarding *)
(* ===================================================================== *)

Ltac zbool :=
  repeat match goal with
  | H : (_ =? _) = true |- _ => apply Z.eqb_eq in H
  | H : (_ =? _) = false |- _ => apply Z.eqb_neq in H
  | H : (_ <? _) = true |- _ => apply Z.ltb_lt in H
  | H : (_ <? _) = false |- _ => apply Z.ltb_ge in H
  | H : (_ <=? _) = true |- _ => apply Z.leb_le in H
  | H : (_ <=? _) = false |- _ => apply Z.leb_gt in H
  end.

Section ForwardProps.

Variable buffer_max_len : buffer -> Z.
Variable BUF_INFINITE_FORWARD : Z.
Variable MID_RANGE : Z.

#[local] Abbreviation forward :=
  (buffer_forward buffer_max_len BUF_INFINITE_FORWARD MID_RANGE).

Lemma buffer_eq (b b' : buffer) :
  flags b = flags b' -> l b = l b' -> r b = r b' -> w b = w b' ->
  lr b = lr b' -> size b = size b' -> send_max b = send_max b' ->
  to_forward b = to_forward b' -> analysers b = analysers b' ->
  analyse_exp b = analyse_exp b' -> total b = total b' ->
  data b = data b' -> b = b'.
Proof. destruct b, b'; cbn; intros; subst; reflexivity. Qed.

Lemma forward_zero b : forward b 0 = (0, b).
Proof. reflexivity. Qed.

(** The early return: the bytes fit in the data already held. *)
Lemma forward_fits b n :
  0 <= send_max b <= l b -> l b < 2^32 -> 0 < n <= l b - send_max b ->
  forward b n =
    (n, set_flags (clrf (flags b) BF_OUT_EMPTY) (set_send_max (send_max b + n) b)).
Proof.
  intros Hs Hl Hn. unfold buffer_forward.
  rewrite (u32_small (l b - send_max b)) by lia.
  destruct (Z.eqb_spec n 0); [lia|].
  destruct (Z.leb_spec n (l b - send_max b)); [|lia].
  rewrite u32_small by lia. reflexivity.
Qed.

(** The other path, away from the sentinel and from saturation. *)
Lemma forward_exceeds b n :
  0 <= send_max b <= l b -> l b < 2^32 -> 0 <= to_forward b ->
  l b - send_max b < n ->
  to_forward b + n < 2^31 - 1 -> 2^31 - 1 <= u32 BUF_INFINITE_FORWARD ->
  snd (forward b n) =
    let b1 := set_send_max (l b) b in
    let b2 := if l b =? 0 then b1
              else set_flags (clrf (flags b) BF_OUT_EMPTY) b1 in
    let b3 := if l b <? buffer_max_len b2
              then set_flags (clrf (flags b2) BF_FULL) b2
              else set_flags (setf (flags b2) BF_FULL) b2 in
    set_to_forward (to_forward b + n - (l b - send_max b)) b3.
Proof.
  intros Hs Hl Ht Hn Hsat Hinf. unfold buffer_forward.
  pose proof (u32_le_u64 BUF_INFINITE_FORWARD) as Hle.
  rewrite (u32_small (l b - send_max b)) by lia.
  destruct (Z.eqb_spec n 0); [lia|].
  destruct (Z.leb_spec n (l b - send_max b)); [lia|].
  replace (send_max b + (l b - send_max b)) with (l b) by lia.
  rewrite (u32_small (l b)) by lia.
  cbn [send_max set_send_max l flags].
  set (b2 := if l b =? 0 then _ else _).
  assert (Hb2 : l b2 = l b /\ to_forward b2 = to_forward b).
  { subst b2. destruct (l b =? 0); split; reflexivity. }
  destruct Hb2 as [Hl2 Ht2]. rewrite Hl2.
  set (b3 := if l b <? buffer_max_len b2 then _ else _).
  assert (Ht3 : to_forward b3 = to_forward b).
  { subst b3. destruct (l b <? _); cbn; exact Ht2. }
  cbv zeta. rewrite Ht3.
  destruct (Z.eqb_spec n (u64 BUF_INFINITE_FORWARD)); [lia|].
  destruct (Z.eqb_spec (to_forward b) (u32 BUF_INFINITE_FORWARD)); [lia|].
  rewrite (u32_small (to_forward b + n - (l b - send_max b))) by lia.
  destruct (Z.leb_spec (to_forward b + n - (l b - send_max b)) (to_forward b)); [lia|].
  destruct (Z.ltb_spec (to_forward b) (to_forward b + n - (l b - send_max b))); [|lia].
  reflexivity.
Qed.


Lemma clrf_comm f a b : clrf (clrf f a) b = clrf (clrf f b) a.
Proof.
  unfold clrf. rewrite <- !Z.land_assoc. f_equal. apply Z.land_comm.
Qed.

Lemma clrf_setf_disjoint f a b :
  Z.land a b = 0 -> clrf (setf f a) b = setf (clrf f b) a.
Proof.
  intros H. unfold clrf, setf. apply Z.bits_inj'. intros n Hn.
  assert (Hab : Z.testbit a n && Z.testbit b n = false).
  { rewrite <- Z.land_spec, H. apply Z.bits_0. }
  rewrite !Z.land_spec, !Z.lor_spec, Z.land_spec, Z.lnot_spec by lia.
  destruct (Z.testbit f n), (Z.testbit a n), (Z.testbit b n);
    try reflexivity; discriminate.
Qed.

(** C5.  Away from saturation and from the infinite sentinel, forwarding
    [k] bytes and then [m] bytes leaves the buffer as forwarding [k + m]
    bytes at once does: the whole record, hence [send_max], [to_forward]
    and [flags]. *)
Theorem buffer_forward_additive (b : buffer) (k m : Z) :
  max_len_settled buffer_max_len b ->
  0 <= send_max b <= l b -> l b < 2^32 -> 0 <= to_forward b ->
  0 <= k -> 0 <= m ->
  to_forward b + k + m < 2^31 - 1 ->
  2^31 - 1 <= u32 BUF_INFINITE_FORWARD ->
  snd (forward (snd (forward b k)) m) = snd (forward b (k + m)).
Proof.
  intros Hset Hs Hl Ht Hk Hm Hsat Hinf.
  destruct (Z.eq_dec k 0) as [->|Hk0]; [reflexivity|].
  destruct (Z.eq_dec m 0) as [->|Hm0]; [rewrite Z.add_0_r; reflexivity|].
  destruct (Z_le_gt_dec k (l b - send_max b)) as [Hfit|Hex].
  - (* the first call returns early *)
    rewrite (forward_fits b k) by lia. cbn [snd].
    set (b1 := set_flags _ _).
    assert (Hb1 : send_max b1 = send_max b + k /\ l b1 = l b
                  /\ to_forward b1 = to_forward b) by (subst b1; cbn; lia).
    destruct Hb1 as (Hs1 & Hl1 & Ht1).
    destruct (Z_le_gt_dec m (l b - send_max b - k)) as [Hfit2|Hex2].
    + rewrite (forward_fits b1 m), (forward_fits b (k + m)) by lia.
      subst b1. apply buffer_eq; cbn; try reflexivity;
        [apply clrf_idem | lia].
    + rewrite (forward_exceeds b1 m), (forward_exceeds b (k + m)) by lia.
      assert (Hnz : (l b =? 0) = false) by (apply Z.eqb_neq; lia).
      cbv zeta. rewrite Hl1, Hs1, Ht1, Hnz.
      assert (Hb : set_flags (clrf (flags b1) BF_OUT_EMPTY)
                     (set_send_max (l b) b1)
                   = set_flags (clrf (flags b) BF_OUT_EMPTY)
                       (set_send_max (l b) b)).
      { subst b1. apply buffer_eq; cbn; try reflexivity. apply clrf_idem. }
      rewrite Hb. f_equal. lia.
  - (* the first call schedules all the data and credits the rest *)
    rewrite (forward_exceeds b k) by lia.
    cbv zeta.
    set (b2 := if l b =? 0 then _ else _).
    assert (Hb2 : send_max b2 = l b2 /\ l b2 = l b).
    { subst b2. destruct (l b =? 0); cbn; auto. }
    destruct Hb2 as [Hs2 Hl2].
    set (b3 := if l b <? buffer_max_len b2 then _ else _).
    set (bk := set_to_forward _ b3).
    assert (Hbk : send_max bk = l b /\ l bk = l b
                  /\ to_forward bk = to_forward b + k - (l b - send_max b)).
    { subst bk b3. destruct (l b <? _); cbn; rewrite Hs2, Hl2; auto. }
    destruct Hbk as (Hsk & Hlk & Htk).
    rewrite (forward_exceeds bk m), (forward_exceeds b (k + m)) by lia.
    cbv zeta. fold b2. rewrite Hlk, Hsk, Htk.
    set (b2' := if l b =? 0 then set_send_max (l b) bk else _).
    assert (Hb2' : b2' = set_to_forward (to_forward bk)
                           (set_flags (flags b2') (set_send_max (l b) b))).
    { subst b2' bk b3 b2. apply buffer_eq;
        destruct (l b =? 0), (l b <? _); reflexivity. }
    assert (Hb2 : b2 = set_to_forward (to_forward b)
                         (set_flags (flags b2) (set_send_max (l b) b))).
    { subst b2. apply buffer_eq; destruct (l b =? 0); reflexivity. }
    assert (Hdec : (l b <? buffer_max_len b2') = (l b <? buffer_max_len b2)).
    { rewrite Hb2', Hb2, !Hset by lia. reflexivity. }
    rewrite Hdec. fold b3.
    assert (Hoe : Z.land BF_FULL BF_OUT_EMPTY = 0) by reflexivity.
    assert (Hfl : flags b2' = if l b =? 0 then flags b3
                              else clrf (flags b3) BF_OUT_EMPTY).
    { subst b2' bk. destruct (l b =? 0); reflexivity. }
    assert (Hfin : (if l b <? buffer_max_len b2
                    then clrf (flags b2') BF_FULL
                    else setf (flags b2') BF_FULL) = flags b3).
    { rewrite Hfl. subst b3 b2.
      destruct (l b <? _), (l b =? 0); cbn;
        rewrite ?(clrf_comm _ BF_FULL BF_OUT_EMPTY), ?clrf_idem,
                ?(clrf_setf_disjoint _ BF_FULL BF_OUT_EMPTY Hoe), ?clrf_idem,
                ?setf_idem;
        reflexivity. }
    apply buffer_eq;
      try (subst b2' bk b3 b2;
           destruct (l b =? 0), (l b <? _); reflexivity).
    + transitivity (if l b <? buffer_max_len b2
                    then clrf (flags b2') BF_FULL
                    else setf (flags b2') BF_FULL).
      * destruct (l b <? buffer_max_len b2); reflexivity.
      * rewrite Hfin. subst b3. destruct (l b <? _); reflexivity.
    + cbn. lia.
Qed.

End ForwardProps.

Lemma reserve_max_len_settled (maxrewrite inf : Z) (b : buffer) :
  0 <= maxrewrite < size b -> 0 <= l b <= size b -> 0 <= to_forward b ->
  max_len_settled (reserve_max_len maxrewrite inf) b.
Proof.
  intros Hm Hl Ht f tf Htf. unfold reserve_max_len. cbn.
  repeat match goal with
  | |- context [if ?c then _ else _] => destruct c eqn:?
  end;
  repeat match goal with
  | H : (_ || _) = true |- _ => apply orb_true_iff in H; destruct H
  | H : (_ || _) = false |- _ => apply orb_false_iff in H; destruct H
  end; zbool;
  repeat match goal with
  | |- context [?a <? ?b] => destruct (Z.ltb_spec a b)
  end; try reflexivity; lia.
Qed.

(** An instance of [buffer_forward_additive]: a 100-byte buffer holding 10
    bytes, 4 of them scheduled, a reserve of 20 bytes. *)
Lemma buffer_forward_additive_witness :
  let b := mkbuf BF_FULL 10 10 0 0 100 4 5 0 0 0 (repeat 0 100) in
  snd (buffer_forward (reserve_max_len 20 (-1)) (-1) (2^31)
         (snd (buffer_forward (reserve_max_len 20 (-1)) (-1) (2^31) b 8)) 7)
  = snd (buffer_forward (reserve_max_len 20 (-1)) (-1) (2^31) b (8 + 7)).
Proof.
  intros b.
  apply (buffer_forward_additive (reserve_max_len 20 (-1)) (-1) (2^31) b 8 7).
  - apply reserve_max_len_settled; cbn; lia.
  - cbn; lia.
  - cbn; lia.
  - cbn; lia.
  - lia.
  - lia.
  - cbn; lia.
  - vm_compute. discriminate.
Defined.

(* ===================================================================== *)
(** ** Buffers: the invariants under the mutators *)
(* ===================================================================== *)

Lemma mod_ring s x :
  0 < s -> 0 <= x < 2 * s -> x mod s = if x <? s then x else x - s.
Proof.
  intros Hs Hx. destruct (Z.ltb_spec x s).
  - apply Z.mod_small. lia.
  - symmetry. apply (Z.mod_unique x s 1). left. lia. lia.
Qed.

Lemma contig_space_le b :
  0 < size b -> 0 <= w b < size b -> 0 <= l b <= size b ->
  r b = (w b + l b) mod size b ->
  0 <= buffer_contig_space b <= size b - l b
  /\ r b + buffer_contig_space b <= size b.
Proof.
  intros Hs Hw Hl Hr. rewrite mod_ring in Hr by lia.
  unfold buffer_contig_space.
  destruct (Z.ltb_spec (w b + l b) (size b)), (Z.eqb_spec (l b) 0),
    (Z.ltb_spec (w b) (r b)); lia.
Qed.

Lemma ring_advance b len :
  0 < size b -> 0 <= w b < size b -> 0 <= l b <= size b ->
  r b = (w b + l b) mod size b ->
  0 < len <= buffer_contig_space b ->
  (if r b + len =? size b then 0 else r b + len)
  = (w b + (l b + len)) mod size b.
Proof.
  intros Hs Hw Hl Hr Hlen.
  pose proof (contig_space_le b Hs Hw Hl Hr) as [Hc1 Hc2].
  rewrite mod_ring in Hr by lia. rewrite mod_ring by lia.
  revert Hlen Hc1 Hc2. unfold buffer_contig_space.
  destruct (Z.ltb_spec (w b + l b) (size b)), (Z.eqb_spec (l b) 0),
    (Z.ltb_spec (w b) (r b)), (Z.eqb_spec (r b + len) (size b)),
    (Z.ltb_spec (w b + (l b + len)) (size b)); lia.
Qed.

Section MutatorProps.

Variable buffer_max_len : buffer -> Z.
Variable BUF_INFINITE_FORWARD : Z.
Variable MID_RANGE : Z.

#[local] Abbreviation inv := (buffer_invariants buffer_max_len).
#[local] Abbreviation forward :=
  (buffer_forward buffer_max_len BUF_INFINITE_FORWARD MID_RANGE).

Lemma max_len_set_flags :
  max_len_of_counters buffer_max_len ->
  forall f b, buffer_max_len (set_flags f b) = buffer_max_len b.
Proof. intros H f b. apply H; reflexivity. Qed.

(** The tail shared by the writers: [BF_FULL] is cleared, then set again
    when [l] has reached the limit. *)
Lemma set_full_inv b1 :
  max_len_of_counters buffer_max_len ->
  has (flags b1) BF_FULL = false ->
  let b2 := if buffer_max_len b1 <=? l b1
            then set_flags (setf (flags b1) BF_FULL) b1 else b1 in
  (has (flags b2) BF_FULL = true <-> buffer_max_len b2 <= l b2)
  /\ has (flags b2) BF_OUT_EMPTY = has (flags b1) BF_OUT_EMPTY.
Proof.
  intros Hc Hf. cbv zeta.
  destruct (Z.leb_spec (buffer_max_len b1) (l b1)) as [H|H].
  - rewrite max_len_set_flags by assumption. cbn. bf_bits. flag_norm.
    repeat split; auto.
  - rewrite Hf. repeat split; try discriminate; try lia.
Qed.

Lemma realign_ok b :
  max_len_of_counters buffer_max_len ->
  ring_ok b -> inv b ->
  let b0 := snd (buffer_realign b) in
  ring_ok b0 /\ inv b0 /\ l b0 = l b /\ send_max b0 = send_max b
  /\ size b0 = size b /\ flags b0 = flags b /\ to_forward b0 = to_forward b
  /\ fst (buffer_realign b) = buffer_contig_space b0.
Proof.
  intros Hc (Hsz & Hw & Hr & Htf) (Hs & Hl & Hfull & Hoe).
  unfold buffer_realign. cbn [fst snd].
  destruct (Z.eqb_spec (l b) 0) as [Hz|Hz].
  - assert (Hm : buffer_max_len (set_lr 0 (set_w 0 (set_r 0 b)))
                 = buffer_max_len b) by (apply Hc; reflexivity).
    repeat split; cbn; rewrite ?Hm; auto; try lia; try tauto.
    rewrite Hz. rewrite Z.mod_small; lia.
  - repeat split; auto; try lia; tauto.
Qed.

Lemma buffer_write_invariants b msg len :
  max_len_of_counters buffer_max_len ->
  ring_ok b -> inv b -> 0 <= len <= Z.of_nat (length msg) ->
  exists ret b', buffer_write buffer_max_len b msg len = Some (ret, b')
                 /\ ring_ok b' /\ inv b'.
Proof.
  intros Hc Hring Hinv Hlen.
  unfold buffer_write.
  destruct (Z.ltb_spec len 0); [lia|].
  destruct (Z.ltb_spec (Z.of_nat (length msg)) len); [lia|]. cbn [orb].
  destruct (Z.eqb_spec len 0). { now exists (-1), b. }
  destruct (Z.ltb_spec (size b) len). { now exists (-2), b. }
  pose proof (realign_ok b Hc Hring Hinv) as Hre. cbv zeta in Hre.
  destruct (buffer_realign b) as [max b0]. cbn [fst snd] in Hre.
  destruct Hre as (Hring0 & Hinv0 & Hl0 & Hs0 & Hsz0 & Hf0 & Ht0 & Hmax).
  destruct (Z.ltb_spec max len). { now exists max, b0. }
  destruct Hring0 as (Hsz & Hw & Hr & Htf).
  destruct Hinv0 as (Hs & Hl & Hfull & Hoe).
  pose proof (ring_advance b0 len ltac:(lia) Hw ltac:(lia) Hr ltac:(lia)) as Hadv.
  pose proof (contig_space_le b0 ltac:(lia) Hw ltac:(lia) Hr) as [Hc1 Hc2].
  eexists _, _. split; [reflexivity|].
  cbn [l send_max r size flags total set_data set_l set_send_max set_r
       set_total].
  rewrite (u32_small (l b0 + len)), (u32_small (send_max b0 + len)) by lia.
  set (b1 := set_flags _ _).
  assert (Hb1 : has (flags b1) BF_FULL = false
                /\ has (flags b1) BF_OUT_EMPTY = false
                /\ l b1 = l b0 + len /\ send_max b1 = send_max b0 + len
                /\ size b1 = size b0 /\ w b1 = w b0
                /\ to_forward b1 = to_forward b0
                /\ r b1 = if r b0 + len =? size b0 then 0 else r b0 + len).
  { subst b1. destruct (r b0 + len =? size b0); cbn; bf_bits; flag_norm;
      repeat split; reflexivity. }
  destruct Hb1 as (Hf1 & Ho1 & Hl1 & Hs1 & Hsz1 & Hw1 & Ht1 & Hr1).
  pose proof (set_full_inv b1 Hc Hf1) as [Hfull2 Hoe2]. cbv zeta in Hfull2, Hoe2.
  set (b2 := if buffer_max_len b1 <=? l b1 then _ else b1) in *.
  assert (Hb2 : l b2 = l b1 /\ send_max b2 = send_max b1 /\ size b2 = size b1
                /\ w b2 = w b1 /\ r b2 = r b1 /\ to_forward b2 = to_forward b1).
  { subst b2. destruct (_ <=? _); repeat split; reflexivity. }
  destruct Hb2 as (Hl2 & Hs2 & Hsz2 & Hw2 & Hr2 & Ht2).
  split.
  - unfold ring_ok. rewrite Hsz2, Hw2, Hr2, Hl2, Ht2, Hsz1, Hw1, Hr1, Hl1, Ht1.
    repeat split; try lia; try exact Hadv.
  - unfold buffer_invariants. rewrite Hoe2, Ho1, Hs2, Hs1, Hsz2, Hsz1.
    rewrite Hl2 in *. rewrite Hl1 in *.
    repeat split; try lia; try tauto; try discriminate.
Qed.

Lemma buffer_feed2_invariants b str len :
  max_len_of_counters buffer_max_len ->
  ring_ok b -> inv b -> 0 <= len <= Z.of_nat (length str) ->
  exists ret b',
    buffer_feed2 buffer_max_len BUF_INFINITE_FORWARD b str len = Some (ret, b')
    /\ ring_ok b' /\ inv b'.
Proof.
  intros Hc Hring Hinv Hlen.
  unfold buffer_feed2.
  destruct (Z.ltb_spec len 0); [lia|].
  destruct (Z.ltb_spec (Z.of_nat (length str)) len); [lia|]. cbn [orb].
  destruct (Z.eqb_spec len 0). { now exists (-1), b. }
  destruct (Z.ltb_spec (buffer_max_len b) len). { now exists (-2), b. }
  destruct (Z.ltb_spec (buffer_contig_space b) len).
  { now exists (buffer_contig_space b), b. }
  destruct Hring as (Hsz & Hw & Hr & Htf).
  destruct Hinv as (Hs & Hl & Hfull & Hoe).
  pose proof (ring_advance b len ltac:(lia) Hw ltac:(lia) Hr ltac:(lia)) as Hadv.
  pose proof (contig_space_le b ltac:(lia) Hw ltac:(lia) Hr) as [Hc1 Hc2].
  eexists _, _. split; [reflexivity|].
  cbn [l send_max r size flags total to_forward set_data set_l set_send_max
       set_r set_total].
  rewrite (u32_small (l b + len)) by lia.
  set (bf := if to_forward b =? 0 then _ else _).
  assert (Hbf : l bf = l b + len /\ size bf = size b /\ w bf = w b
                /\ r bf = r b + len
                /\ 0 <= to_forward bf < 2^32
                /\ 0 <= send_max bf <= l b + len
                /\ (has (flags bf) BF_OUT_EMPTY = true <-> send_max bf = 0)).
  { subst bf. destruct (Z.eqb_spec (to_forward b) 0) as [Hz|Hz].
    - cbn. repeat split; try lia; tauto.
    - destruct (Z.eqb_spec (to_forward b) (u32 BUF_INFINITE_FORWARD)).
      + cbn. rewrite (u32_small (send_max b + len)) by lia.
        bf_bits. flag_norm.
        repeat split; try lia; try discriminate.
      + destruct (Z.ltb_spec (to_forward b) len); cbn.
        * rewrite Z.sub_diag, (u32_small (send_max b + to_forward b)) by lia.
          bf_bits. flag_norm. unfold u32. cbn.
          repeat split; try lia; try discriminate.
        * rewrite (u32_small (to_forward b - len)),
            (u32_small (send_max b + len)) by lia.
          bf_bits. flag_norm.
          repeat split; try lia; try discriminate. }
  destruct Hbf as (Hlf & Hszf & Hwf & Hrf & Htff & Hsf & Hoef).
  rewrite Hrf, Hszf.
  set (bw := if r b + len =? size b then set_r 0 bf else bf).
  set (b1 := set_flags (clrf (flags bw) BF_FULL) bw).
  assert (Hb1 : has (flags b1) BF_FULL = false
                /\ has (flags b1) BF_OUT_EMPTY = has (flags bf) BF_OUT_EMPTY
                /\ l b1 = l bf /\ send_max b1 = send_max bf
                /\ size b1 = size bf /\ w b1 = w bf
                /\ to_forward b1 = to_forward bf
                /\ r b1 = if r b + len =? size b then 0 else r b + len).
  { subst b1 bw. destruct (r b + len =? size b); cbn; bf_bits; flag_norm;
      repeat split; try reflexivity; exact Hrf. }
  destruct Hb1 as (Hf1 & Ho1 & Hl1 & Hs1 & Hsz1 & Hw1 & Ht1 & Hr1).
  pose proof (set_full_inv b1 Hc Hf1) as [Hfull2 Hoe2]. cbv zeta in Hfull2, Hoe2.
  set (b2 := if buffer_max_len b1 <=? l b1 then _ else b1) in *.
  assert (Hb2 : l b2 = l b1 /\ send_max b2 = send_max b1 /\ size b2 = size b1
                /\ w b2 = w b1 /\ r b2 = r b1 /\ to_forward b2 = to_forward b1).
  { subst b2. destruct (_ <=? _); repeat split; reflexivity. }
  destruct Hb2 as (Hl2 & Hs2 & Hsz2 & Hw2 & Hr2 & Ht2).
  split.
  - unfold ring_ok. cbn.
    rewrite Hsz2, Hw2, Hr2, Hl2, Ht2, Hsz1, Hw1, Hr1, Hl1, Ht1, Hszf, Hwf, Hlf.
    repeat split; try lia; try exact Hadv.
  - unfold buffer_invariants. cbn [flags set_flags l send_max size].
    rewrite (max_len_set_flags Hc).
    bf_bits. flag_norm.
    rewrite Hoe2, Ho1, Hs2, Hs1, Hsz2, Hsz1, Hszf.
    rewrite Hl2 in *. rewrite Hl1 in *. rewrite Hlf in *.
    repeat split; try lia; try tauto.
Qed.

Lemma buffer_forward_count_invariants b n :
  0 <= n -> l b < 2^32 ->
  buffer_count_invariants b ->
  buffer_count_invariants (snd (forward b n)).
Proof.
  intros Hn Hl32 (Hs & Hl & Hoe).
  unfold buffer_forward.
  destruct (Z.eqb_spec n 0).
  { cbn [snd]. unfold buffer_count_invariants. tauto. }
  rewrite (u32_small (l b - send_max b)) by lia.
  destruct (Z.leb_spec n (l b - send_max b)).
  - unfold buffer_count_invariants. cbn. rewrite u32_small by lia.
    bf_bits. flag_norm.
    repeat split; try lia; try discriminate.
  - replace (send_max b + (l b - send_max b)) with (l b) by lia.
    rewrite (u32_small (l b)) by lia. cbn [send_max set_send_max].
    set (b2 := if l b =? 0 then _ else _).
    assert (Hb2 : buffer_count_invariants b2).
    { subst b2. destruct (Z.eqb_spec (l b) 0) as [Hz|Hz];
        unfold buffer_count_invariants; cbn.
      - assert (send_max b = 0) by lia. repeat split; try lia; tauto.
      - bf_bits. flag_norm. repeat split; try lia; try discriminate. }
    set (b3 := if l b2 <? buffer_max_len b2 then _ else _).
    assert (Hb3 : buffer_count_invariants b3).
    { destruct Hb2 as (H1 & H2 & H3).
      subst b3. destruct (l b2 <? _); unfold buffer_count_invariants; cbn;
        bf_bits; flag_norm; auto. }
    assert (Hset : forall x, buffer_count_invariants (set_to_forward x b3)).
    { intros x. exact Hb3. }
    destruct (n =? u64 BUF_INFINITE_FORWARD); [apply Hset|].
    destruct (to_forward b3 =? u32 BUF_INFINITE_FORWARD); [exact Hb3|].
    match goal with |- context [if ?c then (_, set_to_forward _ _) else _] =>
      destruct c end; [apply Hset|exact Hb3].
Qed.

(** C4, as the code has it.  For a limit computed from the counters,
    [buffer_write] and [buffer_feed2] return and keep the three invariants
    (and the ring); [buffer_forward] keeps [0 <= send_max <= l <= size]
    and [BF_OUT_EMPTY <-> send_max = 0]. *)
Theorem buffer_mutators_invariants b msg len n :
  max_len_of_counters buffer_max_len ->
  ring_ok b -> inv b ->
  0 <= len <= Z.of_nat (length msg) -> 0 <= n ->
  (exists ret b', buffer_write buffer_max_len b msg len = Some (ret, b')
                  /\ ring_ok b' /\ inv b')
  /\ (exists ret b',
        buffer_feed2 buffer_max_len BUF_INFINITE_FORWARD b msg len
        = Some (ret, b')
        /\ ring_ok b' /\ inv b')
  /\ buffer_count_invariants (snd (forward b n)).
Proof.
  intros Hc Hring Hinv Hlen Hn. split; [|split].
  - apply buffer_write_invariants; assumption.
  - apply buffer_feed2_invariants; assumption.
  - apply buffer_forward_count_invariants; [exact Hn| |].
    + destruct Hring as (? & _), Hinv as (_ & ? & _). lia.
    + destruct Hinv as (? & ? & _ & ?). repeat split; tauto.
Qed.

End MutatorProps.

Lemma reserve_max_len_counters maxrewrite inf :
  max_len_of_counters (reserve_max_len maxrewrite inf).
Proof.
  intros b b' Hsz Hl Hs Ht. unfold reserve_max_len.
  rewrite Hsz, Hs, Ht. reflexivity.
Qed.

Lemma full_buffer_invariants :
  ring_ok full_buffer /\ buffer_invariants (reserve_max_len 20 (-1)) full_buffer.
Proof.
  unfold ring_ok, buffer_invariants. cbn.
  repeat split; try lia; try reflexivity; intros _; vm_compute;
    try reflexivity; discriminate.
Qed.

Lemma buffer_mutators_invariants_witness :
  (exists ret b',
      buffer_write (reserve_max_len 20 (-1)) full_buffer [1; 2; 3] 3
      = Some (ret, b')
      /\ ring_ok b' /\ buffer_invariants (reserve_max_len 20 (-1)) b')
  /\ (exists ret b',
        buffer_feed2 (reserve_max_len 20 (-1)) (-1) full_buffer [1; 2; 3] 3
        = Some (ret, b')
        /\ ring_ok b' /\ buffer_invariants (reserve_max_len 20 (-1)) b')
  /\ buffer_count_invariants
       (snd (buffer_forward (reserve_max_len 20 (-1)) (-1) (2^31)
                            full_buffer 10)).
Proof.
  apply (buffer_mutators_invariants (reserve_max_len 20 (-1)) (-1) (2^31)
           full_buffer [1; 2; 3] 3 10).
  - apply reserve_max_len_counters.
  - apply full_buffer_invariants.
  - apply full_buffer_invariants.
  - cbn; lia.
  - lia.
Defined.

(** C4 as stated fails for [buffer_forward]: with a limit that moves with
    the scheduled bytes, the early return raises [send_max], hence the
    limit, and leaves [BF_FULL] as it was. *)
Lemma buffer_forward_breaks_full :
  let max_len := reserve_max_len 20 (-1) in
  ring_ok full_buffer /\ buffer_invariants max_len full_buffer
  /\ ~ buffer_invariants max_len
         (snd (buffer_forward max_len (-1) (2^31) full_buffer 10)).
Proof.
  cbv zeta. split; [apply full_buffer_invariants|].
  split; [apply full_buffer_invariants|].
  intros (_ & _ & Hfull & _).
  assert (H : has (flags (snd (buffer_forward (reserve_max_len 20 (-1)) (-1)
                                 (2^31) full_buffer 10))) BF_FULL = true)
    by reflexivity.
  apply Hfull in H. vm_compute in H. apply H. reflexivity.
Qed.

(* ===================================================================== *)
(** ** Buffers: peeking a line *)
(* ===================================================================== *)

Lemma mod_succ a s :
  0 < s -> (a + 1) mod s = if a mod s + 1 =? s then 0 else a mod s + 1.
Proof.
  intros Hs. rewrite <- Zplus_mod_idemp_l.
  pose proof (Z.mod_pos_bound a s Hs).
  destruct (Z.eqb_spec (a mod s + 1) s) as [->|Hne].
  - apply Z.mod_same. lia.
  - apply Z.mod_small. lia.
Qed.

Section Peekline.

Variable b : buffer.
Hypothesis size_pos : 0 < size b.

(** The loop copies the line that ends at position [k - 1]. *)
Lemma peek_loop_copy (k : Z) :
  ring_byte b (k - 1) = 10 ->
  forall fuel j str max,
    0 <= j < k -> k - j <= Z.of_nat fuel -> k - j <= max ->
    k <= Z.of_nat (length str) ->
    (forall x, j <= x < k - 1 -> ring_byte b x <> 10) ->
    exists str',
      peek_loop fuel b ((w b + j) mod size b) str j j max
      = (str', k, k, max - (k - j))
      /\ length str' = length str
      /\ (forall x, j <= x < k -> str' !! Z.to_nat x = Some (ring_byte b x))
      /\ (forall x, 0 <= x < j -> str' !! Z.to_nat x = str !! Z.to_nat x).
Proof.
  intros Hnl. induction fuel as [|fuel IH]; intros j str max Hj Hf Hmax Hlen Hno.
  - cbn in Hf. lia.
  - cbn [peek_loop].
    destruct (Z.eqb_spec max 0); [lia|].
    fold (ring_byte b j).
    destruct (Z.eqb_spec (ring_byte b j) 10) as [Hc|Hc].
    + assert (j = k - 1).
      { destruct (Z.eq_dec j (k - 1)); [assumption|].
        exfalso. apply (Hno j); [lia|assumption]. }
      subst j. eexists. split.
      * f_equal; [f_equal; [f_equal|]|]; lia.
      * split; [apply length_insert|]. split.
        -- intros x Hx. assert (x = k - 1) by lia. subst x.
           apply list_lookup_insert_eq. lia.
        -- intros x Hx. apply list_lookup_insert_ne. lia.
    + assert (j < k - 1).
      { destruct (Z.eq_dec j (k - 1)); [|lia]. subst j. contradiction. }
      rewrite <- mod_succ by assumption.
      rewrite <- Z.add_assoc.
      destruct (IH (j + 1) (<[Z.to_nat j := ring_byte b j]> str) (max - 1))
        as (str' & Heq & Hlen' & Hcopy & Hkeep).
      * lia.
      * lia.
      * lia.
      * rewrite length_insert. lia.
      * intros x Hx. apply Hno. lia.
      * exists str'. split; [rewrite Heq; f_equal; lia|].
        split; [rewrite Hlen'; apply length_insert|]. split.
        -- intros x Hx. destruct (Z.eq_dec x j) as [->|Hne].
           ++ rewrite Hkeep by lia. apply list_lookup_insert_eq. lia.
           ++ apply Hcopy. lia.
        -- intros x Hx. rewrite Hkeep by lia.
           apply list_lookup_insert_ne. lia.
Qed.

End Peekline.

Lemma byte_at_lookup (d : list Z) (x v : Z) :
  d !! Z.to_nat x = Some v -> byte_at d x = v.
Proof. intros H. unfold byte_at. rewrite nth_lookup, H. reflexivity. Qed.

(** C8, as the code has it.  With room for [len >= 1] bytes, the call
    leaves the buffer alone; it returns the length of the first line,
    newline included, and copies it, when that line is scheduled for output
    and fits in [len] bytes; with nothing scheduled it returns 0 unless the
    output side is shut, and -1 when it is. *)
Theorem buffer_si_peekline_spec (b : buffer) (str : list Z) (len : Z) :
  0 < size b -> 0 <= w b < size b -> 1 <= len <= Z.of_nat (length str) ->
  let '(ret, str', b') := buffer_si_peekline b str len in
  b' = b
  /\ (forall k, 1 <= k <= len -> k <= send_max b ->
        ring_byte b (k - 1) = 10 ->
        (forall x, 0 <= x < k - 1 -> ring_byte b x <> 10) ->
        ret = k
        /\ forall x, 0 <= x < k -> str' !! Z.to_nat x = Some (ring_byte b x))
  /\ (send_max b = 0 ->
        has (flags b) (Z.lor BF_SHUTW BF_SHUTW_NOW) = false -> ret = 0)
  /\ (send_max b = 0 ->
        has (flags b) (Z.lor BF_SHUTW BF_SHUTW_NOW) = true -> ret = -1).
Proof.
  intros Hsz Hw Hlen. unfold buffer_si_peekline.
  destruct (Z.eqb_spec (send_max b) 0) as [Hz|Hnz].
  { split; [reflexivity|]. split; [intros; lia|].
    split; intros _ ->; reflexivity. }
  set (start := if send_max b <? len then _ else _).
  destruct start as [max str0] eqn:Hstart.
  assert (Hmax : max = Z.min (send_max b) len
                 /\ length str0 = length str).
  { subst start. destruct (Z.ltb_spec (send_max b) len);
      inversion Hstart; subst; rewrite ?length_insert; split; lia. }
  destruct Hmax as [Hmax Hlen0].
  destruct (peek_loop (Z.to_nat max) b (w b) str0 0 0 max)
    as [[[str1 i] ret] max1] eqn:Hloop.
  split; [reflexivity|]. split; [|split; intros; lia].
  intros k Hk Hks Hnl Hno.
  destruct (peek_loop_copy b Hsz k Hnl (Z.to_nat max) 0 str0 max)
    as (str' & Heq & Hlen' & Hcopy & _); try lia; [exact Hno|].
  rewrite Z.add_0_r, Z.mod_small in Heq by lia.
  rewrite Heq in Hloop. inversion Hloop; subst str1 i ret max1. clear Hloop.
  rewrite (byte_at_lookup str' (k - 1) (ring_byte b (k - 1)))
    by (apply Hcopy; lia).
  rewrite Hnl. cbn [Z.eqb Pos.eqb negb]. rewrite andb_false_r. cbn [andb].
  split; [reflexivity|].
  intros x Hx. destruct (_ =? 0).
  - apply Hcopy. exact Hx.
  - rewrite list_lookup_insert_ne by lia. apply Hcopy. exact Hx.
Qed.

(** On the buffer ["ab\ncd"], all scheduled, with room for 8 bytes. *)
Lemma buffer_si_peekline_spec_witness :
  let '(ret, str', b') :=
    buffer_si_peekline (out_buffer 0 ("ab" ++ LF ++ "cd")%string) (repeat 7%Z 8) 8 in
  b' = out_buffer 0 ("ab" ++ LF ++ "cd")%string /\ ret = 3
  /\ take 3 str' = bytes ("ab" ++ LF)%string.
Proof.
  pose proof (buffer_si_peekline_spec
                (out_buffer 0 ("ab" ++ LF ++ "cd")%string) (repeat 7%Z 8) 8
                ltac:(cbn; lia) ltac:(cbn; lia) ltac:(cbn; lia)) as H.
  destruct (buffer_si_peekline _ _ _) as [[ret str'] b'] eqn:E.
  destruct H as (Hb & Hline & _).
  destruct (Hline 3) as [Hret Hcopy]; try (cbn; lia).
  - reflexivity.
  - intros x Hx. assert (x = 0 \/ x = 1) as [-> | ->] by lia; discriminate.
  - split; [exact Hb|]. split; [exact Hret|].
    vm_compute in E. inversion E. reflexivity.
Defined.

(** C8 as stated fails twice at the buffer ["abc"] with room for 8 bytes:
    no newline has arrived, nothing is full nor shut, and the call returns
    3, not 0; and with the output side shut it returns 3 again, not a
    negative value. *)
Lemma buffer_si_peekline_no_wait :
  has (flags (out_buffer 0 "abc")) (Z.lor BF_SHUTW BF_SHUTW_NOW) = false
  /\ has (flags (out_buffer 0 "abc")) BF_FULL = false
  /\ (forall x, 0 <= x < send_max (out_buffer 0 "abc") ->
        ring_byte (out_buffer 0 "abc") x <> 10)
  /\ send_max (out_buffer 0 "abc") < 8
  /\ fst (fst (buffer_si_peekline (out_buffer 0 "abc") (repeat 7 8) 8)) = 3
  /\ has (flags (out_buffer BF_SHUTW "abc")) (Z.lor BF_SHUTW BF_SHUTW_NOW) = true
  /\ fst (fst (buffer_si_peekline (out_buffer BF_SHUTW "abc") (repeat 7 8) 8))
     = 3.
Proof.
  repeat split; try reflexivity.
  - intros x Hx. change (send_max (out_buffer 0 "abc")) with 3 in Hx.
    assert (x = 0 \/ x = 1 \/ x = 2) as [-> | [-> | ->]] by lia; discriminate.
Qed.


(* ===================================================================== *)
(** ** ACL conditions *)
(* ===================================================================== *)

Lemma acl_ok_lor dir a b : acl_ok dir a -> acl_ok dir b -> acl_ok dir (Z.lor a b).
Proof.
  unfold acl_ok. intros [->|[->|[-> Ha]]] [->|[->|[-> Hb]]]; cbn; auto.
Qed.

Lemma acl_ok_land dir a b : acl_ok dir a -> acl_ok dir b -> acl_ok dir (Z.land a b).
Proof.
  unfold acl_ok. intros [->|[->|[-> Ha]]] [->|[->|[-> Hb]]]; cbn; auto.
Qed.

Lemma acl_ok_neg dir a : acl_ok dir a -> acl_ok dir (acl_neg a).
Proof. unfold acl_ok. intros [->|[->|[-> Ha]]]; cbn; auto. Qed.

Lemma acl_ok_miss dir (c : bool) a :
  acl_ok dir a ->
  acl_ok dir (if c && has dir ACL_PARTIAL then Z.lor a ACL_PAT_MISS else a).
Proof.
  intros Ha. destruct c; cbn [andb]; [|exact Ha].
  destruct (has dir ACL_PARTIAL) eqn:E; [|exact Ha].
  apply acl_ok_lor; [exact Ha|]. unfold acl_ok. auto.
Qed.

Section AclProps.

Context {env : Type}.
Variable e : env.
Variable dir : Z.

Lemma match_ok (k : acl_keyword env) test pat :
  match_two_valued k -> acl_ok dir (fst (kw_match k test pat)).
Proof. intros H. destruct (H test pat) as [->| ->]; unfold acl_ok; auto. Qed.

Lemma match_patterns_ok (k : acl_keyword env) pats :
  match_two_valued k ->
  forall acl_res test,
    acl_ok dir acl_res -> acl_ok dir (fst (match_patterns k pats acl_res test)).
Proof.
  intros Hk. induction pats as [|p pats IH]; intros acl_res test Hres; cbn.
  - exact Hres.
  - destruct (acl_res =? ACL_PAT_PASS); [exact Hres|].
    pose proof (match_ok k test (Some p) Hk) as Hm.
    destruct (kw_match k test (Some p)) as [m test']. cbn in Hm.
    apply IH. apply acl_ok_lor; assumption.
Qed.

Lemma eval_expr_ok (expr : acl_expr env) :
  match_two_valued (kw expr) ->
  forall fuel acl_res test r brk,
    acl_ok dir acl_res ->
    eval_expr fuel e dir expr acl_res test = Some (r, brk) ->
    acl_ok dir r.
Proof.
  intros Hk. induction fuel as [|fuel IH]; intros acl_res test r brk Hres Hev.
  - discriminate.
  - cbn [eval_expr] in Hev.
    destruct (kw_fetch (kw expr) e dir (arg expr) test) as [ret test1].
    destruct (ret =? 0).
    { inversion Hev; subst. apply acl_ok_miss. exact Hres. }
    set (step := if has (t_flags test1) ACL_TEST_F_RES_SET then _ else _) in Hev.
    assert (Hstep : acl_ok dir (fst step)).
    { subst step. destruct (has (t_flags test1) ACL_TEST_F_RES_SET).
      - cbn. destruct (has _ ACL_TEST_F_RES_PASS);
          (apply acl_ok_lor; [exact Hres|unfold acl_ok; auto]).
      - set (r0 := match pattern_tree expr with Some _ => _ | None => _ end).
        assert (Hr0 : acl_ok dir r0).
        { subst r0. destruct (pattern_tree expr) as [lookup|]; [|exact Hres].
          destruct (kw_match_id (kw expr)); try exact Hres;
            (apply acl_ok_lor; [exact Hres|]);
            destruct (lookup test1); unfold acl_ok; auto. }
        pose proof (match_patterns_ok (kw expr) (patterns expr) Hk r0 test1 Hr0)
          as Hmp.
        destruct (match_patterns (kw expr) (patterns expr) r0 test1)
          as [r1 test2]. cbn in Hmp.
        destruct (_ && _ && _); [|exact Hmp].
        pose proof (match_ok (kw expr) test2 None Hk) as Hm.
        destruct (kw_match (kw expr) test2 None) as [m test3]. cbn in *.
        apply acl_ok_lor; assumption. }
    destruct step as [r1 test2]. cbn in Hstep.
    destruct (r1 =? ACL_PAT_PASS).
    { inversion Hev; subst. exact Hstep. }
    destruct (has (t_flags (if has (t_flags test2) ACL_TEST_F_MUST_FREE
                            then set_t_len 0 test2 else test2))
                  ACL_TEST_F_FETCH_MORE).
    + eapply IH; [exact Hstep|exact Hev].
    + inversion Hev; subst. apply acl_ok_miss. exact Hstep.
Qed.

#[local] Abbreviation settles fuel :=
  (fun expr : acl_expr env =>
     match_two_valued (kw expr) /\ fetch_settles fuel e dir expr).

Lemma eval_exprs_ok fuel (exprs : list (acl_expr env)) :
  Forall (settles fuel) exprs ->
  forall acl_res, acl_ok dir acl_res ->
    exists r, eval_exprs fuel e dir exprs acl_res = Some r /\ acl_ok dir r.
Proof.
  induction 1 as [|expr exprs [Hk Hf] _ IH]; intros acl_res Hres; cbn.
  - eauto.
  - destruct (eval_expr fuel e dir expr acl_res test_zero) as [[r brk]|] eqn:E.
    + pose proof (eval_expr_ok expr Hk fuel acl_res test_zero r brk Hres E).
      destruct brk; eauto.
    + exfalso. exact (Hf acl_res E).
Qed.

Lemma eval_terms_ok fuel (terms : list (acl_term env)) :
  Forall (settles fuel) (concat (map term_acl terms)) ->
  forall suite_res, acl_ok dir suite_res ->
    exists r, eval_terms fuel e dir terms suite_res = Some r /\ acl_ok dir r.
Proof.
  induction terms as [|term terms IH]; intros Hall suite_res Hres; cbn.
  - eauto.
  - cbn in Hall. apply Forall_app in Hall as [Hterm Hrest].
    destruct (eval_exprs_ok fuel (term_acl term) Hterm ACL_PAT_FAIL)
      as (r & -> & Hr); [unfold acl_ok; auto|].
    assert (Hn : acl_ok dir (if neg term then acl_neg r else r)).
    { destruct (neg term); [apply acl_ok_neg|]; exact Hr. }
    pose proof (acl_ok_land dir _ _ Hres Hn) as Hland.
    destruct (_ =? ACL_PAT_FAIL); eauto.
Qed.

Lemma eval_suites_ok fuel (suites : acl_cond env) :
  cond_settles fuel e dir suites ->
  forall cond_res, acl_ok dir cond_res ->
    exists r, eval_suites fuel e dir suites cond_res = Some r /\ acl_ok dir r.
Proof.
  unfold cond_settles, cond_exprs.
  induction suites as [|suite suites IH]; intros Hall cond_res Hres; cbn.
  - eauto.
  - cbn in Hall. apply Forall_app in Hall as [Hsuite Hrest].
    destruct (eval_terms_ok fuel suite Hsuite ACL_PAT_PASS)
      as (r & -> & Hr); [unfold acl_ok; auto|].
    pose proof (acl_ok_lor dir _ _ Hres Hr) as Hlor.
    destruct (_ =? ACL_PAT_PASS); eauto.
Qed.


End AclProps.

Lemma debug_keywords_settle (dir : Z) (k : acl_keyword unit) :
  k = kw_always_true \/ k = kw_always_false \/ k = kw_wait_end ->
  match_two_valued k /\ fetch_settles 1 tt dir (mkexpr k [] [] None).
Proof.
  intros Hk. split.
  - intros test pat. right.
    destruct Hk as [->|[->| ->]]; reflexivity.
  - intros acl_res.
    destruct Hk as [->|[->| ->]];
      cbv -[Z.lor Z.eqb has]; destruct (has dir 2);
      change (1 =? 0) with false; change (0 =? 0) with true;
      repeat (match goal with
      | |- context [has ?a ?b] =>
        let v := eval vm_compute in (has a b) in change (has a b) with v
      end; cbv iota beta);
      try destruct (_ =? _); discriminate.
Qed.


Example acl_not_wait_end_partial :
  acl_exec_cond 1 cond_not_wait_end tt (Z.lor ACL_DIR_REQ ACL_PARTIAL)
  = Some ACL_PAT_MISS.
Proof. reflexivity. Qed.

Example acl_not_wait_end_final :
  acl_exec_cond 1 cond_not_wait_end tt ACL_DIR_REQ = Some ACL_PAT_FAIL.
Proof. reflexivity. Qed.

(* ===================================================================== *)
(** ** The request analyser loop *)
(* ===================================================================== *)

Lemma lowest_bit_double y : lowest_bit (2 * y) = 2 * lowest_bit y.
Proof.
  unfold lowest_bit. apply Z.bits_inj'. intros n Hn.
  replace (2 * y - 1) with (2 * (y - 1) + 1) by lia.
  destruct (Z.eq_dec n 0) as [->|Hne].
  - rewrite Z.lxor_spec, Z.land_spec, !Z.testbit_even_0, Z.testbit_odd_0.
    reflexivity.
  - replace n with (Z.succ (n - 1)) by lia.
    rewrite Z.lxor_spec, Z.land_spec, !Z.testbit_even_succ,
      Z.testbit_odd_succ, Z.lxor_spec, Z.land_spec by lia.
    reflexivity.
Qed.

Lemma lowest_bit_odd y : lowest_bit (2 * y + 1) = 1.
Proof.
  unfold lowest_bit. apply Z.bits_inj'. intros n Hn.
  replace (2 * y + 1 - 1) with (2 * y) by lia.
  destruct (Z.eq_dec n 0) as [->|Hne].
  - rewrite Z.lxor_spec, Z.land_spec, Z.testbit_even_0, Z.testbit_odd_0.
    reflexivity.
  - replace n with (Z.succ (n - 1)) by lia.
    rewrite Z.lxor_spec, Z.land_spec, Z.testbit_even_succ,
      Z.testbit_odd_succ by lia.
    assert (H1 : forall m, 0 <= m -> Z.testbit 1 (Z.succ m) = false).
    { intros m Hm. change 1 with (2 * 0 + 1).
      rewrite Z.testbit_odd_succ by lia. apply Z.bits_0. }
    rewrite H1 by lia.
    destruct (Z.testbit y (n - 1)); reflexivity.
Qed.

(** [lowest_bit] isolates the lowest bit set. *)
Lemma lowest_bit_pos p :
  exists j : nat,
    Z.testbit (Z.pos p) (Z.of_nat j) = true
    /\ (forall i : nat, (i < j)%nat -> Z.testbit (Z.pos p) (Z.of_nat i) = false)
    /\ lowest_bit (Z.pos p) = bit j.
Proof.
  induction p as [p _|p (j & Hj & Hlow & Heq)|].
  - exists 0%nat. rewrite Pos2Z.inj_xI. split; [apply Z.testbit_odd_0|].
    split; [intros; lia|]. apply lowest_bit_odd.
  - exists (S j). rewrite Pos2Z.inj_xO. split; [|split].
    + rewrite Nat2Z.inj_succ, Z.testbit_even_succ by lia. exact Hj.
    + intros [|i] Hi; [apply Z.testbit_even_0|].
      rewrite Nat2Z.inj_succ, Z.testbit_even_succ by lia. apply Hlow. lia.
    + rewrite lowest_bit_double, Heq. unfold bit.
      rewrite !Z.shiftl_1_l, Nat2Z.inj_succ, Z.pow_succ_r by lia. reflexivity.
  - exists 0%nat. split; [reflexivity|]. split; [intros; lia|reflexivity].
Qed.

Lemma bit_lt j n : bit j < bit n <-> (j < n)%nat.
Proof.
  unfold bit. rewrite !Z.shiftl_1_l. split; intros H.
  - apply Z.pow_lt_mono_r_iff in H; lia.
  - apply Z.pow_lt_mono_r; lia.
Qed.

(** The test of UPDATE_ANALYSERS: some bit of the list lies below the
    flag. *)
Lemma lowest_bit_below list n :
  0 < list ->
  (lowest_bit list <? bit n) = true
  <-> exists i : nat, (i < n)%nat /\ Z.testbit list (Z.of_nat i) = true.
Proof.
  intros Hpos. destruct list as [|p|p]; try lia.
  destruct (lowest_bit_pos p) as (j & Hj & Hlow & ->).
  rewrite Z.ltb_lt, bit_lt. split.
  - intros H. exists j. auto.
  - intros (i & Hi & Hset). destruct (Nat.lt_ge_cases j n) as [|Hge]; [assumption|].
    rewrite Hlow in Hset by lia. discriminate.
Qed.

Lemma not32_spec x i :
  0 <= i < 32 -> Z.testbit (not32 x) i = negb (Z.testbit x i).
Proof.
  intros Hi. unfold not32. rewrite Z.land_spec, Z.lnot_spec by lia.
  change 0xFFFFFFFF with (Z.ones 32). rewrite Z.ones_spec_low by lia.
  apply andb_true_r.
Qed.

Lemma update_list_spec real list back flag (i : nat) :
  (i < 32)%nat ->
  Z.testbit (update_list real list back flag) (Z.of_nat i)
  = ((Z.testbit list (Z.of_nat i) && negb (Z.testbit flag (Z.of_nat i)))
     || negb (Z.testbit back (Z.of_nat i)))
    && Z.testbit real (Z.of_nat i).
Proof.
  intros Hi. unfold update_list.
  rewrite Z.land_spec, Z.lor_spec, Z.land_spec, !not32_spec by lia.
  reflexivity.
Qed.

Lemma update_list_nonneg real list back flag :
  0 <= real -> 0 <= update_list real list back flag.
Proof. intros H. unfold update_list. apply Z.land_nonneg. auto. Qed.

Lemma ladder_split a :
  req_ladder
  = take (ladder_pos a) req_ladder ++ a :: drop (S (ladder_pos a)) req_ladder.
Proof. destruct a; reflexivity. Qed.

Lemma sorted_split (f : req_analyser -> nat) pre a rest :
  StronglySorted lt (map f (pre ++ a :: rest)) ->
  Forall (fun x => (f x < f a)%nat) pre /\ Forall (fun x => (f a < f x)%nat) rest.
Proof.
  induction pre as [|p pre IH]; cbn; intros H.
  - apply StronglySorted_inv in H as [_ H]. split; [constructor|].
    apply (proj1 (List.Forall_map _ _ _)) in H. exact H.
  - apply StronglySorted_inv in H as [Hs Hp]. destruct (IH Hs) as [H1 H2].
    split; [|exact H2]. constructor; [|exact H1].
    apply (proj1 (List.Forall_map _ _ _)) in Hp. rewrite Forall_app in Hp.
    destruct Hp as [_ Hp].
    apply Forall_cons in Hp as [Hp _]. exact Hp.
Qed.

Lemma find_first {A} (f : A -> bool) (l : list A) b :
  In b l -> f b = true ->
  exists c pre rest,
    l = pre ++ c :: rest /\ f c = true /\ Forall (fun x => f x = false) pre
    /\ find f l = Some c /\ (b = c \/ In b rest).
Proof.
  induction l as [|x l IH]; intros Hin Hb; [destruct Hin|].
  destruct (f x) eqn:Hx.
  - exists x, [], l. cbn. rewrite Hx. repeat split; auto.
    destruct Hin; auto.
  - destruct Hin as [->|Hin]; [congruence|].
    destruct (IH Hin Hb) as (c & pre & rest & -> & Hc & Hpre & Hfind & Hor).
    exists c, (x :: pre), rest. cbn. rewrite Hx. repeat split; auto.
Qed.

Section LoopProps.

Variable S : Type.
Variable req_analysers : S -> Z.
Variable call : req_analyser -> S -> Z * S.
Variable an_ord : req_analyser -> nat.

#[local] Abbreviation walk := (run_ladder req_analysers call an_ord).
#[local] Abbreviation loop := (analyser_loop req_analysers call an_ord).

Lemma walk_skip pre rest st :
  Forall (fun x => has (ana_list st) (AN an_ord x) = false) pre ->
  walk (pre ++ rest) st = walk rest st.
Proof.
  induction 1 as [|x pre Hx _ IH]; [reflexivity|].
  cbn [app run_ladder]. rewrite Hx. exact IH.
Qed.

Lemma walk_monotone rest :
  forall st, exists tr, called (snd (walk rest st)) = tr ++ called st.
Proof.
  induction rest as [|a rest IH]; intros st; cbn [run_ladder].
  - exists []. reflexivity.
  - destruct (has (ana_list st) (AN an_ord a)); [|apply IH].
    destruct (call a (sess st)) as [ret s].
    destruct (ret =? 0); [exists [a]; reflexivity|].
    destruct (_ =? 0); [exists [a]; reflexivity|].
    destruct (_ <? _); [exists [a]; reflexivity|].
    match goal with |- context [walk rest ?st'] =>
      destruct (IH st') as [tr Htr] end.
    exists (tr ++ [a]). rewrite Htr, <- app_assoc. reflexivity.
Qed.

Lemma loop_monotone n :
  forall st, exists tr, called (loop n st) = tr ++ called st.
Proof.
  induction n as [|n IH]; intros st; cbn [analyser_loop].
  - exists []. reflexivity.
  - destruct (ana_list st =? 0); [exists []; reflexivity|].
    destruct (walk_monotone req_ladder st) as [tr Htr].
    destruct (walk req_ladder st) as [[|] st1]; cbn [snd] in Htr.
    + exists tr. exact Htr.
    + destruct (IH st1) as [tr' Htr']. exists (tr' ++ tr).
      rewrite Htr', Htr, app_assoc. reflexivity.
Qed.

(** A walk down the ladder calls the first pending analyser first. *)
Lemma walk_first st c :
  first_pending an_ord (ana_list st) = Some c ->
  exists tr, called (snd (walk req_ladder st)) = tr ++ c :: called st.
Proof.
  intros Hfind. unfold first_pending in Hfind.
  pose proof (find_some _ _ Hfind) as [Hin Hc].
  destruct (find_first (fun a => has (ana_list st) (AN an_ord a))
                       req_ladder c Hin Hc)
    as (c' & pre & rest & Heq & Hc' & Hpre & Hfind' & _).
  rewrite Hfind in Hfind'. inversion Hfind'; subst c'. clear Hfind'.
  rewrite Heq, (walk_skip pre (c :: rest) st Hpre).
  cbn [run_ladder]. rewrite Hc'.
  destruct (call c (sess st)) as [ret s].
  destruct (ret =? 0); [exists []; reflexivity|].
  destruct (_ =? 0); [exists []; reflexivity|].
  destruct (_ <? _); [exists []; reflexivity|].
  match goal with |- context [walk rest ?st'] =>
    destruct (walk_monotone rest st') as [tr Htr] end.
  exists tr. rewrite Htr. reflexivity.
Qed.

Lemma all_in_ladder (a : req_analyser) : In a req_ladder.
Proof. destruct a; cbn; tauto. Qed.

Lemma ladder_ord_lt32 (a : req_analyser) :
  ladder_ascending an_ord -> (an_ord a < 32)%nat.
Proof.
  intros [_ H]. rewrite Forall_forall in H. apply H.
  apply list_elem_of_In, all_in_ladder.
Qed.

(** C1, as the code has it.  The analyser [a] is called at the lowest
    pending bit and returns non zero.  Every bit it newly set joins the
    pending set.  When one of them lies below the bit of [a], the walk
    down the ladder stops at [continue], and as long as [max_loops] has
    not run out the loop calls next the lowest of the newly set analysers;
    when it has run out the loop ends there.  When none lies below, the
    walk goes on with the analysers after [a]. *)
Theorem analyser_restart (st : loop_state S) (a : req_analyser)
        (ret : Z) (s' : S) :
  ladder_ascending an_ord ->
  masks_u32 req_analysers ->
  has (ana_list st) (AN an_ord a) = true ->
  (forall i : nat, (i < an_ord a)%nat ->
                   Z.testbit (ana_list st) (Z.of_nat i) = false) ->
  call a (sess st) = (ret, s') -> ret <> 0 ->
  let real := req_analysers s' in
  let st' := mkloop s' (update_list real (ana_list st) (ana_back st)
                                    (AN an_ord a))
                    real (a :: called st) in
  (forall i : nat, (i < 32)%nat -> newly real (ana_back st) i = true ->
                   Z.testbit (ana_list st') (Z.of_nat i) = true)
  /\ (forall b, (an_ord b < an_ord a)%nat ->
                newly real (ana_back st) (an_ord b) = true ->
        walk req_ladder st = (Continue, st')
        /\ loop 1 st = st'
        /\ exists c,
             first_pending an_ord (ana_list st') = Some c
             /\ (an_ord c <= an_ord b)%nat
             /\ newly real (ana_back st) (an_ord c) = true
             /\ forall n, exists tr,
                  called (loop (Datatypes.S (Datatypes.S n)) st)
                  = tr ++ c :: a :: called st)
  /\ ((forall i : nat, (i < an_ord a)%nat ->
                       newly real (ana_back st) i = false) ->
      ana_list st' <> 0 ->
      walk req_ladder st
      = walk (drop (Datatypes.S (ladder_pos a)) req_ladder) st').
Proof.
  intros Hasc Hu32 Ha Hlow Hcall Hret real st'.
  pose proof Hasc as [Hsorted _].
  assert (Hnz : (ret =? 0) = false) by (apply Z.eqb_neq; exact Hret).
  assert (Hlist : (ana_list st =? 0) = false).
  { apply Z.eqb_neq. intros H0. rewrite H0 in Ha. discriminate. }
  (* the walk reaches [a] and calls it *)
  assert (Hwalk : walk req_ladder st =
    if ana_list st' =? 0 then (Break, st')
    else if lowest_bit (ana_list st') <? AN an_ord a then (Continue, st')
    else walk (drop (Datatypes.S (ladder_pos a)) req_ladder) st').
  { rewrite (ladder_split a) at 1. rewrite (ladder_split a) in Hsorted.
    apply sorted_split in Hsorted as [Hpre _].
    rewrite walk_skip.
    - cbn [run_ladder]. rewrite Ha, Hcall, Hnz. reflexivity.
    - eapply Forall_impl; [exact Hpre|]. intros x Hx. cbn beta in Hx.
      cbn [AN]. rewrite has_bit. apply Hlow. exact Hx. }
  assert (Hjoin : forall i : nat, (i < 32)%nat ->
            newly real (ana_back st) i = true ->
            Z.testbit (ana_list st') (Z.of_nat i) = true).
  { intros i Hi Hnew. unfold newly in Hnew. apply andb_true_iff in Hnew as [Hr Hb].
    cbn [ana_list st']. rewrite update_list_spec, Hr, Hb by exact Hi.
    rewrite orb_true_r. reflexivity. }
  assert (Hpos : ana_list st' <> 0 -> 0 < ana_list st').
  { intros Hne. pose proof (update_list_nonneg real (ana_list st) (ana_back st)
      (AN an_ord a) (proj1 (Hu32 s'))). cbn [ana_list st'] in *. lia. }
  split; [exact Hjoin|]. split.
  - intros b Hb Hnew.
    pose proof (Hjoin (an_ord b) (ladder_ord_lt32 b Hasc) Hnew) as Hbset.
    assert (Hne : ana_list st' <> 0).
    { intros H0. rewrite H0, Z.bits_0 in Hbset. discriminate. }
    assert (Hcont : walk req_ladder st = (Continue, st')).
    { rewrite Hwalk. destruct (Z.eqb_spec (ana_list st') 0); [contradiction|].
      cbn [AN].
      rewrite (proj2 (lowest_bit_below (ana_list st') (an_ord a) (Hpos Hne)));
        [reflexivity|].
      exists (an_ord b). auto. }
    split; [exact Hcont|]. split.
    { cbn [analyser_loop]. rewrite Hlist, Hcont. reflexivity. }
    (* the analyser the next walk calls *)
    destruct (find_first (fun x => has (ana_list st') (AN an_ord x))
                req_ladder b (all_in_ladder b))
      as (c & pre & rest & Heq & Hc & Hpre & Hfind & Hor).
    { cbn [AN]. rewrite has_bit. exact Hbset. }
    assert (Hcb : (an_ord c <= an_ord b)%nat).
    { destruct Hor as [->|Hin]; [lia|].
      pose proof Hasc as [Hs _]. rewrite Heq in Hs.
      apply sorted_split in Hs as [_ Hrest].
      rewrite Forall_forall in Hrest.
      apply list_elem_of_In, Hrest in Hin. lia. }
    exists c. split; [exact Hfind|]. split; [exact Hcb|]. split.
    + cbn [AN] in Hc. rewrite has_bit in Hc. cbn [ana_list st'] in Hc.
      rewrite update_list_spec in Hc by (apply ladder_ord_lt32; exact Hasc).
      rewrite (Hlow (an_ord c)) in Hc by lia. cbn [andb orb] in Hc.
      unfold newly. fold real. rewrite andb_comm. exact Hc.
    + intros n. cbn [analyser_loop]. rewrite Hlist, Hcont.
      destruct (Z.eqb_spec (ana_list st') 0); [contradiction|].
      destruct (walk_first st' c Hfind) as [tr Htr].
      destruct (walk req_ladder st') as [[|] st2]; cbn [snd] in Htr.
      * exists tr. exact Htr.
      * destruct (loop_monotone n st2) as [tr' Htr'].
        exists (tr' ++ tr). rewrite Htr', Htr, <- app_assoc. reflexivity.
  - intros Hnone Hne. rewrite Hwalk.
    destruct (Z.eqb_spec (ana_list st') 0); [contradiction|].
    destruct (lowest_bit (ana_list st') <? AN an_ord a) eqn:E; [|reflexivity].
    cbn [AN] in E. apply (lowest_bit_below _ _ (Hpos Hne)) in E.
    destruct E as (i & Hi & Hset). exfalso.
    cbn [ana_list st'] in Hset.
    rewrite update_list_spec in Hset
      by (pose proof (ladder_ord_lt32 a Hasc); lia).
    rewrite (Hlow i Hi) in Hset. cbn [andb orb] in Hset.
    specialize (Hnone i Hi). unfold newly in Hnone. fold real in Hnone.
    rewrite andb_comm in Hset. congruence.
Qed.

End LoopProps.

Lemma ladder_pos_ascending : ladder_ascending ladder_pos.
Proof.
  split.
  - cbn. repeat (constructor; [|repeat (constructor; try lia)]). constructor.
  - cbn. repeat (constructor; try lia).
Qed.

(** The content inspection, called first, asks for the PROXY decoder; with
    two rounds allowed the loop restarts there. *)
Lemma analyser_restart_witness :
  run_ladder u32 mask_call ladder_pos req_ladder inspect_pending
  = (Continue, mkloop 1 (update_list (u32 1) 2 2 2) (u32 1) [AN_REQ_INSPECT])
  /\ analyser_loop u32 mask_call ladder_pos 1 inspect_pending
     = mkloop 1 (update_list (u32 1) 2 2 2) (u32 1) [AN_REQ_INSPECT]
  /\ exists c,
       first_pending ladder_pos (update_list (u32 1) 2 2 2) = Some c
       /\ (ladder_pos c <= ladder_pos AN_REQ_DECODE_PROXY)%nat
       /\ newly (u32 1) 2 (ladder_pos c) = true
       /\ forall n, exists tr,
            called (analyser_loop u32 mask_call ladder_pos (S (S n))
                                  inspect_pending)
            = tr ++ [c; AN_REQ_INSPECT].
Proof.
  destruct (analyser_restart Z u32 mask_call ladder_pos inspect_pending
              AN_REQ_INSPECT 1 1 ladder_pos_ascending u32_range)
    as (_ & Hrestart & _).
  - reflexivity.
  - intros i Hi. cbn in Hi. assert (i = 0%nat) as -> by lia. reflexivity.
  - reflexivity.
  - discriminate.
  - apply (Hrestart AN_REQ_DECODE_PROXY); [cbn; lia|reflexivity].
Defined.

(** C1 as stated fails when [max_loops] runs out: with one round allowed,
    the decoder bit newly appears below the inspection that was called at
    the lowest pending bit and returned 1, and the pass ends without a call
    of the decoder, which is still pending. *)
Lemma analyser_loop_budget :
  let st := analyser_loop u32 mask_call ladder_pos 1 inspect_pending in
  mask_call AN_REQ_INSPECT (sess inspect_pending) = (1, sess st)
  /\ newly (u32 (sess st)) (ana_back inspect_pending)
           (ladder_pos AN_REQ_DECODE_PROXY) = true
  /\ called st = [AN_REQ_INSPECT]
  /\ has (ana_list st) (AN ladder_pos AN_REQ_DECODE_PROXY) = true
  /\ called (analyser_loop u32 mask_call ladder_pos 2 inspect_pending)
     = [AN_REQ_DECODE_PROXY; AN_REQ_INSPECT].
Proof. vm_compute. repeat split. Qed.

(* ===================================================================== *)
(** ** Connection retries (sess_update_st_cer) *)
(* ===================================================================== *)

Ltac sn_bits :=
  change SN_DIRECT with (bit 0) in *;
  change SN_ASSIGNED with (bit 1) in *;
  change SN_ADDR_SET with (bit 2) in *;
  change SN_FORCE_PRST with (bit 4) in *;
  change SN_CURR_SESS with (bit 6) in *;
  change SN_FRT_ADDR_SET with (bit 7) in *.

Section RetryProps.

Variable ext : Type.
Variable health_adjust : nat -> Z -> ext -> ext.
Variable HANA_STATUS_L4_ERR : Z.
Variable may_dequeue_tasks : option nat -> session ext -> bool.
Variable process_srv_queue : nat -> ext -> ext.
Variable server_drop_conn : option (nat -> ext -> ext).
Variable server_take_conn : option (nat -> ext -> ext).
Variable shutw :
  stream_interface -> buffer -> buffer -> ext ->
  stream_interface * buffer * buffer * ext.
Variable srv_error : option (session ext -> session ext).
Variable now_ms : Z.
Variable tick_add : Z -> Z -> Z.
Variable MS_TO_TICKS : Z -> Z.

#[local] Abbreviation cer :=
  (sess_update_st_cer health_adjust HANA_STATUS_L4_ERR may_dequeue_tasks
     process_srv_queue server_drop_conn server_take_conn shutw srv_error
     now_ms tick_add MS_TO_TICKS).
#[local] Abbreviation change_server :=
  (sess_change_server server_drop_conn server_take_conn).

Lemma change_server_none (s : session ext) :
  let s' := change_server s None in
  srv_conn s' = None /\ srv s' = srv s
  /\ s_flags s' = s_flags s /\ conn_retries s' = conn_retries s
  /\ be s' = be s /\ si1 s' = si1 s /\ req s' = req s /\ rep s' = rep s
  /\ (forall i, srv_counts <$> servers s' !! i = srv_counts <$> servers s !! i).
Proof.
  unfold sess_change_server. destruct (decide (srv_conn s = None)) as [E|E].
  - cbn. rewrite E. repeat split; reflexivity.
  - destruct (srv_conn s) as [j|]; [|contradiction]. cbn.
    repeat split; try reflexivity.
    intros i. destruct (decide (i = j)) as [->|Hne].
    + rewrite list_lookup_alter_eq. destruct (servers s !! j); reflexivity.
    + rewrite list_lookup_alter_ne by congruence. reflexivity.
Qed.

Lemma dequeue_frame (s : session ext) :
  let s' := dequeue may_dequeue_tasks process_srv_queue s in
  srv_conn s' = srv_conn s /\ srv s' = srv s
  /\ s_flags s' = s_flags s /\ conn_retries s' = conn_retries s
  /\ be s' = be s /\ si1 s' = si1 s /\ req s' = req s /\ rep s' = rep s
  /\ servers s' = servers s /\ prev_srv s' = prev_srv s.
Proof.
  unfold dequeue. destruct (may_dequeue_tasks (srv s) s); cbn.
  - destruct (srv s) eqn:E; cbn; rewrite ?E; repeat split; reflexivity.
  - repeat split; reflexivity.
Qed.

Lemma si_shutw_frame (s : session ext) :
  let s' := si_shutw shutw s in
  srv_conn s' = srv_conn s /\ srv s' = srv s
  /\ s_flags s' = s_flags s /\ conn_retries s' = conn_retries s
  /\ be s' = be s /\ servers s' = servers s.
Proof.
  unfold si_shutw. destruct (shutw _ _ _ _) as [[[si ob] ib] x].
  cbn; repeat split; reflexivity.
Qed.

#[local] Abbreviation cer_release s :=
  (set_conn_retries
     (conn_retries
        match srv s with
        | Some i =>
          if has (s_flags (set_world (health_adjust i HANA_STATUS_L4_ERR
                                                    (world s)) s))
                 SN_CURR_SESS
          then
            update_server i (fun x => set_cur_sess (cur_sess x - 1) x)
              (set_s_flags
                 (clrf (s_flags (set_world (health_adjust i HANA_STATUS_L4_ERR
                                                          (world s)) s))
                       SN_CURR_SESS)
                 (set_world (health_adjust i HANA_STATUS_L4_ERR (world s)) s))
          else set_world (health_adjust i HANA_STATUS_L4_ERR (world s)) s
        | None => s
        end - 1)
     match srv s with
     | Some i =>
       if has (s_flags (set_world (health_adjust i HANA_STATUS_L4_ERR
                                                 (world s)) s))
              SN_CURR_SESS
       then
         update_server i (fun x => set_cur_sess (cur_sess x - 1) x)
           (set_s_flags
              (clrf (s_flags (set_world (health_adjust i HANA_STATUS_L4_ERR
                                                       (world s)) s))
                    SN_CURR_SESS)
              (set_world (health_adjust i HANA_STATUS_L4_ERR (world s)) s))
       else set_world (health_adjust i HANA_STATUS_L4_ERR (world s)) s
     | None => s
     end).

Lemma cer_release_frame (s : session ext) :
  let s' := cer_release s in
  conn_retries s' = conn_retries s - 1 /\ srv s' = srv s
  /\ srv_conn s' = srv_conn s /\ be s' = be s /\ si1 s' = si1 s
  /\ s_flags s' = (if bool_decide (srv s <> None) then clrf (s_flags s) SN_CURR_SESS
                   else s_flags s)
  /\ (forall i, srv_counts <$> servers s' !! i = srv_counts <$> servers s !! i).
Proof.
  cbv zeta. destruct (srv s) as [i|] eqn:Hsrv.
  - rewrite bool_decide_true by congruence.
    cbn [s_flags set_world].
    destruct (has (s_flags s) SN_CURR_SESS) eqn:Hc.
    + cbn. rewrite Hsrv. repeat split; try reflexivity.
      intros j. destruct (decide (j = i)) as [->|Hne].
      * rewrite list_lookup_alter_eq. destruct (servers s !! i); reflexivity.
      * rewrite list_lookup_alter_ne by congruence. reflexivity.
    + cbn. rewrite Hsrv. repeat split; try reflexivity.
      apply Z.bits_inj'. intros n Hn. unfold clrf.
      rewrite Z.land_spec, Z.lnot_spec by lia.
      destruct (Z.testbit (s_flags s) n) eqn:Hb; [|reflexivity].
      destruct (Z.testbit SN_CURR_SESS n) eqn:Hb'; [|reflexivity].
      exfalso. sn_bits. rewrite has_bit in Hc.
      destruct (Z.eq_dec n (Z.of_nat 6)) as [->|Hne]; [congruence|].
      unfold bit in Hb'. rewrite Z.shiftl_1_l, Z.pow2_bits_false in Hb' by lia.
      discriminate.
  - rewrite bool_decide_false by (intros H; apply H; reflexivity).
    cbn. rewrite Hsrv. repeat split; reflexivity.
Qed.

(** C2, as the code has it.  One retry is spent.  When none is left the
    failed connection is counted on the server, if any, and on the backend,
    the interface is closed, and the server-error hook, if any, is run on
    that state.  Otherwise [srv] stays; on the last retry of a redispatching
    backend the assignment flags are cleared, the connection slot is given
    back and [srv] is remembered as [prev_srv]; the interface goes to REQ
    (redispatch) or ASS (same server), or to TAR when it carries
    SI_FL_ERR. *)
Theorem sess_update_st_cer_spec (s : session ext) :
  let s' := snd (cer s) in
  fst (cer s) = 0
  /\ (conn_retries s < 1 ->
      exists mid,
        s' = call_hook srv_error mid
        /\ conn_retries mid = conn_retries s - 1
        /\ si_state_of (si1 mid) = SI_ST_CLO
        /\ failed_conns (px_counters (be mid))
           = failed_conns (px_counters (be s)) + 1
        /\ (forall i x, srv s = Some i -> servers s !! i = Some x ->
              exists y, servers mid !! i = Some y
                        /\ srv_failed_conns y = srv_failed_conns x + 1))
  /\ (1 <= conn_retries s ->
      conn_retries s' = conn_retries s - 1
      /\ srv s' = srv s
      /\ (redispatch_wanted s = true ->
          has (s_flags s') SN_DIRECT = false
          /\ has (s_flags s') SN_ASSIGNED = false
          /\ has (s_flags s') SN_ADDR_SET = false
          /\ prev_srv s' = srv s /\ srv_conn s' = None
          /\ si_state_of (si1 s')
             = if has (si_flags (si1 s)) SI_FL_ERR then SI_ST_TAR
               else SI_ST_REQ)
      /\ (redispatch_wanted s = false ->
          si_state_of (si1 s')
          = if has (si_flags (si1 s)) SI_FL_ERR then SI_ST_TAR else SI_ST_ASS)).
Proof.
  cbv zeta. unfold sess_update_st_cer. cbv zeta.
  pose proof (cer_release_frame s) as Hrel. cbv zeta in Hrel.
  set (s0 := cer_release s) in *.
  destruct Hrel as (Hretr & Hsrv & Hconn & Hbe & Hsi & Hfl & Hcnt).
  clearbody s0.
  destruct (Z.ltb_spec (conn_retries s0) 0) as [Hneg|Hpos].
  - (* no retry left *)
    cbn [fst snd]. split; [reflexivity|]. split; [|intros; lia].
    intros _. eexists. split; [reflexivity|].
    set (s1 := if si_err_type (si1 s0) =? 0 then _ else s0).
    assert (H1 : conn_retries s1 = conn_retries s0 /\ srv s1 = srv s0
                  /\ be s1 = be s0 /\ servers s1 = servers s0).
    { subst s1. destruct (_ =? 0); repeat split; reflexivity. }
    destruct H1 as (H1r & H1s & H1b & H1v).
    set (s2 := match srv s1 with Some _ => _ | None => s1 end).
    assert (H2 : conn_retries s2 = conn_retries s1 /\ srv s2 = srv s1
                 /\ be s2 = be s1
                 /\ forall i x, srv s = Some i -> servers s !! i = Some x ->
                      exists y, servers s2 !! i = Some y
                                /\ srv_counts y
                                   = (srv_failed_conns x + 1, srv_retries x)).
    { assert (Hs1 : srv s1 = srv s) by congruence.
      subst s2. destruct (srv s1) as [j|] eqn:Ej.
      - cbn. repeat split; try reflexivity; try exact Ej.
        intros i x Hi Hx. assert (j = i) by congruence. subst j.
        rewrite list_lookup_alter_eq, H1v.
        pose proof (Hcnt i) as Hc. rewrite Hx in Hc.
        destruct (servers s0 !! i) as [x0|]; [|discriminate].
        cbn in Hc. inversion Hc. eexists. split; [reflexivity|].
        unfold srv_counts. cbn. congruence.
      - repeat split; try reflexivity; intros; congruence. }
    destruct H2 as (H2r & H2s & H2b & H2v).
    match goal with |- context [change_server ?x None] =>
      set (s3 := x);
      pose proof (change_server_none s3) as H4; cbv zeta in H4;
      set (s4 := change_server s3 None) in * end.
    destruct H4 as (_ & H4s & _ & H4r & H4b & _ & _ & _ & H4v).
    pose proof (dequeue_frame s4) as H5. cbv zeta in H5.
    set (s5 := dequeue may_dequeue_tasks process_srv_queue s4) in *.
    destruct H5 as (_ & H5s & _ & H5r & H5b & _ & _ & _ & H5v & _).
    pose proof (si_shutw_frame s5) as H6. cbv zeta in H6.
    set (s6 := si_shutw shutw s5) in *.
    destruct H6 as (_ & H6s & _ & H6r & H6b & H6v).
    cbn [conn_retries si1 be servers set_si1 set_rep set_req
         si_state_of set_si_state_of].
    rewrite H6r, H5r, H4r, H6b, H5b, H4b, H6v, H5v.
    subst s3. cbn [conn_retries be set_be px_counters set_px_counters
                   failed_conns set_failed_conns].
    rewrite H2r, H1r, Hretr, H2b, H1b, Hbe.
    repeat split; try reflexivity.
    intros i x Hi Hx. destruct (H2v i x Hi Hx) as (y & Hy & Hyc).
    pose proof (H4v i) as Hc. cbn [servers set_be] in Hc. rewrite Hy in Hc.
    destruct (servers s4 !! i) as [y4|]; [|discriminate].
    exists y4. split; [reflexivity|]. cbn in Hc. inversion Hc.
    unfold srv_counts in Hyc. inversion Hyc. congruence.
  - (* a retry is left *)
    split; [destruct (_ && _), (has _ SI_FL_ERR); reflexivity|].
    split; [intros; lia|]. intros _.
    assert (Hwant : (bool_decide (srv s0 <> None) && (conn_retries s0 =? 0)
                     && has (options (be s0)) PR_O_REDISP
                     && negb (has (s_flags s0) SN_FORCE_PRST))
                    = redispatch_wanted s).
    { unfold redispatch_wanted. rewrite Hsrv, Hretr, Hbe, Hfl.
      replace (conn_retries s - 1 =? 0) with (conn_retries s =? 1)
        by (destruct (Z.eqb_spec (conn_retries s) 1),
              (Z.eqb_spec (conn_retries s - 1) 0); lia).
      destruct (bool_decide (srv s <> None)); [|reflexivity].
      sn_bits. flag_norm. reflexivity. }
    rewrite Hwant.
    match goal with |- context [change_server ?x None] =>
      pose proof (change_server_none x) as H4; cbv zeta in H4;
      set (s4 := change_server x None) in * end.
    destruct H4 as (H4c & H4s & H4f & H4r & H4b & H4i & _ & _ & H4v).
    pose proof (dequeue_frame s4) as H5. cbv zeta in H5.
    set (s5 := dequeue may_dequeue_tasks process_srv_queue s4) in *.
    destruct H5 as (H5c & H5s & H5f & H5r & H5b & H5i & _ & _ & H5v & _).
    destruct (redispatch_wanted s) eqn:Hw.
    + set (s6 := set_si1 _ _).
      assert (H6 : conn_retries s6 = conn_retries s - 1 /\ srv s6 = srv s
                   /\ prev_srv s6 = srv s /\ srv_conn s6 = None
                   /\ has (s_flags s6) SN_DIRECT = false
                   /\ has (s_flags s6) SN_ASSIGNED = false
                   /\ has (s_flags s6) SN_ADDR_SET = false
                   /\ si_state_of (si1 s6) = SI_ST_REQ
                   /\ si_flags (si1 s6) = si_flags (si1 s)).
      { subst s6. cbn.
        rewrite ?H5r, ?H4r, ?Hretr, ?H5s, ?H4s, ?Hsrv, ?H5c, ?H4c, ?H5i, ?H4i,
          ?Hsi.
        sn_bits. flag_norm. repeat split; apply andb_false_r. }
      destruct H6 as (H6r & H6s & H6p & H6c & H6d & H6a & H6x & H6st & H6fl).
      rewrite H6fl.
      destruct (has (si_flags (si1 s)) SI_FL_ERR); cbn [snd].
      * set (s7 := if si_err_type (si1 s6) =? 0 then _ else s6).
        assert (H7 : conn_retries s7 = conn_retries s6 /\ srv s7 = srv s6
                     /\ prev_srv s7 = prev_srv s6 /\ srv_conn s7 = srv_conn s6
                     /\ s_flags s7 = s_flags s6).
        { subst s7. destruct (si_err_type (si1 s6) =? 0);
            repeat split; reflexivity. }
        destruct H7 as (H7r & H7s & H7p & H7c & H7f).
        cbn. rewrite H7r, H7s, H7p, H7c, H7f.
        repeat split; try assumption; try discriminate.
      * repeat split; try assumption; try discriminate.
    + set (s6 := set_si1 _ _).
      assert (H6 : conn_retries s6 = conn_retries s - 1 /\ srv s6 = srv s
                   /\ si_state_of (si1 s6) = SI_ST_ASS
                   /\ si_flags (si1 s6) = si_flags (si1 s)).
      { subst s6. destruct (srv s0) eqn:E; unfold update_server; cbn;
          rewrite ?E, ?Hretr, <- ?Hsrv, ?E, ?Hsi; repeat split; reflexivity. }
      destruct H6 as (H6r & H6s & H6st & H6fl).
      rewrite H6fl.
      destruct (has (si_flags (si1 s)) SI_FL_ERR); cbn [snd].
      * set (s7 := if si_err_type (si1 s6) =? 0 then _ else s6).
        assert (H7 : conn_retries s7 = conn_retries s6 /\ srv s7 = srv s6).
        { subst s7. destruct (si_err_type (si1 s6) =? 0);
            repeat split; reflexivity. }
        destruct H7 as (H7r & H7s).
        cbn. rewrite H7r, H7s.
        repeat split; try assumption; try discriminate.
      * repeat split; try assumption; try discriminate.
Qed.

End RetryProps.

(** The last retry of a redispatching backend, after an asynchronous
    error. *)
Lemma sess_update_st_cer_spec_witness :
  conn_retries (snd (cer_on (last_retry_session SI_FL_ERR))) = 0
  /\ srv (snd (cer_on (last_retry_session SI_FL_ERR))) = Some 0%nat
  /\ has (s_flags (snd (cer_on (last_retry_session SI_FL_ERR)))) SN_ASSIGNED
     = false
  /\ si_state_of (si1 (snd (cer_on (last_retry_session SI_FL_ERR))))
     = SI_ST_TAR.
Proof.
  pose proof (sess_update_st_cer_spec unit (fun _ _ x => x) 0
                (fun _ _ => false) (fun _ x => x) None None plain_shutw
                (Some default_srv_error) 0 Z.add (fun ms => ms)
                (last_retry_session SI_FL_ERR)) as H.
  cbv zeta in H. destruct H as (_ & _ & H).
  destruct H as (Hr & Hs & Hw & _); [cbn; lia|].
  destruct (Hw eq_refl) as (_ & Ha & _ & _ & _ & Hst).
  repeat split; assumption.
Defined.

(** C2 as stated fails on the last retry of a redispatching backend:
    [srv] still points to the server that failed (it is only copied to
    [prev_srv]), and after an asynchronous error the interface ends in TAR,
    not in REQ. *)
Lemma sess_update_st_cer_keeps_srv :
  redispatch_wanted (last_retry_session 0) = true
  /\ srv (snd (cer_on (last_retry_session 0))) = Some 0%nat
  /\ prev_srv (snd (cer_on (last_retry_session 0))) = Some 0%nat
  /\ si_state_of (si1 (snd (cer_on (last_retry_session 0)))) = SI_ST_REQ
  /\ redispatch_wanted (last_retry_session SI_FL_ERR) = true
  /\ srv (snd (cer_on (last_retry_session SI_FL_ERR))) = Some 0%nat
  /\ si_state_of (si1 (snd (cer_on (last_retry_session SI_FL_ERR))))
     = SI_ST_TAR.
Proof. vm_compute. repeat split. Qed.

(* ===================================================================== *)
(** ** TCP content inspection *)
(* ===================================================================== *)

Lemma land_lor_field f c m :
  Z.land f m = 0 -> Z.land c m = c -> Z.land (Z.lor f c) m = c.
Proof. intros Hf Hc. rewrite Z.land_lor_distr_l, Hf, Hc. reflexivity. Qed.

Lemma land_lor_other f c m :
  Z.land c m = 0 -> Z.land (Z.lor f c) m = Z.land f m.
Proof. intros Hc. rewrite Z.land_lor_distr_l, Hc. apply Z.lor_0_r. Qed.

Lemma has_false_land f m : has f m = false -> Z.land f m = 0.
Proof. unfold has. intros H. apply negb_false_iff, Z.eqb_eq in H. exact H. Qed.

Lemma has_land f m : has f m = negb (Z.land f m =? 0).
Proof. reflexivity. Qed.

(** The two guarded assignments that record how a session ends: a class
    or a stage already recorded is kept. *)
Lemma set_term_flags_spec {ext} err fin (s : session ext) :
  Z.land err SN_ERR_MASK = err -> Z.land err SN_FINST_MASK = 0 ->
  Z.land fin SN_FINST_MASK = fin -> Z.land fin SN_ERR_MASK = 0 ->
  let s' := set_term_flags err fin s in
  s' = set_s_flags (s_flags s') s
  /\ Z.land (s_flags s') SN_ERR_MASK
     = (if has (s_flags s) SN_ERR_MASK then Z.land (s_flags s) SN_ERR_MASK
        else err)
  /\ Z.land (s_flags s') SN_FINST_MASK
     = (if has (s_flags s) SN_FINST_MASK then Z.land (s_flags s) SN_FINST_MASK
        else fin).
Proof.
  intros He1 He2 Hf1 Hf2. unfold set_term_flags.
  assert (Hfe : has (setf (s_flags s) err) SN_FINST_MASK
                = has (s_flags s) SN_FINST_MASK).
  { unfold has, setf. rewrite land_lor_other by assumption. reflexivity. }
  destruct (has (s_flags s) SN_ERR_MASK) eqn:He;
    cbn [s_flags set_s_flags]; rewrite ?Hfe;
    destruct (has (s_flags s) SN_FINST_MASK) eqn:Hf;
    cbn [s_flags set_s_flags]; unfold setf;
    (split; [destruct s; reflexivity|]);
    try apply has_false_land in He; try apply has_false_land in Hf.
  - split; reflexivity.
  - split; [apply land_lor_other|apply land_lor_field]; assumption.
  - split; [apply land_lor_field|apply land_lor_other]; assumption.
  - split.
    + rewrite land_lor_other by assumption. apply land_lor_field; assumption.
    + apply land_lor_field; [|assumption].
      rewrite land_lor_other by assumption. exact Hf.
Qed.

Section InspectProps.

Variable ext : Type.
Variable buffer_abort : buffer -> buffer.
Variable buffer_dont_connect : buffer -> buffer.
Variable tick_is_expired : Z -> Z -> bool.
Variable tick_isset : Z -> bool.
Variable tick_add_ifset : Z -> Z -> Z.
Variable TICK_ETERNITY : Z.
Variable now_ms : Z.

#[local] Abbreviation inspect :=
  (tcp_inspect_request buffer_abort buffer_dont_connect tick_is_expired
     tick_isset tick_add_ifset TICK_ETERNITY now_ms).
#[local] Abbreviation each_rule :=
  (inspect_each_rule buffer_abort buffer_dont_connect tick_isset
     tick_add_ifset now_ms).
#[local] Abbreviation matches := (rule_matches tick_is_expired now_ms).
#[local] Abbreviation partial_of s :=
  (if has (flags (req s)) (Z.lor BF_SHUTR BF_FULL)
      || (inspect_delay (fe s) =? 0)
      || tick_is_expired (analyse_exp (req s)) now_ms
   then 0 else ACL_PARTIAL).

(** A rule that does not match is passed over. *)
Lemma each_rule_skip fuel (s : session ext) pre rest :
  Forall (fun r => matches fuel s r = Some false) pre ->
  each_rule fuel (partial_of s) (pre ++ rest) s
  = each_rule fuel (partial_of s) rest s.
Proof.
  induction 1 as [|r pre Hr _ IH]; [reflexivity|].
  cbn [app inspect_each_rule].
  unfold rule_matches, inspect_dir in Hr.
  destruct (rule_cond r) as [[cond pol]|]; [|discriminate].
  destruct (acl_exec_cond fuel cond s _) as [ret|]; [|discriminate].
  destruct (ret =? ACL_PAT_MISS); [discriminate|].
  inversion Hr as [Hm]. destruct pol.
  - apply negb_false_iff in Hm. rewrite Hm. exact IH.
  - rewrite Hm. cbn. exact IH.
Qed.

(** A rule that matches, met first, decides. *)
Lemma each_rule_hit fuel (s : session ext) r rest :
  matches fuel s r = Some true ->
  each_rule fuel (partial_of s) (r :: rest) s
  = Some (match rule_action r with
          | TCP_ACT_REJECT => Rule_return (inspect_reject buffer_abort s)
          | TCP_ACT_ACCEPT => Rule_done
          end).
Proof.
  intros Hr. cbn [inspect_each_rule].
  unfold rule_matches, inspect_dir in Hr.
  destruct (rule_cond r) as [[cond pol]|].
  - destruct (acl_exec_cond fuel cond s _) as [ret|]; [|discriminate].
    destruct (ret =? ACL_PAT_MISS); [discriminate|].
    inversion Hr as [Hm]. destruct pol.
    + apply negb_true_iff in Hm. rewrite Hm.
      destruct (rule_action r); reflexivity.
    + rewrite Hm. destruct (rule_action r); reflexivity.
  - destruct (rule_action r); reflexivity.
Qed.

(** C6, as the code has it.  When the first rule of the frontend that
    matches is a reject rule, the call returns 0, both buffers are aborted,
    no request analyser is left, [denied_req] is counted on the frontend
    and on the listener that has counters, and the session ends with
    PRXCOND and R unless a class, respectively a stage, was recorded
    before. *)
Theorem tcp_inspect_request_reject fuel (s : session ext) an_bit
        pre rule post :
  Forall (fun r => matches fuel s r = Some false) pre ->
  matches fuel s rule = Some true ->
  rule_action rule = TCP_ACT_REJECT ->
  exists s',
    inspect fuel (pre ++ rule :: post) s an_bit = Some (0, s')
    /\ req s' = set_analysers 0 (buffer_abort (req s))
    /\ analysers (req s') = 0
    /\ rep s' = buffer_abort (rep s)
    /\ denied_req (px_counters (fe s')) = denied_req (px_counters (fe s)) + 1
    /\ listener_counters s'
       = (fun c => set_denied_req (denied_req c + 1) c) <$> listener_counters s
    /\ Z.land (s_flags s') SN_ERR_MASK
       = (if has (s_flags s) SN_ERR_MASK then Z.land (s_flags s) SN_ERR_MASK
          else SN_ERR_PRXCOND)
    /\ Z.land (s_flags s') SN_FINST_MASK
       = (if has (s_flags s) SN_FINST_MASK
          then Z.land (s_flags s) SN_FINST_MASK else SN_FINST_R).
Proof.
  intros Hpre Hrule Hact. unfold tcp_inspect_request.
  rewrite (each_rule_skip fuel s pre (rule :: post) Hpre).
  rewrite (each_rule_hit fuel s rule post Hrule), Hact.
  unfold inspect_reject.
  match goal with |- context [set_term_flags ?e ?f ?x] =>
    pose proof (set_term_flags_spec e f x eq_refl eq_refl eq_refl eq_refl)
      as Hterm; cbv zeta in Hterm;
    set (s1 := x) in *; set (s2 := set_term_flags e f s1) in *
  end.
  destruct Hterm as (Heq & Herr & Hfin).
  assert (H1 : req s1 = set_analysers 0 (buffer_abort (req s))
               /\ rep s1 = buffer_abort (rep s)
               /\ s_flags s1 = s_flags s
               /\ denied_req (px_counters (fe s1))
                  = denied_req (px_counters (fe s)) + 1
               /\ listener_counters s1
                  = (fun c => set_denied_req (denied_req c + 1) c)
                      <$> listener_counters s).
  { subst s1. unfold count_on_frontend. cbn.
    destruct (listener_counters s) eqn:E; cbn; rewrite ?E;
      repeat split; reflexivity. }
  destruct H1 as (Hreq & Hrep & Hfl & Hfe & Hli).
  exists s2. split; [reflexivity|].
  rewrite Heq. cbn [req rep fe listener_counters s_flags set_s_flags].
  rewrite Hreq, Hrep, Hfe, Hli, Herr, Hfin, Hfl.
  repeat split; reflexivity.
Qed.

End InspectProps.

(** [tcp-request content reject if TRUE] on a fresh session. *)
Lemma tcp_inspect_request_reject_witness :
  exists s',
    inspect_on [rule_reject_if_true] (inspected_session 0) = Some (0, s')
    /\ analysers (req s') = 0
    /\ denied_req (px_counters (fe s')) = 1
    /\ (denied_req <$> listener_counters s') = Some 1
    /\ Z.land (s_flags s') SN_ERR_MASK = SN_ERR_PRXCOND
    /\ Z.land (s_flags s') SN_FINST_MASK = SN_FINST_R.
Proof.
  destruct (tcp_inspect_request_reject unit plain_abort plain_dont_connect
              plain_tick_is_expired plain_tick_isset plain_tick_add_ifset 0 0
              1 (inspected_session 0) 2 [] rule_reject_if_true [])
    as (s' & Hret & _ & Han & _ & Hfe & Hli & Herr & Hfin).
  - constructor.
  - reflexivity.
  - reflexivity.
  - exists s'. split; [exact Hret|]. split; [exact Han|].
    split; [exact Hfe|]. split; [rewrite Hli; reflexivity|].
    split; [exact Herr|exact Hfin].
Defined.

(** C6 as stated fails on a session that already carries an error class
    and a finish stage (here CLICL and D): the reject rule matches, the
    request is denied and counted, and the class and the stage stay.  It
    fails as well when an accept rule comes before the reject rule: the
    call returns 1. *)
Lemma tcp_inspect_request_keeps_class :
  (exists s',
     inspect_on [rule_reject_if_true]
                (inspected_session (Z.lor SN_ERR_CLICL SN_FINST_D))
     = Some (0, s')
     /\ denied_req (px_counters (fe s')) = 1
     /\ Z.land (s_flags s') SN_ERR_MASK = SN_ERR_CLICL
     /\ Z.land (s_flags s') SN_FINST_MASK = SN_FINST_D)
  /\ (exists s',
        inspect_on [rule_accept; rule_reject_if_true] (inspected_session 0)
        = Some (1, s')
        /\ denied_req (px_counters (fe s')) = 0).
Proof.
  split; eexists; (split; [vm_compute; reflexivity|]); repeat split.
Qed.

(* ===================================================================== *)
(** ** RDP cookie persistence *)
(* ===================================================================== *)

Lemma sockaddr_in_eqb_eq a b : sockaddr_in_eqb a b = true -> a = b.
Proof.
  unfold sockaddr_in_eqb. intros H.
  repeat (apply andb_true_iff in H as [H ?]).
  apply Z.eqb_eq in H. repeat match goal with
  | H : (_ =? _) = true |- _ => apply Z.eqb_eq in H
  | H : bool_decide _ = true |- _ => apply bool_decide_eq_true in H
  end.
  destruct a, b; cbn in *; subst; reflexivity.
Qed.

Section RdpProps.

Variable ext : Type.
Variable strtoul : list Z -> Z -> Z * Z.
Variable TICK_ETERNITY : Z.

Lemma persist_assign_spec (addr : sockaddr_in) (s : session ext) srvs :
  forall i0,
    persist_assign srvs i0 addr s = s
    \/ exists k srv0,
         srvs !! k = Some srv0 /\ srv_addr srv0 = addr
         /\ (has (srv_state srv0) SRV_RUNNING = true
             \/ has (options (be s)) PR_O_PERSIST = true)
         /\ persist_assign srvs i0 addr s
            = set_srv (Some (i0 + k)%nat)
                (set_s_flags (setf (s_flags s) (Z.lor SN_DIRECT SN_ASSIGNED)) s).
Proof.
  induction srvs as [|srv0 srvs IH]; intros i0; cbn [persist_assign].
  - left. reflexivity.
  - destruct (sockaddr_in_eqb addr (srv_addr srv0)
              && (has (srv_state srv0) SRV_RUNNING
                  || has (options (be s)) PR_O_PERSIST)) eqn:E.
    + right. exists 0%nat, srv0. apply andb_true_iff in E as [Ha Hr].
      apply sockaddr_in_eqb_eq in Ha. apply orb_true_iff in Hr.
      rewrite Nat.add_0_r. repeat split; auto.
    + destruct (IH (S i0)) as [H|(k & x & Hk & Ha & Hr & Heq)]; [left; exact H|].
      right. exists (S k), x. rewrite Heq.
      replace (S i0 + k)%nat with (i0 + S k)%nat by lia.
      repeat split; auto.
Qed.

(** The fetch asks for more data on a request of 18 bytes or less. *)
Lemma fetch_too_short (s : session ext) dir name len test :
  l (req s) <= 18 ->
  acl_fetch_rdp_cookie s dir name len test
  = (0, set_t_flags ACL_TEST_F_MAY_CHANGE (set_t_flags 0 test)).
Proof.
  intros Hl. unfold acl_fetch_rdp_cookie.
  destruct (Z.leb_spec (l (req s)) 11); [reflexivity|].
  destruct (Z.leb_spec (l (req s) - 11) 7); [reflexivity|lia].
Qed.

(** C10, as the code has it.  The analyser returns 1 and leaves the
    request with its bit cleared; a session already assigned, a cookie
    that is absent, incomplete or empty, or a request too short to hold
    one, leave everything else as it was; otherwise the value is read by
    strtoul as [n.p.], and the session is assigned (DIRECT, ASSIGNED and
    [srv]) to a server of the backend whose stored address is the word
    [n] and the port word [p], and that runs unless the backend
    persists. *)
Theorem tcp_persist_rdp_cookie_spec (s : session ext) (an_bit : Z) :
  let r := tcp_persist_rdp_cookie strtoul TICK_ETERNITY s an_bit in
  let mem := data (req s) in
  fst r = 1
  /\ analysers (req (snd r)) = clrf (analysers (req s)) an_bit
  /\ (snd r = leave_analyser TICK_ETERNITY an_bit s
      \/ exists i srv0 test a p port p',
           has (s_flags s) SN_ASSIGNED = false
           /\ acl_fetch_rdp_cookie s ACL_DIR_REQ (rdp_cookie_name (be s))
                                   (rdp_cookie_len (be s)) test_zero
              = (1, test)
           /\ t_len test <> 0
           /\ strtoul mem (t_ptr test) = (a, p) /\ byte_at mem p = 46
           /\ strtoul mem (p + 1) = (port, p') /\ byte_at mem p' = 46
           /\ servers s !! i = Some srv0
           /\ srv_addr srv0 = mksin AF_INET (u16 port) (u32 a) (repeat 0 8)
           /\ (has (srv_state srv0) SRV_RUNNING = true
               \/ has (options (be s)) PR_O_PERSIST = true)
           /\ snd r
              = leave_analyser TICK_ETERNITY an_bit
                  (set_srv (Some i)
                     (set_s_flags
                        (setf (s_flags s) (Z.lor SN_DIRECT SN_ASSIGNED)) s)))
  /\ (has (s_flags s) SN_ASSIGNED = true \/ l (req s) <= 18 ->
      snd r = leave_analyser TICK_ETERNITY an_bit s).
Proof.
  cbv zeta. unfold tcp_persist_rdp_cookie. cbn [fst snd].
  assert (Hleave : forall x : session ext,
            set_req (set_analyse_exp TICK_ETERNITY
                       (req (set_req (set_analysers
                                        (clrf (analysers (req x)) an_bit)
                                        (req x)) x)))
                    (set_req (set_analysers (clrf (analysers (req x)) an_bit)
                                            (req x)) x)
            = leave_analyser TICK_ETERNITY an_bit x).
  { intros x. destruct x. reflexivity. }
  rewrite Hleave.
  assert (Hcases :
    persist_lookup strtoul s = s
    \/ exists i srv0 test a p port p',
         has (s_flags s) SN_ASSIGNED = false
         /\ acl_fetch_rdp_cookie s ACL_DIR_REQ (rdp_cookie_name (be s))
                                 (rdp_cookie_len (be s)) test_zero
            = (1, test)
         /\ t_len test <> 0
         /\ strtoul (data (req s)) (t_ptr test) = (a, p)
         /\ byte_at (data (req s)) p = 46
         /\ strtoul (data (req s)) (p + 1) = (port, p')
         /\ byte_at (data (req s)) p' = 46
         /\ servers s !! i = Some srv0
         /\ srv_addr srv0 = mksin AF_INET (u16 port) (u32 a) (repeat 0 8)
         /\ (has (srv_state srv0) SRV_RUNNING = true
             \/ has (options (be s)) PR_O_PERSIST = true)
         /\ persist_lookup strtoul s
            = set_srv (Some i)
                (set_s_flags (setf (s_flags s) (Z.lor SN_DIRECT SN_ASSIGNED)) s)).
  { unfold persist_lookup.
    destruct (has (s_flags s) SN_ASSIGNED) eqn:Has; [left; reflexivity|].
    destruct (acl_fetch_rdp_cookie s ACL_DIR_REQ _ _ test_zero)
      as [ret test] eqn:Hfetch.
    assert (Hret : ret = 0 \/ ret = 1).
    { revert Hfetch. unfold acl_fetch_rdp_cookie.
      repeat match goal with
      | |- context [match ?c with _ => _ end] =>
        match type of c with
        | bool => destruct c
        | option _ => destruct c
        | prod _ _ => destruct c
        | sum _ _ => destruct c
        | Z => destruct c
        | positive => destruct c
        end
      end; intros H; inversion H; auto. }
    destruct (Z.eqb_spec ret 0) as [|Hnz]; [left; reflexivity|].
    destruct Hret as [|Hr1]; [contradiction|subst ret]. cbn [orb].
    destruct (has (t_flags test) ACL_TEST_F_MAY_CHANGE); [left; reflexivity|].
    cbn [orb]. destruct (Z.eqb_spec (t_len test) 0); [left; reflexivity|].
    destruct (strtoul (data (req s)) (t_ptr test)) as [a p] eqn:Ha.
    destruct (Z.eqb_spec (byte_at (data (req s)) p) 46) as [Hp|];
      [|left; reflexivity]. cbn [negb].
    destruct (strtoul (data (req s)) (p + 1)) as [port p'] eqn:Hport.
    destruct (Z.eqb_spec (byte_at (data (req s)) p') 46) as [Hp'|];
      [|left; reflexivity]. cbn [negb].
    destruct (persist_assign_spec
                (mksin AF_INET (u16 port) (u32 a) (repeat 0 8)) s (servers s)
                0%nat) as [H|(k & x & Hk & Hx & Hr & Heq)]; [left; exact H|].
    right. exists k, x, test, a, p, port, p'. rewrite Heq. cbn [Nat.add].
    repeat split; auto. }
  split; [reflexivity|]. split.
  - destruct Hcases as [ -> | (i & x & t & a & p & port & p' & H)].
    + reflexivity.
    + destruct H as (_ & _ & _ & _ & _ & _ & _ & _ & _ & _ & ->). reflexivity.
  - split.
    + destruct Hcases as [ -> | (i & x & t & a & p & port & p' & H)];
        [left; reflexivity|].
      right. exists i, x, t, a, p, port, p'.
      destruct H as (H1 & H2 & H3 & H4 & H5 & H6 & H7 & H8 & H9 & H10 & ->).
      repeat split; auto.
    + intros [Has|Hshort]; unfold persist_lookup.
      * rewrite Has. reflexivity.
      * destruct (has (s_flags s) SN_ASSIGNED); [reflexivity|].
        rewrite fetch_too_short by exact Hshort. reflexivity.
Qed.

End RdpProps.

Lemma tcp_persist_rdp_cookie_spec_witness :
  let s := rdp_session "16777343.20480.0000" in
  let r := tcp_persist_rdp_cookie libc_strtoul 0 s 0x800 in
  fst r = 1
  /\ analysers (req (snd r)) = 0
  /\ srv (snd r) = Some 0%nat
  /\ s_flags (snd r) = Z.lor SN_DIRECT SN_ASSIGNED.
Proof.
  cbv zeta.
  pose proof (tcp_persist_rdp_cookie_spec unit libc_strtoul 0
                (rdp_session "16777343.20480.0000") 0x800) as H.
  cbv zeta in H. destruct H as (H1 & H2 & _).
  split; [exact H1|]. split; [rewrite H2; vm_compute; reflexivity|].
  split; vm_compute; reflexivity.
Defined.

(** C10 as worded fails on both sides: a cookie value that is not of
    the form A.B.C.D.port assigns the session, and one that is, with
    1.2.3.4:80 among the servers, does not. *)
Lemma tcp_persist_rdp_cookie_not_dotted :
  (let s := rdp_session "16777343.20480.0000" in
   let t := snd (acl_fetch_rdp_cookie s ACL_DIR_REQ (rdp_cookie_name (be s))
                                      (rdp_cookie_len (be s)) test_zero) in
   let r := tcp_persist_rdp_cookie libc_strtoul 0 s 0x800 in
   cookie_value s t = bytes "16777343.20480.0000"
   /\ is_dotted_quad_port (cookie_value s t) = false
   /\ srv (snd r) = Some 0%nat
   /\ has (s_flags (snd r)) SN_ASSIGNED = true)
  /\
  (let s := rdp_session "1.2.3.4.80" in
   let t := snd (acl_fetch_rdp_cookie s ACL_DIR_REQ (rdp_cookie_name (be s))
                                      (rdp_cookie_len (be s)) test_zero) in
   let r := tcp_persist_rdp_cookie libc_strtoul 0 s 0x800 in
   cookie_value s t = bytes "1.2.3.4.80"
   /\ is_dotted_quad_port (cookie_value s t) = true
   /\ srv (snd r) = None
   /\ has (s_flags (snd r)) SN_ASSIGNED = false).
Proof. vm_compute. repeat split; reflexivity. Qed.

(* ===================================================================== *)
(** ** The PROXY line *)
(* ===================================================================== *)

Lemma length_mem_range mem p n : length (mem_range mem p n) = Z.to_nat n.
Proof. unfold mem_range. rewrite length_map, length_seqZ. reflexivity. Qed.

Lemma lookup_mem_range mem p n (i : nat) :
  Z.of_nat i < n ->
  mem_range mem p n !! i = Some (byte_at mem (p + Z.of_nat i)).
Proof.
  intros Hi. unfold mem_range. rewrite list_lookup_fmap, lookup_seqZ_lt by lia.
  reflexivity.
Qed.

(** Two ranges are equal when they agree byte by byte. *)
Lemma mem_range_ext m1 p1 m2 p2 n :
  (forall i, 0 <= i < n -> byte_at m1 (p1 + i) = byte_at m2 (p2 + i)) ->
  mem_range m1 p1 n = mem_range m2 p2 n.
Proof.
  intros H. apply list_eq. intros i.
  destruct (Z.lt_ge_cases (Z.of_nat i) n) as [Hi|Hi].
  - rewrite !lookup_mem_range by lia. f_equal. apply H. lia.
  - rewrite !lookup_ge_None_2; [reflexivity| |];
      rewrite length_mem_range; lia.
Qed.

Lemma mem_range_byte mem p n lit i :
  mem_range mem p n = lit -> 0 <= i < n ->
  byte_at mem (p + i) = nth (Z.to_nat i) lit 0.
Proof.
  intros <- Hi. rewrite nth_lookup, lookup_mem_range by lia.
  cbn. f_equal. lia.
Qed.

Lemma byte_at_app_l xs ys i :
  0 <= i < Z.of_nat (length xs) -> byte_at (xs ++ ys) i = byte_at xs i.
Proof.
  intros Hi. unfold byte_at. rewrite !nth_lookup, lookup_app_l by lia.
  reflexivity.
Qed.

Lemma byte_at_insert_ne mem (i : nat) v p :
  0 <= p -> Z.to_nat p <> i -> byte_at (<[i := v]> mem) p = byte_at mem p.
Proof.
  intros Hp Hne. unfold byte_at.
  rewrite !nth_lookup, list_lookup_insert_ne by lia. reflexivity.
Qed.

Lemma byte_at_insert_eq mem p v :
  0 <= p < Z.of_nat (length mem) ->
  byte_at (<[Z.to_nat p := v]> mem) p = v.
Proof.
  intros Hp. apply byte_at_lookup. apply list_lookup_insert_eq. lia.
Qed.

Section ReplaceProps.

Variable buffer_max_len : buffer -> Z.

(** Cutting the first [n] bytes out of a request held at the start of its
    storage. *)
Lemma buffer_replace2_cut (b : buffer) (n : Z) :
  w b = 0 -> r b = l b -> l b < size b ->
  l b <= Z.of_nat (length (data b)) -> 0 <= n <= l b ->
  let b' := snd (buffer_replace2 buffer_max_len b 0 n [] 0) in
  l b' = l b - n /\ w b' = 0 /\ r b' = l b - n
  /\ mem_range (data b') 0 (l b - n) = mem_range (data b) n (l b - n)
  /\ total b' = total b /\ analysers b' = analysers b
  /\ clrf (flags b') BF_FULL = clrf (flags b) BF_FULL
  /\ size b' = size b /\ send_max b' = send_max b
  /\ to_forward b' = to_forward b /\ analyse_exp b' = analyse_exp b.
Proof.
  intros Hw Hr Hl Hlen Hn. unfold buffer_replace2. cbv zeta.
  replace (0 - (n - 0)) with (- n) by lia.
  destruct (Z.leb_spec (size b) (- n + r b)); [lia|].
  replace ((w b <? - n + r b) && (r b <=? w b) && negb (l b =? 0))
    with false.
  2:{ symmetry. destruct (Z.eqb_spec (l b) 0) as [E|E].
      - rewrite andb_false_r. reflexivity.
      - destruct (Z.leb_spec (r b) (w b)); [lia|].
        rewrite andb_false_r. reflexivity. }
  cbn [snd]. change (0 =? 0) with true. cbv iota.
  set (d := memmove_at (data b) (n + - n) n (r b - n)).
  assert (Hd : mem_range d 0 (l b - n) = mem_range (data b) n (l b - n)).
  { subst d. unfold memmove_at, memcpy_at.
    replace (n + - n) with 0 by lia. rewrite Hr.
    change (Z.to_nat 0) with 0%nat. rewrite take_0. cbn [app Nat.add].
    apply mem_range_ext. intros i Hi.
    rewrite (firstn_all2 (mem_range (data b) n (l b - n)))
      by (rewrite length_mem_range; lia).
    rewrite byte_at_app_l by (rewrite length_mem_range; lia).
    unfold byte_at at 1. rewrite nth_lookup.
    replace (Z.to_nat (0 + i)) with (Z.to_nat i) by lia.
    rewrite (lookup_mem_range (data b) n (l b - n) (Z.to_nat i)) by lia.
    cbn. f_equal. lia. }
  assert (Hfl : forall f, clrf (clrf f BF_FULL) BF_FULL = clrf f BF_FULL
                          /\ clrf (setf (clrf f BF_FULL) BF_FULL) BF_FULL
                             = clrf f BF_FULL).
  { intros f. unfold clrf, setf. split.
    - rewrite <- Z.land_assoc, Z.land_diag. reflexivity.
    - rewrite Z.land_lor_distr_l, <- Z.land_assoc, Z.land_diag.
      replace (Z.land BF_FULL (Z.lnot BF_FULL)) with 0 by reflexivity.
      apply Z.lor_0_r. }
  repeat match goal with
  | |- context [if ?c then _ else _] =>
    let E := fresh "E" in
    destruct c eqn:E; cbn -[Z.add Z.sub clrf setf mem_range] in *
  end;
    repeat match goal with
    | H : (_ <? _) = true |- _ => apply Z.ltb_lt in H
    | H : (_ <? _) = false |- _ => apply Z.ltb_ge in H
    | H : (_ =? _) = true |- _ => apply Z.eqb_eq in H
    | H : (_ =? _) = false |- _ => apply Z.eqb_neq in H
    end;
    rewrite ?(proj1 (Hfl _)), ?(proj2 (Hfl _));
    repeat split; try reflexivity; try lia; try exact Hd.
Qed.

End ReplaceProps.

Lemma mem_range_split mem p k j :
  0 <= k -> 0 <= j ->
  mem_range mem p (k + j) = mem_range mem p k ++ mem_range mem (p + k) j.
Proof.
  intros Hk Hj. unfold mem_range. rewrite seqZ_app, map_app by lia.
  reflexivity.
Qed.

(** The first eleven bytes decide the two tests on the literals. *)
Lemma proxy_prefix mem (lit : string) :
  length (bytes lit) = 5%nat ->
  mem_range mem 0 11 = bytes "PROXY " ++ bytes lit ->
  mem_range mem 0 6 = bytes "PROXY " /\ mem_range mem 6 5 = bytes lit.
Proof.
  intros Hlen H. change 11 with (6 + 5) in H.
  rewrite mem_range_split in H by lia.
  apply app_inj_1 in H; [exact H|]. rewrite length_mem_range. reflexivity.
Qed.

Section DecodeProps.

Variable ext : Type.
Variable inetaddr_host_lim_ret : list Z -> Z -> Z -> Z * Z.
Variable read_uint : list Z -> Z -> Z -> Z * Z.
Variable htonl : Z -> Z.
Variable htons : Z -> Z.
Variable inet_pton6 : list Z -> Z -> option (list Z).
Variable buffer_max_len : buffer -> Z.
Variable buffer_abort : buffer -> buffer.
Variable buffer_dont_connect : buffer -> buffer.

#[local] Abbreviation decode :=
  (frontend_decode_proxy_request (ext := ext) inetaddr_host_lim_ret read_uint
     htonl htons inet_pton6 buffer_max_len buffer_abort buffer_dont_connect).
#[local] Abbreviation line4 := (tcp4_line inetaddr_host_lim_ret read_uint).
#[local] Abbreviation line6 := (tcp6_line read_uint inet_pton6).
#[local] Abbreviation fail_exit := (decode_fail (ext := ext) buffer_abort).
#[local] Abbreviation missing_exit :=
  (decode_missing (ext := ext) buffer_abort buffer_dont_connect).

Lemma decode_tcp4_line mem end_ p :
  line4 mem end_ p ->
  decode_tcp4 inetaddr_host_lim_ret read_uint mem 11 end_ = inr p.
Proof.
  intros (_ & p1 & p2 & p3 & p4 & Hord & Hs & H1 & Hd & H2 & Hsp & H3 & Hdp
          & H4 & H5 & Hend).
  unfold decode_tcp4. rewrite Hs.
  destruct (Z.eqb_spec p1 end_); [lia|]. rewrite H1. cbn [Z.eqb negb].
  change (32 =? 32) with true. cbv iota. cbn [negb]. rewrite Hd.
  destruct (Z.eqb_spec p2 end_); [lia|]. rewrite H2.
  change (32 =? 32) with true. cbn [negb]. rewrite Hsp.
  destruct (Z.eqb_spec p3 end_); [lia|]. rewrite H3.
  change (32 =? 32) with true. cbn [negb]. rewrite Hdp.
  destruct (Z.ltb_spec (end_ - 2) p4); [lia|]. rewrite H4, H5.
  change (13 =? 13) with true. change (10 =? 10) with true. cbn [negb].
  rewrite <- Hend. destruct p; reflexivity.
Qed.

(** The TCP6 loop always leaves within [end - line + 1] rounds. *)
Lemma tcp6_fields_total fuel : forall mem line end_ f,
  (Z.to_nat (end_ - line) < fuel)%nat ->
  tcp6_fields fuel mem line end_ f <> None.
Proof.
  induction fuel as [|fuel IH]; intros mem line end_ f Hf; [lia|].
  cbn [tcp6_fields].
  destruct (Z.ltb_spec (end_ - 2) line); [discriminate|].
  destruct (byte_at mem line =? 13).
  - destruct (negb _); discriminate.
  - destruct (byte_at mem line =? 32); apply IH; lia.
Qed.

Lemma tcp6_fields_skip k : forall fuel mem line end_ f,
  (forall i, line <= i < line + Z.of_nat k ->
             byte_at mem i <> 32 /\ byte_at mem i <> 13) ->
  line + Z.of_nat k <= end_ - 1 ->
  tcp6_fields (k + fuel) mem line end_ f
  = tcp6_fields fuel mem (line + Z.of_nat k) end_ f.
Proof.
  induction k as [|k IH]; intros fuel mem line end_ f Hb Hend.
  - cbn [Nat.add]. rewrite Z.add_0_r. reflexivity.
  - cbn [Nat.add tcp6_fields].
    destruct (Z.ltb_spec (end_ - 2) line); [lia|].
    destruct (Hb line ltac:(lia)) as [H32 H13].
    destruct (Z.eqb_spec (byte_at mem line) 13); [contradiction|].
    destruct (Z.eqb_spec (byte_at mem line) 32); [contradiction|].
    rewrite IH.
    + f_equal. lia.
    + intros i Hi. apply Hb. lia.
    + lia.
Qed.

Lemma tcp6_fields_space fuel mem line end_ f :
  byte_at mem line = 32 -> line <= end_ - 2 ->
  tcp6_fields (S fuel) mem line end_ f
  = tcp6_fields fuel (<[Z.to_nat line := 0]> mem) (line + 1) end_
                (next_field line f).
Proof.
  intros Hb Hend. cbn [tcp6_fields].
  destruct (Z.ltb_spec (end_ - 2) line); [lia|]. rewrite Hb. reflexivity.
Qed.

Lemma tcp6_fields_cr fuel mem line end_ f :
  byte_at mem line = 13 -> line <= end_ - 2 ->
  byte_at (<[Z.to_nat line := 0]> mem) (line + 1) = 10 ->
  tcp6_fields (S fuel) mem line end_ f
  = Some (<[Z.to_nat line := 0]> mem, inr (line + 1 + 1, f)).
Proof.
  intros Hb Hend Hlf. cbn [tcp6_fields].
  destruct (Z.ltb_spec (end_ - 2) line); [lia|]. rewrite Hb.
  change (13 =? 13) with true. cbv iota zeta. rewrite Hlf. reflexivity.
Qed.

Lemma decode_tcp6_line mem end_ p :
  end_ <= Z.of_nat (length mem) ->
  line6 mem end_ p ->
  exists mem',
    decode_tcp6 read_uint inet_pton6 mem 11 end_ = Some (mem', inr p)
    /\ length mem' = length mem
    /\ forall i, pl_end p <= i -> byte_at mem' i = byte_at mem i.
Proof.
  intros Hlen (_ & p1 & p2 & p3 & p4 & Hord & H1 & H2 & H3 & H4 & H5 & Hno
               & Hread & Hend).
  cbv zeta in Hread. cbn [tcp6_cut foldl] in Hread.
  set (m1 := <[Z.to_nat p1 := 0]> mem) in *.
  set (m2 := <[Z.to_nat p2 := 0]> m1) in *.
  set (m3 := <[Z.to_nat p3 := 0]> m2) in *.
  set (m4 := <[Z.to_nat p4 := 0]> m3) in *.
  destruct Hread as (Hsrc & Hdst & (e1 & Hsp & He1) & (e2 & Hdp & He2)).
  assert (Hb1 : forall i, 0 <= i -> i <> p1 -> byte_at m1 i = byte_at mem i).
  { intros i Hi Hne. subst m1. apply byte_at_insert_ne; lia. }
  assert (Hb2 : forall i, 0 <= i -> i <> p2 -> byte_at m2 i = byte_at m1 i).
  { intros i Hi Hne. subst m2. apply byte_at_insert_ne; lia. }
  assert (Hb3 : forall i, 0 <= i -> i <> p3 -> byte_at m3 i = byte_at m2 i).
  { intros i Hi Hne. subst m3. apply byte_at_insert_ne; lia. }
  assert (Hb4 : forall i, 0 <= i -> i <> p4 -> byte_at m4 i = byte_at m3 i).
  { intros i Hi Hne. subst m4. apply byte_at_insert_ne; lia. }
  exists m4. split; [|split].
  - unfold decode_tcp6.
    replace (S (Z.to_nat (end_ - 11)))
      with (Z.to_nat (p1 - 11)
            + S (Z.to_nat (p2 - p1 - 1)
                 + S (Z.to_nat (p3 - p2 - 1)
                      + S (Z.to_nat (p4 - p3 - 1)
                           + S (Z.to_nat (end_ - p4))))))%nat by lia.
    rewrite tcp6_fields_skip; rewrite ?Z2Nat.id by lia.
    2:{ intros i Hi. apply Hno; lia. }
    2:{ lia. }
    replace (11 + (p1 - 11)) with p1 by lia.
    rewrite tcp6_fields_space by (try exact H1; lia). fold m1.
    rewrite tcp6_fields_skip; rewrite ?Z2Nat.id by lia.
    2:{ intros i Hi. rewrite Hb1 by lia. apply Hno; lia. }
    2:{ lia. }
    replace (p1 + 1 + (p2 - p1 - 1)) with p2 by lia.
    rewrite tcp6_fields_space by (rewrite ?Hb1 by lia; try exact H2; lia).
    fold m2.
    rewrite tcp6_fields_skip; rewrite ?Z2Nat.id by lia.
    2:{ intros i Hi. rewrite Hb2, Hb1 by lia. apply Hno; lia. }
    2:{ lia. }
    replace (p2 + 1 + (p3 - p2 - 1)) with p3 by lia.
    rewrite tcp6_fields_space
      by (rewrite ?Hb2, ?Hb1 by lia; try exact H3; lia).
    fold m3.
    rewrite tcp6_fields_skip; rewrite ?Z2Nat.id by lia.
    2:{ intros i Hi. rewrite Hb3, Hb2, Hb1 by lia. apply Hno; lia. }
    2:{ lia. }
    replace (p3 + 1 + (p4 - p3 - 1)) with p4 by lia.
    rewrite tcp6_fields_cr.
    2:{ rewrite Hb3, Hb2, Hb1 by lia. exact H4. }
    2:{ lia. }
    2:{ fold m4. rewrite Hb4, Hb3, Hb2, Hb1 by lia. exact H5. }
    fold m4. cbn [next_field].
    replace (p3 + 1 - 1) with p3 by lia.
    replace (p4 + 1 + 1 - 2) with p4 by lia.
    rewrite Hsp, He1. change (0 =? 0) with true. cbn [negb].
    rewrite Hdp, He2. change (0 =? 0) with true. cbn [negb].
    rewrite Hsrc, Hdst.
    replace (p4 + 1 + 1) with (pl_end p) by lia.
    destruct p; reflexivity.
  - subst m4 m3 m2 m1. rewrite !length_insert. reflexivity.
  - intros i Hi. rewrite Hb4, Hb3, Hb2, Hb1 by lia. reflexivity.
Qed.

(** What [decode_strip] does to a request held at the start of its
    storage. *)
Lemma decode_strip_spec (s : session ext) (n an_bit : Z) :
  w (req s) = 0 -> r (req s) = l (req s) -> l (req s) < size (req s) ->
  l (req s) <= Z.of_nat (length (data (req s))) -> 0 <= n <= l (req s) ->
  exists s',
    decode_strip buffer_max_len n an_bit s = (1, s')
    /\ line_removed n an_bit (req s) (req s')
    /\ cli_addr s' = cli_addr s /\ frt_addr s' = frt_addr s
    /\ s_flags s' = s_flags s /\ rep s' = rep s /\ fe s' = fe s
    /\ listener_counters s' = listener_counters s.
Proof.
  intros Hw Hr Hl Hlen Hn. unfold decode_strip. eexists. split; [reflexivity|].
  pose proof (buffer_replace2_cut buffer_max_len (req s) n Hw Hr Hl Hlen Hn)
    as H. cbv zeta in H.
  destruct H as (H1 & H2 & H3 & H4 & H5 & H6 & H7 & H8 & H9 & H10 & H11).
  destruct s. cbn in *. unfold line_removed. cbn.
  rewrite H1, H2, H3, H4, H5, H6, H7, H8, H9, H10, H11.
  repeat split; reflexivity.
Qed.

(** C3, as the code has it.  The request carries neither READ_ERROR nor
    READ_TIMEOUT and is held at the start of its storage without
    wrapping.  When it begins with a complete well-formed TCP4 line, or
    with a complete well-formed TCP6 line, the analyser returns 1, writes
    the source address and port to the client address and the destination
    address and port to the frontend-local address of the session, marks
    them set, cuts exactly the line out of the request, which afterwards
    starts at the byte that followed the CRLF, and clears its analyser
    bit. *)
Theorem frontend_decode_proxy_request_decodes (s : session ext)
        (an_bit : Z) :
  has (flags (req s)) (Z.lor BF_READ_ERROR BF_READ_TIMEOUT) = false ->
  w (req s) = 0 -> r (req s) = l (req s) -> l (req s) < size (req s) ->
  l (req s) <= Z.of_nat (length (data (req s))) ->
  (forall p, line4 (data (req s)) (l (req s)) p ->
     exists s',
       decode s an_bit = Some (1, s')
       /\ cli_addr s' = store_sin (htons (u16 (pl_sport p)))
                                  (htonl (pl_src p)) (cli_addr s)
       /\ frt_addr s' = store_sin (htons (u16 (pl_dport p)))
                                  (htonl (pl_dst p)) (frt_addr s)
       /\ s_flags s' = setf (s_flags s) SN_FRT_ADDR_SET
       /\ line_removed (pl_end p) an_bit (req s) (req s')
       /\ rep s' = rep s /\ fe s' = fe s
       /\ listener_counters s' = listener_counters s)
  /\ (forall p, line6 (data (req s)) (l (req s)) p ->
        exists s',
          decode s an_bit = Some (1, s')
          /\ cli_addr s' = Sockaddr_inet6 AF_INET6 (htons (u16 (pl_sport p)))
                                          (pl_src p)
          /\ frt_addr s' = Sockaddr_inet6 AF_INET6 (htons (u16 (pl_dport p)))
                                          (pl_dst p)
          /\ s_flags s' = setf (s_flags s) SN_FRT_ADDR_SET
          /\ line_removed (pl_end p) an_bit (req s) (req s')
          /\ rep s' = rep s /\ fe s' = fe s
          /\ listener_counters s' = listener_counters s).
Proof.
  intros Hfl Hw Hr Hl Hlen. split.
  - intros p Hp.
    pose proof (decode_tcp4_line _ _ _ Hp) as Hdec.
    destruct Hp as (Hpre & p1 & p2 & p3 & p4 & Hord & Hrest).
    assert (Hend : pl_end p = p4 + 2) by tauto.
    destruct (proxy_prefix _ "TCP4 " eq_refl Hpre) as [Hproxy Htcp].
    unfold frontend_decode_proxy_request. rewrite Hfl.
    replace (Z.min (l (req s)) 6) with 6 by lia.
    change (6 =? 0) with false. cbv iota.
    unfold strncmp_ne, memcmp_eq. rewrite Hproxy.
    rewrite bool_decide_eq_true_2 by reflexivity. cbn [negb].
    destruct (Z.ltb_spec (l (req s)) 18); [lia|].
    change (0 + 6) with 6. rewrite Htcp.
    rewrite bool_decide_eq_true_2 by reflexivity.
    change (6 + 5) with 11. rewrite Hdec.
    match goal with |- context [decode_strip _ ?n ?a ?x] =>
      destruct (decode_strip_spec x n a) as (s' & Hs' & Hrem & Hc & Hf & Hsf
                                             & Hrep & Hfe & Hli)
    end; try (destruct s; cbn in *; first [assumption | lia]).
    exists s'. split; [rewrite Hs'; reflexivity|].
    rewrite Hc, Hf, Hsf, Hrep, Hfe, Hli. destruct s; cbn in *.
    do 3 (split; [reflexivity|]). split; [exact Hrem|].
    repeat split; reflexivity.
  - intros p Hp.
    destruct (decode_tcp6_line _ _ _ Hlen Hp) as (mem' & Hdec & Hlen' & Hsame).
    destruct Hp as (Hpre & p1 & p2 & p3 & p4 & Hord & Hrest).
    assert (Hend : pl_end p = p4 + 2) by tauto.
    destruct (proxy_prefix _ "TCP6 " eq_refl Hpre) as [Hproxy Htcp].
    unfold frontend_decode_proxy_request. rewrite Hfl.
    replace (Z.min (l (req s)) 6) with 6 by lia.
    change (6 =? 0) with false. cbv iota.
    unfold strncmp_ne, memcmp_eq. rewrite Hproxy.
    rewrite bool_decide_eq_true_2 by reflexivity. cbn [negb].
    destruct (Z.ltb_spec (l (req s)) 18); [lia|].
    change (0 + 6) with 6. rewrite Htcp.
    rewrite bool_decide_eq_false_2 by discriminate.
    rewrite bool_decide_eq_true_2 by reflexivity.
    change (6 + 5) with 11. rewrite Hdec.
    match goal with |- context [decode_strip _ ?n ?a ?x] =>
      destruct (decode_strip_spec x n a) as (s' & Hs' & Hrem & Hc & Hf & Hsf
                                             & Hrep & Hfe & Hli)
    end; try (destruct s; cbn in *; first [assumption | lia]).
    exists s'. split; [rewrite Hs'; reflexivity|].
    rewrite Hc, Hf, Hsf, Hrep, Hfe, Hli. destruct s; cbn in *.
    do 3 (split; [reflexivity|]). split; [|repeat split; reflexivity].
    unfold line_removed in *. cbn in *.
    destruct Hrem as (H1 & H2 & H3 & H4 & H5).
    repeat split; try tauto.
    rewrite H4. apply mem_range_ext. intros i Hi. apply Hsame. lia.
Qed.

Lemma decode_fail_spec (s : session ext) :
  exists s', fail_exit s = (0, s') /\ decode_failed buffer_abort (data (req s)) s s'.
Proof.
  unfold decode_fail.
  match goal with |- context [set_term_flags ?e ?f ?x] =>
    pose proof (set_term_flags_spec e f x eq_refl eq_refl eq_refl eq_refl)
      as Hterm; cbv zeta in Hterm;
    set (s1 := x) in *; set (s2 := set_term_flags e f s1) in *
  end.
  destruct Hterm as (Heq & Herr & Hfin).
  assert (H1 : req s1 = set_analysers 0 (buffer_abort (req s))
               /\ rep s1 = buffer_abort (rep s)
               /\ s_flags s1 = s_flags s
               /\ failed_req (px_counters (fe s1))
                  = failed_req (px_counters (fe s)) + 1
               /\ listener_counters s1
                  = (fun c => set_failed_req (failed_req c + 1) c)
                      <$> listener_counters s
               /\ cli_addr s1 = cli_addr s /\ frt_addr s1 = frt_addr s).
  { subst s1. unfold count_on_frontend. cbn.
    destruct (listener_counters s) eqn:E; cbn; rewrite ?E;
      repeat split; reflexivity. }
  destruct H1 as (Hreq & Hrep & Hfl & Hfe & Hli & Hcli & Hfrt).
  exists s2. split; [reflexivity|]. unfold decode_failed.
  rewrite Heq.
  cbn [req rep fe listener_counters s_flags set_s_flags cli_addr frt_addr].
  rewrite Hreq, Hrep, Hfe, Hli, Herr, Hfin, Hfl, Hcli, Hfrt.
  replace (set_data (data (req s)) (req s)) with (req s)
    by (destruct (req s); reflexivity).
  repeat split; reflexivity.
Qed.

(** The two labels: a clean wait, possible only on a request that is
    neither shut for reading nor full, or the whole failure path. *)
Lemma decode_exit_spec (e : decode_exit) (s : session ext) :
  (has (flags (req s)) (Z.lor BF_SHUTR BF_FULL) = false
   /\ e = Goto_missing
   /\ decode_exit_to buffer_abort buffer_dont_connect e s
      = (0, set_req (buffer_dont_connect (req s)) s))
  \/ ((e = Goto_fail \/ has (flags (req s)) (Z.lor BF_SHUTR BF_FULL) = true)
      /\ exists s',
           decode_exit_to buffer_abort buffer_dont_connect e s = (0, s')
           /\ decode_failed buffer_abort (data (req s)) s s').
Proof.
  destruct e; cbn [decode_exit_to]; unfold decode_missing.
  - destruct (has (flags (req s)) (Z.lor BF_SHUTR BF_FULL)) eqn:E; cbn [negb].
    + right. split; [right; reflexivity|]. apply decode_fail_spec.
    + left. repeat split; reflexivity.
  - right. split; [left; reflexivity|]. apply decode_fail_spec.
Qed.

Lemma decode_tcp6_total mem line end_ :
  decode_tcp6 read_uint inet_pton6 mem line end_ <> None.
Proof.
  unfold decode_tcp6.
  pose proof (tcp6_fields_total (S (Z.to_nat (end_ - line))) mem line end_
                                (None, None, None) ltac:(lia)) as H.
  destruct (tcp6_fields _ mem line end_ _) as [[m [e|[q [[[d|] [sp|]] [dp|]]]]]|];
    try discriminate; [|contradiction].
  destruct (read_uint m sp (dp - 1)) as [v1 e1].
  destruct (negb _); [discriminate|].
  destruct (read_uint m dp (q - 2)) as [v2 e2].
  destruct (negb _); [discriminate|].
  destruct (inet_pton6 m line); [|discriminate].
  destruct (inet_pton6 m d); discriminate.
Qed.

Lemma decode_failed_cut (s s' : session ext) (d : list Z) :
  decode_failed buffer_abort (data (req (set_req (set_data d (req s)) s)))
                (set_req (set_data d (req s)) s) s' ->
  decode_failed buffer_abort d s s'.
Proof.
  unfold decode_failed. destruct s as [? ? ? ? ? ? ? rq ? ? ? ? ? ? ?].
  destruct rq. cbn. tauto.
Qed.

Lemma short_read_len (b : buffer) :
  short_read b ->
  (Z.min (l b) 6 =? 0) = true
  \/ ((Z.min (l b) 6 =? 0) = false
      /\ strncmp_ne (data b) 0 (bytes "PROXY ") (Z.min (l b) 6) = false
      /\ (l b <? 18) = true).
Proof.
  intros [H0|[H18 Hpre]].
  - left. rewrite H0. reflexivity.
  - destruct (Z.eqb_spec (Z.min (l b) 6) 0); [left; reflexivity|].
    right. split; [reflexivity|]. split.
    + unfold strncmp_ne. rewrite bool_decide_eq_true_2 by exact Hpre.
      reflexivity.
    + apply Z.ltb_lt. exact H18.
Qed.

End DecodeProps.

Lemma forallb_seqZ (f : Z -> bool) a n :
  forallb f (seqZ a n) = true -> forall i, a <= i < a + n -> f i = true.
Proof.
  intros H i Hi. rewrite forallb_forall in H. apply H.
  apply list_elem_of_In, elem_of_seqZ. exact Hi.
Qed.

(** The example of the specification, and its TCP6 form: the client is
    192.0.2.1:35000 (2001:db8::1, port 35000), the local address
    198.51.100.2:443 (2001:db8::2, port 443), and the request starts at
    the G of GET. *)
Lemma frontend_decode_proxy_request_decodes_witness :
  (exists s',
     decode_on (proxy_session 0 proxy4_example) = Some (1, s')
     /\ cli_addr s' = Sockaddr_inet (mksin AF_INET (bswap16 35000)
                                           (bswap32 example_src4)
                                           (repeat 0 8))
     /\ frt_addr s' = Sockaddr_inet (mksin AF_INET (bswap16 443)
                                           (bswap32 example_dst4)
                                           (repeat 0 8))
     /\ content (req s') = bytes ("GET / HTTP/1.0" ++ CRLF ++ CRLF)
     /\ analysers (req s') = 0)
  /\ (exists s',
        decode_on (proxy_session 0 proxy6_example) = Some (1, s')
        /\ cli_addr s' = Sockaddr_inet6 AF_INET6 (bswap16 35000) example_src6
        /\ frt_addr s' = Sockaddr_inet6 AF_INET6 (bswap16 443) example_dst6
        /\ content (req s') = bytes ("GET / HTTP/1.0" ++ CRLF ++ CRLF)
        /\ analysers (req s') = 0).
Proof.
  split.
  - destruct (frontend_decode_proxy_request_decodes
                unit dotted_inetaddr __read_uint bswap32 bswap16 hex_inet_pton6
                (reserve_max_len 16 (-1)) plain_abort plain_dont_connect
                (proxy_session 0 proxy4_example) 1) as [H4 _];
      try (vm_compute; first [reflexivity | discriminate]).
    destruct (H4 (mkline example_src4 example_dst4 35000 443 45))
      as (s' & Hret & Hcli & Hfrt & _ & Hrem & _).
    { split; [vm_compute; reflexivity|]. exists 20, 33, 39, 43.
      split; [vm_compute; repeat split; discriminate|].
      do 9 (split; [vm_compute; reflexivity|]). reflexivity. }
    exists s'. split; [exact Hret|]. split; [exact Hcli|].
    split; [exact Hfrt|].
    destruct Hrem as (Hl & _ & _ & Hdata & _ & Han & _).
    split; [|rewrite Han; reflexivity].
    unfold content. rewrite Hl, Hdata. vm_compute. reflexivity.
  - destruct (frontend_decode_proxy_request_decodes
                unit dotted_inetaddr __read_uint bswap32 bswap16 hex_inet_pton6
                (reserve_max_len 16 (-1)) plain_abort plain_dont_connect
                (proxy_session 0 proxy6_example) 1) as [_ H6];
      try (vm_compute; first [reflexivity | discriminate]).
    destruct (H6 (mkline example_src6 example_dst6 35000 443 64))
      as (s' & Hret & Hcli & Hfrt & _ & Hrem & _).
    { split; [vm_compute; reflexivity|]. exists 31, 52, 58, 62.
      split; [vm_compute; repeat split; discriminate|]. do 5 (split; [vm_compute; reflexivity|]).
      split.
      - intros i Hi H1 H2 H3.
        pose proof (forallb_seqZ
          (fun i => (i =? 31) || (i =? 52) || (i =? 58)
                    || (negb (byte_at (data (req (proxy_session 0
                                                    proxy6_example))) i =? 32)
                        && negb (byte_at (data (req (proxy_session 0
                                                       proxy6_example))) i
                                 =? 13)))
          11 51 ltac:(vm_compute; reflexivity) i ltac:(lia)) as H.
        cbv beta in H.
        destruct (Z.eqb_spec i 31); [contradiction|].
        destruct (Z.eqb_spec i 52); [contradiction|].
        destruct (Z.eqb_spec i 58); [contradiction|].
        cbn [orb] in H. apply andb_true_iff in H as [Ha Hb].
        apply negb_true_iff in Ha, Hb.
        apply Z.eqb_neq in Ha, Hb. split; assumption.
      - split; [|reflexivity]. cbv zeta.
        split; [vm_compute; reflexivity|].
        split; [vm_compute; reflexivity|].
        split; [exists 58|exists 62]; split; vm_compute; reflexivity. }
    exists s'. split; [exact Hret|]. split; [exact Hcli|].
    split; [exact Hfrt|].
    destruct Hrem as (Hl & _ & _ & Hdata & _ & Han & _).
    split; [|rewrite Han; reflexivity].
    unfold content. rewrite Hl, Hdata. vm_compute. reflexivity.
Defined.

(** C3 as worded fails on a request that holds the whole well-formed
    line and carries READ_TIMEOUT: the call returns 0 on the failure path,
    the addresses are not written and the line stays in the request. *)
Lemma frontend_decode_proxy_request_read_timeout :
  let s := proxy_session BF_READ_TIMEOUT proxy4_example in
  tcp4_line dotted_inetaddr __read_uint (data (req s)) (l (req s))
            (mkline example_src4 example_dst4 35000 443 45)
  /\ w (req s) = 0 /\ r (req s) = l (req s) /\ l (req s) < size (req s)
  /\ exists s',
       decode_on s = Some (0, s')
       /\ cli_addr s' = cli_addr s /\ frt_addr s' = frt_addr s
       /\ content (req s') = bytes proxy4_example
       /\ failed_req (px_counters (fe s')) = 1
       /\ Z.land (s_flags s') SN_ERR_MASK = SN_ERR_PRXCOND.
Proof.
  cbv zeta. split.
  { split; [vm_compute; reflexivity|]. exists 20, 33, 39, 43.
    split; [vm_compute; repeat split; discriminate|].
    do 9 (split; [vm_compute; reflexivity|]). reflexivity. }
  do 3 (split; [vm_compute; reflexivity|]).
  eexists. split; [vm_compute; reflexivity|].
  repeat split; vm_compute; reflexivity.
Qed.

Section DecodeLines.

Variable ext : Type.
Variable inetaddr_host_lim_ret : list Z -> Z -> Z -> Z * Z.
Variable read_uint : list Z -> Z -> Z -> Z * Z.
Variable htonl : Z -> Z.
Variable htons : Z -> Z.
Variable inet_pton6 : list Z -> Z -> option (list Z).
Variable buffer_max_len : buffer -> Z.
Variable buffer_abort : buffer -> buffer.
Variable buffer_dont_connect : buffer -> buffer.

#[local] Abbreviation decode :=
  (frontend_decode_proxy_request (ext := ext) inetaddr_host_lim_ret read_uint
     htonl htons inet_pton6 buffer_max_len buffer_abort buffer_dont_connect).
#[local] Abbreviation fail_exit := (decode_fail (ext := ext) buffer_abort).
#[local] Abbreviation missing_exit :=
  (decode_missing (ext := ext) buffer_abort buffer_dont_connect).
#[local] Abbreviation incomplete4 :=
  (tcp4_incomplete inetaddr_host_lim_ret read_uint).
#[local] Abbreviation malformed4 :=
  (tcp4_malformed inetaddr_host_lim_ret read_uint).
#[local] Abbreviation accepted4 :=
  (tcp4_accepted inetaddr_host_lim_ret read_uint).
#[local] Abbreviation accepted6 := (tcp6_accepted read_uint inet_pton6).
#[local] Abbreviation malformed6 := (tcp6_malformed read_uint inet_pton6).

Ltac tcp4_reads mem end_ :=
  unfold tcp4_incomplete, tcp4_malformed, tcp4_accepted, tcp4_stops,
         decode_tcp4;
  cbv zeta;
  destruct (inetaddr_host_lim_ret mem 11 end_) as [?v ?p]; cbn [fst snd];
  match goal with p1 : Z |- _ =>
    destruct (inetaddr_host_lim_ret mem (p1 + 1) end_) as [?v ?p];
    cbn [fst snd]
  end;
  match goal with p1 : Z, p2 : Z |- _ =>
    destruct (read_uint mem (p2 + 1) end_) as [?v ?p]; cbn [fst snd]
  end;
  match goal with p1 : Z, p2 : Z, p3 : Z |- _ =>
    destruct (read_uint mem (p3 + 1) end_) as [?v ?p]; cbn [fst snd]
  end.

Ltac tcp4_tests :=
  repeat match goal with
  | |- context [?a =? ?b] => destruct (Z.eqb_spec a b); cbn [negb]
  | |- context [?a <? ?b] => destruct (Z.ltb_spec a b)
  end.

(** The three ways out of the TCP4 branch. *)
Lemma decode_tcp4_incomplete mem end_ :
  incomplete4 mem end_ ->
  decode_tcp4 inetaddr_host_lim_ret read_uint mem 11 end_ = inl Goto_missing.
Proof.
  tcp4_reads mem end_. intros H. tcp4_tests;
    first [reflexivity | exfalso; intuition (congruence || lia)].
Qed.

Lemma decode_tcp4_malformed mem end_ :
  malformed4 mem end_ ->
  decode_tcp4 inetaddr_host_lim_ret read_uint mem 11 end_ = inl Goto_fail.
Proof.
  tcp4_reads mem end_. intros H. tcp4_tests;
    first [reflexivity | exfalso; intuition (congruence || lia)].
Qed.

Lemma decode_tcp4_accepted mem end_ p :
  accepted4 mem end_ p ->
  decode_tcp4 inetaddr_host_lim_ret read_uint mem 11 end_ = inr p.
Proof.
  tcp4_reads mem end_. intros H. tcp4_tests;
    first [exfalso; intuition (congruence || lia)
          | f_equal; symmetry; tauto].
Qed.

Lemma tcp4_classes mem end_ :
  incomplete4 mem end_ \/ malformed4 mem end_
  \/ exists p, accepted4 mem end_ p.
Proof.
  tcp4_reads mem end_.
  match goal with p1 : Z, p2 : Z, p3 : Z, p4 : Z |- _ =>
    destruct (Z.eq_dec p1 end_); [tauto|];
    destruct (Z.eq_dec (byte_at mem p1) 32); [|tauto];
    destruct (Z.eq_dec p2 end_); [tauto|];
    destruct (Z.eq_dec (byte_at mem p2) 32); [|tauto];
    destruct (Z.eq_dec p3 end_); [tauto|];
    destruct (Z.eq_dec (byte_at mem p3) 32); [|tauto];
    destruct (Z_lt_le_dec (end_ - 2) p4); [tauto|];
    destruct (Z.eq_dec (byte_at mem p4) 13); [|tauto];
    destruct (Z.eq_dec (byte_at mem (p4 + 1)) 10); [|tauto]
  end.
  right. right. eexists. repeat split; assumption.
Qed.

(** The TCP6 loop writes nothing at or behind the byte it looks at. *)
Lemma spaces_from_insert n : forall mem a (i : Z),
  0 <= i < a ->
  spaces_from n (<[Z.to_nat i := 0]> mem) a = spaces_from n mem a.
Proof.
  induction n as [|n IH]; intros mem a i Hi; [reflexivity|].
  cbn [spaces_from]. rewrite byte_at_insert_ne by lia.
  rewrite IH by lia. reflexivity.
Qed.

Lemma spaces_from_bounds n : forall mem a,
  Forall (fun p => a <= p < a + Z.of_nat n) (spaces_from n mem a).
Proof.
  induction n as [|n IH]; intros mem a; [constructor|].
  cbn [spaces_from].
  assert (H : Forall (fun p => a <= p < a + Z.of_nat (S n))
                     (spaces_from n mem (a + 1))).
  { eapply Forall_impl; [apply IH|]. cbn beta. intros p Hp. lia. }
  destruct (byte_at mem a =? 32); [constructor; [lia|exact H]|exact H].
Qed.

Lemma spaces_from_app n k : forall mem a,
  spaces_from (n + k) mem a
  = spaces_from n mem a ++ spaces_from k mem (a + Z.of_nat n).
Proof.
  induction n as [|n IH]; intros mem a.
  - cbn. rewrite Z.add_0_r. reflexivity.
  - cbn [Nat.add spaces_from]. rewrite IH.
    replace (a + 1 + Z.of_nat n) with (a + Z.of_nat (S n)) by lia.
    destruct (byte_at mem a =? 32); reflexivity.
Qed.

Lemma tcp6_cut_outside ps : forall mem i,
  0 <= i -> Forall (fun p => 0 <= p /\ p <> i) ps ->
  byte_at (tcp6_cut mem ps) i = byte_at mem i.
Proof.
  induction ps as [|p ps IH]; intros mem i Hi Hps; [reflexivity|].
  inversion Hps as [|? ? Hp Hrest]; subst. cbn [tcp6_cut foldl].
  change (foldl _ ?m ps) with (tcp6_cut m ps).
  rewrite IH by assumption. apply byte_at_insert_ne; lia.
Qed.

Lemma tcp6_cut_app mem ps qs :
  tcp6_cut mem (ps ++ qs) = tcp6_cut (tcp6_cut mem ps) qs.
Proof. unfold tcp6_cut. apply foldl_app. Qed.

(** [n] rounds of the loop over bytes none of which is a CR: a NUL over
    each space, and the fields that start behind the first three. *)
Lemma tcp6_fields_run n : forall fuel mem line end_ f,
  0 <= line ->
  (forall i, line <= i < line + Z.of_nat n -> byte_at mem i <> 13) ->
  line + Z.of_nat n <= end_ - 1 ->
  tcp6_fields (n + fuel) mem line end_ f
  = tcp6_fields fuel (tcp6_cut mem (spaces_from n mem line))
                (line + Z.of_nat n) end_
                (foldl (fun f p => next_field p f) f (spaces_from n mem line)).
Proof.
  induction n as [|n IH]; intros fuel mem line end_ f H0 Hcr Hend.
  - cbn. rewrite Z.add_0_r. reflexivity.
  - cbn [Nat.add tcp6_fields spaces_from].
    destruct (Z.ltb_spec (end_ - 2) line); [lia|].
    destruct (Z.eqb_spec (byte_at mem line) 13) as [E|_];
      [exfalso; exact (Hcr line ltac:(lia) E)|].
    replace (line + Z.of_nat (S n)) with (line + 1 + Z.of_nat n) by lia.
    destruct (byte_at mem line =? 32).
    + rewrite IH.
      * rewrite spaces_from_insert by lia. reflexivity.
      * lia.
      * intros i Hi. rewrite byte_at_insert_ne by lia. apply Hcr. lia.
      * lia.
    + apply IH; [lia| |lia]. intros i Hi. apply Hcr. lia.
Qed.

Lemma next_field_three (ps : list Z) a b c :
  foldl (fun f p => next_field p f) (Some a, Some b, Some c) ps
  = (Some a, Some b, Some c).
Proof. induction ps as [|p ps IH]; [reflexivity|exact IH]. Qed.

Lemma next_field_starts (ps : list Z) :
  foldl (fun f p => next_field p f) (None, None, None) ps
  = match ps with
    | [] => (None, None, None)
    | [p1] => (Some (p1 + 1), None, None)
    | [p1; p2] => (Some (p1 + 1), Some (p2 + 1), None)
    | p1 :: p2 :: p3 :: _ => (Some (p1 + 1), Some (p2 + 1), Some (p3 + 1))
    end.
Proof.
  destruct ps as [|p1 [|p2 [|p3 more]]]; try reflexivity.
  cbn [foldl next_field]. apply next_field_three.
Qed.

(** The loop on a request without a CR among the bytes it may look at. *)
Lemma tcp6_fields_incomplete mem end_ :
  13 <= end_ -> tcp6_incomplete mem end_ ->
  tcp6_fields (S (Z.to_nat (end_ - 11))) mem 11 end_ (None, None, None)
  = Some (tcp6_waiting mem end_, inl Goto_missing).
Proof.
  intros Hend Hno.
  replace (S (Z.to_nat (end_ - 11)))
    with (Z.to_nat (end_ - 1 - 11) + 2)%nat by lia.
  rewrite tcp6_fields_run; [|lia| |lia].
  - cbn [tcp6_fields].
    destruct (Z.ltb_spec (end_ - 2) (11 + Z.of_nat (Z.to_nat (end_ - 1 - 11))));
      [reflexivity|lia].
  - intros i Hi. apply Hno. lia.
Qed.

(** The loop on a line that ends at [q]. *)
Lemma tcp6_fields_ended mem end_ q :
  tcp6_line_end mem end_ q ->
  tcp6_fields (S (Z.to_nat (end_ - 11))) mem 11 end_ (None, None, None)
  = Some (tcp6_ended mem q,
          if byte_at mem (q + 1) =? 10
          then inr (q + 2, foldl (fun f p => next_field p f)
                                 (None, None, None) (spaces_in mem 11 q))
          else inl Goto_fail).
Proof.
  intros (Hq & Hcr & Hno).
  replace (S (Z.to_nat (end_ - 11)))
    with (Z.to_nat (q - 11) + S (Z.to_nat (end_ - q)))%nat by lia.
  rewrite tcp6_fields_run; [|lia| |lia].
  2:{ intros i Hi. apply Hno. lia. }
  replace (11 + Z.of_nat (Z.to_nat (q - 11))) with q by lia.
  fold (spaces_in mem 11 q).
  assert (Hout : forall i, q <= i ->
            byte_at (tcp6_cut mem (spaces_in mem 11 q)) i = byte_at mem i).
  { intros i Hi. apply tcp6_cut_outside; [lia|].
    eapply Forall_impl; [apply spaces_from_bounds|]. cbn beta.
    intros p Hp. lia. }
  cbn [tcp6_fields].
  destruct (Z.ltb_spec (end_ - 2) q); [lia|].
  rewrite Hout, Hcr by lia. change (13 =? 13) with true. cbv iota zeta.
  rewrite byte_at_insert_ne, Hout by lia.
  unfold tcp6_ended. rewrite tcp6_cut_app. cbn [tcp6_cut foldl].
  replace (q + 1 + 1) with (q + 2) by lia.
  destruct (byte_at mem (q + 1) =? 10); reflexivity.
Qed.

(** The three ways out of the TCP6 branch, with the request data as it
    leaves them. *)
Lemma decode_tcp6_incomplete mem end_ :
  13 <= end_ -> tcp6_incomplete mem end_ ->
  decode_tcp6 read_uint inet_pton6 mem 11 end_
  = Some (tcp6_waiting mem end_, inl Goto_missing).
Proof.
  intros Hend Hno. unfold decode_tcp6.
  rewrite tcp6_fields_incomplete by assumption. reflexivity.
Qed.

Lemma decode_tcp6_malformed mem end_ q :
  malformed6 mem end_ q ->
  decode_tcp6 read_uint inet_pton6 mem 11 end_
  = Some (tcp6_ended mem q, inl Goto_fail).
Proof.
  intros (Hq & Hbad). unfold decode_tcp6.
  rewrite (tcp6_fields_ended _ _ _ Hq), next_field_starts.
  destruct (Z.eqb_spec (byte_at mem (q + 1)) 10) as [Hlf|]; [|reflexivity].
  destruct Hbad as [Hbad|[Hbad|(p1 & p2 & p3 & more & Hsp & Hbad)]];
    [contradiction| |].
  - destruct (spaces_in mem 11 q) as [|p1 [|p2 [|p3 more]]];
      try reflexivity. cbn [length] in Hbad. lia.
  - rewrite Hsp. cbv zeta in Hbad.
    replace (p3 + 1 - 1) with p3 by lia.
    replace (q + 2 - 2) with q by lia.
    destruct (read_uint (tcp6_ended mem q) (p2 + 1) p3) as [v1 e1].
    cbn [snd] in Hbad.
    destruct (Z.eqb_spec (byte_at (tcp6_ended mem q) e1) 0) as [H1|];
      [|reflexivity].
    cbn [negb].
    destruct (read_uint (tcp6_ended mem q) (p3 + 1) q) as [v2 e2].
    cbn [snd] in Hbad.
    destruct (Z.eqb_spec (byte_at (tcp6_ended mem q) e2) 0) as [H2|];
      [|reflexivity].
    cbn [negb].
    destruct (inet_pton6 (tcp6_ended mem q) 11); [|reflexivity].
    destruct (inet_pton6 (tcp6_ended mem q) (p1 + 1)); [|reflexivity].
    exfalso. destruct Hbad as [?|[?|[?|?]]]; congruence.
Qed.

Lemma decode_tcp6_accepted mem end_ p :
  accepted6 mem end_ p ->
  decode_tcp6 read_uint inet_pton6 mem 11 end_
  = Some (tcp6_ended mem (pl_end p - 2), inr p).
Proof.
  intros (q & p1 & p2 & p3 & more & Hq & Hlf & Hsp & Hd & Hend).
  cbv zeta in Hd.
  destruct Hd as ((e1 & Hr1 & H1) & (e2 & Hr2 & H2) & Hsrc & Hdst).
  replace (pl_end p - 2) with q by lia. unfold decode_tcp6.
  rewrite (tcp6_fields_ended _ _ _ Hq), next_field_starts, Hlf, Hsp.
  change (10 =? 10) with true. cbv iota.
  replace (p3 + 1 - 1) with p3 by lia.
  replace (q + 2 - 2) with q by lia.
  rewrite Hr1, H1. change (0 =? 0) with true. cbn [negb].
  rewrite Hr2, H2. change (0 =? 0) with true. cbn [negb].
  rewrite Hsrc, Hdst, <- Hend. destruct p; reflexivity.
Qed.

(** A range of bytes holds no CR or a first one. *)
Lemma first_cr mem n : forall a,
  (forall i, a <= i < a + Z.of_nat n -> byte_at mem i <> 13)
  \/ exists q, a <= q < a + Z.of_nat n /\ byte_at mem q = 13
               /\ forall i, a <= i < q -> byte_at mem i <> 13.
Proof.
  induction n as [|n IH]; intros a; [left; intros i Hi; lia|].
  destruct (Z.eq_dec (byte_at mem a) 13) as [E|E].
  - right. exists a. split; [lia|]. split; [exact E|]. intros i Hi. lia.
  - destruct (IH (a + 1)) as [Hno|(q & Hq & Hcr & Hno)].
    + left. intros i Hi. destruct (Z.eq_dec i a); [subst; exact E|].
      apply Hno. lia.
    + right. exists q. split; [lia|]. split; [exact Hcr|].
      intros i Hi. destruct (Z.eq_dec i a); [subst; exact E|].
      apply Hno. lia.
Qed.

Lemma tcp6_classes mem end_ :
  13 <= end_ ->
  tcp6_incomplete mem end_ \/ (exists q, malformed6 mem end_ q)
  \/ exists p, accepted6 mem end_ p.
Proof.
  intros Hend.
  destruct (first_cr mem (Z.to_nat (end_ - 1 - 11)) 11)
    as [Hno|(q & Hq & Hcr & Hno)].
  { left. intros i Hi. apply Hno. lia. }
  right.
  assert (Hline : tcp6_line_end mem end_ q).
  { split; [lia|]. split; assumption. }
  destruct (Z.eq_dec (byte_at mem (q + 1)) 10) as [Hlf|Hlf];
    [|left; exists q; split; [exact Hline|left; exact Hlf]].
  destruct (spaces_in mem 11 q) as [|p1 [|p2 [|p3 more]]] eqn:Hsp;
    try (left; exists q; split; [exact Hline|right; left; rewrite Hsp;
                                              cbn [length]; lia]).
  set (d := tcp6_ended mem q).
  destruct (read_uint d (p2 + 1) p3) as [v1 e1] eqn:Hr1.
  destruct (read_uint d (p3 + 1) q) as [v2 e2] eqn:Hr2.
  assert (Hbad : forall (B : Prop),
            (byte_at d (snd (read_uint d (p2 + 1) p3)) <> 0
             \/ byte_at d (snd (read_uint d (p3 + 1) q)) <> 0
             \/ inet_pton6 d 11 = None \/ inet_pton6 d (p1 + 1) = None) ->
            (exists q, malformed6 mem end_ q) \/ B).
  { intros B H. left. exists q. split; [exact Hline|]. right. right.
    exists p1, p2, p3, more. split; [exact Hsp|exact H]. }
  destruct (Z.eq_dec (byte_at d e1) 0) as [H1|H1];
    [|apply Hbad; left; rewrite Hr1; exact H1].
  destruct (Z.eq_dec (byte_at d e2) 0) as [H2|H2];
    [|apply Hbad; right; left; rewrite Hr2; exact H2].
  destruct (inet_pton6 d 11) as [src|] eqn:Hsrc; [|apply Hbad; tauto].
  destruct (inet_pton6 d (p1 + 1)) as [dst|] eqn:Hdst; [|apply Hbad; tauto].
  right. exists (mkline src dst v1 v2 (q + 2)), q, p1, p2, p3, more.
  split; [exact Hline|]. split; [exact Hlf|]. split; [exact Hsp|].
  split; [|reflexivity]. cbv zeta. fold d. cbn [pl_sport pl_dport pl_src pl_dst].
  split; [exists e1; split; assumption|].
  split; [exists e2; split; assumption|]. split; assumption.
Qed.

(** Behind the flags and the first eleven bytes, the call is its TCP4 or
    its TCP6 branch. *)
Lemma decode_on_tcp4 (s : session ext) (an_bit : Z) :
  has (flags (req s)) (Z.lor BF_READ_ERROR BF_READ_TIMEOUT) = false ->
  18 <= l (req s) ->
  mem_range (data (req s)) 0 11 = bytes "PROXY TCP4 " ->
  decode s an_bit
  = match decode_tcp4 inetaddr_host_lim_ret read_uint (data (req s)) 11
                      (l (req s)) with
    | inl e => Some (decode_exit_to buffer_abort buffer_dont_connect e s)
    | inr p =>
      Some (decode_strip buffer_max_len (pl_end p) an_bit
              (set_s_flags (setf (s_flags s) SN_FRT_ADDR_SET)
                 (set_frt_addr (store_sin (htons (u16 (pl_dport p)))
                                          (htonl (pl_dst p)) (frt_addr s))
                    (set_cli_addr (store_sin (htons (u16 (pl_sport p)))
                                             (htonl (pl_src p)) (cli_addr s))
                       s))))
    end.
Proof.
  intros Hfl Hl Hpre.
  destruct (proxy_prefix _ "TCP4 " eq_refl Hpre) as [Hproxy Htcp].
  unfold frontend_decode_proxy_request. rewrite Hfl.
  replace (Z.min (l (req s)) 6) with 6 by lia.
  change (6 =? 0) with false. cbv iota.
  unfold strncmp_ne, memcmp_eq. rewrite Hproxy.
  rewrite bool_decide_eq_true_2 by reflexivity. cbn [negb].
  destruct (Z.ltb_spec (l (req s)) 18); [lia|].
  change (0 + 6) with 6. rewrite Htcp.
  rewrite bool_decide_eq_true_2 by reflexivity.
  change (6 + 5) with 11.
  destruct (decode_tcp4 _ _ _ _ _); destruct s; reflexivity.
Qed.

Lemma decode_on_tcp6 (s : session ext) (an_bit : Z) :
  has (flags (req s)) (Z.lor BF_READ_ERROR BF_READ_TIMEOUT) = false ->
  18 <= l (req s) ->
  mem_range (data (req s)) 0 11 = bytes "PROXY TCP6 " ->
  decode s an_bit
  = match decode_tcp6 read_uint inet_pton6 (data (req s)) 11 (l (req s)) with
    | None => None
    | Some (d, inl e) =>
      Some (decode_exit_to buffer_abort buffer_dont_connect e
                           (set_req (set_data d (req s)) s))
    | Some (d, inr p) =>
      Some (decode_strip buffer_max_len (pl_end p) an_bit
              (set_s_flags (setf (s_flags s) SN_FRT_ADDR_SET)
                 (set_frt_addr (store_sin6 (htons (u16 (pl_dport p)))
                                           (pl_dst p) (frt_addr s))
                    (set_cli_addr (store_sin6 (htons (u16 (pl_sport p)))
                                              (pl_src p) (cli_addr s))
                       (set_req (set_data d (req s)) s)))))
    end.
Proof.
  intros Hfl Hl Hpre.
  destruct (proxy_prefix _ "TCP6 " eq_refl Hpre) as [Hproxy Htcp].
  unfold frontend_decode_proxy_request. rewrite Hfl.
  replace (Z.min (l (req s)) 6) with 6 by lia.
  change (6 =? 0) with false. cbv iota.
  unfold strncmp_ne, memcmp_eq. rewrite Hproxy.
  rewrite bool_decide_eq_true_2 by reflexivity. cbn [negb].
  destruct (Z.ltb_spec (l (req s)) 18); [lia|].
  change (0 + 6) with 6. rewrite Htcp.
  rewrite bool_decide_eq_false_2 by discriminate.
  rewrite bool_decide_eq_true_2 by reflexivity.
  change (6 + 5) with 11.
  destruct (decode_tcp6 _ _ _ _ _) as [[d [e|p]]|]; destruct s; reflexivity.
Qed.

(** The label [missing] on the session whose request data are [d] by
    then: the failure path on a request that is SHUTR or FULL, a wait
    otherwise. *)
Lemma decode_missing_cut (s : session ext) (d : list Z) :
  let s1 := set_req (set_data d (req s)) s in
  if has (flags (req s)) (Z.lor BF_SHUTR BF_FULL)
  then exists s', missing_exit s1 = (0, s')
                  /\ decode_failed buffer_abort d s s'
  else missing_exit s1
       = (0, set_req (buffer_dont_connect (set_data d (req s))) s).
Proof.
  cbv zeta. unfold decode_missing.
  replace (flags (req (set_req (set_data d (req s)) s)))
    with (flags (req s)) by (destruct s; reflexivity).
  destruct (has (flags (req s)) (Z.lor BF_SHUTR BF_FULL)); cbn [negb].
  - destruct (decode_fail_spec ext buffer_abort
                               (set_req (set_data d (req s)) s))
      as (s' & Hs' & Hf).
    exists s'. split; [exact Hs'|].
    exact (decode_failed_cut ext inetaddr_host_lim_ret read_uint htonl htons
             inet_pton6 buffer_max_len buffer_abort buffer_dont_connect
             _ _ _ Hf).
  - destruct s; reflexivity.
Qed.

Lemma decode_fail_cut (s : session ext) (d : list Z) :
  exists s', fail_exit (set_req (set_data d (req s)) s) = (0, s')
             /\ decode_failed buffer_abort d s s'.
Proof.
  destruct (decode_fail_spec ext buffer_abort
                             (set_req (set_data d (req s)) s))
    as (s' & Hs' & Hf).
  exists s'. split; [exact Hs'|].
    exact (decode_failed_cut ext inetaddr_host_lim_ret read_uint htonl htons
             inet_pton6 buffer_max_len buffer_abort buffer_dont_connect
             _ _ _ Hf).
Qed.

(** Cutting the line out leaves the addresses and the session flags. *)
Lemma decode_strip_keeps (s : session ext) (n an_bit : Z) :
  exists s', decode_strip buffer_max_len n an_bit s = (1, s')
             /\ cli_addr s' = cli_addr s /\ frt_addr s' = frt_addr s
             /\ s_flags s' = s_flags s.
Proof.
  unfold decode_strip. eexists. split; [reflexivity|].
  destruct s; repeat split; reflexivity.
Qed.

End DecodeLines.



(** A TCP6 line that arrives in two segments.  The first call waits, but
    has written NULs over the spaces it met; once the rest has arrived
    the line no longer decodes, although the same bytes in one segment
    do. *)
Example proxy6_two_segments :
  (exists s', decode_on (proxy_session 0 proxy6_example) = Some (1, s'))
  /\ exists s1 s2,
       decode_on (proxy_session 0 proxy6_first) = Some (0, s1)
       /\ s_flags s1 = 0
       /\ l (req (receive proxy6_rest s1)) = l (req (proxy_session 0 proxy6_example))
       /\ byte_at (data (req (receive proxy6_rest s1))) 31 = 0
       /\ decode_on (receive proxy6_rest s1) = Some (0, s2)
       /\ Z.land (s_flags s2) SN_ERR_MASK = SN_ERR_PRXCOND
       /\ failed_req (px_counters (fe s2)) = 1.
Proof.
  split.
  - eexists. vm_compute. reflexivity.
  - eexists. eexists. split; [vm_compute; reflexivity|].
    repeat split; vm_compute; reflexivity.
Qed.

(* ===================================================================== *)
(** ** Buffers: what forwarding accounts for *)
(* ===================================================================== *)

Section ForwardAccounts.

Variable buffer_max_len : buffer -> Z.
Variable BUF_INFINITE_FORWARD : Z.
Variable MID_RANGE : Z.

#[local] Abbreviation forward :=
  (buffer_forward buffer_max_len BUF_INFINITE_FORWARD MID_RANGE).

(** Every byte [buffer_forward] reports as taken into account is either
    scheduled at once ([send_max]) or promised for later ([to_forward]):
    outside the infinite mode the two counters grow together by exactly
    the value returned, which never exceeds the request and equals it
    when [to_forward] does not saturate; the data and [l] stay as they
    are and [send_max] never passes [l]. *)
Theorem buffer_forward_accounts (b : buffer) (bytes : Z) :
  0 <= send_max b <= l b -> l b < 2^32 -> 0 <= to_forward b < 2^32 ->
  0 <= bytes < 2^64 -> 0 <= MID_RANGE < 2^32 ->
  bytes <> u64 BUF_INFINITE_FORWARD ->
  to_forward b <> u32 BUF_INFINITE_FORWARD ->
  let ret := fst (forward b bytes) in
  let b' := snd (forward b bytes) in
  send_max b' + to_forward b' = send_max b + to_forward b + ret
  /\ 0 <= ret <= bytes
  /\ (to_forward b + bytes - (l b - send_max b) < 2^32 -> ret = bytes)
  /\ send_max b <= send_max b' <= l b
  /\ to_forward b <= to_forward b'
  /\ l b' = l b /\ data b' = data b /\ size b' = size b
  /\ r b' = r b /\ w b' = w b /\ total b' = total b.
Proof.
  intros Hs Hl Hf Hb Hm Hinf Hfinf. cbv zeta. unfold buffer_forward.
  destruct (Z.eqb_spec bytes 0) as [->|Hnz].
  { cbn. repeat split; lia. }
  rewrite (u32_small (l b - send_max b)) by lia.
  destruct (Z.leb_spec bytes (l b - send_max b)) as [Hfit|Hex].
  { cbn [fst snd]. rewrite u32_small by lia.
    destruct b; cbn in *. repeat split; lia. }
  replace (send_max b + (l b - send_max b)) with (l b) by lia.
  rewrite (u32_small (l b)) by lia.
  match goal with |- context [set_to_forward (u32 bytes) ?x] =>
    set (b3 := x);
    assert (H3 : send_max b3 = l b /\ to_forward b3 = to_forward b
                 /\ l b3 = l b /\ data b3 = data b /\ size b3 = size b
                 /\ r b3 = r b /\ w b3 = w b /\ total b3 = total b)
  end.
  { subst b3. cbn -[Z.ltb Z.eqb].
    repeat match goal with |- context [if ?c then _ else _] =>
      destruct c; cbn -[Z.ltb Z.eqb] end; repeat split; reflexivity. }
  destruct H3 as (H3s & H3f & H3l & H3d & H3z & H3r & H3w & H3t).
  clearbody b3.
  destruct (Z.eqb_spec bytes (u64 BUF_INFINITE_FORWARD)) as [E|_];
    [contradiction|].
  rewrite H3f.
  destruct (Z.eqb_spec (to_forward b) (u32 BUF_INFINITE_FORWARD));
    [contradiction|].
  set (nf0 := u32 (to_forward b + bytes - (l b - send_max b))).
  assert (Hnf0 : 0 <= nf0 < 2^32) by (apply u32_range).
  set (nf := if nf0 <=? to_forward b then MID_RANGE else nf0).
  assert (Hnf : 0 <= nf < 2^32).
  { subst nf. destruct (nf0 <=? to_forward b); lia. }
  assert (Hle : to_forward b < nf -> nf - to_forward b <= bytes - (l b - send_max b)).
  { intros Hlt. subst nf.
    destruct (Z.leb_spec nf0 (to_forward b)) as [Hov|Hno].
    - (* saturated: the sum wrapped *)
      subst nf0. unfold u32 in Hov.
      assert (2^32 <= to_forward b + bytes - (l b - send_max b)).
      { destruct (Z.lt_ge_cases (to_forward b + bytes - (l b - send_max b))
                                (2^32)) as [Hsm|]; [|assumption].
        rewrite Z.mod_small in Hov by lia. lia. }
      lia.
    - subst nf0. unfold u32 in *.
      pose proof (Z.mod_le (to_forward b + bytes - (l b - send_max b)) (2^32)
                           ltac:(lia) ltac:(lia)). lia. }
  destruct (Z.ltb_spec (to_forward b) nf) as [Hlt|Hge]; cbn [fst snd].
  - specialize (Hle Hlt). rewrite u64_small by lia.
    cbn [send_max to_forward set_to_forward l data size r w total].
    rewrite H3s, H3l, H3d, H3z, H3r, H3w, H3t.
    repeat split; try lia.
    intros Hsmall. subst nf nf0. rewrite u32_small in * by lia.
    destruct (Z.leb_spec (to_forward b + bytes - (l b - send_max b))
                         (to_forward b)); lia.
  - rewrite H3s, H3f, H3l, H3d, H3z, H3r, H3w, H3t.
    repeat split; try lia.
    intros Hsmall. subst nf nf0. rewrite u32_small in * by lia.
    destruct (Z.leb_spec (to_forward b + bytes - (l b - send_max b))
                         (to_forward b)); lia.
Qed.

End ForwardAccounts.

Lemma buffer_forward_accounts_witness :
  let res := buffer_forward (reserve_max_len 20 (-1)) (-1) (2^31)
                            full_buffer 100 in
  fst res = 100
  /\ send_max (snd res) = 80 /\ to_forward (snd res) = 20.
Proof.
  destruct (buffer_forward_accounts (reserve_max_len 20 (-1)) (-1) (2^31)
                                    full_buffer 100)
    as (H1 & _ & H3 & _);
    try (cbn; lia); try (vm_compute; discriminate).
  split; [apply H3; cbn; lia|]. split; reflexivity.
Defined.

(* ===================================================================== *)
(** ** Buffers: replacing and inserting in place *)
(* ===================================================================== *)

Lemma length_memcpy_at d pos src n :
  0 <= pos -> 0 <= n -> pos + n <= Z.of_nat (length d) ->
  n <= Z.of_nat (length src) ->
  length (memcpy_at d pos src n) = length d.
Proof.
  intros Hp Hn Hd Hs. unfold memcpy_at.
  rewrite !length_app, !length_take, length_drop. lia.
Qed.

(** A copy changes the bytes it covers and no other. *)
Lemma byte_at_memcpy_at d pos src n i :
  0 <= pos -> 0 <= n -> pos + n <= Z.of_nat (length d) ->
  n <= Z.of_nat (length src) -> 0 <= i ->
  byte_at (memcpy_at d pos src n) i
  = if (pos <=? i) && (i <? pos + n) then byte_at src (i - pos)
    else byte_at d i.
Proof.
  intros Hp Hn Hd Hs Hi. unfold memcpy_at, byte_at. rewrite !nth_lookup.
  destruct (Z.leb_spec pos i) as [Hpi|Hpi]; cbn [andb].
  - rewrite lookup_app_r by (rewrite length_take; lia).
    rewrite length_take.
    replace (Z.to_nat i - Z.to_nat pos `min` length d)%nat
      with (Z.to_nat (i - pos)) by lia.
    destruct (Z.ltb_spec i (pos + n)) as [Hin|Hin].
    + rewrite lookup_app_l by (rewrite length_take; lia).
      rewrite lookup_take_lt by lia. reflexivity.
    + rewrite lookup_app_r by (rewrite length_take; lia).
      rewrite length_take, lookup_drop. do 2 f_equal. lia.
  - rewrite lookup_app_l by (rewrite length_take; lia).
    rewrite lookup_take_lt by lia. reflexivity.
Qed.

Lemma byte_at_mem_range mem p n i :
  0 <= i < n -> byte_at (mem_range mem p n) i = byte_at mem (p + i).
Proof.
  intros Hi. unfold byte_at at 1. rewrite nth_lookup.
  rewrite (lookup_mem_range mem p n (Z.to_nat i)) by lia.
  cbn. f_equal. lia.
Qed.

Lemma length_memmove_at d dst src n :
  0 <= dst -> 0 <= n -> dst + n <= Z.of_nat (length d) ->
  length (memmove_at d dst src n) = length d.
Proof.
  intros. unfold memmove_at. apply length_memcpy_at; try lia.
  rewrite length_mem_range. lia.
Qed.

Lemma byte_at_memmove_at d dst src n i :
  0 <= dst -> 0 <= n -> dst + n <= Z.of_nat (length d) -> 0 <= i ->
  byte_at (memmove_at d dst src n) i
  = if (dst <=? i) && (i <? dst + n) then byte_at d (src + (i - dst))
    else byte_at d i.
Proof.
  intros Hd Hn Hl Hi. unfold memmove_at.
  rewrite byte_at_memcpy_at by (rewrite ?length_mem_range; lia).
  destruct (Z.leb_spec dst i); destruct (Z.ltb_spec i (dst + n));
    cbn [andb]; try reflexivity.
  apply byte_at_mem_range. lia.
Qed.

Lemma byte_at_app_r xs ys i :
  Z.of_nat (length xs) <= i ->
  byte_at (xs ++ ys) i = byte_at ys (i - Z.of_nat (length xs)).
Proof.
  intros Hi. unfold byte_at. rewrite !nth_lookup, lookup_app_r by lia.
  do 2 f_equal. lia.
Qed.

(** A range read back as the list it holds. *)
Lemma mem_range_eq mem p n lit :
  Z.of_nat (length lit) = n ->
  (forall i, 0 <= i < n -> byte_at mem (p + i) = byte_at lit i) ->
  mem_range mem p n = lit.
Proof.
  intros Hlen H. apply list_eq. intros i.
  destruct (Z.lt_ge_cases (Z.of_nat i) n) as [Hi|Hi].
  - rewrite lookup_mem_range by lia. rewrite H by lia.
    unfold byte_at. rewrite nth_lookup, Nat2Z.id.
    destruct (lit !! i) eqn:E; [reflexivity|].
    apply lookup_ge_None in E. lia.
  - rewrite !lookup_ge_None_2; [reflexivity| |]; rewrite ?length_mem_range; lia.
Qed.

Section SpliceProps.

Variable buffer_max_len : buffer -> Z.

(** The flag word after [FULL] has been cleared and set again by the
    limit. *)
Lemma full_reset (b : buffer) :
  max_len_of_counters buffer_max_len ->
  let b1 := set_flags (clrf (flags b) BF_FULL) b in
  let b' := if buffer_max_len b1 <=? l b1
            then set_flags (setf (flags b1) BF_FULL) b1 else b1 in
  (has (flags b') BF_FULL = true <-> buffer_max_len b' <= l b')
  /\ l b' = l b /\ r b' = r b /\ w b' = w b /\ lr b' = lr b
  /\ data b' = data b /\ size b' = size b /\ send_max b' = send_max b
  /\ to_forward b' = to_forward b /\ total b' = total b
  /\ analysers b' = analysers b.
Proof.
  intros Hmax. cbv zeta.
  set (b1 := set_flags (clrf (flags b) BF_FULL) b).
  assert (Hm : forall f, buffer_max_len (set_flags f b1) = buffer_max_len b1).
  { intros f. apply Hmax; reflexivity. }
  destruct (Z.leb_spec (buffer_max_len b1) (l b1)) as [Hle|Hgt].
  - rewrite Hm. cbn [flags set_flags l r w lr data size send_max to_forward
                     total analysers b1].
    split; [|repeat split; reflexivity].
    bf_bits. flag_norm. split; [intros _; exact Hle|reflexivity].
  - subst b1. cbn [flags set_flags l r w lr data size send_max to_forward
                   total analysers] in *.
    split; [|repeat split; reflexivity].
    bf_bits. flag_norm. split; [discriminate|lia].
Qed.


End SpliceProps.


Section InsertProps.

Variable buffer_max_len : buffer -> Z.

(** [buffer_insert_line2] opens [len + 2] bytes at [pos] in a request with
    room for them and returns that number; given a string of [len > 0]
    bytes it writes the string and a CRLF there, and what was at [pos]
    follows; [l] and [r] move by [len + 2] and [FULL] is set again from
    the limit.  Without room it returns 0 and changes nothing. *)
Theorem buffer_insert_line2_inserts (b : buffer) (pos : Z) (str : list Z) :
  let len := Z.of_nat (length str) in
  0 <= pos < r b -> 0 < len ->
  r b + len + 2 <= Z.of_nat (length (data b)) ->
  max_len_of_counters buffer_max_len ->
  let res := buffer_insert_line2 buffer_max_len b pos (Some str) len in
  (size b <= r b + len + 2 -> res = (0, b))
  /\ (r b + len + 2 < size b ->
      let b' := snd res in
      fst res = len + 2
      /\ mem_range (data b') 0 pos = mem_range (data b) 0 pos
      /\ mem_range (data b') pos (len + 2) = str ++ [13; 10]
      /\ mem_range (data b') (pos + len + 2) (r b - pos)
         = mem_range (data b) pos (r b - pos)
      /\ length (data b') = length (data b)
      /\ l b' = l b + len + 2 /\ r b' = r b + len + 2 /\ w b' = w b
      /\ (has (flags b') BF_FULL = true <-> buffer_max_len b' <= l b')
      /\ send_max b' = send_max b /\ to_forward b' = to_forward b
      /\ total b' = total b /\ analysers b' = analysers b).
Proof.
  intros len Hpos Hlen Hroom Hmax res. subst res.
  unfold buffer_insert_line2. split.
  - intros Hfull.
    destruct (Z.leb_spec (size b) (len + 2 + r b)); [reflexivity|lia].
  - intros Hfits.
    destruct (Z.leb_spec (size b) (len + 2 + r b)); [lia|].
    destruct (Z.eqb_spec len 0); [lia|].
    set (d1 := memmove_at (data b) (pos + (len + 2)) pos (r b - pos)).
    assert (Hl1 : length d1 = length (data b)).
    { subst d1. apply length_memmove_at; lia. }
    assert (Hb1 : forall i, 0 <= i ->
              byte_at d1 i
              = if (pos + (len + 2) <=? i) && (i <? r b + len + 2)
                then byte_at (data b) (pos + (i - (pos + (len + 2))))
                else byte_at (data b) i).
    { intros i Hi. subst d1. rewrite byte_at_memmove_at by lia.
      replace (pos + (len + 2) + (r b - pos)) with (r b + len + 2) by lia.
      reflexivity. }
    set (d2 := memcpy_at d1 pos str len).
    assert (Hl2 : length d2 = length (data b)).
    { subst d2. rewrite length_memcpy_at; lia. }
    set (d3 := <[Z.to_nat (pos + len) := 13]> d2).
    set (d4 := <[Z.to_nat (pos + len + 1) := 10]> d3).
    assert (Hl4 : length d4 = length (data b)).
    { subst d4 d3. rewrite !length_insert. exact Hl2. }
    assert (Hb4 : forall i, 0 <= i ->
              byte_at d4 i
              = if i =? pos + len + 1 then 10
                else if i =? pos + len then 13
                else if (pos <=? i) && (i <? pos + len)
                     then byte_at str (i - pos)
                     else byte_at d1 i).
    { intros i Hi. subst d4 d3.
      destruct (Z.eqb_spec i (pos + len + 1)) as [->|N1].
      { apply byte_at_insert_eq. rewrite length_insert. lia. }
      rewrite byte_at_insert_ne by lia.
      destruct (Z.eqb_spec i (pos + len)) as [->|N2].
      { apply byte_at_insert_eq. lia. }
      rewrite byte_at_insert_ne by lia.
      subst d2. apply byte_at_memcpy_at; lia. }
    cbv zeta. fold d1. cbn [data set_data]. fold d2 d3 d4.
    set (c2 := set_data d4 (set_data d1 b)).
    replace (pos <? r c2) with true
      by (symmetry; apply Z.ltb_lt; subst c2; cbn; lia).
    set (c3 := set_r (r c2 + (len + 2)) c2).
    set (c4 := if pos <? lr c3 then set_lr (lr c3 + (len + 2)) c3 else c3).
    set (c5 := set_l (l c4 + (len + 2)) c4).
    assert (H5 : l c5 = l b + len + 2 /\ r c5 = r b + len + 2 /\ w c5 = w b
                 /\ data c5 = d4 /\ size c5 = size b
                 /\ send_max c5 = send_max b /\ to_forward c5 = to_forward b
                 /\ total c5 = total b /\ analysers c5 = analysers b).
    { subst c5 c4 c3 c2. destruct (pos <? _);
        cbn [l r w data size send_max to_forward total analysers
             set_l set_lr set_r set_data];
        repeat split; try reflexivity; lia. }
    destruct H5 as (H5l & H5r & H5w & H5d & H5z & H5s & H5f & H5t & H5a).
    clearbody c5.
    pose proof (full_reset buffer_max_len c5 Hmax) as Hfr. cbv zeta in Hfr.
    destruct Hfr as (Hfull & Fl & Fr & Fw & _ & Fd & Fz & Fs & Ff & Ft & Fa).
    cbn [fst snd].
    set (c8 := if buffer_max_len (set_flags (clrf (flags c5) BF_FULL) c5)
                  <=? l (set_flags (clrf (flags c5) BF_FULL) c5)
               then set_flags
                      (setf (flags (set_flags (clrf (flags c5) BF_FULL) c5))
                            BF_FULL)
                      (set_flags (clrf (flags c5) BF_FULL) c5)
               else set_flags (clrf (flags c5) BF_FULL) c5) in *.
    clearbody c8.
    split; [reflexivity|]. rewrite Fd, H5d.
    split.
    { apply mem_range_ext. intros i Hi. rewrite !Z.add_0_l.
      rewrite Hb4 by lia.
      destruct (Z.eqb_spec i (pos + len + 1)); [lia|].
      destruct (Z.eqb_spec i (pos + len)); [lia|].
      destruct (Z.leb_spec pos i); [lia|]. cbn [andb].
      rewrite Hb1 by lia.
      destruct (Z.leb_spec (pos + (len + 2)) i); [lia|]. reflexivity. }
    split.
    { assert (Hlen' : len = Z.of_nat (length str)) by reflexivity.
      apply mem_range_eq; [rewrite length_app; cbn; lia|]. intros i Hi.
      rewrite Hb4 by lia.
      destruct (Z.eqb_spec (pos + i) (pos + len + 1)) as [E|N1].
      { rewrite byte_at_app_r by lia.
        replace (i - Z.of_nat (length str)) with 1 by lia. reflexivity. }
      destruct (Z.eqb_spec (pos + i) (pos + len)) as [E|N2].
      { rewrite byte_at_app_r by lia.
        replace (i - Z.of_nat (length str)) with 0 by lia. reflexivity. }
      destruct (Z.leb_spec pos (pos + i)); [|lia].
      destruct (Z.ltb_spec (pos + i) (pos + len)); [|lia]. cbn [andb].
      rewrite byte_at_app_l by lia. f_equal. lia. }
    split.
    { apply mem_range_ext. intros i Hi. rewrite Hb4 by lia.
      destruct (Z.eqb_spec (pos + len + 2 + i) (pos + len + 1)); [lia|].
      destruct (Z.eqb_spec (pos + len + 2 + i) (pos + len)); [lia|].
      destruct (Z.ltb_spec (pos + len + 2 + i) (pos + len)); [lia|].
      rewrite andb_false_r, Hb1 by lia.
      destruct (Z.leb_spec (pos + (len + 2)) (pos + len + 2 + i)); [|lia].
      destruct (Z.ltb_spec (pos + len + 2 + i) (r b + len + 2)); [|lia].
      cbn [andb]. f_equal. lia. }
    split; [exact Hl4|].
    rewrite Fl, Fr, Fw, Fs, Ff, Ft, Fa, H5l, H5r, H5w, H5s, H5f, H5t, H5a.
    do 3 (split; [reflexivity|]).
    split; [rewrite <- H5l, <- Fl; exact Hfull|].
    repeat split; reflexivity.
Qed.

End InsertProps.

(** A header line put in front of the blank line of a request. *)
Lemma buffer_insert_line2_inserts_witness :
  let b := req (proxy_session 0 ("GET /" ++ CRLF ++ CRLF)) in
  let res := buffer_insert_line2 (reserve_max_len 16 (-1)) b 7
                                 (Some (bytes "X: 1")) 4 in
  fst res = 6
  /\ content (snd res) = bytes ("GET /" ++ CRLF ++ "X: 1" ++ CRLF ++ CRLF).
Proof.
  cbv zeta.
  destruct (buffer_insert_line2_inserts (reserve_max_len 16 (-1))
              (req (proxy_session 0 ("GET /" ++ CRLF ++ CRLF))) 7
              (bytes "X: 1"))
    as [_ H]; try (vm_compute; first [reflexivity | discriminate | lia]).
  { split; vm_compute; [discriminate|reflexivity]. }
  { apply reserve_max_len_counters. }
  destruct H as (Hret & _).
  { vm_compute. reflexivity. }
  split; [exact Hret|]. vm_compute. reflexivity.
Defined.

(* ===================================================================== *)
(** ** Buffers: a line written is the line peeked *)
(* ===================================================================== *)

Section WritePeek.

Variable buffer_max_len : buffer -> Z.

(** A line written with [buffer_write] into an empty buffer that can hold
    it is what [buffer_si_peekline] then returns: the write succeeds with
    -1, the peek returns the length of the line, newline included, copies
    the line and leaves the buffer as the write left it. *)
Theorem buffer_write_peekline (b : buffer) (line str : list Z) (cap : Z) :
  let msg := line ++ [10] in
  let len := Z.of_nat (length msg) in
  l b = 0 -> send_max b = 0 -> len <= size b -> size b < 2^31 ->
  size b <= Z.of_nat (length (data b)) ->
  Forall (fun c => c <> 10) line ->
  len <= cap -> cap <= Z.of_nat (length str) ->
  exists b',
    buffer_write buffer_max_len b msg len = Some (-1, b')
    /\ fst (fst (buffer_si_peekline b' str cap)) = len
    /\ take (Z.to_nat len) (snd (fst (buffer_si_peekline b' str cap))) = msg
    /\ snd (buffer_si_peekline b' str cap) = b'.
Proof.
  intros msg len Hl Hs Hsize H31 Hdata Hline Hcap Hstr.
  assert (Hlen : len = Z.of_nat (length line) + 1).
  { subst len msg. rewrite length_app. cbn. lia. }
  unfold buffer_write.
  destruct (Z.ltb_spec len 0); [lia|].
  destruct (Z.ltb_spec (Z.of_nat (length msg)) len); [subst len; lia|].
  cbn [orb]. destruct (Z.eqb_spec len 0); [lia|].
  destruct (Z.ltb_spec (size b) len); [lia|].
  unfold buffer_realign, buffer_contig_space. rewrite Hl.
  change (0 =? 0) with true. cbv iota.
  cbn [l set_lr set_w set_r r size]. rewrite Hl.
  change (0 =? 0) with true. cbv iota.
  replace (size b - 0 <? len) with false by (symmetry; apply Z.ltb_ge; lia).
  set (b0 := set_lr 0 (set_w 0 (set_r 0 b))).
  set (d := memcpy_at (data b0) (r b0) msg len).
  eexists. split; [reflexivity|].
  match goal with |- context [buffer_si_peekline ?x _ _] => set (b' := x) end.
  assert (Hb' : w b' = 0 /\ send_max b' = len /\ size b' = size b
                /\ data b' = d).
  { subst b' b0. cbn -[Z.eqb Z.leb u32 u64 clrf setf].
    rewrite Hs, Hl, !u32_small by lia.
    repeat match goal with |- context [if ?c then _ else _] =>
      destruct c; cbn -[Z.eqb Z.leb u32 u64 clrf setf] end;
      repeat split; try reflexivity; lia. }
  destruct Hb' as (Hw' & Hs' & Hz' & Hd'). clearbody b'.
  assert (Hbyte : forall x, 0 <= x < len -> ring_byte b' x = byte_at msg x).
  { intros x Hx. unfold ring_byte. rewrite Hw', Hz', Hd', Z.add_0_l.
    rewrite Z.mod_small by lia. subst d b0. cbn [r set_lr set_w set_r data].
    rewrite byte_at_memcpy_at by (subst len; lia).
    destruct (Z.leb_spec 0 x); [|lia].
    destruct (Z.ltb_spec x (0 + len)); [|lia]. cbn [andb].
    f_equal. lia. }
  assert (Hnl : ring_byte b' (len - 1) = 10).
  { rewrite Hbyte by lia. subst msg. rewrite byte_at_app_r by lia.
    replace (len - 1 - Z.of_nat (length line)) with 0 by lia. reflexivity. }
  assert (Hno : forall x, 0 <= x < len - 1 -> ring_byte b' x <> 10).
  { intros x Hx. rewrite Hbyte by lia. subst msg.
    rewrite byte_at_app_l by lia. unfold byte_at. rewrite nth_lookup.
    destruct (line !! Z.to_nat x) eqn:E.
    - cbn. rewrite Forall_forall in Hline. apply Hline.
      eapply list_elem_of_lookup_2. exact E.
    - apply lookup_ge_None in E. lia. }
  unfold buffer_si_peekline. rewrite Hs'.
  destruct (Z.eqb_spec len 0); [lia|].
  set (str0 := if len <? cap
               then <[Z.to_nat (len - 1) := 0]> str else str).
  assert (Hmax : (if len <? cap
                  then (len, <[Z.to_nat (len - 1) := 0]> str)
                  else (cap, str)) = (len, str0)).
  { subst str0. destruct (Z.ltb_spec len cap); [reflexivity|].
    f_equal. lia. }
  rewrite Hmax.
  assert (Hl0 : length str0 = length str).
  { subst str0. destruct (len <? cap); [apply length_insert|reflexivity]. }
  destruct (peek_loop_copy b' ltac:(lia) len Hnl (Z.to_nat len) 0 str0 len)
    as (str' & Hloop & Hlen' & Hcopy & _); try lia.
  { exact Hno. }
  rewrite Hw' in Hloop. rewrite Z.add_0_l, Z.mod_0_l in Hloop by lia.
  rewrite Hw', Hloop. replace (len - (len - 0)) with 0 by lia.
  destruct (Z.ltb_spec len len); [lia|].
  rewrite andb_false_r. cbn [andb]. change (0 =? 0) with true.
  cbn [fst snd]. split; [reflexivity|]. split; [|reflexivity].
  apply list_eq. intros i.
  destruct (Z.lt_ge_cases (Z.of_nat i) len) as [Hi|Hi].
  - rewrite lookup_take_lt by lia.
    rewrite <- (Nat2Z.id i). rewrite Hcopy by lia. rewrite Hbyte by lia.
    unfold byte_at. rewrite nth_lookup.
    destruct (msg !! Z.to_nat (Z.of_nat i)) eqn:E; [reflexivity|].
    apply lookup_ge_None in E. subst len. lia.
  - rewrite lookup_take_ge by lia. symmetry. apply lookup_ge_None.
    subst len. lia.
Qed.

End WritePeek.

Lemma buffer_write_peekline_witness :
  exists b',
    buffer_write (reserve_max_len 0 (-1)) empty_buffer (bytes ("abc" ++ LF)) 4
    = Some (-1, b')
    /\ fst (fst (buffer_si_peekline b' (repeat 7 8) 8)) = 4
    /\ take 4 (snd (fst (buffer_si_peekline b' (repeat 7 8) 8)))
       = bytes ("abc" ++ LF).
Proof.
  destruct (buffer_write_peekline (reserve_max_len 0 (-1)) empty_buffer
                                  (bytes "abc") (repeat 7 8) 8)
    as (b' & Hw & Hret & Hcopy & _);
    try (vm_compute; first [reflexivity | discriminate]).
  { repeat constructor; discriminate. }
  exists b'. split; [exact Hw|]. split; [exact Hret|exact Hcopy].
Defined.

(* ===================================================================== *)
(** ** ACL matching: the delimiter test *)
(* ===================================================================== *)

(** The bits of a word built from a high part and [k] low bits. *)
Lemma testbit_cat hi lo k n :
  0 <= k -> 0 <= lo < 2^k -> 0 <= n ->
  Z.testbit (hi * 2^k + lo) n
  = if n <? k then Z.testbit lo n else Z.testbit hi (n - k).
Proof.
  intros Hk Hlo Hn. destruct (Z.ltb_spec n k) as [Hlt|Hge].
  - rewrite <- (Z.mod_pow2_bits_low (hi * 2^k + lo) k n) by lia.
    rewrite Z.add_comm, Z.mod_add by lia.
    rewrite Z.mod_small by lia. reflexivity.
  - replace n with ((n - k) + k) at 1 by lia.
    rewrite <- Z.div_pow2_bits by lia.
    rewrite Z.div_add_l by lia. rewrite Z.div_small by lia.
    rewrite Z.add_0_r. reflexivity.
Qed.

Lemma testbit_small lo k n :
  0 <= lo < 2^k -> k <= n -> Z.testbit lo n = false.
Proof.
  intros Hlo Hn. destruct (Z.eq_dec lo 0) as [->|Hne].
  - apply Z.testbit_0_l.
  - apply Z.bits_above_log2; [lia|].
    apply Z.lt_le_trans with k; [|exact Hn].
    apply Z.log2_lt_pow2; lia.
Qed.

Lemma lor_cat hi lo k :
  0 <= k -> 0 <= lo < 2^k -> Z.lor (Z.shiftl hi k) lo = hi * 2^k + lo.
Proof.
  intros Hk Hlo. apply Z.bits_inj'. intros n Hn.
  rewrite Z.lor_spec, testbit_cat by lia.
  destruct (Z.ltb_spec n k).
  - rewrite Z.shiftl_spec_low by lia. reflexivity.
  - rewrite Z.shiftl_spec by lia.
    rewrite (testbit_small lo k n) by lia. apply orb_false_r.
Qed.

Lemma lxor_cat hi lo hi' lo' k :
  0 <= k -> 0 <= lo < 2^k -> 0 <= lo' < 2^k ->
  Z.lxor (hi * 2^k + lo) (hi' * 2^k + lo')
  = Z.lxor hi hi' * 2^k + Z.lxor lo lo'.
Proof.
  intros Hk Hlo Hlo'.
  assert (Hx : 0 <= Z.lxor lo lo' < 2^k).
  { assert (H0 : 0 <= Z.lxor lo lo') by (apply Z.lxor_nonneg; lia).
    split; [exact H0|].
    destruct (Z.lt_ge_cases (Z.lxor lo lo') (2^k)) as [|Hge]; [assumption|].
    exfalso.
    assert (Hbit : Z.testbit (Z.lxor lo lo') (Z.log2 (Z.lxor lo lo')) = true).
    { apply Z.bit_log2. pose proof (Z.pow_pos_nonneg 2 k). lia. }
    assert (Hk' : k <= Z.log2 (Z.lxor lo lo')).
    { apply Z.log2_le_pow2; [pose proof (Z.pow_pos_nonneg 2 k); lia|lia]. }
    rewrite Z.lxor_spec in Hbit.
    rewrite (testbit_small lo k), (testbit_small lo' k) in Hbit by lia.
    discriminate. }
  apply Z.bits_inj'. intros n Hn.
  rewrite Z.lxor_spec, !testbit_cat by lia.
  destruct (n <? k); rewrite Z.lxor_spec; reflexivity.
Qed.

Lemma lxor_range a b k :
  0 <= k -> 0 <= a < 2^k -> 0 <= b < 2^k -> 0 <= Z.lxor a b < 2^k.
Proof.
  intros Hk Ha Hb.
  assert (H0 : 0 <= Z.lxor a b) by (apply Z.lxor_nonneg; lia).
  split; [exact H0|].
  destruct (Z.lt_ge_cases (Z.lxor a b) (2^k)) as [|Hge]; [assumption|].
  exfalso.
  assert (Hbit : Z.testbit (Z.lxor a b) (Z.log2 (Z.lxor a b)) = true).
  { apply Z.bit_log2. pose proof (Z.pow_pos_nonneg 2 k). lia. }
  assert (Hk' : k <= Z.log2 (Z.lxor a b)).
  { apply Z.log2_le_pow2; [pose proof (Z.pow_pos_nonneg 2 k); lia|lia]. }
  rewrite Z.lxor_spec in Hbit.
  rewrite (testbit_small a k), (testbit_small b k) in Hbit by lia.
  discriminate.
Qed.

(** Four bytes as a word, the first in the high byte. *)
#[local] Abbreviation word4 a b c d :=
  (((a * 2^8 + b) * 2^8 + c) * 2^8 + d).

Lemma make_4delim_word d1 d2 d3 d4 :
  0 <= d1 < 256 -> 0 <= d2 < 256 -> 0 <= d3 < 256 -> 0 <= d4 < 256 ->
  make_4delim d1 d2 d3 d4 = word4 d1 d2 d3 d4.
Proof.
  intros H1 H2 H3 H4. unfold make_4delim.
  replace (Z.shiftl d1 24) with (Z.shiftl (Z.shiftl (Z.shiftl d1 8) 8) 8)
    by (rewrite !Z.shiftl_shiftl by lia; reflexivity).
  replace (Z.shiftl d2 16) with (Z.shiftl (Z.shiftl d2 8) 8)
    by (rewrite !Z.shiftl_shiftl by lia; reflexivity).
  rewrite <- !Z.shiftl_lor.
  change 256 with (2^8) in *.
  rewrite (lor_cat d1 d2 8) by lia.
  rewrite (lor_cat _ d3 8) by lia.
  rewrite (lor_cat _ d4 8) by lia.
  unfold u32. apply Z.mod_small. lia.
Qed.

Lemma spread_word c :
  0 <= c < 256 -> u32 (c * 0x01010101) = word4 c c c c.
Proof. intros Hc. unfold u32. rewrite Z.mod_small; lia. Qed.

(** Bit 7 of a byte. *)
Lemma byte_bit7 x : 0 <= x < 256 -> Z.testbit x 7 = (128 <=? x).
Proof.
  intros Hx. destruct (Z.leb_spec 128 x).
  - replace x with (1 * 2^7 + (x - 128)) by lia.
    rewrite testbit_cat by lia. reflexivity.
  - replace x with (0 * 2^7 + x) by lia.
    rewrite testbit_cat by lia. reflexivity.
Qed.

(** Bit 7 of each byte of a word. *)
Lemma word4_bit7 a b c d :
  0 <= d < 256 -> Z.testbit (word4 a b c d) 7 = Z.testbit d 7.
Proof.
  intros Hd. change 256 with (2^8) in *.
  rewrite (testbit_cat _ d 8 7) by lia. reflexivity.
Qed.

Lemma word4_bit15 a b c d :
  0 <= c < 256 -> 0 <= d < 256 ->
  Z.testbit (word4 a b c d) 15 = Z.testbit c 7.
Proof.
  intros Hc Hd. change 256 with (2^8) in *.
  rewrite (testbit_cat _ d 8 15) by lia. change (15 <? 8) with false.
  cbv iota. change (15 - 8) with 7.
  rewrite (testbit_cat _ c 8 7) by lia. reflexivity.
Qed.

Lemma word4_bit23 a b c d :
  0 <= b < 256 -> 0 <= c < 256 -> 0 <= d < 256 ->
  Z.testbit (word4 a b c d) 23 = Z.testbit b 7.
Proof.
  intros Hb Hc Hd. change 256 with (2^8) in *.
  rewrite (testbit_cat _ d 8 23) by lia. change (23 <? 8) with false.
  cbv iota. change (23 - 8) with 15.
  rewrite (testbit_cat _ c 8 15) by lia. change (15 <? 8) with false.
  cbv iota. change (15 - 8) with 7.
  rewrite (testbit_cat _ b 8 7) by lia. reflexivity.
Qed.

Lemma word4_bit31 a b c d :
  0 <= b < 256 -> 0 <= c < 256 -> 0 <= d < 256 ->
  Z.testbit (word4 a b c d) 31 = Z.testbit a 7.
Proof.
  intros Hb Hc Hd. change 256 with (2^8) in *.
  rewrite (testbit_cat _ d 8 31) by lia. change (31 <? 8) with false.
  cbv iota. change (31 - 8) with 23.
  rewrite (testbit_cat _ c 8 23) by lia. change (23 <? 8) with false.
  cbv iota. change (23 - 8) with 15.
  rewrite (testbit_cat _ b 8 15) by lia. change (15 <? 8) with false.
  cbv iota. change (15 - 8) with 7. reflexivity.
Qed.

(** The high bits of the mask [0x80808080]. *)
Lemma high_bits n :
  0 <= n -> Z.testbit 0x80808080 n = true ->
  n = 7 \/ n = 15 \/ n = 23 \/ n = 31.
Proof.
  intros Hn Hb. destruct (Z.lt_ge_cases n 32) as [Hlt|Hge].
  - pose proof (forallb_seqZ
      (fun n => negb (Z.testbit 0x80808080 n)
                || (n =? 7) || (n =? 15) || (n =? 23) || (n =? 31))
      0 32 eq_refl n ltac:(lia)) as H.
    cbv beta in H. rewrite Hb in H. cbn [negb orb] in H.
    repeat (apply orb_true_iff in H as [H|H]); apply Z.eqb_eq in H; auto.
  - rewrite (testbit_small 0x80808080 32 n) in Hb by lia. discriminate.
Qed.

(** The zero-byte test of acl.c:256: the word it computes is not zero
    exactly when one of the four bytes is. *)
Lemma has_zero_byte x1 x2 x3 x4 :
  0 <= x1 < 256 -> 0 <= x2 < 256 -> 0 <= x3 < 256 -> 0 <= x4 < 256 ->
  let v := word4 x1 x2 x3 x4 in
  Z.land (Z.land (u32 (v - 0x01010101)) (u32 (Z.lnot v))) 0x80808080 <> 0
  <-> x1 = 0 \/ x2 = 0 \/ x3 = 0 \/ x4 = 0.
Proof.
  intros H1 H2 H3 H4 v.
  assert (Hbit : forall n, 0 <= n < 32 ->
            Z.testbit (Z.land (Z.land (u32 (v - 0x01010101))
                                      (u32 (Z.lnot v))) 0x80808080) n
            = Z.testbit (v - 0x01010101) n && negb (Z.testbit v n)
              && Z.testbit 0x80808080 n).
  { intros n Hn. rewrite !Z.land_spec. unfold u32.
    rewrite !Z.mod_pow2_bits_low by lia. rewrite Z.lnot_spec by lia.
    reflexivity. }
  assert (Hsub : v - 0x01010101
                 = word4 (x1 - 1) (x2 - 1) (x3 - 1) (x4 - 1))
    by (subst v; ring).
  split.
  - (* no zero byte: every bit is clear *)
    intros Hnz.
    destruct (Z.eq_dec x1 0) as [|N1]; [auto|].
    destruct (Z.eq_dec x2 0) as [|N2]; [auto|].
    destruct (Z.eq_dec x3 0) as [|N3]; [auto|].
    destruct (Z.eq_dec x4 0) as [|N4]; [auto|].
    exfalso. apply Hnz. apply Z.bits_inj'. intros n Hn.
    rewrite Z.bits_0.
    destruct (Z.testbit 0x80808080 n) eqn:Hm.
    2:{ rewrite Z.land_spec, Hm. apply andb_false_r. }
    apply high_bits in Hm; [|exact Hn].
    rewrite Hbit by lia. rewrite Hsub. subst v.
    destruct Hm as [ -> | [ -> | [ -> | -> ]]];
      rewrite ?word4_bit7, ?word4_bit15, ?word4_bit23, ?word4_bit31 by lia;
      rewrite !byte_bit7 by lia;
      match goal with |- context [128 <=? ?a - 1] =>
        destruct (Z.leb_spec 128 (a - 1)); destruct (Z.leb_spec 128 a);
        try lia; reflexivity
      end.
  - (* the lowest zero byte raises its high bit *)
    intros Hz.
    assert (Hset : exists n, 0 <= n < 32 /\
              Z.testbit (v - 0x01010101) n = true
              /\ Z.testbit v n = false /\ Z.testbit 0x80808080 n = true).
    { subst v.
      destruct (Z.eq_dec x4 0) as [E4|N4].
      { exists 7. split; [lia|]. subst x4.
        replace (word4 x1 x2 x3 0 - 0x01010101)
          with (word4 (x1 - 1) (x2 - 1) (x3 - 1 - 1) 255) by ring.
        rewrite !word4_bit7 by lia. repeat split; reflexivity. }
      destruct (Z.eq_dec x3 0) as [E3|N3].
      { exists 15. split; [lia|]. subst x3.
        replace (word4 x1 x2 0 x4 - 0x01010101)
          with (word4 (x1 - 1) (x2 - 1 - 1) 255 (x4 - 1)) by ring.
        rewrite !word4_bit15 by lia. repeat split; reflexivity. }
      destruct (Z.eq_dec x2 0) as [E2|N2].
      { exists 23. split; [lia|]. subst x2.
        replace (word4 x1 0 x3 x4 - 0x01010101)
          with (word4 (x1 - 1 - 1) 255 (x3 - 1) (x4 - 1)) by ring.
        rewrite !word4_bit23 by lia. repeat split; reflexivity. }
      assert (x1 = 0) by lia. subst x1.
      exists 31. split; [lia|].
      replace (word4 0 x2 x3 x4 - 0x01010101)
        with (word4 (-1) (x2 - 1) (x3 - 1) (x4 - 1)) by ring.
      rewrite !word4_bit31 by lia. repeat split; reflexivity. }
    destruct Hset as (n & Hn & Ha & Hb & Hc).
    intros Hzero.
    pose proof (Hbit n Hn) as Hn'. rewrite Hzero, Z.bits_0, Ha, Hb, Hc in Hn'.
    discriminate.
Qed.



(** [is_delimiter] is exact: for a byte [c] and the word [make_4delim]
    builds from four bytes, its result is not zero exactly when [c] is one
    of the four. *)
Theorem is_delimiter_exact (c d1 d2 d3 d4 : Z) :
  0 <= c < 256 -> 0 <= d1 < 256 -> 0 <= d2 < 256 -> 0 <= d3 < 256 ->
  0 <= d4 < 256 ->
  is_delimiter c (make_4delim d1 d2 d3 d4) <> 0
  <-> c = d1 \/ c = d2 \/ c = d3 \/ c = d4.
Proof.
  intros Hc H1 H2 H3 H4. unfold is_delimiter.
  rewrite make_4delim_word, spread_word by lia.
  change 256 with (2^8) in *.
  rewrite !lxor_cat by (try apply lxor_range; lia).
  pose proof (lxor_range d1 c 8 ltac:(lia) H1 Hc).
  pose proof (lxor_range d2 c 8 ltac:(lia) H2 Hc).
  pose proof (lxor_range d3 c 8 ltac:(lia) H3 Hc).
  pose proof (lxor_range d4 c 8 ltac:(lia) H4 Hc).
  pose proof (has_zero_byte (Z.lxor d1 c) (Z.lxor d2 c) (Z.lxor d3 c)
                            (Z.lxor d4 c)) as Hz.
  cbv zeta in Hz. change 256 with (2^8) in Hz.
  rewrite Hz by assumption. rewrite !Z.lxor_eq_0_iff.
  intuition congruence.
Qed.

(** ['.'] is one of the delimiters of a domain, ['a'] is not. *)
Lemma is_delimiter_exact_witness :
  is_delimiter 46 (make_4delim 47 63 46 58) <> 0
  /\ ~ is_delimiter 97 (make_4delim 47 63 46 58) <> 0.
Proof.
  split.
  - apply (is_delimiter_exact 46 47 63 46 58); try lia.
  - intros H. apply (is_delimiter_exact 97 47 63 46 58) in H; lia.
Defined.

(* ===================================================================== *)
(** ** ACL matching: strings *)
(* ===================================================================== *)

Lemma strncmp_eq_spec n : forall m1 p1 m2 p2,
  no_nul m1 p1 (Z.of_nat n) ->
  strncmp_eq n m1 p1 m2 p2 = true
  <-> occurs_at false m1 p1 (Z.of_nat n) m2 p2.
Proof.
  induction n as [|n IH]; intros m1 p1 m2 p2 Hnn.
  - cbn. split; [intros _ i Hi; lia|reflexivity].
  - cbn [strncmp_eq].
    assert (H0 : byte_at m1 p1 <> 0).
    { specialize (Hnn 0 ltac:(lia)). rewrite Z.add_0_r in Hnn. exact Hnn. }
    assert (Hnn' : no_nul m1 (p1 + 1) (Z.of_nat n)).
    { intros i Hi. replace (p1 + 1 + i) with (p1 + (i + 1)) by lia.
      apply Hnn. lia. }
    destruct (Z.eqb_spec (byte_at m1 p1) (byte_at m2 p2)) as [E|E]; cbn [negb].
    + destruct (Z.eqb_spec (byte_at m1 p1) 0); [contradiction|].
      rewrite (IH _ _ _ _ Hnn'). split.
      * intros H i Hi. destruct (Z.eq_dec i 0) as [->|].
        -- rewrite !Z.add_0_r. cbn. apply Z.eqb_eq. exact E.
        -- specialize (H (i - 1) ltac:(lia)).
           replace (p1 + 1 + (i - 1)) with (p1 + i) in H by lia.
           replace (p2 + 1 + (i - 1)) with (p2 + i) in H by lia. exact H.
      * intros H i Hi. specialize (H (i + 1) ltac:(lia)).
        replace (p1 + (i + 1)) with (p1 + 1 + i) in H by lia.
        replace (p2 + (i + 1)) with (p2 + 1 + i) in H by lia. exact H.
    + split; [discriminate|]. intros H. specialize (H 0 ltac:(lia)).
      rewrite !Z.add_0_r in H. cbn in H. apply Z.eqb_eq in H. contradiction.
Qed.

Lemma strncasecmp_eq_spec n : forall m1 p1 m2 p2,
  no_nul m1 p1 (Z.of_nat n) ->
  strncasecmp_eq n m1 p1 m2 p2 = true
  <-> occurs_at true m1 p1 (Z.of_nat n) m2 p2.
Proof.
  induction n as [|n IH]; intros m1 p1 m2 p2 Hnn.
  - cbn. split; [intros _ i Hi; lia|reflexivity].
  - cbn [strncasecmp_eq].
    assert (H0 : byte_at m1 p1 <> 0).
    { specialize (Hnn 0 ltac:(lia)). rewrite Z.add_0_r in Hnn. exact Hnn. }
    assert (Hnn' : no_nul m1 (p1 + 1) (Z.of_nat n)).
    { intros i Hi. replace (p1 + 1 + i) with (p1 + (i + 1)) by lia.
      apply Hnn. lia. }
    destruct (Z.eqb_spec (tolower (byte_at m1 p1)) (tolower (byte_at m2 p2)))
      as [E|E]; cbn [negb].
    + destruct (Z.eqb_spec (byte_at m1 p1) 0); [contradiction|].
      rewrite (IH _ _ _ _ Hnn'). split.
      * intros H i Hi. destruct (Z.eq_dec i 0) as [->|].
        -- rewrite !Z.add_0_r. cbn. apply Z.eqb_eq. exact E.
        -- specialize (H (i - 1) ltac:(lia)).
           replace (p1 + 1 + (i - 1)) with (p1 + i) in H by lia.
           replace (p2 + 1 + (i - 1)) with (p2 + i) in H by lia. exact H.
      * intros H i Hi. specialize (H (i + 1) ltac:(lia)).
        replace (p1 + (i + 1)) with (p1 + 1 + i) in H by lia.
        replace (p2 + (i + 1)) with (p2 + 1 + i) in H by lia. exact H.
    + split; [discriminate|]. intros H. specialize (H 0 ltac:(lia)).
      rewrite !Z.add_0_r in H. cbn in H. apply Z.eqb_eq in H. contradiction.
Qed.

(** A comparison that succeeds on at least one byte has compared the
    first bytes equal. *)
Lemma strncmp_eq_first n m1 p1 m2 p2 :
  strncmp_eq (S n) m1 p1 m2 p2 = true -> byte_at m1 p1 = byte_at m2 p2.
Proof.
  cbn [strncmp_eq].
  destruct (Z.eqb_spec (byte_at m1 p1) (byte_at m2 p2)); [auto|discriminate].
Qed.

Lemma strncasecmp_eq_first n m1 p1 m2 p2 :
  strncasecmp_eq (S n) m1 p1 m2 p2 = true ->
  tolower (byte_at m1 p1) = tolower (byte_at m2 p2).
Proof.
  cbn [strncasecmp_eq].
  destruct (Z.eqb_spec (tolower (byte_at m1 p1)) (tolower (byte_at m2 p2)));
    [auto|discriminate].
Qed.

Lemma first_or_later (f : Z -> bool) (c : Z) (n : nat) :
  (exists k, 0 <= k < Z.of_nat (S n) /\ f (c + k) = true)
  <-> f c = true \/ exists k, 0 <= k < Z.of_nat n /\ f (c + 1 + k) = true.
Proof.
  split.
  - intros (k & Hk & H). destruct (Z.eq_dec k 0) as [->|].
    + left. rewrite Z.add_0_r in H. exact H.
    + right. exists (k - 1). split; [lia|].
      replace (c + 1 + (k - 1)) with (c + k) by lia. exact H.
  - intros [H|(k & Hk & H)].
    + exists 0. rewrite Z.add_0_r. split; [lia|exact H].
    + exists (k + 1). split; [lia|].
      replace (c + (k + 1)) with (c + 1 + k) by lia. exact H.
Qed.

Section StringMatchProps.

Variable ACL_PAT_F_IGNORE_CASE : Z.
Variable mem : list Z.

#[local] Abbreviation icase_of p := (has (sp_flags p) ACL_PAT_F_IGNORE_CASE).
#[local] Abbreviation m_str := (acl_match_str ACL_PAT_F_IGNORE_CASE mem).
#[local] Abbreviation m_beg := (acl_match_beg ACL_PAT_F_IGNORE_CASE mem).
#[local] Abbreviation m_end := (acl_match_end ACL_PAT_F_IGNORE_CASE mem).
#[local] Abbreviation m_sub := (acl_match_sub ACL_PAT_F_IGNORE_CASE mem).

(** The comparison of [pl] bytes at [c], in the mode of the pattern. *)
#[local] Abbreviation cmp_at p c :=
  (if icase_of p
   then strncasecmp_eq (Z.to_nat (sp_len p)) (sp_str p) 0 mem c
   else strncmp_eq (Z.to_nat (sp_len p)) (sp_str p) 0 mem c).

Lemma same_n_cmp p c : same_n ACL_PAT_F_IGNORE_CASE mem p (sp_len p) c = cmp_at p c.
Proof.
  unfold same_n. destruct (icase_of p); cbn [andb negb orb];
    [apply orb_false_r|reflexivity].
Qed.

Lemma differ_n_cmp p c :
  differ_n ACL_PAT_F_IGNORE_CASE mem p (sp_len p) c = negb (cmp_at p c).
Proof.
  unfold differ_n. destruct (icase_of p); cbn [andb negb orb];
    [apply orb_false_r|reflexivity].
Qed.

(** The search loop passes when the comparison succeeds at one of the
    positions it visits, and only then. *)
Lemma match_sub_loop_spec p n : forall c,
  1 <= sp_len p ->
  match_sub_loop mem n (icase_of p) p c = ACL_PAT_PASS
  <-> exists k, 0 <= k < Z.of_nat n /\ cmp_at p (c + k) = true.
Proof.
  intros c Hpl. revert c.
  induction n as [|n IH]; intros c.
  - cbn. split; [discriminate|]. intros (k & Hk & _). lia.
  - cbn [match_sub_loop].
    assert (Hsucc : exists m, Z.to_nat (sp_len p) = S m).
    { exists (Z.to_nat (sp_len p) - 1)%nat. lia. }
    destruct Hsucc as (m & Hm).
    destruct (icase_of p) eqn:Hic.
    + rewrite (first_or_later
                 (fun c => strncasecmp_eq (Z.to_nat (sp_len p)) (sp_str p) 0
                                          mem c)).
      destruct (Z.eqb_spec (tolower (byte_at mem c))
                           (tolower (byte_at (sp_str p) 0))) as [E|E];
        cbn [negb].
      * destruct (strncasecmp_eq _ (sp_str p) 0 mem c) eqn:Hc.
        -- split; [auto|reflexivity].
        -- rewrite IH. split; [auto|]. intros [H|H]; [discriminate|exact H].
      * rewrite IH. split; [auto|]. intros [H|H]; [|exact H].
        rewrite Hm in H. apply strncasecmp_eq_first in H. congruence.
    + rewrite (first_or_later
                 (fun c => strncmp_eq (Z.to_nat (sp_len p)) (sp_str p) 0
                                      mem c)).
      destruct (Z.eqb_spec (byte_at mem c) (byte_at (sp_str p) 0)) as [E|E];
        cbn [negb].
      * destruct (strncmp_eq _ (sp_str p) 0 mem c) eqn:Hc.
        -- split; [auto|reflexivity].
        -- rewrite IH. split; [auto|]. intros [H|H]; [discriminate|exact H].
      * rewrite IH. split; [auto|]. intros [H|H]; [|exact H].
        rewrite Hm in H. apply strncmp_eq_first in H. congruence.
Qed.

Lemma cmp_at_occurs p c :
  0 <= sp_len p -> no_nul (sp_str p) 0 (sp_len p) ->
  cmp_at p c = true <-> occurs_at (icase_of p) (sp_str p) 0 (sp_len p) mem c.
Proof.
  intros Hpl Hnn. rewrite <- (Z2Nat.id (sp_len p)) in Hnn by lia.
  destruct (icase_of p).
  - rewrite strncasecmp_eq_spec by exact Hnn. rewrite Z2Nat.id by lia.
    reflexivity.
  - rewrite strncmp_eq_spec by exact Hnn. rewrite Z2Nat.id by lia.
    reflexivity.
Qed.

(** [acl_match_sub] passes exactly when the pattern occurs in the sample:
    for a pattern of at least one byte, none of them NUL, the result is
    PASS when the bytes of the pattern stand at some offset of the sample,
    compared in the mode of the pattern, and FAIL otherwise. *)
Theorem acl_match_sub_occurs (test : acl_test) (p : str_pattern) :
  1 <= sp_len p -> no_nul (sp_str p) 0 (sp_len p) ->
  (m_sub test p = ACL_PAT_PASS
   <-> exists k, 0 <= k <= t_len test - sp_len p
                 /\ occurs_at (icase_of p) (sp_str p) 0 (sp_len p) mem
                              (t_ptr test + k))
  /\ (m_sub test p = ACL_PAT_PASS \/ m_sub test p = ACL_PAT_FAIL).
Proof.
  intros Hpl Hnn. unfold acl_match_sub. split.
  - destruct (Z.ltb_spec (t_len test) (sp_len p)) as [Hlt|Hge].
    + split; [discriminate|]. intros (k & Hk & _). lia.
    + rewrite match_sub_loop_spec by exact Hpl.
      split; intros (k & Hk & H); exists k; (split; [lia|]);
        apply cmp_at_occurs; (lia || assumption).
  - destruct (t_len test <? sp_len p); [right; reflexivity|].
    generalize (Z.to_nat (t_ptr test + t_len test - sp_len p - t_ptr test + 1)).
    generalize (t_ptr test).
    intros c n. revert c. induction n as [|n IH]; intros c; cbn [match_sub_loop].
    + right. reflexivity.
    + repeat match goal with |- context [if ?b then _ else _] =>
        destruct b end; auto.
Qed.

(** The four string matchers agree: a sample that matches a pattern as a
    whole matches it at its beginning and at its end, and a pattern of at
    least one byte that matches at the beginning or at the end is found by
    the search. *)
Theorem acl_match_str_beg_end_sub (test : acl_test) (p : str_pattern) :
  (m_str test p = ACL_PAT_PASS ->
   m_beg test p = ACL_PAT_PASS /\ m_end test p = ACL_PAT_PASS)
  /\ (1 <= sp_len p -> m_beg test p = ACL_PAT_PASS ->
      m_sub test p = ACL_PAT_PASS)
  /\ (1 <= sp_len p -> m_end test p = ACL_PAT_PASS ->
      m_sub test p = ACL_PAT_PASS).
Proof.
  unfold acl_match_str, acl_match_beg, acl_match_end, acl_match_sub.
  split; [|split].
  - destruct (Z.eqb_spec (sp_len p) (t_len test)) as [E|E]; cbn [negb];
      [|discriminate].
    rewrite <- E, !differ_n_cmp, same_n_cmp.
    destruct (Z.ltb_spec (sp_len p) (sp_len p)); [lia|].
    replace (t_ptr test + sp_len p - sp_len p) with (t_ptr test) by lia.
    destruct (cmp_at p (t_ptr test)); [auto|discriminate].
  - intros Hpl. destruct (Z.ltb_spec (t_len test) (sp_len p)); [discriminate|].
    rewrite differ_n_cmp.
    destruct (cmp_at p (t_ptr test)) eqn:Hc; cbn [negb]; [|discriminate].
    intros _. apply match_sub_loop_spec; [exact Hpl|].
    exists 0. rewrite Z.add_0_r. split; [lia|exact Hc].
  - intros Hpl. destruct (Z.ltb_spec (t_len test) (sp_len p)); [discriminate|].
    rewrite differ_n_cmp.
    destruct (cmp_at p (t_ptr test + t_len test - sp_len p)) eqn:Hc;
      cbn [negb]; [|discriminate].
    intros _. apply match_sub_loop_spec; [exact Hpl|].
    exists (t_len test - sp_len p). split; [lia|].
    replace (t_ptr test + (t_len test - sp_len p))
      with (t_ptr test + t_len test - sp_len p) by lia. exact Hc.
Qed.

End StringMatchProps.

Lemma acl_match_sub_occurs_witness :
  acl_match_sub 1 (bytes "hello") (mktest 0 0 5 0 0) (mkspat (bytes "ell") 3 0)
  = ACL_PAT_PASS.
Proof.
  apply (acl_match_sub_occurs 1 (bytes "hello") (mktest 0 0 5 0 0)
                              (mkspat (bytes "ell") 3 0)).
  - cbn. lia.
  - intros i Hi. cbn in Hi.
    assert (i = 0 \/ i = 1 \/ i = 2) as [-> | [-> | ->]] by lia;
      discriminate.
  - exists 1. split; [cbn; lia|]. intros i Hi. cbn in Hi.
    assert (i = 0 \/ i = 1 \/ i = 2) as [-> | [-> | ->]] by lia;
      reflexivity.
Defined.

(** The sample [abc] matches the pattern [abc] as a whole, and so at its
    beginning, at its end and by the search; [XabcX] holds [abc] neither
    at its beginning nor at its end, and the search still finds it. *)
Lemma acl_match_str_beg_end_sub_witness :
  acl_match_str 1 (bytes "abc") (mktest 0 0 3 0 0) (mkspat (bytes "abc") 3 0)
  = ACL_PAT_PASS
  /\ acl_match_beg 1 (bytes "abc") (mktest 0 0 3 0 0)
                   (mkspat (bytes "abc") 3 0) = ACL_PAT_PASS
  /\ acl_match_end 1 (bytes "abc") (mktest 0 0 3 0 0)
                   (mkspat (bytes "abc") 3 0) = ACL_PAT_PASS
  /\ acl_match_sub 1 (bytes "abc") (mktest 0 0 3 0 0)
                   (mkspat (bytes "abc") 3 0) = ACL_PAT_PASS
  /\ acl_match_beg 1 (bytes "XabcX") (mktest 0 0 5 0 0)
                   (mkspat (bytes "abc") 3 0) = ACL_PAT_FAIL
  /\ acl_match_end 1 (bytes "XabcX") (mktest 0 0 5 0 0)
                   (mkspat (bytes "abc") 3 0) = ACL_PAT_FAIL
  /\ acl_match_sub 1 (bytes "XabcX") (mktest 0 0 5 0 0)
                   (mkspat (bytes "abc") 3 0) = ACL_PAT_PASS.
Proof.
  destruct (acl_match_str_beg_end_sub 1 (bytes "abc") (mktest 0 0 3 0 0)
                                      (mkspat (bytes "abc") 3 0))
    as (Hstr & Hbeg & _).
  assert (Hs : acl_match_str 1 (bytes "abc") (mktest 0 0 3 0 0)
                             (mkspat (bytes "abc") 3 0) = ACL_PAT_PASS)
    by reflexivity.
  destruct (Hstr Hs) as [Hb He].
  split; [exact Hs|]. split; [exact Hb|]. split; [exact He|].
  split; [apply Hbeg; [cbn; lia|exact Hb]|].
  repeat split; reflexivity.
Defined.

Section WordMatchProps.

Variable ACL_PAT_F_IGNORE_CASE : Z.
Variable mem : list Z.
Variable delimiters : Z.

#[local] Abbreviation is_d c := (negb (is_delimiter c delimiters =? 0)).
#[local] Abbreviation icase_of p := (has (sp_flags p) ACL_PAT_F_IGNORE_CASE).

(** The loop passes when it finds a position, behind a delimiter or
    first when a word may start there, that is no delimiter and where the
    test succeeds. *)
Lemma match_word_loop_spec icase str ps pl end_ n : forall c may_match,
  match_word_loop mem n icase delimiters str ps pl end_ c may_match
  = ACL_PAT_PASS
  <-> exists q, c <= q < c + Z.of_nat n
                /\ ((q = c /\ may_match = true)
                    \/ (c < q /\ is_d (byte_at mem (q - 1)) = true))
                /\ is_d (byte_at mem q) = false
                /\ word_hit mem icase delimiters str ps pl end_ q = true.
Proof.
  induction n as [|n IH]; intros c may_match.
  - cbn. split; [discriminate|]. intros (q & Hq & _). lia.
  - cbn [match_word_loop].
    destruct (is_d (byte_at mem c)) eqn:Hd.
    + (* a delimiter: a word may start behind it *)
      rewrite IH. split.
      * intros (q & Hq & Hs & Hnd & Hh). exists q.
        split; [lia|]. split; [|split; assumption].
        right. split; [lia|]. destruct Hs as [[-> _]|[_ Hs]]; [|exact Hs].
        replace (c + 1 - 1) with c by lia. exact Hd.
      * intros (q & Hq & Hs & Hnd & Hh).
        destruct (Z.eq_dec q c) as [->|Hqc]; [congruence|].
        exists q. split; [lia|]. split; [|split; assumption].
        destruct (Z.eq_dec q (c + 1)) as [->|];
          [left; split; reflexivity|].
        right. split; [lia|]. destruct Hs as [[-> _]|[_ Hs]]; [lia|exact Hs].
    + destruct may_match; cbn [negb].
      * (* a word may start here *)
        destruct (word_hit mem icase delimiters str ps pl end_ c) eqn:Hh.
        -- split; [|reflexivity]. intros _. exists c.
           split; [lia|]. split; [left; auto|]. split; [exact Hd|exact Hh].
        -- rewrite IH. split.
           ++ intros (q & Hq & Hs & Hnd & Hh').
              destruct Hs as [[_ Hf]|[Hq0 Hs]]; [discriminate|].
              exists q. split; [lia|].
              split; [right; split; [lia|exact Hs]|]. split; assumption.
           ++ intros (q & Hq & Hs & Hnd & Hh').
              destruct (Z.eq_dec q c) as [->|Hqc]; [congruence|].
              destruct Hs as [[-> _]|[_ Hs]]; [lia|].
              destruct (Z.eq_dec q (c + 1)) as [->|Hq1].
              { replace (c + 1 - 1) with c in Hs by lia. congruence. }
              exists q. split; [lia|]. split; [|split; assumption].
              right. split; [lia|exact Hs].
      * (* inside a word that did not match *)
        rewrite IH. split.
        -- intros (q & Hq & Hs & Hnd & Hh').
           destruct Hs as [[_ Hf]|[Hq0 Hs]]; [discriminate|].
           exists q. split; [lia|].
           split; [right; split; [lia|exact Hs]|]. split; assumption.
        -- intros (q & Hq & Hs & Hnd & Hh').
           destruct Hs as [[_ Hf]|[Hq0 Hs]]; [discriminate|].
           destruct (Z.eq_dec q (c + 1)) as [->|Hq1].
           { replace (c + 1 - 1) with c in Hs by lia. congruence. }
           exists q. split; [lia|]. split; [|split; assumption].
           right. split; [lia|exact Hs].
Qed.

(** [match_word] finds whole words.  For a pattern of at least one byte,
    none NUL, that neither begins nor ends with a delimiter, the result is
    PASS exactly when the pattern stands in the sample at a position that
    is the start of the sample or follows a delimiter, and is followed by
    a delimiter or by the end of the sample. *)
Theorem match_word_delimited (test : acl_test) (p : str_pattern) :
  1 <= sp_len p -> no_nul (sp_str p) 0 (sp_len p) ->
  is_d (byte_at (sp_str p) 0) = false ->
  is_d (byte_at (sp_str p) (sp_len p - 1)) = false ->
  match_word ACL_PAT_F_IGNORE_CASE mem test p delimiters = ACL_PAT_PASS
  <-> exists k,
        0 <= k <= t_len test - sp_len p
        /\ (k = 0 \/ is_d (byte_at mem (t_ptr test + k - 1)) = true)
        /\ is_d (byte_at mem (t_ptr test + k)) = false
        /\ occurs_at (icase_of p) (sp_str p) 0 (sp_len p) mem (t_ptr test + k)
        /\ (k = t_len test - sp_len p
            \/ is_d (byte_at mem (t_ptr test + k + sp_len p)) = true).
Proof.
  intros Hpl Hnn Hfirst Hlast. unfold match_word.
  assert (Hsucc : exists m, Z.to_nat (sp_len p) = S m).
  { exists (Z.to_nat (sp_len p) - 1)%nat. lia. }
  destruct Hsucc as (m & Hm).
  assert (Hfront : strip_front (Z.to_nat (sp_len p)) delimiters (sp_str p) 0
                               (sp_len p) = (0, sp_len p)).
  { rewrite Hm. cbn [strip_front]. rewrite Hfirst, andb_false_r.
    reflexivity. }
  rewrite Hfront.
  assert (Hback : strip_back (Z.to_nat (sp_len p)) delimiters (sp_str p) 0
                             (sp_len p) = sp_len p).
  { rewrite Hm. cbn [strip_back]. rewrite Z.add_0_l, Hlast, andb_false_r.
    reflexivity. }
  rewrite Hback.
  assert (Hhit : forall q,
            word_hit mem (icase_of p) delimiters (sp_str p) 0 (sp_len p)
                     (t_ptr test + t_len test - sp_len p) q = true
            <-> occurs_at (icase_of p) (sp_str p) 0 (sp_len p) mem q
                /\ (q = t_ptr test + t_len test - sp_len p
                    \/ is_d (byte_at mem (q + sp_len p)) = true)).
  { intros q. unfold word_hit.
    assert (Hnn' : no_nul (sp_str p) 0 (Z.of_nat (Z.to_nat (sp_len p))))
      by (rewrite Z2Nat.id by lia; exact Hnn).
    destruct (icase_of p).
    - rewrite !andb_true_iff, orb_true_iff, !Z.eqb_eq.
      rewrite strncasecmp_eq_spec by exact Hnn'. rewrite Z2Nat.id by lia.
      split; [tauto|]. intros [Ho Ht]. split; [split; [|exact Ho]|exact Ht].
      specialize (Ho 0 ltac:(lia)). rewrite !Z.add_0_r in Ho. cbn in Ho.
      apply Z.eqb_eq in Ho. congruence.
    - rewrite !andb_true_iff, orb_true_iff, !Z.eqb_eq.
      rewrite strncmp_eq_spec by exact Hnn'. rewrite Z2Nat.id by lia.
      split; [tauto|]. intros [Ho Ht]. split; [split; [|exact Ho]|exact Ht].
      specialize (Ho 0 ltac:(lia)). rewrite !Z.add_0_r in Ho. cbn in Ho.
      apply Z.eqb_eq in Ho. congruence. }
  destruct (Z.ltb_spec (t_len test) (sp_len p)) as [Hlt|Hge].
  { split; [discriminate|]. intros (k & Hk & _). lia. }
  rewrite match_word_loop_spec. split.
  - intros (q & Hq & Hs & Hnd & Hh). apply Hhit in Hh as [Ho Ht].
    exists (q - t_ptr test).
    replace (t_ptr test + (q - t_ptr test)) with q by lia.
    split; [lia|]. split.
    { destruct Hs as [[-> _]|[_ Hs]]; [left; lia|right; exact Hs]. }
    split; [exact Hnd|]. split; [exact Ho|].
    destruct Ht as [->|Ht]; [left; lia|right; exact Ht].
  - intros (k & Hk & Hs & Hnd & Ho & Ht). exists (t_ptr test + k).
    split; [lia|]. split.
    { destruct Hs as [->|Hs]; [left; split; [lia|reflexivity]|].
      destruct (Z.eq_dec k 0) as [->|]; [left; split; [lia|reflexivity]|].
      right. split; [lia|exact Hs]. }
    split; [exact Hnd|]. apply Hhit. split; [exact Ho|].
    destruct Ht as [->|Ht]; [left; lia|right; exact Ht].
Qed.

End WordMatchProps.

(** The domain [example.com] is found in [www.example.com], between a
    dot and the end. *)
Lemma match_word_delimited_witness :
  acl_match_dom 1 (bytes "www.example.com") (mktest 0 0 15 0 0)
                (mkspat (bytes "example.com") 11 0)
  = ACL_PAT_PASS.
Proof.
  apply (match_word_delimited 1 (bytes "www.example.com")
           (make_4delim 47 63 46 58) (mktest 0 0 15 0 0)
           (mkspat (bytes "example.com") 11 0)).
  - cbn. lia.
  - intros i Hi. cbn in Hi.
    pose proof (forallb_seqZ
      (fun i => negb (byte_at (bytes "example.com") (0 + i) =? 0))
      0 11 eq_refl i ltac:(lia)) as H.
    cbv beta in H. apply negb_true_iff, Z.eqb_neq in H. exact H.
  - reflexivity.
  - reflexivity.
  - exists 4. split; [cbn; lia|]. split; [right; reflexivity|].
    split; [reflexivity|]. split; [|left; reflexivity].
    intros i Hi. cbn in Hi.
    exact (forallb_seqZ
      (fun i => same_char false (byte_at (bytes "example.com") (0 + i))
                          (byte_at (bytes "www.example.com") (0 + 4 + i)))
      0 11 eq_refl i ltac:(lia)).
Defined.

(* ===================================================================== *)
(** ** ACL patterns: integers *)
(* ===================================================================== *)

Lemma byte_at_middle (pre : list Z) (c : Z) (post : list Z) :
  byte_at (pre ++ c :: post) (Z.of_nat (length pre)) = c.
Proof.
  rewrite byte_at_app_r by lia. rewrite Z.sub_diag. reflexivity.
Qed.

Lemma byte_at_end (str : list Z) : byte_at str (Z.of_nat (length str)) = 0.
Proof.
  unfold byte_at. rewrite nth_lookup, Nat2Z.id.
  rewrite lookup_ge_None_2 by lia. reflexivity.
Qed.

Lemma isdigit_range c : isdigit c = true <-> 48 <= c <= 57.
Proof. unfold isdigit. rewrite andb_true_iff, !Z.leb_le. reflexivity. Qed.

(** The number loop reads a run of digits onto [i] and stops at the byte
    behind it. *)
Lemma parse_int_loop_digits (digits : list Z) :
  Forall (fun c => isdigit c = true) digits ->
  forall fuel pre post i last min,
    (length digits < fuel)%nat ->
    (let j := byte_at (pre ++ digits ++ post)
                      (Z.of_nat (length pre + length digits)) in
     isdigit j = false /\ (last = true \/ (j <> 45 /\ j <> 58))) ->
    parse_int_loop fuel (pre ++ digits ++ post) (Z.of_nat (length pre)) i
                   last min
    = (decimal_from i digits, last, min).
Proof.
  induction 1 as [|c digits Hc Hds IH]; intros fuel pre post i last min Hf Hend.
  - cbn [length] in *. rewrite Nat.add_0_r in Hend. cbn [app] in *.
    destruct fuel as [|fuel]; [lia|]. cbn [parse_int_loop decimal_from fold_left].
    destruct Hend as [Hnd Hsep].
    set (j := byte_at (pre ++ post) (Z.of_nat (length pre))) in *.
    assert (Hs : ((j =? 45) || (j =? 58)) && negb last = false).
    { destruct Hsep as [->|[H1 H2]]; [apply andb_false_r|].
      destruct (Z.eqb_spec j 45); [contradiction|].
      destruct (Z.eqb_spec j 58); [contradiction|]. reflexivity. }
    rewrite Hs.
    assert (Hj : (j - 48 <? 0) || (9 <? j - 48) = true).
    { destruct (Z.ltb_spec (j - 48) 0); [reflexivity|].
      destruct (Z.ltb_spec 9 (j - 48)); [reflexivity|].
      assert (isdigit j = true) by (apply isdigit_range; lia). congruence. }
    rewrite Hj. reflexivity.
  - destruct fuel as [|fuel]; [cbn in Hf; lia|]. cbn [parse_int_loop].
    cbn [app]. rewrite byte_at_middle.
    apply isdigit_range in Hc.
    destruct (Z.eqb_spec c 45); [lia|]. destruct (Z.eqb_spec c 58); [lia|].
    cbn [orb andb].
    destruct (Z.ltb_spec (c - 48) 0); [lia|].
    destruct (Z.ltb_spec 9 (c - 48)); [lia|]. cbn [orb].
    specialize (IH fuel (pre ++ [c]) post (i * 10 + (c - 48)) last min).
    rewrite <- !app_assoc in IH. cbn [app] in IH.
    rewrite length_app in IH. cbn [length] in IH.
    replace (Z.of_nat (length pre) + 1) with (Z.of_nat (length pre + 1)) by lia.
    rewrite IH; [reflexivity|cbn in Hf; lia|].
    cbn [length] in Hend.
    replace (length pre + 1 + length digits)%nat
      with (length pre + S (length digits))%nat by lia.
    exact Hend.
Qed.

(** A whole word of digits. *)
Lemma parse_int_loop_number (digits : list Z) i last min :
  Forall (fun c => isdigit c = true) digits ->
  parse_int_loop (S (length digits)) digits 0 i last min
  = (decimal_from i digits, last, min).
Proof.
  intros Hds.
  pose proof (parse_int_loop_digits digits Hds (S (length digits)) [] []
                                    i last min ltac:(lia)) as H.
  cbn [app length Nat.add] in H. rewrite app_nil_r in H.
  apply H. rewrite byte_at_end. split; [reflexivity|right; lia].
Qed.

(** The operator word in front of a number. *)
Lemma parse_operator_word (op : Z) (digits : list Z) (opaque : Z) :
  0 <= op <= 4 -> isdigit (byte_at digits 0) = true ->
  parse_operator 3 [operator_word op; digits] 0 opaque = (true, 1%nat, op).
Proof.
  intros Hop Hd.
  assert (op = 0 \/ op = 1 \/ op = 2 \/ op = 3 \/ op = 4)
    as [-> | [-> | [-> | [-> | ->]]]] by lia;
    cbn [parse_operator word_at nth];
    match goal with |- context [isdigit (byte_at (operator_word ?k) 0)] =>
      change (isdigit (byte_at (operator_word k) 0)) with false; cbv iota
    end;
    repeat match goal with
    | |- context [strcmp_eq (operator_word ?k) 0 (bytes ?b)] =>
      let v := eval vm_compute in (strcmp_eq (operator_word k) 0 (bytes b)) in
      change (strcmp_eq (operator_word k) 0 (bytes b)) with v; cbv iota
    end;
    rewrite Hd; reflexivity.
Qed.

(** What the range stored for an operator lets through. *)
Lemma store_range_operator op v min pattern (sample : acl_test) :
  0 <= op <= 4 ->
  fst (store_range op false v min pattern) = 1
  /\ (acl_match_int sample (snd (store_range op false v min pattern))
      = ACL_PAT_PASS
      <-> operator_holds op (t_i sample) v).
Proof.
  intros Hop. unfold store_range, operator_holds, acl_match_int.
  cbn [andb]. cbn [fst snd].
  assert (op = 0 \/ op = 1 \/ op = 2 \/ op = 3 \/ op = 4)
    as [-> | [-> | [-> | [-> | ->]]]] by lia;
    cbn [Z.eqb Pos.eqb min_set max_set range_min range_max negb orb andb];
    (split; [reflexivity|]);
    repeat match goal with |- context [?a <=? ?b] =>
      destruct (Z.leb_spec a b) end;
    cbn [andb]; split; intros Hx; try discriminate; try reflexivity; lia.
Qed.



(** The number loop across a run of digits. *)
Lemma parse_int_loop_run (digits : list Z) :
  Forall (fun c => isdigit c = true) digits ->
  forall fuel pre post i last min,
    parse_int_loop (length digits + fuel) (pre ++ digits ++ post)
                   (Z.of_nat (length pre)) i last min
    = parse_int_loop fuel (pre ++ digits ++ post)
                     (Z.of_nat (length pre + length digits))
                     (decimal_from i digits) last min.
Proof.
  induction 1 as [|c digits Hc Hds IH]; intros fuel pre post i last min.
  - cbn [length Nat.add decimal_from fold_left]. rewrite Nat.add_0_r.
    reflexivity.
  - cbn [length Nat.add parse_int_loop]. cbn [app].
    rewrite byte_at_middle. apply isdigit_range in Hc.
    destruct (Z.eqb_spec c 45); [lia|]. destruct (Z.eqb_spec c 58); [lia|].
    cbn [orb andb].
    destruct (Z.ltb_spec (c - 48) 0); [lia|].
    destruct (Z.ltb_spec 9 (c - 48)); [lia|]. cbn [orb].
    specialize (IH fuel (pre ++ [c]) post (i * 10 + (c - 48)) last min).
    rewrite <- !app_assoc in IH. cbn [app] in IH.
    rewrite length_app in IH. cbn [length] in IH.
    replace (Z.of_nat (length pre) + 1) with (Z.of_nat (length pre + 1)) by lia.
    rewrite IH. cbn [decimal_from fold_left].
    replace (length pre + 1 + length digits)%nat
      with (length pre + S (length digits))%nat by lia.
    reflexivity.
Qed.



(** *** Dotted versions *)

Lemma decimal_from_ge (digits : list Z) :
  Forall (fun c => isdigit c = true) digits ->
  forall acc, 0 <= acc -> acc <= decimal_from acc digits.
Proof.
  induction 1 as [|c ds Hc Hds IH]; intros acc Hacc.
  - cbn. lia.
  - cbn [decimal_from fold_left]. apply isdigit_range in Hc.
    specialize (IH (acc * 10 + (c - 48)) ltac:(lia)).
    unfold decimal_from in IH. lia.
Qed.

Lemma land_low_half hi lo :
  0 <= lo < 65536 -> Z.land (hi * 65536 + lo) 0xFFFF = lo.
Proof.
  intros Hlo. change 0xFFFF with (Z.ones 16). rewrite Z.land_ones by lia.
  change (2^16) with 65536. rewrite Z.add_comm, Z.mod_add by lia.
  apply Z.mod_small. lia.
Qed.

Lemma land_high_half hi lo :
  0 <= hi < 65536 -> 0 <= lo < 65536 ->
  Z.land (hi * 65536 + lo) 0xFFFF0000 = hi * 65536.
Proof.
  intros Hhi Hlo. apply Z.bits_inj'. intros n Hn.
  rewrite Z.land_spec.
  change 0xFFFF0000 with (65535 * 2^16 + 0). change 65536 with (2^16).
  rewrite <- (Z.add_0_r (hi * 2^16)) at 2.
  rewrite !testbit_cat by (change (2^16) with 65536; lia).
  destruct (Z.ltb_spec n 16).
  - rewrite Z.bits_0. apply andb_false_r.
  - change 65535 with (Z.ones 16).
    destruct (Z.ltb_spec (n - 16) 16).
    + rewrite Z.ones_spec_low by lia. apply andb_true_r.
    + rewrite (testbit_small hi 16 (n - 16)) by (change (2^16) with 65536; lia).
      reflexivity.
Qed.

(** The version loop across a run of digits: they are read onto the low
    half of [i]. *)
Lemma parse_ver_loop_run (digits : list Z) :
  Forall (fun c => isdigit c = true) digits ->
  forall fuel pre post hi lo last min,
    0 <= hi < 65536 -> 0 <= lo -> decimal_from lo digits < 65536 ->
    parse_ver_loop (length digits + fuel) (pre ++ digits ++ post)
                   (Z.of_nat (length pre)) (hi * 65536 + lo) last min
    = parse_ver_loop fuel (pre ++ digits ++ post)
                     (Z.of_nat (length pre + length digits))
                     (hi * 65536 + decimal_from lo digits) last min.
Proof.
  induction 1 as [|c digits Hc Hds IH];
    intros fuel pre post hi lo last min Hhi Hlo Hval.
  - cbn [length Nat.add decimal_from fold_left]. rewrite Nat.add_0_r.
    reflexivity.
  - cbn [length Nat.add parse_ver_loop]. cbn [app].
    rewrite byte_at_middle. pose proof Hc as Hc'. apply isdigit_range in Hc'.
    cbn [decimal_from fold_left] in Hval. fold (decimal_from (lo * 10 + (c - 48)) digits) in Hval.
    pose proof (decimal_from_ge digits Hds (lo * 10 + (c - 48)) ltac:(lia)).
    destruct (Z.eqb_spec c 46); [lia|].
    destruct (Z.eqb_spec c 45); [lia|]. destruct (Z.eqb_spec c 58); [lia|].
    cbn [orb andb].
    destruct (Z.ltb_spec (c - 48) 0); [lia|].
    destruct (Z.ltb_spec 9 (c - 48)); [lia|]. cbn [orb].
    rewrite land_low_half, land_high_half by lia.
    specialize (IH fuel (pre ++ [c]) post hi (lo * 10 + (c - 48)) last min
                   Hhi ltac:(lia) Hval).
    rewrite <- !app_assoc in IH. cbn [app] in IH.
    rewrite length_app in IH. cbn [length] in IH.
    replace (Z.of_nat (length pre) + 1) with (Z.of_nat (length pre + 1)) by lia.
    replace (hi * 65536 + lo * 10 + (c - 48))
      with (hi * 65536 + (lo * 10 + (c - 48))) by lia.
    rewrite IH. cbn [decimal_from fold_left].
    replace (length pre + 1 + length digits)%nat
      with (length pre + S (length digits))%nat by lia.
    reflexivity.
Qed.

(** The version loop on [major] alone and on [major.minor]. *)
Lemma parse_ver_loop_major (major : list Z) last min :
  Forall (fun c => isdigit c = true) major -> decimal major < 65536 ->
  parse_ver_loop (S (length major)) major 0 0 last min
  = (true, decimal major, last, min).
Proof.
  intros Hma Hlt.
  pose proof (parse_ver_loop_run major Hma 1 [] [] 0 0 last min
                ltac:(lia) ltac:(lia) Hlt) as H.
  cbn [app length Nat.add] in H. rewrite app_nil_r in H.
  change (Z.of_nat 0) with 0 in H. change (0 * 65536 + 0) with 0 in H.
  replace (length major + 1)%nat with (S (length major)) in H by lia.
  rewrite H. cbn [parse_ver_loop]. rewrite byte_at_end.
  reflexivity.
Qed.

Lemma parse_ver_loop_dotted (major minor : list Z) last min :
  Forall (fun c => isdigit c = true) major ->
  Forall (fun c => isdigit c = true) minor ->
  decimal major < 65536 -> decimal minor < 65536 ->
  parse_ver_loop (S (length (major ++ 46 :: minor))) (major ++ 46 :: minor)
                 0 0 last min
  = (true, decimal major * 65536 + decimal minor, last, min).
Proof.
  intros Hma Hmi Hlt Hlt'.
  assert (H0 : 0 <= decimal major)
    by (apply (decimal_from_ge major Hma 0); lia).
  replace (S (length (major ++ 46 :: minor)))
    with (length major + S (length minor + 1))%nat
    by (rewrite length_app; cbn [length]; lia).
  pose proof (parse_ver_loop_run major Hma (S (length minor + 1)) []
                (46 :: minor) 0 0 last min ltac:(lia) ltac:(lia) Hlt) as H1.
  cbn [app length Nat.add] in H1. change (Z.of_nat 0) with 0 in H1.
  change (0 * 65536 + 0) with 0 in H1. rewrite H1. clear H1.
  fold (decimal major). cbn [parse_ver_loop].
  replace (byte_at (major ++ 46 :: minor) (Z.of_nat (length major))) with 46
    by (symmetry; apply byte_at_middle).
  cbn [Z.eqb Pos.eqb].
  change (0 * 65536 + decimal major) with (0 + decimal major).
  rewrite Z.add_0_l.
  destruct (Z.leb_spec 65536 (decimal major)); [lia|].
  rewrite Z.shiftl_mul_pow2 by lia. change (2^16) with 65536.
  pose proof (parse_ver_loop_run minor Hmi 1 (major ++ [46]) []
                (decimal major) 0 last min ltac:(lia) ltac:(lia) Hlt') as H2.
  rewrite app_nil_r, <- app_assoc in H2. cbn [app] in H2.
  rewrite length_app in H2. cbn [length] in H2.
  replace (Z.of_nat (length major) + 1)
    with (Z.of_nat (length major + 1)) by lia.
  rewrite Z.add_0_r in H2. rewrite H2. clear H2.
  fold (decimal minor). cbn [parse_ver_loop].
  replace (byte_at (major ++ 46 :: minor)
                   (Z.of_nat (length major + 1 + length minor))) with 0.
  2:{ symmetry. rewrite <- (byte_at_end (major ++ 46 :: minor)). f_equal.
      rewrite length_app. cbn [length]. lia. }
  reflexivity.
Qed.

(** A version [major.minor] with a major part from 1 to 65535 and a minor
    part below 65536 is read as [major * 65536 + minor], and [major]
    alone as [major.0]; the pattern left passes the samples that stand
    in the operator's relation to that number. *)
Theorem acl_parse_dotted_ver_encodes (op : Z) (major minor : list Z)
        (pattern : acl_pattern) (sample : acl_test) :
  0 <= op <= 4 -> major <> [] ->
  Forall (fun c => isdigit c = true) major ->
  Forall (fun c => isdigit c = true) minor ->
  1 <= decimal major < 65536 -> decimal minor < 65536 ->
  (let '(ret, pat, op') :=
     acl_parse_dotted_ver [major ++ 46 :: minor] pattern op in
   ret = 1 /\ op' = op
   /\ (acl_match_int sample pat = ACL_PAT_PASS
       <-> operator_holds op (t_i sample)
                          (decimal major * 65536 + decimal minor)))
  /\ (let '(ret, pat, op') := acl_parse_dotted_ver [major] pattern op in
      ret = 1 /\ op' = op
      /\ (acl_match_int sample pat = ACL_PAT_PASS
          <-> operator_holds op (t_i sample) (decimal major * 65536))).
Proof.
  intros Hop Hne Hma Hmi Hmajor Hminor.
  assert (Hd0 : forall rest, isdigit (byte_at (major ++ rest) 0) = true).
  { intros rest. destruct major as [|c ds]; [contradiction|].
    inversion Hma. assumption. }
  assert (H0 : 0 <= decimal minor)
    by (apply (decimal_from_ge minor Hmi 0); lia).
  split.
  - unfold acl_parse_dotted_ver. cbn [length parse_operator word_at nth].
    rewrite Hd0. cbn [negb].
    rewrite parse_ver_loop_dotted by (assumption || lia). cbn [negb].
    destruct (Z.ltb_spec (decimal major * 65536 + decimal minor) 65536);
      [lia|].
    destruct (store_range_operator op (decimal major * 65536 + decimal minor)
                (range_min pattern) pattern sample Hop) as [Hret Hm].
    destruct (store_range op false _ (range_min pattern) pattern)
      as [ok pat].
    cbn [fst snd] in *. subst ok. cbn. repeat split; try reflexivity; apply Hm.
  - unfold acl_parse_dotted_ver. cbn [length parse_operator word_at nth].
    pose proof (Hd0 []) as Hd. rewrite app_nil_r in Hd. rewrite Hd.
    cbn [negb].
    rewrite parse_ver_loop_major by (assumption || lia). cbn [negb].
    destruct (Z.ltb_spec (decimal major) 65536); [|lia].
    rewrite Z.shiftl_mul_pow2 by lia. change (2^16) with 65536.
    destruct (store_range_operator op (decimal major * 65536)
                (range_min pattern) pattern sample Hop) as [Hret Hm].
    destruct (store_range op false _ (range_min pattern) pattern)
      as [ok pat].
    cbn [fst snd] in *. subst ok. cbn. repeat split; try reflexivity; apply Hm.
Qed.

(** [lt 3.1] passes SSL 3.0 (0x30000) and not TLS 1.0 (0x30001). *)
Lemma acl_parse_dotted_ver_encodes_witness :
  let pat := snd (fst (acl_parse_dotted_ver [bytes "3.1"]
                                            (mkpat false 0 false 0 []) 3)) in
  acl_match_int (mktest 0x30000 0 0 0 0) pat = ACL_PAT_PASS
  /\ acl_match_int (mktest 0x30001 0 0 0 0) pat <> ACL_PAT_PASS.
Proof.
  cbv zeta. split.
  - pose proof (acl_parse_dotted_ver_encodes 3 (bytes "3") (bytes "1")
                  (mkpat false 0 false 0 []) (mktest 0x30000 0 0 0 0)
                  ltac:(lia) ltac:(discriminate) ltac:(repeat constructor)
                  ltac:(repeat constructor)
                  ltac:(vm_compute; split; [discriminate|reflexivity])
                  ltac:(reflexivity)) as [H _].
    change (bytes "3" ++ 46 :: bytes "1") with (bytes "3.1") in H.
    destruct (acl_parse_dotted_ver [bytes "3.1"] _ 3) as [[ret pat] op'].
    destruct H as (_ & _ & H). apply H. vm_compute. reflexivity.
  - vm_compute. discriminate.
Defined.

(** *** The SSL version of the request *)

Lemma split_u16 len :
  0 <= len ->
  Z.shiftl (Z.shiftr len 8) 8 + Z.land len 0xFF = len.
Proof.
  intros Hlen. rewrite Z.shiftl_mul_pow2, Z.shiftr_div_pow2 by lia.
  change 0xFF with (Z.ones 8). rewrite Z.land_ones by lia.
  change (2^8) with 256. pose proof (Z.div_mod len 256 ltac:(lia)). lia.
Qed.

Section SslVerProps.

Variable ext : Type.
Variable buffer_max_len : buffer -> Z.

(** On a request that starts with the header of an SSLv3 or TLS record,
    [acl_fetch_req_ssl_ver] gives [major * 65536 + minor] once the whole
    record, or as much of it as the buffer may hold, is there; before
    that it asks to be called again; a major version below 3 or a record
    length outside 1 .. 18432 is not SSL, and then the sample is left
    alone. *)
Theorem acl_fetch_req_ssl_ver_record (l4 : session ext) (test : acl_test)
        (type major minor len : Z) :
  0x14 <= type <= 0x17 \/ type = 0xFF ->
  0 <= major <= 255 -> 0 <= minor <= 255 -> 0 <= len < 65536 ->
  5 <= l (req l4) ->
  mem_range (data (req l4)) (w (req l4)) 5
  = ssl3_header type major minor len ->
  let room := buffer_max_len (req l4) - w (req l4) in
  acl_fetch_req_ssl_ver buffer_max_len l4 test
  = if (major <? 3) || (len <? 1) || (18432 <? len) then (0, test)
    else if l (req l4) - 5 <? Z.min len room
         then (0, set_t_flags ACL_TEST_F_MAY_CHANGE test)
         else (1, mktest (major * 65536 + minor) (t_ptr test) (t_len test)
                         ACL_TEST_F_VOLATILE (t_ctx test)).
Proof.
  intros Htype Hmajor Hminor Hlen Hl Hmem room.
  unfold acl_fetch_req_ssl_ver.
  assert (E0 : byte_at (data (req l4)) (w (req l4) + 0) = type)
    by (rewrite (mem_range_byte _ _ _ _ 0 Hmem) by lia; reflexivity).
  assert (E1 : byte_at (data (req l4)) (w (req l4) + 1) = major)
    by (rewrite (mem_range_byte _ _ _ _ 1 Hmem) by lia; reflexivity).
  assert (E2 : byte_at (data (req l4)) (w (req l4) + 2) = minor)
    by (rewrite (mem_range_byte _ _ _ _ 2 Hmem) by lia; reflexivity).
  assert (E3 : byte_at (data (req l4)) (w (req l4) + 3) = Z.shiftr len 8)
    by (rewrite (mem_range_byte _ _ _ _ 3 Hmem) by lia; reflexivity).
  assert (E4 : byte_at (data (req l4)) (w (req l4) + 4) = Z.land len 0xFF)
    by (rewrite (mem_range_byte _ _ _ _ 4 Hmem) by lia; reflexivity).
  cbv zeta. rewrite E0, E1, E2, E3, E4.
  destruct (Z.eqb_spec (l (req l4)) 0); [lia|].
  replace ((20 <=? type) && (type <=? 23) || (type =? 255)) with true.
  2:{ symmetry. destruct Htype as [H|H].
      - destruct (Z.leb_spec 20 type); [|lia].
        destruct (Z.leb_spec type 23); [|lia]. reflexivity.
      - subst type. reflexivity. }
  destruct (Z.ltb_spec (l (req l4)) 5); [lia|].
  rewrite split_u16 by lia.
  rewrite Z.shiftl_mul_pow2 by lia. change (2^16) with 65536.
  change (Z.shiftl 1 14 + 2048) with 18432.
  destruct (Z.ltb_spec (major * 65536 + minor) 196608);
    destruct (Z.ltb_spec major 3); try lia; cbn [orb]; [reflexivity|].
  destruct (Z.ltb_spec len 1); cbn [orb]; [reflexivity|].
  destruct (Z.ltb_spec 18432 len); cbn [orb]; [reflexivity|].
  fold room.
  destruct (Z.ltb_spec room len).
  - rewrite Z.min_r by lia. reflexivity.
  - rewrite Z.min_l by lia. reflexivity.
Qed.

End SslVerProps.

(** A whole TLS 1.0 handshake record of 2 bytes gives 0x30001. *)
Lemma acl_fetch_req_ssl_ver_record_witness :
  let b := mkbuf 0 7 7 0 0 16 0 0 0 0 7
                 (ssl3_header 22 3 1 2 ++ [1; 0] ++ repeat 0 9) in
  let s := inspected_session 0 in
  acl_fetch_req_ssl_ver (fun _ => 16) (set_req b s) test_zero
  = (1, mktest 0x30001 0 0 ACL_TEST_F_VOLATILE 0).
Proof.
  cbv zeta.
  rewrite (acl_fetch_req_ssl_ver_record unit (fun _ => 16) _ test_zero
             22 3 1 2); [reflexivity|try (cbn; lia)..].
  reflexivity.
Defined.

(** *** Decimal readers *)

Lemma u32_idem x : u32 (u32 x) = u32 x.
Proof. unfold u32. apply Z.mod_mod. lia. Qed.

Lemma u32_digit_step a c :
  48 <= c <= 57 ->
  u32 (u32 (u32 a * 10) + u32 (c - 48)) = u32 (a * 10 + (c - 48)).
Proof.
  intros Hc. unfold u32.
  rewrite (Z.mod_small (c - 48)) by lia.
  rewrite Z.add_mod_idemp_l by lia.
  rewrite <- (Z.add_mod_idemp_l (a mod 2^32 * 10)), Z.mul_mod_idemp_l by lia.
  rewrite Z.add_mod_idemp_l by lia. reflexivity.
Qed.

Lemma u32_digit_test c : 0 <= c <= 255 ->
  (9 <? u32 (c - 48)) = negb (isdigit c).
Proof.
  intros Hc. unfold isdigit, u32.
  destruct (Z.leb_spec 48 c).
  - rewrite Z.mod_small by lia.
    destruct (Z.ltb_spec 9 (c - 48)); destruct (Z.leb_spec c 57);
      cbn; lia || reflexivity.
  - replace ((c - 48) mod 2^32) with (c - 48 + 2^32).
    2:{ apply Z.mod_unique with (-1); lia. }
    destruct (Z.ltb_spec 9 (c - 48 + 2^32)); [reflexivity|lia].
Qed.

(** [__read_uint] across a run of digits. *)
Lemma read_uint_loop_run (digits : list Z) :
  Forall (fun c => isdigit c = true) digits ->
  forall n pre post end_ a,
    Z.of_nat (length pre + length digits) <= end_ ->
    read_uint_loop (length digits + n) (pre ++ digits ++ post)
                   (Z.of_nat (length pre)) end_ (u32 a)
    = read_uint_loop n (pre ++ digits ++ post)
                     (Z.of_nat (length pre + length digits)) end_
                     (u32 (decimal_from a digits)).
Proof.
  induction 1 as [|c digits Hc Hds IH]; intros n pre post end_ a Hend.
  - cbn [length Nat.add decimal_from fold_left]. rewrite Nat.add_0_r.
    reflexivity.
  - cbn [length Nat.add read_uint_loop]. cbn [app].
    cbn [length] in Hend.
    destruct (Z.ltb_spec (Z.of_nat (length pre)) end_); [|lia].
    rewrite byte_at_middle. pose proof Hc as Hc'. apply isdigit_range in Hc'.
    rewrite u32_digit_test, Hc by lia. cbn [negb].
    rewrite u32_digit_step by lia.
    specialize (IH n (pre ++ [c]) post end_ (a * 10 + (c - 48))).
    rewrite <- !app_assoc in IH. cbn [app] in IH.
    rewrite length_app in IH. cbn [length] in IH.
    replace (Z.of_nat (length pre) + 1) with (Z.of_nat (length pre + 1)) by lia.
    rewrite IH by lia. cbn [decimal_from fold_left].
    replace (length pre + 1 + length digits)%nat
      with (length pre + S (length digits))%nat by lia.
    reflexivity.
Qed.

(** [__read_uint] reads the longest run of digits that starts at [s] and
    ends before [end]: it returns the decimal value of the run, cut to 32
    bits without any sign of the overflow, and the position behind the
    run. *)
Theorem read_uint_decimal (pre digits post : list Z) (end_ : Z) :
  Forall (fun c => isdigit c = true) digits ->
  Forall (fun c => 0 <= c <= 255) post ->
  Z.of_nat (length pre + length digits) <= end_ ->
  (end_ = Z.of_nat (length pre + length digits)
   \/ isdigit (byte_at post 0) = false) ->
  __read_uint (pre ++ digits ++ post) (Z.of_nat (length pre)) end_
  = (u32 (decimal digits), Z.of_nat (length pre + length digits)).
Proof.
  intros Hds Hpost Hend Hstop. unfold __read_uint.
  replace (Z.to_nat (end_ - Z.of_nat (length pre)))
    with (length digits
          + Z.to_nat (end_ - Z.of_nat (length pre + length digits)))%nat
    by lia.
  change 0 with (u32 0) at 1.
  rewrite read_uint_loop_run by assumption. fold (decimal digits).
  destruct (Z.to_nat (end_ - Z.of_nat (length pre + length digits)))
    as [|n] eqn:En; [reflexivity|].
  cbn [read_uint_loop].
  destruct (Z.ltb_spec (Z.of_nat (length pre + length digits)) end_);
    [|reflexivity].
  destruct Hstop as [Heq|Hnd]; [lia|].
  replace (byte_at (pre ++ digits ++ post)
                   (Z.of_nat (length pre + length digits)))
    with (byte_at post 0).
  2:{ rewrite app_assoc, byte_at_app_r by (rewrite length_app; lia).
      f_equal. rewrite length_app. lia. }
  rewrite u32_digit_test, Hnd; [reflexivity|].
  destruct post as [|c post']; [vm_compute; split; discriminate|].
  change (byte_at (c :: post') 0) with c. inversion Hpost. assumption.
Qed.

(** The number 4294967296 of a PROXY line is read as 0. *)
Lemma read_uint_decimal_witness :
  __read_uint (bytes "TCP4 4294967296 ") 5 16 = (0, 15).
Proof.
  apply (read_uint_decimal (bytes "TCP4 ") (bytes "4294967296") (bytes " ") 16).
  - repeat constructor.
  - repeat constructor; cbn; lia.
  - cbn. lia.
  - right. reflexivity.
Defined.

Lemma u32_blind_step a c :
  u32 (u32 (u32 (u32 a * 10) - 48) + c) = u32 (a * 10 + (c - 48)).
Proof.
  unfold u32. rewrite Z.add_mod_idemp_l by lia.
  replace ((a mod 2^32 * 10) mod 2^32 - 48 + c)
    with ((a mod 2^32 * 10) mod 2^32 + (c - 48)) by lia.
  rewrite Z.add_mod_idemp_l by lia.
  rewrite <- (Z.add_mod_idemp_l (a mod 2^32 * 10)), Z.mul_mod_idemp_l by lia.
  rewrite Z.add_mod_idemp_l by lia. reflexivity.
Qed.

Lemma strl2ui_loop_run (digits : list Z) :
  forall pre post a,
    strl2ui_loop (length digits) (pre ++ digits ++ post)
                 (Z.of_nat (length pre)) (u32 a)
    = u32 (decimal_from a digits).
Proof.
  induction digits as [|c digits IH]; intros pre post a.
  - reflexivity.
  - cbn [length strl2ui_loop]. cbn [app]. rewrite byte_at_middle.
    rewrite u32_blind_step.
    specialize (IH (pre ++ [c]) post (a * 10 + (c - 48))).
    rewrite <- !app_assoc in IH. cbn [app] in IH.
    rewrite length_app in IH. cbn [length] in IH.
    replace (Z.of_nat (length pre) + 1) with (Z.of_nat (length pre + 1)) by lia.
    rewrite IH. reflexivity.
Qed.

Lemma strl2uic_loop_run (digits : list Z) :
  Forall (fun c => isdigit c = true) digits ->
  forall n pre post a,
    strl2uic_loop (length digits + n) (pre ++ digits ++ post)
                  (Z.of_nat (length pre)) (u32 a)
    = strl2uic_loop n (pre ++ digits ++ post)
                    (Z.of_nat (length pre + length digits))
                    (u32 (decimal_from a digits)).
Proof.
  induction 1 as [|c digits Hc Hds IH]; intros n pre post a.
  - cbn [length Nat.add decimal_from fold_left]. rewrite Nat.add_0_r.
    reflexivity.
  - cbn [length Nat.add strl2uic_loop]. cbn [app].
    rewrite byte_at_middle. pose proof Hc as Hc'. apply isdigit_range in Hc'.
    rewrite u32_digit_test, Hc by lia. cbn [negb].
    rewrite u32_digit_step by lia.
    specialize (IH n (pre ++ [c]) post (a * 10 + (c - 48))).
    rewrite <- !app_assoc in IH. cbn [app] in IH.
    rewrite length_app in IH. cbn [length] in IH.
    replace (Z.of_nat (length pre) + 1) with (Z.of_nat (length pre + 1)) by lia.
    rewrite IH. cbn [decimal_from fold_left].
    replace (length pre + 1 + length digits)%nat
      with (length pre + S (length digits))%nat by lia.
    reflexivity.
Qed.

Lemma str2uic_loop_run (digits : list Z) :
  Forall (fun c => isdigit c = true) digits ->
  forall n pre post a,
    str2uic_loop (length digits + n) (pre ++ digits ++ post)
                 (Z.of_nat (length pre)) (u32 a)
    = str2uic_loop n (pre ++ digits ++ post)
                   (Z.of_nat (length pre + length digits))
                   (u32 (decimal_from a digits)).
Proof.
  induction 1 as [|c digits Hc Hds IH]; intros n pre post a.
  - cbn [length Nat.add decimal_from fold_left]. rewrite Nat.add_0_r.
    reflexivity.
  - cbn [length Nat.add str2uic_loop]. cbn [app].
    rewrite byte_at_middle. pose proof Hc as Hc'. apply isdigit_range in Hc'.
    rewrite u32_digit_test, Hc by lia. cbn [negb].
    rewrite u32_digit_step by lia.
    specialize (IH n (pre ++ [c]) post (a * 10 + (c - 48))).
    rewrite <- !app_assoc in IH. cbn [app] in IH.
    rewrite length_app in IH. cbn [length] in IH.
    replace (Z.of_nat (length pre) + 1) with (Z.of_nat (length pre + 1)) by lia.
    rewrite IH. cbn [decimal_from fold_left].
    replace (length pre + 1 + length digits)%nat
      with (length pre + S (length digits))%nat by lia.
    reflexivity.
Qed.

Lemma byte_behind (pre digits post : list Z) :
  byte_at (pre ++ digits ++ post) (Z.of_nat (length pre + length digits))
  = byte_at post 0.
Proof.
  rewrite app_assoc, byte_at_app_r by (rewrite length_app; lia).
  f_equal. rewrite length_app. lia.
Qed.

(** The readers agree on a run of digits: the blind [__strl2ui], given
    its length, and the checking [__strl2uic] and [__str2uic], which stop
    by themselves at the byte behind it, all return its decimal value
    cut to 32 bits, as [__read_uint] does. *)
Theorem decimal_readers_agree (pre digits post : list Z) (len : Z) :
  Forall (fun c => isdigit c = true) digits ->
  0 <= byte_at post 0 <= 255 -> isdigit (byte_at post 0) = false ->
  Z.of_nat (length digits) <= len ->
  let mem := pre ++ digits ++ post in
  let s := Z.of_nat (length pre) in
  __strl2ui mem s (Z.of_nat (length digits)) = u32 (decimal digits)
  /\ __strl2uic mem s len = u32 (decimal digits)
  /\ __str2uic mem s = u32 (decimal digits)
  /\ fst (__read_uint mem s (s + len)) = u32 (decimal digits).
Proof.
  intros Hds Hb Hnd Hlen mem s. subst mem s. repeat split.
  - unfold __strl2ui. rewrite Nat2Z.id. change 0 with (u32 0) at 1.
    apply strl2ui_loop_run.
  - unfold __strl2uic.
    replace (Z.to_nat len)
      with (length digits + (Z.to_nat len - length digits))%nat by lia.
    change 0 with (u32 0) at 1. rewrite strl2uic_loop_run by assumption.
    fold (decimal digits).
    destruct (Z.to_nat len - length digits)%nat; [reflexivity|].
    cbn [strl2uic_loop]. rewrite byte_behind, u32_digit_test, Hnd by lia.
    reflexivity.
  - unfold __str2uic. rewrite Nat2Z.id, !length_app.
    replace (S (length pre + (length digits + length post) - length pre))
      with (length digits + S (length post))%nat by lia.
    change 0 with (u32 0) at 1. rewrite str2uic_loop_run by assumption.
    fold (decimal digits). cbn [str2uic_loop].
    rewrite byte_behind, u32_digit_test, Hnd by lia. reflexivity.
  - unfold __read_uint.
    replace (Z.to_nat (Z.of_nat (length pre) + len - Z.of_nat (length pre)))
      with (length digits + (Z.to_nat len - length digits))%nat by lia.
    change 0 with (u32 0) at 1.
    rewrite read_uint_loop_run by (assumption || lia).
    fold (decimal digits).
    destruct (Z.to_nat len - length digits)%nat; [reflexivity|].
    cbn [read_uint_loop]. rewrite byte_behind, u32_digit_test, Hnd by lia.
    destruct (_ <? _); reflexivity.
Qed.

(** The four readers on [8080] in [:8080/]. *)
Lemma decimal_readers_agree_witness :
  let mem := bytes ":8080/" in
  __strl2ui mem 1 4 = 8080 /\ __strl2uic mem 1 5 = 8080
  /\ __str2uic mem 1 = 8080 /\ fst (__read_uint mem 1 6) = 8080.
Proof.
  apply (decimal_readers_agree (bytes ":") (bytes "8080") (bytes "/") 5).
  - repeat constructor.
  - vm_compute. split; discriminate.
  - reflexivity.
  - cbn. lia.
Defined.

(* ===================================================================== *)
(** ** Sessions: how a server-side error ends a session *)
(* ===================================================================== *)

Lemma clrf_lor_inside f c m : Z.land c m = c -> clrf (Z.lor f c) m = clrf f m.
Proof.
  intros Hc. unfold clrf. rewrite Z.land_lor_distr_l.
  rewrite <- Hc, <- Z.land_assoc, Z.land_lnot_diag, Z.land_0_r.
  apply Z.lor_0_r.
Qed.

Lemma set_term_flags_others {ext} err fin (s : session ext) :
  Z.land err (Z.lor SN_ERR_MASK SN_FINST_MASK) = err ->
  Z.land fin (Z.lor SN_ERR_MASK SN_FINST_MASK) = fin ->
  clrf (s_flags (set_term_flags err fin s)) (Z.lor SN_ERR_MASK SN_FINST_MASK)
  = clrf (s_flags s) (Z.lor SN_ERR_MASK SN_FINST_MASK).
Proof.
  intros He Hf. unfold set_term_flags.
  destruct (has (s_flags s) SN_ERR_MASK); cbn [s_flags set_s_flags];
    match goal with |- context [if ?c then _ else _] => destruct c end;
    cbn [s_flags set_s_flags]; unfold setf;
    rewrite ?clrf_lor_inside by assumption; reflexivity.
Qed.

Lemma has_land_true f m : has f m = true -> Z.land f m <> 0.
Proof. unfold has. intros H. apply negb_true_iff, Z.eqb_neq in H. exact H. Qed.

(** The codes [default_srv_error] chooses from. *)
Lemma default_srv_error_codes {ext} (s : session ext) :
  exists err fin,
    default_srv_error s = set_term_flags err fin s
    /\ In (err, fin)
          [(SN_ERR_CLICL, SN_FINST_Q); (SN_ERR_CLICL, SN_FINST_C);
           (SN_ERR_SRVTO, SN_FINST_Q); (SN_ERR_SRVCL, SN_FINST_Q);
           (SN_ERR_SRVTO, SN_FINST_C); (SN_ERR_SRVCL, SN_FINST_C);
           (SN_ERR_INTERNAL, SN_FINST_C)]
    /\ (has (si_err_type (si1 s)) (Z.lor SI_ET_QUEUE_ABRT SI_ET_CONN_ABRT)
        = true -> err = SN_ERR_CLICL).
Proof.
  unfold default_srv_error. rewrite has_or.
  repeat match goal with
  | |- context [if has (si_err_type (si1 s)) ?m then _ else _] =>
    destruct (has (si_err_type (si1 s)) m)
  end;
  eexists _, _; (split; [reflexivity|]); (split; [cbn; tauto|]);
  cbn [orb]; intros H; discriminate || reflexivity.
Qed.

(** [default_srv_error] completes the termination flags and touches
    nothing else: afterwards an error class and a finish stage are both
    recorded, what was recorded before is kept, every other bit of the
    flag word and the rest of the session are as they were, and a second
    call changes nothing.  With no class recorded, an abort by the client
    is reported as such whatever other errors the interface has seen. *)
Theorem default_srv_error_completes {ext} (s : session ext) :
  let s' := default_srv_error s in
  s' = set_s_flags (s_flags s') s
  /\ has (s_flags s') SN_ERR_MASK = true
  /\ has (s_flags s') SN_FINST_MASK = true
  /\ (has (s_flags s) SN_ERR_MASK = true ->
      Z.land (s_flags s') SN_ERR_MASK = Z.land (s_flags s) SN_ERR_MASK)
  /\ (has (s_flags s) SN_FINST_MASK = true ->
      Z.land (s_flags s') SN_FINST_MASK = Z.land (s_flags s) SN_FINST_MASK)
  /\ clrf (s_flags s') (Z.lor SN_ERR_MASK SN_FINST_MASK)
     = clrf (s_flags s) (Z.lor SN_ERR_MASK SN_FINST_MASK)
  /\ default_srv_error s' = s'
  /\ (has (s_flags s) SN_ERR_MASK = false ->
      has (si_err_type (si1 s)) (Z.lor SI_ET_QUEUE_ABRT SI_ET_CONN_ABRT)
      = true ->
      Z.land (s_flags s') SN_ERR_MASK = SN_ERR_CLICL).
Proof.
  intros s'. subst s'.
  destruct (default_srv_error_codes s) as (err & fin & Heq & Hin & Habrt).
  rewrite Heq.
  assert (Hcodes :
            Z.land err SN_ERR_MASK = err /\ Z.land err SN_FINST_MASK = 0
            /\ Z.land fin SN_FINST_MASK = fin /\ Z.land fin SN_ERR_MASK = 0
            /\ Z.land err (Z.lor SN_ERR_MASK SN_FINST_MASK) = err
            /\ Z.land fin (Z.lor SN_ERR_MASK SN_FINST_MASK) = fin
            /\ err <> 0 /\ fin <> 0).
  { cbn [In] in Hin.
    repeat (destruct Hin as [Hin|Hin];
            [injection Hin as <- <-; vm_compute; repeat split; discriminate|]).
    contradiction. }
  destruct Hcodes as (He1 & He2 & Hf1 & Hf2 & He3 & Hf3 & He0 & Hf0).
  pose proof (set_term_flags_spec err fin s He1 He2 Hf1 Hf2) as Hspec.
  cbv zeta in Hspec. destruct Hspec as (Hrec & Herr & Hfin).
  pose proof (set_term_flags_others err fin s He3 Hf3) as Hoth.
  set (s' := set_term_flags err fin s) in *.
  assert (Hhe : has (s_flags s') SN_ERR_MASK = true).
  { unfold has at 1. rewrite Herr. apply negb_true_iff, Z.eqb_neq.
    destruct (has (s_flags s) SN_ERR_MASK) eqn:E; [|exact He0].
    apply has_land_true. exact E. }
  assert (Hhf : has (s_flags s') SN_FINST_MASK = true).
  { unfold has at 1. rewrite Hfin. apply negb_true_iff, Z.eqb_neq.
    destruct (has (s_flags s) SN_FINST_MASK) eqn:E; [|exact Hf0].
    apply has_land_true. exact E. }
  split; [exact Hrec|]. split; [exact Hhe|]. split; [exact Hhf|].
  split; [intros E; rewrite Herr, E; reflexivity|].
  split; [intros E; rewrite Hfin, E; reflexivity|].
  split; [exact Hoth|]. split.
  - unfold default_srv_error.
    destruct (if has (si_err_type (si1 s')) SI_ET_QUEUE_ABRT then _ else _)
      as [e f].
    rewrite Hhe, Hhf. reflexivity.
  - intros E Hab. rewrite Herr, E. apply Habrt. exact Hab.
Qed.

Lemma default_srv_error_completes_witness :
  let s := set_si1 (mksi SI_ST_CER (Z.lor SI_ET_CONN_TO SI_ET_CONN_ABRT)
                         None 0 0) (last_retry_session 0) in
  Z.land (s_flags (default_srv_error s)) SN_ERR_MASK = SN_ERR_CLICL.
Proof.
  intros s. pose proof (default_srv_error_completes s) as H.
  cbv zeta in H. destruct H as (_ & _ & _ & _ & _ & _ & _ & H).
  apply H; reflexivity.
Defined.

(* ===================================================================== *)
(** ** Sessions: connection slots *)
(* ===================================================================== *)

Lemma total_served_alter (f : server -> server) (srvs : list server)
      (i : nat) (x : server) :
  srvs !! i = Some x ->
  total_served (alter f i srvs)
  = total_served srvs + (served (f x) - served x).
Proof.
  revert i. induction srvs as [|y srvs IH]; intros i Hi.
  - discriminate.
  - destruct i as [|i].
    + injection Hi as ->. cbn. lia.
    + change (alter f (S i) (y :: srvs)) with (y :: alter f i srvs).
      change (total_served (y :: alter f i srvs))
        with (served y + total_served (alter f i srvs)).
      change (total_served (y :: srvs)) with (served y + total_served srvs).
      rewrite (IH i Hi). lia.
Qed.

Section SlotProps.

Variable ext : Type.
Variable server_drop_conn : option (nat -> ext -> ext).
Variable server_take_conn : option (nat -> ext -> ext).

(** [sess_change_server] moves the session's connection slot: afterwards
    the session counts on [newsrv] and on no other server, the sum of
    the [served] counts has changed by the slots taken and given back
    only, servers other than the old and the new one are untouched, and
    asking again for the same server changes nothing. *)
Theorem sess_change_server_moves_slot (sess : session ext)
        (newsrv : option nat) :
  (forall i, srv_conn sess = Some i -> (i < length (servers sess))%nat) ->
  (forall j, newsrv = Some j -> (j < length (servers sess))%nat) ->
  let s' := sess_change_server server_drop_conn server_take_conn sess
                               newsrv in
  srv_conn s' = newsrv
  /\ total_served (servers s')
     = total_served (servers sess) + slot newsrv - slot (srv_conn sess)
  /\ (forall k, srv_conn sess <> Some k -> newsrv <> Some k ->
      servers s' !! k = servers sess !! k)
  /\ (forall j, newsrv = Some j -> srv_conn sess <> Some j ->
      served <$> servers s' !! j
      = (fun x => served x + 1) <$> servers sess !! j)
  /\ (forall i, srv_conn sess = Some i -> newsrv <> Some i ->
      served <$> servers s' !! i
      = (fun x => served x - 1) <$> servers sess !! i)
  /\ sess_change_server server_drop_conn server_take_conn s' newsrv = s'.
Proof.
  intros Hold Hnew s'.
  assert (Hconn : srv_conn s' = newsrv).
  { subst s'. unfold sess_change_server.
    destruct (decide (srv_conn sess = newsrv)) as [E|E]; [exact E|].
    destruct (srv_conn sess), newsrv; reflexivity || contradiction. }
  split; [exact Hconn|].
  assert (Hidem :
            sess_change_server server_drop_conn server_take_conn s' newsrv
            = s').
  { unfold sess_change_server at 1.
    destruct (decide (srv_conn s' = newsrv)); [reflexivity|contradiction]. }
  cut (total_served (servers s')
       = total_served (servers sess) + slot newsrv - slot (srv_conn sess)
       /\ (forall k, srv_conn sess <> Some k -> newsrv <> Some k ->
           servers s' !! k = servers sess !! k)
       /\ (forall j, newsrv = Some j -> srv_conn sess <> Some j ->
           served <$> servers s' !! j
           = (fun x => served x + 1) <$> servers sess !! j)
       /\ (forall i, srv_conn sess = Some i -> newsrv <> Some i ->
           served <$> servers s' !! i
           = (fun x => served x - 1) <$> servers sess !! i)).
  { intros (H1 & H2 & H3 & H4). repeat split; assumption. }
  clear Hidem Hconn. subst s'. unfold sess_change_server.
  destruct (decide (srv_conn sess = newsrv)) as [E|E].
  { split; [rewrite E; lia|]. split; [reflexivity|].
    split; intros k Hk1 Hk2; congruence. }
  destruct (srv_conn sess) as [i|] eqn:Eold; destruct newsrv as [j|];
    try contradiction; unfold update_server;
    cbn [servers set_servers set_world set_srv_conn slot].
  - (* from server i to server j *)
    assert (Hij : i <> j) by congruence.
    destruct (lookup_lt_is_Some_2 (servers sess) i (Hold i eq_refl))
      as [x Hx].
    destruct (lookup_lt_is_Some_2 (servers sess) j (Hnew j eq_refl))
      as [y Hy].
    split.
    { rewrite (total_served_alter _ _ j y)
        by (rewrite list_lookup_alter_ne by exact Hij; exact Hy).
      rewrite (total_served_alter _ _ i x Hx). cbn. lia. }
    split.
    { intros k Hk1 Hk2.
      rewrite !list_lookup_alter_ne by congruence. reflexivity. }
    split.
    { intros j' Hj' _. injection Hj' as <-.
      rewrite list_lookup_alter_eq, list_lookup_alter_ne by exact Hij.
      rewrite Hy. reflexivity. }
    intros i' Hi' _. injection Hi' as <-.
    rewrite list_lookup_alter_ne, list_lookup_alter_eq by congruence.
    rewrite Hx. reflexivity.
  - (* the slot on server i is given back *)
    destruct (lookup_lt_is_Some_2 (servers sess) i (Hold i eq_refl))
      as [x Hx].
    split; [rewrite (total_served_alter _ _ i x Hx); cbn; lia|].
    split.
    { intros k Hk1 _. rewrite list_lookup_alter_ne by congruence.
      reflexivity. }
    split; [intros j Hj; discriminate|].
    intros i' Hi' _. injection Hi' as <-.
    rewrite list_lookup_alter_eq, Hx. reflexivity.
  - (* a slot is taken on server j *)
    destruct (lookup_lt_is_Some_2 (servers sess) j (Hnew j eq_refl))
      as [y Hy].
    split; [rewrite (total_served_alter _ _ j y Hy); cbn; lia|].
    split.
    { intros k _ Hk2. rewrite list_lookup_alter_ne by congruence.
      reflexivity. }
    split.
    { intros j' Hj' _. injection Hj' as <-.
      rewrite list_lookup_alter_eq, Hy. reflexivity. }
    intros i Hi. discriminate.
Qed.

End SlotProps.

(** The session of the retry example gives its slot on server 0 back. *)
Lemma sess_change_server_moves_slot_witness :
  total_served
    (servers (sess_change_server None None (last_retry_session 0) None))
  = 0.
Proof.
  pose proof (sess_change_server_moves_slot unit None None
                (last_retry_session 0) None) as H.
  cbv zeta in H.
  destruct H as (_ & H & _).
  - intros i Hi. injection Hi as <-. cbn. lia.
  - intros j Hj. discriminate.
  - rewrite H. reflexivity.
Defined.

(* ===================================================================== *)
(** ** Sessions: a connection in progress *)
(* ===================================================================== *)

Lemma has_clrf_other f m k :
  Z.land m k = 0 -> has (clrf f m) k = has f k.
Proof.
  intros Hm. unfold has, clrf. f_equal. f_equal.
  apply Z.bits_inj'. intros n Hn.
  rewrite !Z.land_spec, Z.lnot_spec by lia.
  assert (Hb : Z.testbit (Z.land m k) n = false) by (rewrite Hm; apply Z.bits_0).
  rewrite Z.land_spec in Hb.
  destruct (Z.testbit f n), (Z.testbit m n), (Z.testbit k n);
    cbn in *; congruence.
Qed.

Section ConnectingProps.

Variable ext : Type.
Variable shutw :
  stream_interface -> buffer -> buffer -> ext ->
  stream_interface * buffer * buffer * ext.
Variable srv_error : option (session ext -> session ext).
Variable fd_delete : ext -> ext.
Variable log_t_connect : ext -> ext.
Variable SI_FL_CAP_SPLICE : Z.
Variable BF_WRITE_ACTIVITY : Z.
Variable PR_O_ABRT_CLOSE : Z.
Variable TICK_ETERNITY : Z.

#[local] Abbreviation con_tcp :=
  (sess_update_st_con_tcp shutw srv_error fd_delete log_t_connect
                          SI_FL_CAP_SPLICE BF_WRITE_ACTIVITY PR_O_ABRT_CLOSE
                          TICK_ETERNITY).

(** [sess_update_st_con_tcp] returns 0 exactly when the interface has
    expired or failed, and 1 otherwise.  When it returns 0 the interface
    is in [CER] with a cause recorded: the one it had, or else a
    connection error if the error flag is set and a connection timeout if
    not; the buffers, the session flags and the servers are as they
    were.  With neither an expiry, an error nor a shutdown of the output
    side, the interface becomes [EST] without any error once the request
    buffer has seen write activity, and until then the session is left
    as it is. *)
Theorem sess_update_st_con_tcp_outcome (s : session ext) :
  Z.land SI_FL_CAP_SPLICE SI_FL_ERR = 0 ->
  let '(ret, s') := con_tcp s in
  (ret = 0 <-> has (si_flags (si1 s)) (Z.lor SI_FL_EXP SI_FL_ERR) = true)
  /\ (ret = 0 \/ ret = 1)
  /\ (ret = 0 ->
      si_state_of (si1 s') = SI_ST_CER
      /\ si_exp (si1 s') = TICK_ETERNITY
      /\ si_err_type (si1 s')
         = (if si_err_type (si1 s) =? 0
            then if has (si_flags (si1 s)) SI_FL_ERR
                 then SI_ET_CONN_ERR else SI_ET_CONN_TO
            else si_err_type (si1 s))
      /\ si_err_type (si1 s') <> 0
      /\ req s' = req s /\ rep s' = rep s /\ s_flags s' = s_flags s
      /\ servers s' = servers s /\ conn_retries s' = conn_retries s)
  /\ (has (si_flags (si1 s)) (Z.lor SI_FL_EXP SI_FL_ERR) = false ->
      has (flags (rep s)) BF_SHUTW = false ->
      has (flags (req s)) BF_SHUTW_NOW = false ->
      if has (flags (req s)) BF_WRITE_ACTIVITY
      then si_state_of (si1 s') = SI_ST_EST
           /\ si_err_type (si1 s') = SI_ET_NONE
           /\ si_err_loc (si1 s') = None
           /\ si_exp (si1 s') = TICK_ETERNITY
           /\ req s' = req s /\ rep s' = rep s /\ s_flags s' = s_flags s
      else s' = s).
Proof.
  intros Hsplice. unfold sess_update_st_con_tcp.
  destruct (has (si_flags (si1 s)) (Z.lor SI_FL_EXP SI_FL_ERR)) eqn:Herr.
  - cbv zeta.
    cbn [si1 set_si1 si_flags set_si_flags set_si_state_of set_si_exp
         set_si_err_loc si_err_type world set_world srv].
    rewrite has_clrf_other by exact Hsplice.
    destruct (si_err_type (si1 s) =? 0) eqn:Et; cbn [negb].
    + destruct (has (si_flags (si1 s)) SI_FL_ERR) eqn:Hfl.
      * split; [tauto|]. split; [tauto|]. split; [|discriminate].
        intros _. cbn. repeat split; discriminate || reflexivity.
      * split; [tauto|]. split; [tauto|]. split; [|discriminate].
        intros _. cbn. repeat split; discriminate || reflexivity.
    + split; [tauto|]. split; [tauto|]. split; [|discriminate].
      intros _. cbn. apply Z.eqb_neq in Et.
      repeat split; try reflexivity; exact Et.
  - destruct (has (flags (rep s)) BF_SHUTW
              || has (flags (req s)) BF_SHUTW_NOW
                 && ((Z.land (flags (req s))
                             (Z.lor BF_OUT_EMPTY BF_WRITE_ACTIVITY)
                      =? BF_OUT_EMPTY)
                     || has (options (be s)) PR_O_ABRT_CLOSE)) eqn:Habrt.
    + split; [split; discriminate|]. split; [tauto|].
      split; [discriminate|].
      intros _ H1 H2. rewrite H1, H2 in Habrt. discriminate.
    + destruct (has (flags (req s)) BF_WRITE_ACTIVITY) eqn:Hact; cbn [negb].
      * split; [split; discriminate|]. split; [tauto|].
        split; [discriminate|]. intros _ _ _. cbn. repeat split; reflexivity.
      * split; [split; discriminate|]. split; [tauto|].
        split; [discriminate|]. intros _ _ _. reflexivity.
Qed.

End ConnectingProps.

(** A connection that timed out is left in [CER] with a connection
    timeout as its cause. *)
Lemma sess_update_st_con_tcp_outcome_witness :
  let r := sess_update_st_con_tcp plain_shutw (Some default_srv_error)
             (fun x => x) (fun x => x) 0x10 0x300 0x40 0
             (last_retry_session SI_FL_EXP) in
  fst r = 0 /\ si_err_type (si1 (snd r)) = SI_ET_CONN_TO.
Proof.
  intros r.
  pose proof (sess_update_st_con_tcp_outcome unit plain_shutw
                (Some default_srv_error) (fun x => x) (fun x => x)
                0x10 0x300 0x40 0 (last_retry_session SI_FL_EXP) eq_refl)
    as H.
  fold r in H. destruct r as [ret s'].
  destruct H as ((_ & Hr) & _ & H & _).
  pose proof (Hr eq_refl) as H0. destruct (H H0) as (_ & _ & Ht & _).
  split; [exact H0|exact Ht].
Defined.

(* ===================================================================== *)
(** ** Sessions: from a failed connection to the end of the session *)
(* ===================================================================== *)

Lemma default_srv_error_conn (ext : Type) (m : session ext) :
  has (s_flags m) SN_ERR_MASK = false ->
  has (s_flags m) SN_FINST_MASK = false ->
  (si_err_type (si1 m) = SI_ET_CONN_ERR ->
   Z.land (s_flags (default_srv_error m)) SN_ERR_MASK = SN_ERR_SRVCL
   /\ Z.land (s_flags (default_srv_error m)) SN_FINST_MASK = SN_FINST_C)
  /\ (si_err_type (si1 m) = SI_ET_CONN_TO ->
      Z.land (s_flags (default_srv_error m)) SN_ERR_MASK = SN_ERR_SRVTO
      /\ Z.land (s_flags (default_srv_error m)) SN_FINST_MASK = SN_FINST_C).
Proof.
  intros He Hf. split; intros Ht.
  - assert (Heq : default_srv_error m
                  = set_term_flags SN_ERR_SRVCL SN_FINST_C m)
      by (unfold default_srv_error; rewrite Ht; reflexivity).
    rewrite Heq.
    destruct (set_term_flags_spec SN_ERR_SRVCL SN_FINST_C m
                eq_refl eq_refl eq_refl eq_refl) as (_ & H1 & H2).
    rewrite He in H1. rewrite Hf in H2. split; assumption.
  - assert (Heq : default_srv_error m
                  = set_term_flags SN_ERR_SRVTO SN_FINST_C m)
      by (unfold default_srv_error; rewrite Ht; reflexivity).
    rewrite Heq.
    destruct (set_term_flags_spec SN_ERR_SRVTO SN_FINST_C m
                eq_refl eq_refl eq_refl eq_refl) as (_ & H1 & H2).
    rewrite He in H1. rewrite Hf in H2. split; assumption.
Qed.

Lemma default_srv_error_flags_only (ext : Type) (m : session ext) :
  default_srv_error m = set_s_flags (s_flags (default_srv_error m)) m.
Proof.
  destruct (default_srv_error_codes m) as (err & fin & Heq & _).
  rewrite Heq. unfold set_term_flags.
  destruct (has (s_flags m) SN_ERR_MASK); cbn [s_flags set_s_flags];
    match goal with |- context [if ?c then _ else _] => destruct c end;
    destruct m; reflexivity.
Qed.

Section ConnectFailure.

Variable ext : Type.
Variable health_adjust : nat -> Z -> ext -> ext.
Variable HANA_STATUS_L4_ERR : Z.
Variable may_dequeue_tasks : option nat -> session ext -> bool.
Variable process_srv_queue : nat -> ext -> ext.
Variable server_drop_conn : option (nat -> ext -> ext).
Variable server_take_conn : option (nat -> ext -> ext).
Variable shutw :
  stream_interface -> buffer -> buffer -> ext ->
  stream_interface * buffer * buffer * ext.
Variable srv_error : option (session ext -> session ext).
Variable now_ms : Z.
Variable tick_add : Z -> Z -> Z.
Variable MS_TO_TICKS : Z -> Z.
Variable fd_delete : ext -> ext.
Variable log_t_connect : ext -> ext.
Variable SI_FL_CAP_SPLICE : Z.
Variable BF_WRITE_ACTIVITY : Z.
Variable PR_O_ABRT_CLOSE : Z.
Variable TICK_ETERNITY : Z.

Lemma si_shutw_cause (s : session ext) :
  shutw_keeps_cause shutw ->
  si_err_type (si1 (si_shutw shutw s)) = si_err_type (si1 s).
Proof.
  intros Hk. unfold si_shutw.
  pose proof (Hk (si1 s) (req s) (rep s) (world s)) as H.
  destruct (shutw _ _ _ _) as [[[si ob] ib] x]. exact H.
Qed.

(** The branch of sess_update_st_cer without a retry left, for an
    interface that has its cause. *)
Lemma cer_exhausted (s : session ext) :
  shutw_keeps_cause shutw ->
  conn_retries s < 1 -> si_err_type (si1 s) <> 0 ->
  exists mid,
    sess_update_st_cer health_adjust HANA_STATUS_L4_ERR may_dequeue_tasks
      process_srv_queue server_drop_conn server_take_conn shutw srv_error
      now_ms tick_add MS_TO_TICKS s
    = (0, call_hook srv_error mid)
    /\ si_state_of (si1 mid) = SI_ST_CLO
    /\ si_err_type (si1 mid) = si_err_type (si1 s)
    /\ s_flags mid = (if bool_decide (srv s <> None)
                      then clrf (s_flags s) SN_CURR_SESS else s_flags s)
    /\ failed_conns (px_counters (be mid))
       = failed_conns (px_counters (be s)) + 1
    /\ srv_conn mid = None.
Proof.
  intros Hk Hretries Hcause.
  unfold sess_update_st_cer. cbv zeta.
  pose proof (cer_release_frame ext health_adjust HANA_STATUS_L4_ERR s)
    as Hrel. cbv zeta in Hrel.
  match type of Hrel with conn_retries ?x = _ /\ _ => set (s0 := x) in * end.
  destruct Hrel as (Hretr & Hsrv & Hconn & Hbe & Hsi & Hfl & Hcnt).
  clearbody s0.
  destruct (Z.ltb_spec (conn_retries s0) 0) as [Hneg|Hpos]; [|lia].
  eexists. split; [reflexivity|].
  destruct (Z.eqb_spec (si_err_type (si1 s0)) 0) as [E|_];
    [rewrite Hsi in E; contradiction|].
  set (s2 := match srv s0 with Some _ => _ | None => s0 end).
  assert (H2 : be s2 = be s0 /\ si1 s2 = si1 s0 /\ s_flags s2 = s_flags s0).
  { subst s2. destruct (srv s0); repeat split; reflexivity. }
  destruct H2 as (H2b & H2i & H2f).
  match goal with |- context [sess_change_server _ _ ?x None] =>
    set (s3 := x);
    pose proof (change_server_none ext server_drop_conn server_take_conn s3)
      as H4; cbv zeta in H4;
    set (s4 := sess_change_server server_drop_conn server_take_conn s3 None)
      in * end.
  destruct H4 as (H4c & _ & H4f & _ & H4b & H4i & _ & _ & _).
  pose proof (dequeue_frame ext may_dequeue_tasks process_srv_queue s4) as H5.
  cbv zeta in H5.
  set (s5 := dequeue may_dequeue_tasks process_srv_queue s4) in *.
  destruct H5 as (H5c & _ & H5f & _ & H5b & H5i & _ & _ & _ & _).
  pose proof (si_shutw_frame ext shutw s5) as H6. cbv zeta in H6.
  pose proof (si_shutw_cause s5 Hk) as H6i.
  set (s6 := si_shutw shutw s5) in *.
  destruct H6 as (H6c & _ & H6f & _ & H6b & _).
  cbn [si1 set_si1 set_rep set_req si_state_of set_si_state_of si_err_type
       s_flags be srv_conn].
  rewrite H6i, H5i, H4i, H6f, H5f, H4f, H6b, H5b, H4b, H6c, H5c, H4c.
  subst s3. cbn [si1 s_flags be set_be px_counters set_px_counters
                 failed_conns set_failed_conns].
  rewrite H2i, H2f, H2b, Hsi, Hfl, Hbe.
  repeat split; reflexivity.
Qed.

(** A connection that times out or fails when no retry is left ends the
    session: sess_update_st_con_tcp returns 0, sess_update_st_cer closes
    the interface, gives the connection slot back and counts a failed
    connection on the backend, and [default_srv_error] records the
    stage [C] with the class [SRVTO] for a timeout and [SRVCL] for an
    error. *)
Theorem connect_failure_ends_session (s : session ext) :
  Z.land SI_FL_CAP_SPLICE SI_FL_ERR = 0 ->
  shutw_keeps_cause shutw ->
  srv_error = Some default_srv_error ->
  has (si_flags (si1 s)) (Z.lor SI_FL_EXP SI_FL_ERR) = true ->
  si_err_type (si1 s) = 0 ->
  conn_retries s < 1 ->
  has (s_flags s) SN_ERR_MASK = false ->
  has (s_flags s) SN_FINST_MASK = false ->
  let '(r1, s1) :=
    sess_update_st_con_tcp shutw srv_error fd_delete log_t_connect
      SI_FL_CAP_SPLICE BF_WRITE_ACTIVITY PR_O_ABRT_CLOSE TICK_ETERNITY s in
  let '(r2, s2) :=
    sess_update_st_cer health_adjust HANA_STATUS_L4_ERR may_dequeue_tasks
      process_srv_queue server_drop_conn server_take_conn shutw srv_error
      now_ms tick_add MS_TO_TICKS s1 in
  r1 = 0 /\ r2 = 0
  /\ si_state_of (si1 s2) = SI_ST_CLO
  /\ Z.land (s_flags s2) SN_ERR_MASK
     = (if has (si_flags (si1 s)) SI_FL_ERR then SN_ERR_SRVCL
        else SN_ERR_SRVTO)
  /\ Z.land (s_flags s2) SN_FINST_MASK = SN_FINST_C
  /\ failed_conns (px_counters (be s2))
     = failed_conns (px_counters (be s)) + 1
  /\ srv_conn s2 = None.
Proof.
  intros Hsplice Hk Hhook Herr Hnone Hretries Hne Hnf.
  unfold sess_update_st_con_tcp. rewrite Herr. cbv zeta.
  cbn [si1 set_si1 si_flags set_si_flags set_si_state_of set_si_exp
       set_si_err_loc si_err_type world set_world srv].
  rewrite has_clrf_other by exact Hsplice.
  rewrite Hnone. cbn [Z.eqb negb].
  set (cause := if has (si_flags (si1 s)) SI_FL_ERR
                then SI_ET_CONN_ERR else SI_ET_CONN_TO).
  match goal with
  | |- let '(_, _) := (if ?c then (0, ?a) else (0, ?b)) in _ =>
    set (s1 := if c then a else b);
    replace (if c then (0, a) else (0, b)) with (0, s1)
      by (subst s1; destruct c; reflexivity)
  end.
  assert (H1 : conn_retries s1 = conn_retries s /\ s_flags s1 = s_flags s
               /\ be s1 = be s /\ srv s1 = srv s
               /\ si_err_type (si1 s1) = cause).
  { subst s1 cause. destruct (has (si_flags (si1 s)) SI_FL_ERR);
      repeat split; reflexivity. }
  destruct H1 as (H1r & H1f & H1b & H1s & H1c). clearbody s1.
  destruct (cer_exhausted s1 Hk) as (mid & Hcer & Hst & Hty & Hfl & Hcnt & Hco).
  { lia. }
  { rewrite H1c. subst cause. destruct (has _ SI_FL_ERR); discriminate. }
  rewrite Hcer. rewrite Hhook. cbn [call_hook].
  assert (Hme : has (s_flags mid) SN_ERR_MASK = false).
  { rewrite Hfl. destruct (bool_decide _);
      rewrite ?has_clrf_other by reflexivity; rewrite H1f; exact Hne. }
  assert (Hmf : has (s_flags mid) SN_FINST_MASK = false).
  { rewrite Hfl. destruct (bool_decide _);
      rewrite ?has_clrf_other by reflexivity; rewrite H1f; exact Hnf. }
  destruct (default_srv_error_conn ext mid Hme Hmf) as [Hce Hct].
  pose proof (default_srv_error_flags_only ext mid) as Hrec.
  assert (Hkeep : si_state_of (si1 (default_srv_error mid))
                  = si_state_of (si1 mid)
                  /\ be (default_srv_error mid) = be mid
                  /\ srv_conn (default_srv_error mid) = srv_conn mid).
  { rewrite Hrec. repeat split; reflexivity. }
  destruct Hkeep as (Hk1 & Hk2 & Hk3).
  rewrite Hk1, Hk2, Hk3, Hst, Hcnt, Hco, H1b.
  rewrite Hty, H1c in Hce, Hct. subst cause.
  destruct (has (si_flags (si1 s)) SI_FL_ERR).
  - destruct (Hce eq_refl) as [Ha Hb]. rewrite Ha, Hb.
    repeat split; reflexivity.
  - destruct (Hct eq_refl) as [Ha Hb]. rewrite Ha, Hb.
    repeat split; reflexivity.
Qed.

End ConnectFailure.

(** A connect timeout on the last attempt is logged as [SRVTO] in stage
    [C]. *)
Lemma connect_failure_ends_session_witness :
  let s := set_conn_retries 0
             (set_si1 (mksi SI_ST_CON 0 None SI_FL_EXP 0)
                      (last_retry_session 0)) in
  let s1 := snd (sess_update_st_con_tcp plain_shutw
                   (Some default_srv_error) (fun x => x) (fun x => x)
                   0x10 0x300 0x40 0 s) in
  let s2 := snd (cer_on s1) in
  Z.land (s_flags s2) SN_ERR_MASK = SN_ERR_SRVTO
  /\ Z.land (s_flags s2) SN_FINST_MASK = SN_FINST_C.
Proof.
  intros s s1 s2.
  pose proof (connect_failure_ends_session unit (fun _ _ x => x) 0
                (fun _ _ => false) (fun _ x => x) None None plain_shutw
                (Some default_srv_error) 0 Z.add (fun ms => ms)
                (fun x => x) (fun x => x) 0x10 0x300 0x40 0 s
                eq_refl ltac:(intros si ob ib x; reflexivity) eq_refl
                eq_refl eq_refl ltac:(cbn; lia) eq_refl eq_refl) as H.
  unfold cer_on in s2. subst s2 s1.
  destruct (sess_update_st_con_tcp _ _ _ _ _ _ _ _ s) as [r1 s1].
  cbn [snd].
  destruct (sess_update_st_cer _ _ _ _ _ _ _ _ _ _ _ s1) as [r2 s2].
  destruct H as (_ & _ & _ & He & Hf & _).
  split; [exact He|exact Hf].
Defined.

(* ===================================================================== *)
(** ** The RDP cookie of the request *)
(* ===================================================================== *)

Lemma scan_while_run (mem : list Z) (go : Z -> bool) (k : nat) :
  forall fuel data bleft,
    (k < fuel)%nat -> Z.of_nat k < bleft ->
    (forall i, 0 <= i < Z.of_nat k -> go (byte_at mem (data + i)) = true) ->
    go (byte_at mem (data + Z.of_nat k)) = false ->
    scan_while fuel mem go data bleft
    = (data + Z.of_nat k, bleft - Z.of_nat k).
Proof.
  induction k as [|k IH]; intros fuel data bleft Hfuel Hk Hgo Hstop.
  - destruct fuel as [|fuel]; [lia|]. cbn [scan_while].
    rewrite Z.add_0_r in Hstop. rewrite Hstop, andb_false_r.
    f_equal; cbn; lia.
  - destruct fuel as [|fuel]; [lia|]. cbn [scan_while].
    destruct (Z.ltb_spec 0 bleft); [|lia].
    pose proof (Hgo 0 ltac:(lia)) as H0. rewrite Z.add_0_r in H0.
    rewrite H0. cbn [andb].
    rewrite (IH fuel (data + 1) (bleft - 1)); try lia.
    + f_equal; lia.
    + intros i Hi. replace (data + 1 + i) with (data + (i + 1)) by lia.
      apply Hgo. lia.
    + replace (data + 1 + Z.of_nat k) with (data + Z.of_nat (S k)) by lia.
      exact Hstop.
Qed.

Lemma strncasecmp_eq_all n : forall m1 p1 m2 p2,
  (forall i, 0 <= i < Z.of_nat n ->
     tolower (byte_at m1 (p1 + i)) = tolower (byte_at m2 (p2 + i))) ->
  strncasecmp_eq n m1 p1 m2 p2 = true.
Proof.
  induction n as [|n IH]; intros m1 p1 m2 p2 H; [reflexivity|].
  cbn [strncasecmp_eq].
  pose proof (H 0 ltac:(lia)) as H0. rewrite !Z.add_0_r in H0.
  rewrite H0, Z.eqb_refl. cbn [negb].
  destruct (byte_at m1 p1 =? 0); [reflexivity|].
  apply IH. intros i Hi.
  replace (p1 + 1 + i) with (p1 + (i + 1)) by lia.
  replace (p2 + 1 + i) with (p2 + (i + 1)) by lia.
  apply H. lia.
Qed.

(** In a request that holds, behind its first 11 bytes, the word
    [Cookie:] in any case, [k] spaces, the configured name in any case,
    [=], a value of [v] bytes without a carriage return and CR LF,
    [acl_fetch_rdp_cookie] finds the value: it returns 1 with the
    sample on the [v] bytes behind the [=]. *)
Theorem acl_fetch_rdp_cookie_finds_value {ext} (l4 : session ext) (dir : Z)
        (arg_str : list Z) (test : acl_test) (k n v : nat) :
  let mem := data (req l4) in
  let cookie := w (req l4) + 11 in
  let name := cookie + 7 + Z.of_nat k in
  let value := name + Z.of_nat n + 1 in
  (1 <= n)%nat ->
  11 + 7 + Z.of_nat k + Z.of_nat n + 1 + Z.of_nat v + 2 <= l (req l4) ->
  (forall i, 0 <= i < 7 ->
     tolower (byte_at mem (cookie + i))
     = tolower (byte_at (bytes "Cookie:") i)) ->
  (forall i, 0 <= i < Z.of_nat k -> byte_at mem (cookie + 7 + i) = 32) ->
  byte_at mem name <> 32 ->
  (forall i, 0 <= i < Z.of_nat n ->
     tolower (byte_at arg_str i) = tolower (byte_at mem (name + i))) ->
  byte_at mem (name + Z.of_nat n) = 61 ->
  (forall i, 0 <= i < Z.of_nat v -> byte_at mem (value + i) <> 13) ->
  byte_at mem (value + Z.of_nat v) = 13 ->
  byte_at mem (value + Z.of_nat v + 1) = 10 ->
  acl_fetch_rdp_cookie l4 dir arg_str (Z.of_nat n) test
  = (1, mktest (t_i test) value (Z.of_nat v) ACL_TEST_F_VOLATILE
               (t_ctx test)).
Proof.
  intros mem cookie name value Hn Hl Hcookie Hsp Hname Harg Heq Hval Hcr Hlf.
  unfold acl_fetch_rdp_cookie. cbv zeta. fold mem. fold cookie.
  destruct (Z.leb_spec (l (req l4)) 11); [lia|].
  destruct (Z.leb_spec (l (req l4) - 11) 7); [lia|].
  rewrite strncasecmp_eq_all by exact Hcookie. cbn [negb].
  rewrite (scan_while_run mem (fun c => c =? 32) k);
    [|lia|lia
     |intros i Hi; rewrite Hsp by lia; reflexivity
     |apply Z.eqb_neq; exact Hname].
  fold name.
  destruct (Z.eqb_spec (Z.of_nat n) 0); [lia|]. cbn [negb].
  destruct (Z.leb_spec (l (req l4) - 11 - 7 - Z.of_nat k) (Z.of_nat n));
    [lia|].
  rewrite Heq, Z.eqb_refl. cbn [negb orb].
  rewrite Nat2Z.id.
  rewrite strncasecmp_eq_all
    by (intros i Hi; rewrite !Z.add_0_l; apply Harg; exact Hi).
  cbn [negb].
  replace (name + (Z.of_nat n + 1)) with value by (subst value; lia).
  cbn [t_i t_ptr t_len t_flags t_ctx set_t_flags].
  rewrite (scan_while_run mem (fun c => negb (c =? 13)) v);
    [|lia|lia
     |intros i Hi; apply negb_true_iff, Z.eqb_neq, Hval; exact Hi
     |rewrite Hcr; reflexivity].
  destruct (Z.ltb_spec (l (req l4) - 11 - 7 - Z.of_nat k - (Z.of_nat n + 1)
                        - Z.of_nat v) 2); [lia|].
  rewrite Hcr, Hlf. cbn [Z.eqb Pos.eqb negb orb].
  unfold set_t_flags, set_t_len. cbn [t_i t_ptr t_len t_flags t_ctx].
  f_equal. f_equal. lia.
Qed.

(** The cookie [MSTS] is found in [Cookie: msts=16777343.20480.0000]. *)
Lemma acl_fetch_rdp_cookie_finds_value_witness :
  acl_fetch_rdp_cookie (rdp_session "16777343.20480.0000") ACL_DIR_REQ
                       (bytes "MSTS") 4 test_zero
  = (1, mktest 0 24 19 ACL_TEST_F_VOLATILE 0).
Proof.
  apply (acl_fetch_rdp_cookie_finds_value
           (rdp_session "16777343.20480.0000") ACL_DIR_REQ (bytes "MSTS")
           test_zero 1 4 19).
  - lia.
  - vm_compute. discriminate.
  - intros i Hi.
    apply Z.eqb_eq.
    apply (forallb_seqZ
             (fun i => tolower (byte_at (data (req (rdp_session
                         "16777343.20480.0000"))) (0 + 11 + i))
                       =? tolower (byte_at (bytes "Cookie:") i)) 0 7);
      [vm_compute; reflexivity|lia].
  - intros i Hi. assert (i = 0) as -> by lia. reflexivity.
  - vm_compute. discriminate.
  - intros i Hi.
    apply Z.eqb_eq.
    apply (forallb_seqZ
             (fun i => tolower (byte_at (bytes "MSTS") i)
                       =? tolower (byte_at (data (req (rdp_session
                            "16777343.20480.0000")))
                                           (0 + 11 + 7 + 1 + i))) 0 4);
      [vm_compute; reflexivity|lia].
  - reflexivity.
  - intros i Hi. apply Z.eqb_neq.
    apply negb_true_iff.
    apply (forallb_seqZ
             (fun i => negb (byte_at (data (req (rdp_session
                         "16777343.20480.0000")))
                                     (0 + 11 + 7 + 1 + 4 + 1 + i) =? 13))
             0 19); [vm_compute; reflexivity|lia].
  - reflexivity.
  - reflexivity.
Defined.

(* ===================================================================== *)
(** ** TCP content inspection: accepting, and the end of the wait *)
(* ===================================================================== *)

Section InspectMore.

Variable ext : Type.
Variable buffer_abort : buffer -> buffer.
Variable buffer_dont_connect : buffer -> buffer.
Variable tick_is_expired : Z -> Z -> bool.
Variable tick_isset : Z -> bool.
Variable tick_add_ifset : Z -> Z -> Z.
Variable TICK_ETERNITY : Z.
Variable now_ms : Z.

#[local] Abbreviation inspect' :=
  (tcp_inspect_request buffer_abort buffer_dont_connect tick_is_expired
     tick_isset tick_add_ifset TICK_ETERNITY now_ms).
#[local] Abbreviation each_rule' :=
  (inspect_each_rule buffer_abort buffer_dont_connect tick_isset
     tick_add_ifset now_ms).
#[local] Abbreviation accepted an_bit s :=
  (set_req (set_analyse_exp TICK_ETERNITY
              (set_analysers (clrf (analysers (req s)) an_bit) (req s))) s).

(** When no rule matches, or the first rule that matches is an accept
    rule, [tcp_inspect_request] returns 1; the analyser is removed from
    the request and its timer is cleared, and nothing else changes:
    nothing is counted and the rules behind the accept rule are not
    looked at. *)
Theorem tcp_inspect_request_accept fuel (s : session ext) an_bit
        (pre rest : list (tcp_rule ext)) :
  Forall (fun r => rule_matches tick_is_expired now_ms fuel s r = Some false)
         pre ->
  rest = []
  \/ (exists rule post,
        rest = rule :: post
        /\ rule_matches tick_is_expired now_ms fuel s rule = Some true
        /\ rule_action rule = TCP_ACT_ACCEPT) ->
  inspect' fuel (pre ++ rest) s an_bit = Some (1, accepted an_bit s).
Proof.
  intros Hpre Hrest. unfold tcp_inspect_request.
  rewrite (each_rule_skip ext buffer_abort buffer_dont_connect
             tick_is_expired tick_isset tick_add_ifset now_ms fuel s pre rest
             Hpre).
  destruct Hrest as [->|(rule & post & -> & Hm & Hact)].
  - cbn [inspect_each_rule]. destruct s as [? ? ? ? ? ? ? []]; reflexivity.
  - rewrite (each_rule_hit ext buffer_abort buffer_dont_connect
               tick_is_expired tick_isset tick_add_ifset now_ms fuel s rule
               post Hm), Hact.
    destruct s as [? ? ? ? ? ? ? []]; reflexivity.
Qed.

(** With the direction of a last call, a rule list whose conditions
    settle is left by a reject or runs to its end. *)
Lemma each_rule_final fuel (s : session ext) (rules : list (tcp_rule ext)) :
  Forall (fun r => forall cond pol,
            rule_cond r = Some (cond, pol) ->
            cond_settles fuel s ACL_DIR_REQ cond) rules ->
  each_rule' fuel 0 rules s = Some Rule_done
  \/ each_rule' fuel 0 rules s
     = Some (Rule_return (inspect_reject buffer_abort s)).
Proof.
  induction 1 as [|r rules Hr _ IH]; [left; reflexivity|].
  cbn [inspect_each_rule].
  destruct (rule_cond r) as [[cond pol]|] eqn:Hc.
  - change (Z.lor ACL_DIR_REQ 0) with ACL_DIR_REQ.
    destruct (eval_suites_ok s ACL_DIR_REQ fuel cond (Hr cond pol eq_refl)
                ACL_PAT_FAIL) as (res & Hres & Hok);
      [unfold acl_ok; auto|].
    unfold acl_exec_cond. rewrite Hres.
    destruct Hok as [->|[->|[_ Hp]]]; [| |discriminate].
    + (* PASS *)
      change (ACL_PAT_PASS =? ACL_PAT_MISS) with false. cbv iota.
      change (acl_pass ACL_PAT_PASS) with 1.
      destruct pol; cbn [Z.eqb].
      * destruct (rule_action r); [left|right]; reflexivity.
      * exact IH.
    + (* FAIL *)
      change (ACL_PAT_FAIL =? ACL_PAT_MISS) with false. cbv iota.
      change (acl_pass ACL_PAT_FAIL) with 0.
      destruct pol; cbn [Z.eqb].
      * exact IH.
      * destruct (rule_action r); [left|right]; reflexivity.
  - change (ACL_PAT_PASS =? 0) with false. cbv iota.
    destruct (rule_action r); [left|right]; reflexivity.
Qed.

(** [tcp_inspect_request] stops waiting once the request is complete:
    with a request buffer that is full or shut for reading, without an
    inspect delay, or with the delay expired, a call whose conditions
    settle either accepts and returns 1, or rejects as a matching reject
    rule does.  It never returns 0 with the analyser still in place. *)
Theorem tcp_inspect_request_final fuel (s : session ext) an_bit
        (rules : list (tcp_rule ext)) :
  has (flags (req s)) (Z.lor BF_SHUTR BF_FULL)
  || (inspect_delay (fe s) =? 0)
  || tick_is_expired (analyse_exp (req s)) now_ms = true ->
  Forall (fun r => forall cond pol,
            rule_cond r = Some (cond, pol) ->
            cond_settles fuel s ACL_DIR_REQ cond) rules ->
  inspect' fuel rules s an_bit = Some (1, accepted an_bit s)
  \/ (inspect' fuel rules s an_bit = Some (inspect_reject buffer_abort s)
      /\ fst (inspect_reject buffer_abort s) = 0
      /\ analysers (req (snd (inspect_reject buffer_abort s))) = 0).
Proof.
  intros Hfinal Hrules. unfold tcp_inspect_request. rewrite Hfinal.
  destruct (each_rule_final fuel s rules Hrules) as [-> | ->].
  - left. destruct s as [? ? ? ? ? ? ? []]; reflexivity.
  - right. split; [reflexivity|]. split; [reflexivity|].
    unfold inspect_reject. cbv zeta. cbn [snd].
    match goal with |- context [set_term_flags ?e ?f ?x] =>
      destruct (set_term_flags_spec e f x eq_refl eq_refl eq_refl eq_refl)
        as (Hrec & _);
      set (s1 := x) in *; set (s2 := set_term_flags e f s1) in *
    end.
    rewrite Hrec. clear Hrec. clearbody s2. subst s1.
    unfold count_on_frontend. cbn.
    destruct (listener_counters s); reflexivity.
Qed.

End InspectMore.

(** The debugging keywords settle at once, whatever they sample from. *)
Lemma debug_keywords_settle_on {env : Type} (e : env) (dir : Z)
      (k : acl_keyword env) :
  k = kw_always_true \/ k = kw_always_false \/ k = kw_wait_end ->
  match_two_valued k /\ fetch_settles 1 e dir (mkexpr k [] [] None).
Proof.
  intros Hk. split.
  - intros test pat. right.
    destruct Hk as [->|[->| ->]]; reflexivity.
  - intros acl_res.
    destruct Hk as [->|[->| ->]];
      cbv -[Z.lor Z.eqb has]; destruct (has dir 2);
      change (1 =? 0) with false; change (0 =? 0) with true;
      repeat (match goal with
      | |- context [has ?a ?b] =>
        let v := eval vm_compute in (has a b) in change (has a b) with v
      end; cbv iota beta);
      try destruct (_ =? _); discriminate.
Qed.

(** [accept] before [reject if TRUE]: the request is accepted. *)
Lemma tcp_inspect_request_accept_witness :
  inspect_on [rule_accept; rule_reject_if_true] (inspected_session 0)
  = Some (1, set_req (set_analyse_exp 0
                        (set_analysers
                           (clrf (analysers (req (inspected_session 0))) 2)
                           (req (inspected_session 0))))
                     (inspected_session 0)).
Proof.
  apply (tcp_inspect_request_accept unit plain_abort plain_dont_connect
           plain_tick_is_expired plain_tick_isset plain_tick_add_ifset 0 0
           1 (inspected_session 0) 2 [] [rule_accept; rule_reject_if_true]).
  - constructor.
  - right. exists rule_accept, [rule_reject_if_true].
    repeat split; reflexivity.
Defined.

(** [reject if WAIT_END] on a request that is shut for reading: the
    call does not wait. *)
Lemma tcp_inspect_request_final_witness :
  let s := set_req (set_flags BF_SHUTR (req (inspected_session 0)))
                   (inspected_session 0) in
  let rules :=
    [mkrule (Some ([[mkterm [mkexpr kw_wait_end [] [] None] false]],
                   ACL_COND_IF)) TCP_ACT_REJECT] in
  inspect_on rules s
  = Some (1, set_req (set_analyse_exp 0
                        (set_analysers (clrf (analysers (req s)) 2) (req s)))
                     s)
  \/ (inspect_on rules s = Some (inspect_reject plain_abort s)
      /\ fst (inspect_reject plain_abort s) = 0
      /\ analysers (req (snd (inspect_reject plain_abort s))) = 0).
Proof.
  intros s rules.
  apply (tcp_inspect_request_final unit plain_abort plain_dont_connect
           plain_tick_is_expired plain_tick_isset plain_tick_add_ifset 0 0
           1 s 2 rules).
  - reflexivity.
  - subst rules. constructor; [|constructor].
    intros cond pol Hc. injection Hc as <- <-.
    constructor; [|constructor].
    apply debug_keywords_settle_on. auto.
Defined.

(* ===================================================================== *)
(** ** The keyword registry *)
(* ===================================================================== *)

Lemma byte_at_cons (a : Z) (m : list Z) (p : Z) :
  0 <= p -> byte_at (a :: m) (p + 1) = byte_at m p.
Proof.
  intros Hp. unfold byte_at. replace (Z.to_nat (p + 1)) with (S (Z.to_nat p))
    by lia. reflexivity.
Qed.

Lemma strncmp_eq_cons n : forall a b m1 m2 p1 p2,
  0 <= p1 -> 0 <= p2 ->
  strncmp_eq n (a :: m1) (p1 + 1) (b :: m2) (p2 + 1)
  = strncmp_eq n m1 p1 m2 p2.
Proof.
  induction n as [|n IH]; intros a b m1 m2 p1 p2 H1 H2; [reflexivity|].
  cbn [strncmp_eq]. rewrite !byte_at_cons by lia.
  rewrite IH by lia. reflexivity.
Qed.

(** The test of find_acl_kw on one name: it holds exactly for the name
    that is the keyword up to [n]. *)
Lemma keyword_test (stem : list Z) : forall (name rest : list Z),
  Forall (fun c => c <> 0) stem -> Forall (fun c => c <> 0) name ->
  strncmp_eq (length stem) name 0 (stem ++ rest) 0
  && (byte_at name (Z.of_nat (length stem)) =? 0) = true
  <-> name = stem.
Proof.
  induction stem as [|c stem IH]; intros name rest Hstem Hname.
  - cbn [length strncmp_eq andb]. change (Z.of_nat 0) with 0.
    destruct name as [|d name].
    + split; reflexivity.
    + inversion Hname; subst. change (byte_at (d :: name) 0) with d.
      destruct (Z.eqb_spec d 0); [contradiction|].
      split; discriminate.
  - inversion Hstem as [|? ? Hc Hstem']; subst.
    cbn [length strncmp_eq app].
    destruct name as [|d name].
    + change (byte_at [] 0) with 0. change (byte_at (c :: stem ++ rest) 0) with c.
      destruct (Z.eqb_spec 0 c); [congruence|]. cbn. split; discriminate.
    + inversion Hname as [|? ? Hd Hname']; subst.
      change (byte_at (d :: name) 0) with d.
      change (byte_at (c :: stem ++ rest) 0) with c.
      destruct (Z.eqb_spec d c) as [->|Hne]; cbn [negb].
      * destruct (Z.eqb_spec c 0); [contradiction|].
        change (0 + 1) with (0 + 1). rewrite strncmp_eq_cons by lia.
        replace (Z.of_nat (S (length stem)))
          with (Z.of_nat (length stem) + 1) by lia.
        rewrite byte_at_cons by lia.
        rewrite (IH name rest Hstem' Hname').
        split; [intros ->; reflexivity|intros H; injection H; auto].
      * cbn. split; [discriminate|intros H; injection H; congruence].
Qed.

Lemma strchr_from_stem (stem : list Z) : forall fuel pre rest,
  plain_name stem ->
  strchr_from (length stem + fuel) (pre ++ stem ++ rest)
              (Z.of_nat (length pre)) 40
  = strchr_from fuel (pre ++ stem ++ rest)
                (Z.of_nat (length pre + length stem)) 40.
Proof.
  induction stem as [|c stem IH]; intros fuel pre rest Hplain.
  - cbn [length Nat.add]. rewrite Nat.add_0_r. reflexivity.
  - inversion Hplain as [|? ? [Hc0 Hc40] Hplain']; subst.
    cbn [length Nat.add strchr_from]. cbn [app]. rewrite byte_at_middle.
    destruct (Z.eqb_spec c 40); [contradiction|].
    destruct (Z.eqb_spec c 0); [contradiction|].
    specialize (IH fuel (pre ++ [c]) rest Hplain').
    rewrite <- !app_assoc in IH. cbn [app] in IH.
    rewrite length_app in IH. cbn [length] in IH.
    replace (Z.of_nat (length pre) + 1) with (Z.of_nat (length pre + 1)) by lia.
    rewrite IH.
    replace (length pre + 1 + length stem)%nat
      with (length pre + S (length stem))%nat by lia.
    reflexivity.
Qed.

Lemma strlen_from_stem (stem : list Z) : forall fuel pre,
  Forall (fun c => c <> 0) stem ->
  strlen_from (length stem + S fuel) (pre ++ stem) (Z.of_nat (length pre))
  = Z.of_nat (length stem).
Proof.
  induction stem as [|c stem IH]; intros fuel pre Hplain.
  - cbn [length Nat.add strlen_from]. rewrite app_nil_r, byte_at_end.
    reflexivity.
  - inversion Hplain as [|? ? Hc0 Hplain']; subst.
    cbn [length Nat.add strlen_from]. rewrite byte_at_middle.
    destruct (Z.eqb_spec c 0); [contradiction|].
    specialize (IH fuel (pre ++ [c]) Hplain').
    rewrite <- !app_assoc in IH. cbn [app] in IH.
    rewrite length_app in IH. cbn [length] in IH.
    replace (Z.of_nat (length pre) + 1) with (Z.of_nat (length pre + 1)) by lia.
    rewrite IH. lia.
Qed.

Lemma plain_name_no_nul (name : list Z) :
  plain_name name -> Forall (fun c => c <> 0) name.
Proof.
  intros H. eapply Forall_impl; [exact H|]. intros c [Hc _]. exact Hc.
Qed.

(** The end of the keyword proper: at the parenthesis, or at the end. *)
Lemma find_acl_kw_stem acl_keywords (stem tail : list Z) :
  plain_name stem -> tail = [] \/ (exists arg, tail = 40 :: arg) ->
  find_acl_kw acl_keywords (stem ++ tail)
  = find_in_lists acl_keywords (stem ++ tail) (Z.of_nat (length stem)) 0.
Proof.
  intros Hplain Htail. unfold find_acl_kw.
  replace (S (length (stem ++ tail)))
    with (length stem + S (length tail))%nat by (rewrite length_app; lia).
  pose proof (strchr_from_stem stem (S (length tail)) [] tail Hplain) as H.
  cbn [app length Nat.add] in H. change (Z.of_nat 0) with 0 in H.
  rewrite H. cbn [strchr_from].
  destruct Htail as [->|(arg & ->)].
  - rewrite app_nil_r, byte_at_end. cbn [Z.eqb].
    pose proof (strlen_from_stem stem 0 [] (plain_name_no_nul _ Hplain)) as Hl.
    cbn [app length Nat.add] in Hl. change (Z.of_nat 0) with 0 in Hl.
    cbn [length]. rewrite Hl. f_equal. lia.
  - pose proof (byte_at_middle stem 40 arg) as Hb. rewrite Hb.
    cbn [Z.eqb Pos.eqb]. f_equal. lia.
Qed.

Lemma find_in_kwl_spec (names : list (list Z)) (stem tail : list Z) :
  Forall (fun c => c <> 0) stem ->
  Forall (Forall (fun c => c <> 0)) names ->
  forall index,
    match find_in_kwl names (stem ++ tail) (Z.of_nat (length stem)) index with
    | Some k =>
      exists j, k = (index + j)%nat /\ names !! j = Some stem
                /\ forall j', (j' < j)%nat -> names !! j' <> Some stem
    | None => forall j, names !! j <> Some stem
    end.
Proof.
  intros Hstem Hnames. induction Hnames as [|name names Hname _ IH];
    intros index; cbn [find_in_kwl].
  - intros j. rewrite lookup_nil. discriminate.
  - rewrite Nat2Z.id.
    pose proof (keyword_test stem name tail Hstem Hname) as Ht.
    destruct (strncmp_eq (length stem) name 0 (stem ++ tail) 0
              && (byte_at name (Z.of_nat (length stem)) =? 0)).
    + exists 0%nat. split; [lia|]. split.
      * cbn. f_equal. apply Ht. reflexivity.
      * intros j' Hj'. lia.
    + assert (Hne : name <> stem)
        by (intros E; apply Ht in E; discriminate).
      specialize (IH (S index)).
      destruct (find_in_kwl names (stem ++ tail) (Z.of_nat (length stem))
                            (S index)) as [k|].
      * destruct IH as (j & -> & Hj & Hfirst).
        exists (S j). split; [lia|]. split; [exact Hj|].
        intros [|j'] Hj'; cbn; [congruence|]. apply Hfirst. lia.
      * intros [|j]; cbn; [congruence|apply IH].
Qed.

Lemma find_in_lists_spec (lists : list (list (list Z))) (stem tail : list Z) :
  Forall (fun c => c <> 0) stem ->
  Forall (Forall (Forall (fun c => c <> 0))) lists ->
  forall i0,
    match find_in_lists lists (stem ++ tail) (Z.of_nat (length stem)) i0 with
    | Some (i, j) =>
      exists i', i = (i0 + i')%nat
                 /\ keyword_at lists (i', j) = Some stem
                 /\ forall place, place_before place (i', j) ->
                      keyword_at lists place <> Some stem
    | None => forall place, keyword_at lists place <> Some stem
    end.
Proof.
  intros Hstem Hlists. induction Hlists as [|kwl lists Hkwl _ IH];
    intros i0; cbn [find_in_lists].
  - intros place. unfold keyword_at. rewrite lookup_nil. discriminate.
  - pose proof (find_in_kwl_spec kwl stem tail Hstem Hkwl 0) as Hk.
    destruct (find_in_kwl kwl (stem ++ tail) (Z.of_nat (length stem)) 0)
      as [k|].
    + destruct Hk as (j & -> & Hj & Hfirst).
      exists 0%nat. split; [lia|]. split; [exact Hj|].
      intros [a b] [Hlt|[Heq Hlt]]; cbn in *; [lia|].
      subst a. unfold keyword_at. cbn. apply Hfirst. exact Hlt.
    + specialize (IH (S i0)).
      destruct (find_in_lists lists (stem ++ tail) (Z.of_nat (length stem))
                              (S i0)) as [[i j]|].
      * destruct IH as (i' & -> & Hat & Hfirst).
        exists (S i'). split; [lia|]. split; [exact Hat|].
        intros [[|a] b] Hbefore; unfold keyword_at; cbn.
        -- apply Hk.
        -- apply (Hfirst (a, b)).
           destruct Hbefore as [Hlt|[Heq Hlt]]; cbn in *;
             [left; cbn; lia|right; cbn; split; [lia|exact Hlt]].
      * intros [[|a] b]; unfold keyword_at; cbn; [apply Hk|].
        apply (IH (a, b)).
Qed.

(** [find_acl_kw] looks a keyword up by the part before its opening
    parenthesis: it returns the first place of the registry, in the
    order of the walk, that holds exactly that name, and NULL when no
    place does; so [name(arg)] and [name] are the same keyword. *)
Theorem find_acl_kw_first_match (acl_keywords : list (list (list Z)))
        (stem arg : list Z) :
  plain_name stem ->
  Forall (Forall (Forall (fun c => c <> 0))) acl_keywords ->
  match find_acl_kw acl_keywords stem with
  | Some place =>
    keyword_at acl_keywords place = Some stem
    /\ forall place', place_before place' place ->
         keyword_at acl_keywords place' <> Some stem
  | None => forall place, keyword_at acl_keywords place <> Some stem
  end
  /\ find_acl_kw acl_keywords (stem ++ 40 :: arg)
     = find_acl_kw acl_keywords stem.
Proof.
  intros Hplain Hnames.
  pose proof (find_acl_kw_stem acl_keywords stem [] Hplain ltac:(auto)) as H1.
  pose proof (find_acl_kw_stem acl_keywords stem (40 :: arg) Hplain
                ltac:(eauto)) as H2.
  pose proof (find_in_lists_spec acl_keywords stem []
                (plain_name_no_nul _ Hplain) Hnames 0) as S1.
  pose proof (find_in_lists_spec acl_keywords stem (40 :: arg)
                (plain_name_no_nul _ Hplain) Hnames 0) as S2.
  rewrite app_nil_r in H1, S1. rewrite H1, H2. split.
  - destruct (find_in_lists acl_keywords stem _ 0) as [[i j]|];
      [|exact S1].
    destruct S1 as (i' & -> & Hat & Hfirst). split; assumption.
  - destruct (find_in_lists acl_keywords (stem ++ 40 :: arg) _ 0)
      as [[i j]|];
      destruct (find_in_lists acl_keywords stem _ 0) as [[a b]|].
    + destruct S1 as (a' & -> & Hat & Hfirst).
      destruct S2 as (i' & -> & Hat' & Hfirst'). cbn [Nat.add].
      destruct (Nat.lt_trichotomy i' a') as [Hlt|[Heq|Hgt]].
      * exfalso. apply (Hfirst (i', j)); [left; exact Hlt|exact Hat'].
      * subst i'. destruct (Nat.lt_trichotomy j b) as [Hlt|[Heq|Hgt]].
        -- exfalso. apply (Hfirst (a', j)); [right; split; [reflexivity|exact Hlt]|exact Hat'].
        -- subst. reflexivity.
        -- exfalso. apply (Hfirst' (a', b)); [right; split; [reflexivity|exact Hgt]|exact Hat].
      * exfalso. apply (Hfirst' (a', b)); [left; exact Hgt|exact Hat].
    + destruct S2 as (i' & -> & Hat' & _). exfalso. exact (S1 _ Hat').
    + destruct S1 as (a' & -> & Hat & _). exfalso. exact (S2 _ Hat).
    + reflexivity.
Qed.

(** [req_rdp_cookie(msts)] among the keywords of proto_tcp.c, behind the
    debugging keywords of acl.c. *)
Lemma find_acl_kw_first_match_witness :
  let registry :=
    [[bytes "always_true"; bytes "always_false"; bytes "wait_end"];
     [bytes "req_len"; bytes "req_ssl_ver"; bytes "req_rdp_cookie";
      bytes "req_rdp_cookie_cnt"]] in
  find_acl_kw registry (bytes "req_rdp_cookie(msts)")
  = find_acl_kw registry (bytes "req_rdp_cookie").
Proof.
  intros registry.
  apply (find_acl_kw_first_match registry (bytes "req_rdp_cookie")
                                 (bytes "msts)")).
  - unfold plain_name. repeat constructor; discriminate.
  - subst registry. repeat constructor; discriminate.
Defined.

(* ===================================================================== *)
(** ** Addresses against networks *)
(* ===================================================================== *)

(** [acl_match_ip] passes exactly the IPv4 samples that agree with the
    pattern's address on every bit of the pattern's mask; anything else,
    and any sample of another family, fails. *)
Theorem acl_match_ip_same_network (test : acl_test) (s_addr addr mask : Z) :
  (acl_match_ip test s_addr addr mask = ACL_PAT_PASS
   <-> t_i test = AF_INET /\ Z.land s_addr mask = Z.land addr mask)
  /\ (acl_match_ip test s_addr addr mask = ACL_PAT_PASS
      \/ acl_match_ip test s_addr addr mask = ACL_PAT_FAIL)
  /\ (mask = 0 -> t_i test = AF_INET ->
      acl_match_ip test s_addr addr mask = ACL_PAT_PASS).
Proof.
  unfold acl_match_ip.
  assert (Hx : Z.land (Z.lxor s_addr addr) mask = 0
               <-> Z.land s_addr mask = Z.land addr mask).
  { rewrite <- (Z.lxor_eq_0_iff (Z.land s_addr mask)).
    replace (Z.lxor (Z.land s_addr mask) (Z.land addr mask))
      with (Z.land (Z.lxor s_addr addr) mask); [reflexivity|].
    apply Z.bits_inj'. intros n Hn.
    rewrite !Z.land_spec, !Z.lxor_spec, !Z.land_spec.
    destruct (Z.testbit s_addr n), (Z.testbit addr n), (Z.testbit mask n);
      reflexivity. }
  destruct (Z.eqb_spec (t_i test) AF_INET) as [Hf|Hf]; cbn [negb].
  - destruct (Z.eqb_spec (Z.land (Z.lxor s_addr addr) mask) 0) as [E|E].
    + repeat split; auto. apply Hx. exact E.
    + split; [|split; [right; reflexivity|]].
      * split; [discriminate|]. intros [_ H]. apply Hx in H. contradiction.
      * intros -> _. rewrite Z.land_0_r in E. contradiction.
  - split; [|split; [right; reflexivity|]].
    + split; [discriminate|]. intros [H _]. contradiction.
    + intros _ H. contradiction.
Qed.

(** 192.0.2.1 is in 192.0.2.0/24, 192.0.3.1 is not. *)
Lemma acl_match_ip_same_network_witness :
  acl_match_ip (mktest AF_INET 0 0 0 0) 0xC0000201 0xC0000200 0xFFFFFF00
  = ACL_PAT_PASS
  /\ acl_match_ip (mktest AF_INET 0 0 0 0) 0xC0000301 0xC0000200 0xFFFFFF00
     = ACL_PAT_FAIL.
Proof.
  split.
  - destruct (acl_match_ip_same_network (mktest AF_INET 0 0 0 0)
                                        0xC0000201 0xC0000200 0xFFFFFF00)
      as (Hiff & _).
    apply Hiff. split; reflexivity.
  - destruct (acl_match_ip_same_network (mktest AF_INET 0 0 0 0)
                                        0xC0000301 0xC0000200 0xFFFFFF00)
      as (Hiff & [Hpass|Hfail] & _); [|exact Hfail].
    apply Hiff in Hpass. destruct Hpass as [_ Hnet]. discriminate Hnet.
Defined.

(* ===================================================================== *)
(** ** Realigning in place *)
(* ===================================================================== *)

(** [buffer_bounce_realign] does not realign every buffer whose data
    goes around the end of the storage: there is one, with its pointers
    and counters in order, whose bytes are not found in their order at
    the start of the storage after the call; some of them are lost. *)
Theorem buffer_bounce_realign_loses_bytes :
  exists b,
    0 <= w b < size b /\ 0 < l b < size b
    /\ r b = (w b + l b) mod size b
    /\ size b < w b + l b
    /\ Z.of_nat (length (data b)) = size b
    /\ mem_range (data (buffer_bounce_realign b)) 0 (l b) <> ring_content b
    /\ exists c, In c (ring_content b)
                 /\ ~ In c (data (buffer_bounce_realign b)).
Proof.
  exists wrapped_buffer.
  split; [vm_compute; split; [discriminate|reflexivity]|].
  split; [vm_compute; split; reflexivity|].
  split; [reflexivity|]. split; [reflexivity|]. split; [reflexivity|].
  split; [vm_compute; discriminate|].
  exists 98. split; [vm_compute; tauto|].
  vm_compute. intros H. repeat destruct H as [H|H]; try discriminate H.
  exact H.
Qed.

(* ===================================================================== *)
(** ** Traffic accounting *)
(* ===================================================================== *)

Lemma u64_diff a b : 0 <= b <= a -> a < 2^64 -> u64 (a - b) = a - b.
Proof. intros H1 H2. unfold u64. apply Z.mod_small. lia. Qed.

(** [session_process_counters] counts every byte once, however often
    it is called: after a call [s->logs] holds the totals of the two
    buffers and every counter present has grown by what the buffers
    carried since [s->logs] was written, so that each counter stays
    ahead of [s->logs] by the same amount; a second call without new
    traffic changes nothing. *)
Theorem session_process_counters_once (a : accounts) :
  0 <= bytes_in (logs a) <= req_total a -> req_total a < 2^64 ->
  0 <= bytes_out (logs a) <= rep_total a -> rep_total a < 2^64 ->
  let a' := session_process_counters a in
  logs a' = mkbytes (req_total a) (rep_total a)
  /\ req_total a' = req_total a /\ rep_total a' = rep_total a
  /\ ahead (fe_bytes a') (logs a') = ahead (fe_bytes a) (logs a)
  /\ (fun c => ahead c (logs a')) <$> be_bytes a'
     = (fun c => ahead c (logs a)) <$> be_bytes a
  /\ (fun c => ahead c (logs a')) <$> srv_bytes a'
     = (fun c => ahead c (logs a)) <$> srv_bytes a
  /\ (fun c => ahead c (logs a')) <$> li_bytes a'
     = (fun c => ahead c (logs a)) <$> li_bytes a
  /\ session_process_counters a' = a'.
Proof.
  intros Hin Hrq Hout Hrp a'.
  assert (Ha' : a' = mkaccounts (req_total a) (rep_total a)
                  (mkbytes (req_total a) (rep_total a))
                  (add_out (rep_total a - bytes_out (logs a))
                     (add_in (req_total a - bytes_in (logs a)) (fe_bytes a)))
                  (option_map (fun c =>
                     add_out (rep_total a - bytes_out (logs a))
                       (add_in (req_total a - bytes_in (logs a)) c))
                     (be_bytes a))
                  (option_map (fun c =>
                     add_out (rep_total a - bytes_out (logs a))
                       (add_in (req_total a - bytes_in (logs a)) c))
                     (srv_bytes a))
                  (option_map (fun c =>
                     add_out (rep_total a - bytes_out (logs a))
                       (add_in (req_total a - bytes_in (logs a)) c))
                     (li_bytes a))).
  { subst a'. unfold session_process_counters. cbv zeta.
    rewrite (u64_diff (req_total a)) by lia.
    destruct (Z.eqb_spec (req_total a - bytes_in (logs a)) 0) as [E1|E1];
      cbn [negb req_total rep_total logs fe_bytes be_bytes srv_bytes li_bytes
           bytes_in bytes_out];
      rewrite (u64_diff (rep_total a)) by lia;
      destruct (Z.eqb_spec (rep_total a - bytes_out (logs a)) 0) as [E2|E2];
      cbn [negb req_total rep_total logs fe_bytes be_bytes srv_bytes li_bytes
           bytes_in bytes_out];
      rewrite ?E1, ?E2; unfold add_in, add_out;
      destruct a as [rq rp [li lo] [fi fo] be sv ls];
      cbn [bytes_in bytes_out] in *;
      destruct be as [[]|], sv as [[]|], ls as [[]|];
      cbn; repeat f_equal; lia. }
  rewrite Ha'.
  cbn [logs req_total rep_total fe_bytes be_bytes srv_bytes li_bytes].
  split; [reflexivity|]. split; [reflexivity|]. split; [reflexivity|].
  split; [unfold ahead, add_in, add_out; cbn; f_equal; lia|].
  assert (Hopt : forall o : option byte_counts,
            (fun c => ahead c (mkbytes (req_total a) (rep_total a)))
              <$> option_map (fun c =>
                    add_out (rep_total a - bytes_out (logs a))
                      (add_in (req_total a - bytes_in (logs a)) c)) o
            = (fun c => ahead c (logs a)) <$> o).
  { intros [c|]; [|reflexivity]. cbn. f_equal.
    unfold ahead, add_in, add_out; cbn; f_equal; lia. }
  split; [apply Hopt|]. split; [apply Hopt|]. split; [apply Hopt|].
  unfold session_process_counters. cbv zeta.
  cbn [logs req_total rep_total fe_bytes be_bytes srv_bytes li_bytes
       bytes_in bytes_out].
  rewrite !Z.sub_diag. reflexivity.
Qed.

(** Twelve bytes of request and thirty of response since the last
    call, on a session whose backend is its frontend. *)
Lemma session_process_counters_once_witness :
  let a := mkaccounts 112 530 (mkbytes 100 500) (mkbytes 1100 2500)
                      None (Some (mkbytes 100 500)) None in
  fe_bytes (session_process_counters a) = mkbytes 1112 2530
  /\ session_process_counters (session_process_counters a)
     = session_process_counters a.
Proof.
  intros a.
  pose proof (session_process_counters_once a
                ltac:(cbn; lia) ltac:(cbn; lia) ltac:(cbn; lia)
                ltac:(cbn; lia)) as H.
  cbv zeta in H. destruct H as (_ & _ & _ & _ & _ & _ & _ & H).
  split; [reflexivity|exact H].
Defined.

(* ===================================================================== *)
(** ** Buffers: what is fed is what is read *)
(* ===================================================================== *)

Lemma lookup_ring_content (b : buffer) (i : nat) :
  Z.of_nat i < l b -> ring_content b !! i = Some (ring_byte b (Z.of_nat i)).
Proof.
  intros Hi. unfold ring_content.
  rewrite list_lookup_fmap, lookup_seqZ_lt by lia. reflexivity.
Qed.

Lemma length_ring_content (b : buffer) :
  length (ring_content b) = Z.to_nat (l b).
Proof. unfold ring_content. rewrite length_map, length_seqZ. reflexivity. Qed.

Lemma lookup_byte_at (d : list Z) (k : nat) :
  (k < length d)%nat -> d !! k = Some (byte_at d (Z.of_nat k)).
Proof.
  intros Hk. destruct (d !! k) as [c|] eqn:E.
  - f_equal. symmetry. apply byte_at_lookup. rewrite Nat2Z.id. exact E.
  - apply lookup_ge_None in E. lia.
Qed.

Section FeedProps.

Variable buffer_max_len : buffer -> Z.
Variable BUF_INFINITE_FORWARD : Z.

(** Where the ring stands when [len] bytes fit in its contiguous
    space. *)
Lemma contig_space_room (b : buffer) (len : Z) :
  ring_ok b -> 0 <= l b <= size b -> 0 < len ->
  len <= buffer_contig_space b ->
  l b + len <= size b /\ r b + len <= size b
  /\ (forall j, 0 <= j < l b ->
        let p := (w b + j) mod size b in p < r b \/ r b + len <= p)
  /\ (forall j, l b <= j < l b + len ->
        (w b + j) mod size b = r b + (j - l b)).
Proof.
  intros (Hsize & Hw & Hr & _) Hl Hlen Hroom.
  unfold buffer_contig_space in Hroom.
  assert (Hcase : (w b + l b < size b /\ r b = w b + l b)
                  \/ (size b <= w b + l b /\ r b = w b + l b - size b)).
  { destruct (Z.lt_ge_cases (w b + l b) (size b)).
    - left. split; [assumption|]. rewrite Hr. apply Z.mod_small. lia.
    - right. split; [assumption|]. rewrite Hr. symmetry.
      apply Z.mod_unique with 1; lia. }
  destruct (Z.eqb_spec (l b) 0) as [H0|H0].
  - destruct Hcase as [[Hc Hrv]|[Hc Hrv]]; [|lia].
    split; [lia|]. split; [lia|]. split; [intros j Hj; lia|].
    intros j Hj. rewrite Z.mod_small by lia. lia.
  - destruct (Z.ltb_spec (w b) (r b)) as [Hwr|Hwr].
    + destruct Hcase as [[Hc Hrv]|[Hc Hrv]]; [|lia].
      split; [lia|]. split; [lia|]. split.
      * intros j Hj. cbv zeta. rewrite Z.mod_small by lia. lia.
      * intros j Hj. rewrite Z.mod_small by lia. lia.
    + destruct Hcase as [[Hc Hrv]|[Hc Hrv]]; [lia|].
      split; [lia|]. split; [lia|]. split.
      * intros j Hj. cbv zeta.
        destruct (Z.lt_ge_cases (w b + j) (size b)).
        -- rewrite Z.mod_small by lia. lia.
        -- replace ((w b + j) mod size b) with (w b + j - size b)
             by (apply Z.mod_unique with 1; lia).
           lia.
      * intros j Hj. symmetry. apply Z.mod_unique with 1; lia.
Qed.

(** A feed that succeeds appends to the ring: read from the output
    tail on, the buffer holds what it held, in the same order, and then
    the [len] bytes fed; the pointers and the count stay those of a
    ring. *)
Theorem buffer_feed2_appends (b b' : buffer) (str : list Z) (len : Z) :
  ring_ok b -> Z.of_nat (length (data b)) = size b ->
  0 <= l b <= size b ->
  buffer_feed2 buffer_max_len BUF_INFINITE_FORWARD b str len
  = Some (-1, b') ->
  ring_content b' = ring_content b ++ take (Z.to_nat len) str
  /\ l b' = l b + len /\ l b' <= size b
  /\ w b' = w b /\ size b' = size b
  /\ r b' = (w b' + l b') mod size b'
  /\ Z.of_nat (length (data b')) = size b'.
Proof.
  intros Hring Hdata Hl Hfeed.
  pose proof Hring as (Hsize & Hw & Hr & _).
  unfold buffer_feed2 in Hfeed.
  destruct (Z.ltb_spec len 0); [discriminate|].
  destruct (Z.ltb_spec (Z.of_nat (length str)) len); [discriminate|].
  cbn [orb] in Hfeed.
  destruct (Z.eqb_spec len 0) as [->|Hlen].
  { injection Hfeed as <-. rewrite app_nil_r, Z.add_0_r.
    repeat split; try reflexivity; try lia; assumption. }
  destruct (buffer_max_len b <? len); [discriminate|].
  assert (Hr0 : 0 <= r b < size b)
    by (rewrite Hr; apply Z.mod_pos_bound; lia).
  assert (Hspace : 0 <= buffer_contig_space b).
  { unfold buffer_contig_space. destruct (l b =? 0); [lia|].
    destruct (Z.ltb_spec (w b) (r b)); lia. }
  destruct (Z.ltb_spec (buffer_contig_space b) len) as [|Hroom];
    [injection Hfeed as E _; lia|].
  destruct (contig_space_room b len Hring Hl ltac:(lia) Hroom)
    as (Hfit & Hrfit & Hold & Hnew).
  assert (Hfields :
            data b' = memcpy_at (data b) (r b) str len
            /\ l b' = l b + len /\ w b' = w b /\ size b' = size b
            /\ r b' = (if r b + len =? size b then 0 else r b + len)).
  { injection Hfeed as <-. cbv zeta.
    repeat match goal with
    | |- context [if ?c then _ else _] => destruct c eqn:?
    | |- context [let '(_, _) := ?x in _] => destruct x eqn:?
    end;
    clear Hold Hnew; cbn in *; rewrite ?u32_small by lia;
    repeat split; try reflexivity; zbool; try lia. }
  destruct Hfields as (Hd' & Hl' & Hw' & Hs' & Hr').
  assert (Hlend : Z.of_nat (length (data b')) = size b').
  { rewrite Hd', Hs', length_memcpy_at by lia. exact Hdata. }
  split; [|split; [exact Hl'|split; [lia|split; [exact Hw'|
          split; [exact Hs'|split; [|exact Hlend]]]]]].
  - apply list_eq. intros i.
    destruct (Z.lt_ge_cases (Z.of_nat i) (l b)) as [Hi|Hi].
    + rewrite lookup_ring_content by lia.
      rewrite lookup_app_l by (rewrite length_ring_content; lia).
      rewrite lookup_ring_content by lia. f_equal.
      unfold ring_byte. rewrite Hd', Hw', Hs'.
      rewrite byte_at_memcpy_at;
        try lia; [|apply Z.mod_pos_bound; lia].
      destruct (Hold (Z.of_nat i) ltac:(lia)) as [Hp|Hp].
      * destruct (Z.leb_spec (r b) ((w b + Z.of_nat i) mod size b));
          [lia|reflexivity].
      * destruct (Z.ltb_spec ((w b + Z.of_nat i) mod size b) (r b + len));
          [lia|]. rewrite andb_false_r. reflexivity.
    + destruct (Z.lt_ge_cases (Z.of_nat i) (l b + len)) as [Hj|Hj].
      * rewrite lookup_ring_content by lia.
        rewrite lookup_app_r by (rewrite length_ring_content; lia).
        rewrite length_ring_content, lookup_take_lt by lia.
        rewrite lookup_byte_at by lia. f_equal.
        unfold ring_byte. rewrite Hd', Hw', Hs'.
        rewrite (Hnew (Z.of_nat i)) by lia.
        rewrite byte_at_memcpy_at by lia.
        destruct (Z.leb_spec (r b) (r b + (Z.of_nat i - l b))); [|lia].
        destruct (Z.ltb_spec (r b + (Z.of_nat i - l b)) (r b + len)); [|lia].
        cbn [andb]. f_equal. lia.
      * rewrite !lookup_ge_None_2; [reflexivity| |].
        -- rewrite length_app, length_ring_content, length_take. lia.
        -- rewrite length_ring_content. lia.
  - rewrite Hr', Hw', Hl', Hs'.
    destruct (Z.eqb_spec (r b + len) (size b)) as [E|E].
    + destruct (Z.lt_ge_cases (w b + l b) (size b)).
      * rewrite Hr, Z.mod_small in E by lia.
        replace (w b + (l b + len)) with (size b) by lia.
        rewrite Z.mod_same by lia. reflexivity.
      * replace ((w b + l b) mod size b) with (w b + l b - size b) in Hr
          by (apply Z.mod_unique with 1; lia).
        lia.
    + destruct (Z.lt_ge_cases (w b + l b) (size b)).
      * rewrite Hr, Z.mod_small in * by lia.
        rewrite Z.mod_small by lia. lia.
      * replace ((w b + l b) mod size b) with (w b + l b - size b) in Hr
          by (apply Z.mod_unique with 1; lia).
        apply Z.mod_unique with 1; lia.
Qed.

End FeedProps.

(** Two bytes fed behind [abc], which goes around the end of an
    eight-byte buffer. *)
Lemma buffer_feed2_appends_witness :
  let b := mkbuf 0 3 1 6 6 8 0 0 0 0 3 (bytes "c-----ab") in
  let b' := mkbuf BF_READ_PARTIAL 5 3 6 6 8 0 0 0 0 5 (bytes "cXY---ab") in
  buffer_feed2 (fun x => size x) (-1) b (bytes "XY") 2 = Some (-1, b')
  /\ ring_content b' = bytes "abcXY".
Proof.
  intros b b'.
  assert (H : buffer_feed2 (fun x => size x) (-1) b (bytes "XY") 2
              = Some (-1, b')) by reflexivity.
  split; [exact H|].
  destruct (buffer_feed2_appends (fun x => size x) (-1) b b' (bytes "XY") 2)
    as (Hc & _).
  - repeat split; cbn; lia.
  - reflexivity.
  - cbn. lia.
  - exact H.
  - rewrite Hc. reflexivity.
Defined.
